(* ===== verification/_CoqProject ===== *)
-Q . S2P
Prelude.v
Seqext.v
Jitter.v
JitterSpec.v
Clock.v
Rtp.v
AirportKey.v
B64.v
Sdp.v
RtspMsg.v
RaopVolume.v
Rtsp.v
Bodycap.v
Daap.v
Npstate.v
RaopName.v
DacpState.v
DacpResolve.v
Dacp.v
Supervisor.v
SupervisorMain.v
Remote.v
Nprender.v
AlacShim.v
Session.v
SessionRun.v
SessionLive.v
SessionStop.v
SessionAudio.v
Wakelock.v
ServerState.v
Server.v
ServerInv.v
ServerFrame.v
ServerProps.v
ServerDisplay.v
Screen.v
ServerTypes.v
Daemon.v
Sink.v
Volume.v
Playback.v
Startup.v
