(* ===== verification/Prelude.v ===== *)
(** * shairkindle: a verification library for the AirPlay receiver

    [raopd] is an AirPlay (RAOP) audio receiver for an e-reader.  A sender connects
    over RTSP ([src/main.c]), announces a stream, sets up UDP sockets and plays; the
    session ([src/session.c]) receives, reorders, decrypts, decodes and plays the
    packets through a child process ([src/sink.cpp]); a worker paints the current
    track ([src/nprender.c]); a control thread relays the reader's buttons to the
    sender ([src/dacp.c]); a supervisor process starts and stops all of it
    ([src/supervisor_main.c]).  This library models the C code of these parts and
    proves what makes them correct.  Definitions carry the names of the C functions.

    ** Conventions

    Integers are [Z] with the wrap-around of their C type written out ([u8], [u16],
    [u32], [u64], [s16], [s32], [s64]; [slong], [ulong] for [long], whose width is
    the class [DataModel]: the target is [ilp32], [lp64] the host).  Bytes are lists
    of [Z].  A function that touches memory returns a [run]: [Ret] a result, [Oob] an
    access outside its buffer, [NoFuel] a loop cut short.  Theorems state that the
    result is [Ret], so safety and termination are part of every specification; fuel
    is always a measure of the input (a length, a count of retries), and the lemma
    that it suffices is the totality lemma of the function.  Strings that C keeps in
    arrays are bounded where the code bounds them.  The answers of the system (the
    kernel, the disk, clocks, allocation, threads, child processes) and of vendored
    code (the ALAC decoder, RSA and AES, the mDNS responder, [powf]) are parameters
    or inputs, restricted only by documented behaviour: the classes [KernelOk],
    [DiskOk], [AnswersOk] and the named hypotheses, each with a concrete instance.
    The kernels of the sockets and of the sink keep the descriptors in use and count
    the closes of others ([k_stray], [w_stray]), so that a double close shows; the sink's
    also keeps every child not waited for, with the signals it was sent, and counts the
    starts.  The bytes a [write] takes are what is appended to the peer's or the child's
    stream, however few.

    ** Files

    [Prelude]       integers, bytes, the [run] monad with its [wp] rules, decimal
                    numbers, tactics and hints.
    [Seqext] (seqext.c), [Jitter], [JitterSpec] (jitter.c)
                    sequence extension; the ring buffer, and the abstract playout
                    window it refines.
    [Clock] (raop_clock.c)      the offset estimate.
    [Rtp] (rtp.c)               wire formats and the socket triple.
    [AirportKey] (airport_key.c), [B64] (b64.c, apple_response.c, rsa_oaep.c, aes_cbc.c)
                    the private key; base64 and the challenge response.
    [Sdp] (sdp.c), [RtspMsg] (rtsp_msg.c), [Rtsp] (rtsp.c)
                    the announcement, the framing of requests, the protocol machine.
    [RaopVolume] (raop_volume.c)
                    decibels to a percentage, with every rounding of the formula.
    [Bodycap] (bodycap.c), [Daap] (daap.c), [Npstate] (npstate.c), [Nprender] (nprender.c)
                    bodies captured to a file or memory, metadata, the now-playing
                    state, the display worker.
    [RaopName] (raop_name.c, raop_txt.c, raop_mdns_wire.c)
                    the advertised name and record.
    [DacpState], [DacpResolve], [Dacp] (dacp_state.c, dacp_resolve.c, dacp.c)
                    credentials, the port of the sender, commands and the control
                    thread.
    [Supervisor], [SupervisorMain] (supervisor.c, supervisor_main.c)
                    the lease machine, line framing, and the process around them.
    [Remote]        a button of the reader, from the supervisor's socket through the
                    control thread to the sender.
    [AlacShim] (alac_shim.c), [Session] (session.c)
                    the decoder's wrapper; the session's state and operations.
    [SessionRun]    the receiver, the player and the RTSP thread interleaved, one
                    critical section or system call at a time ([rx_step], [pl_step],
                    [wstep]).
    [SessionLive]   the player recovers from a lapped buffer.
    [SessionStop]   what a step leaves alone, and the join of [session_stop].
    [SessionAudio]  the samples played against a sequential decryption and decoding.
    [Wakelock] (wakelock.c)     the two shell commands, and the power daemon.
    [ServerState]   the server's record, the rest of the process, the handlers' state
                    monad with its [mwp] rules, and the class [SessionLaws]: what the
                    server needs of a session.  [session_laws] discharges it for the
                    sessions of [Session].
    [Server]        every handler of main.c, the turn of its loop after [poll], the
                    timeout given to [poll], and the loop itself ([run_loop]).
    [ServerInv]     the invariant [good] and the specification of each handler.
    [ServerFrame]   the requests of a byte stream as a function of the stream.
    [ServerProps]   the loop, the reachable states [served], the theorems.
    [ServerDisplay] what the sender's pictures and metadata become, as a function of
                    the bytes received.
    [Screen]        a render of what the server has published, against the bytes, and
                    the display worker interleaved with the server.
    [ServerTypes]   every integer of the server stays in the range of its C type.
    [Daemon]        the server over sessions with their threads running: a second
                    instance of [SessionLaws], built on those of [Session],
                    [SessionRun], [SessionStop] and [SessionAudio].
    [Sink] (sink.cpp)           the gain, the child, the bounded write.
    [Volume]        the volume from the sender's text to the samples, in every state
                    of the server, with every rounding of the player's formula.
    [Playback]      the session's write loop through the sink of [Sink].
    [Startup] (main.c, daemon.c, raop_mdns.c)
                    the interface choice, socket, lock, pidfile and advertisement, and
                    the order in which [main], given their results, takes up and
                    gives back.

    ** Theorems

    Media path: the jitter buffer refines the playout window and delivers only what
    was accepted; sequence numbers and the clock offset are recovered; in every
    interleaving only packets received since the last flush are played
    ([session_plays_current]), and under the whole server only those of the connected
    client ([daemon_plays_client]), decoded as one sequential pass with the key, vector
    and cookie of its ANNOUNCE would decode them ([daemon_plays_decoded]); a stuck player recovers ([player_unwedges]); a
    stop ends both threads ([session_stop_joins]); a session and the sink give back
    all they acquire, and no child is left without having been killed
    ([sink_owns_one_child]); pushing samples ends, the child is given the samples not
    committed before, cut where [write] cut them, and exactly the committed ones, in
    order, when no call was left with half a sample ([samples_reach_child];
    [odd_write_shifts] is what happens otherwise); and no volume a sender can ask for
    amplifies a sample ([volume_never_amplifies]).
    Control path: the parsers accept exactly their formats and are memory safe on
    every input (the SRV reader's exactness is for packets without a NUL byte in an owner
    name, [plain_names]: [srv_name_after_nul] shows what it does with one); the RTSP
    handler implements its transition relation.
    Server: for every sequence of poll results, requests, system answers and thread
    activity, each acquisition has one owner, is released once and closed once
    ([server_owns_once]); a turn always ends ([server_turn_total]); the requests
    handled are those of the stream however it was cut ([server_frames_stream]), each
    answered once, byte for byte ([server_answers_each]); credentials belong to the
    connected sender; a silent sender is dropped within two seconds of the deadline
    ([server_handshake_deadline]); every field of the state keeps within its type
    ([server_state_typed]).
    Display, remote control and supervisor: the texts are those of the sender's last
    complete metadata that fitted its buffer, and the picture is one of the sender's, the
    last one when the disk does not fail ([server_display_current]), and so are the files
    and the picture the renderer is handed ([screen_shows_sender]; a picture outlives its
    track, [stale_picture_drawn]); the display worker, left to itself, catches up with
    them ([screen_catches_up]); a command goes only to the sender that held at its last
    look, in the session it was issued in ([dacp_send_current]: what the other threads do
    between that look and the write is left free, and no claim covers it), the commands
    are the buttons pressed ([buttons_reach_sender]), the lease lasts as long as there are
    signs of life, and every run of the supervisor ends torn down.

    ** Bounds and fuel

    [RBUF_CAP] 8192, the response buffer 4096, at most 24 headers; [drain_loop] has
    one unit of fuel per byte of the buffer, since a request takes at least one; the
    sink's [chunk_fuel] is a byte each and twelve for the eleven waits that fit 200
    ms; session writes take at most 201 iterations per sample; [run_loop] has one unit
    per turn, and the deadline theorem says that some number of turns is enough.  The generation wraps
    after 2^32 flushes: [acts_ok] and [MAX_ACTS] bound the actions of one session.

    ** Not modelled

    The log lines, the keepalive options of [accept] and the mixer command of
    [sink_open]; the recording back end of the sink, which only host tests use; the
    vendored ALAC, BearSSL and tinysvcmdns; the kindlet, the shell extension, the
    build files and the tests.  The files the display worker and the server write are
    not interleaved, nor are the control thread and the sink with the server: they
    meet it through the state they share ([DacpState]) and the player through what the
    sink accepts.  The receiver of a start whose player cannot be created is joined
    before it takes a step.  No other process writes the files the daemon captures to.  Counters of [long] that
    C would let overflow wrap here.  In the supervisor's trace an [EScript] is a call of
    [run_script], which may have failed to start the script. *)
From Stdlib Require Import ZArith Lia List Ascii String.
From stdpp Require Import base numbers list strings.

Local Open Scope Z_scope.

(** ** The data model of the target

    [long] and [size_t] are 32 bits wide on the Kindle (ARMv6) and 64 bits wide
    on the hosts that run the tests; what depends on the width of [long] is
    proved for both. *)
Class DataModel := {
  long_bits : Z;
  long_bits_ok : long_bits = 32 \/ long_bits = 64;
}.

Definition ilp32 : DataModel := {| long_bits := 32; long_bits_ok := or_introl eq_refl |}.
Definition lp64 : DataModel := {| long_bits := 64; long_bits_ok := or_intror eq_refl |}.

Definition LONG_MAX `{DataModel} : Z := 2 ^ (long_bits - 1) - 1.
Definition LONG_MIN `{DataModel} : Z := - 2 ^ (long_bits - 1).
Definition ULONG_MAX `{DataModel} : Z := 2 ^ long_bits - 1.
Definition INT_MAX : Z := 2147483647.
Definition INT_MIN : Z := -2147483648.
Definition UINT32_MAX : Z := 4294967295.

(** Conversion to [long] and to [unsigned long]. *)
Definition slong `{DataModel} (z : Z) : Z :=
  (z + 2 ^ (long_bits - 1)) mod 2 ^ long_bits - 2 ^ (long_bits - 1).
Definition ulong `{DataModel} (z : Z) : Z := z mod 2 ^ long_bits.

Lemma slong_small `{DataModel} z : -2147483648 <= z < 2147483648 -> slong z = z.
Proof.
  intros Hz. unfold slong. destruct long_bits_ok as [-> | ->]; rewrite Z.mod_small by lia; lia.
Qed.

Lemma long_max_cases `{DataModel} :
  LONG_MAX = 2147483647 \/ LONG_MAX = 9223372036854775807.
Proof. unfold LONG_MAX. destruct long_bits_ok as [-> | ->]; [left | right]; done. Qed.

(** ** Fixed-width integers *)

Definition u8 (z : Z) : Z := z mod 2 ^ 8.
Definition u16 (z : Z) : Z := z mod 2 ^ 16.
Definition u32 (z : Z) : Z := z mod 2 ^ 32.
Definition u64 (z : Z) : Z := z mod 2 ^ 64.

(** The conversions to a signed type reinterpret the low bits in two's
    complement. *)
Definition s16 (z : Z) : Z := (z + 2 ^ 15) mod 2 ^ 16 - 2 ^ 15.
Definition s32 (z : Z) : Z := (z + 2 ^ 31) mod 2 ^ 32 - 2 ^ 31.
Definition s64 (z : Z) : Z := (z + 2 ^ 63) mod 2 ^ 64 - 2 ^ 63.

#[global] Arguments u8 : simpl never.
#[global] Arguments u16 : simpl never.
#[global] Arguments u32 : simpl never.
#[global] Arguments u64 : simpl never.
#[global] Arguments s16 : simpl never.
#[global] Arguments s32 : simpl never.
#[global] Arguments s64 : simpl never.

Create HintDb word discriminated.

Lemma pow2_values :
  2 ^ 8 = 256 /\ 2 ^ 15 = 32768 /\ 2 ^ 16 = 65536 /\ 2 ^ 31 = 2147483648 /\
  2 ^ 32 = 4294967296 /\ 2 ^ 63 = 9223372036854775808 /\
  2 ^ 64 = 18446744073709551616.
Proof. repeat split; reflexivity. Qed.

Lemma u8_small z : 0 <= z < 256 -> u8 z = z.
Proof. intros H. apply Z.mod_small. exact H. Qed.

Lemma u16_small z : 0 <= z < 65536 -> u16 z = z.
Proof. intros H. apply Z.mod_small. exact H. Qed.

Lemma u32_small z : 0 <= z < 4294967296 -> u32 z = z.
Proof. intros H. apply Z.mod_small. exact H. Qed.

Lemma u64_small z : 0 <= z < 18446744073709551616 -> u64 z = z.
Proof. intros H. apply Z.mod_small. exact H. Qed.

Lemma u8_range z : 0 <= u8 z < 256.
Proof. apply Z.mod_pos_bound. reflexivity. Qed.

Lemma u16_range z : 0 <= u16 z < 65536.
Proof. apply Z.mod_pos_bound. reflexivity. Qed.

Lemma u32_range z : 0 <= u32 z < 4294967296.
Proof. apply Z.mod_pos_bound. reflexivity. Qed.

Lemma u64_range z : 0 <= u64 z < 18446744073709551616.
Proof. apply Z.mod_pos_bound. reflexivity. Qed.

Lemma s16_range z : -32768 <= s16 z < 32768.
Proof. unfold s16. pose proof (Z.mod_pos_bound (z + 2 ^ 15) (2 ^ 16)). lia. Qed.

Lemma s32_range z : -2147483648 <= s32 z < 2147483648.
Proof. unfold s32. pose proof (Z.mod_pos_bound (z + 2 ^ 31) (2 ^ 32)). lia. Qed.

Lemma s64_range z : -9223372036854775808 <= s64 z < 9223372036854775808.
Proof. unfold s64. pose proof (Z.mod_pos_bound (z + 2 ^ 63) (2 ^ 64)). lia. Qed.

Lemma s16_small z : -32768 <= z < 32768 -> s16 z = z.
Proof. intros H. unfold s16. rewrite Z.mod_small; lia. Qed.

Lemma s32_small z : -2147483648 <= z < 2147483648 -> s32 z = z.
Proof. intros H. unfold s32. rewrite Z.mod_small; lia. Qed.

Lemma s64_small z : -9223372036854775808 <= z < 9223372036854775808 -> s64 z = z.
Proof. intros H. unfold s64. rewrite Z.mod_small; lia. Qed.

(** A signed conversion is determined by the residue: two values that agree
    modulo the width, one of them in the signed range, convert alike. *)
Lemma s16_eqm a b :
  -32768 <= b < 32768 -> (a - b) mod 65536 = 0 -> s16 a = b.
Proof.
  intros Hb Hab. unfold s16.
  apply Z.mod_divide in Hab as [k Hk]; [|lia].
  replace (a + 2 ^ 15) with (b + 2 ^ 15 + k * 2 ^ 16) by lia.
  rewrite Z.mod_add by lia. rewrite Z.mod_small; lia.
Qed.

Lemma s32_eqm a b :
  -2147483648 <= b < 2147483648 -> (a - b) mod 4294967296 = 0 -> s32 a = b.
Proof.
  intros Hb Hab. unfold s32.
  apply Z.mod_divide in Hab as [k Hk]; [|lia].
  replace (a + 2 ^ 31) with (b + 2 ^ 31 + k * 2 ^ 32) by lia.
  rewrite Z.mod_add by lia. rewrite Z.mod_small; lia.
Qed.

Lemma u32_u64 z : u32 (u64 z) = u32 z.
Proof. apply Z.mod_mod_divide. by exists (2 ^ 32). Qed.

Lemma mod_signed_eq z w : 0 < w -> ((z + w / 2) mod w - w / 2) mod w = z mod w.
Proof.
  intros Hw. rewrite Zminus_mod_idemp_l. f_equal. lia.
Qed.

Lemma u32_s64 z : u32 (s64 z) = u32 z.
Proof.
  unfold u32. rewrite <- (Z.mod_mod_divide (s64 z) (2 ^ 64)) by (by exists (2 ^ 32)).
  unfold s64. change (2 ^ 63) with (2 ^ 64 / 2). rewrite mod_signed_eq by lia.
  apply Z.mod_mod_divide. by exists (2 ^ 32).
Qed.

Lemma u32_s32 z : u32 (s32 z) = u32 z.
Proof. apply (mod_signed_eq z (2 ^ 32)). lia. Qed.

Lemma u16_u64 z : u16 (u64 z) = u16 z.
Proof. apply Z.mod_mod_divide. by exists (2 ^ 48). Qed.

(** Disjoint bit fields: [hi << n | lo] is [hi * 2^n + lo]. *)
Lemma lor_shiftl_add hi lo n :
  0 <= n -> 0 <= lo < 2 ^ n -> Z.lor (Z.shiftl hi n) lo = hi * 2 ^ n + lo.
Proof.
  intros Hn Hlo. rewrite <- Z.shiftl_mul_pow2 by lia.
  assert (Z.land (Z.shiftl hi n) lo = 0) as Hd.
  { apply Z.bits_inj'. intros k Hk. rewrite Z.land_spec, Z.bits_0.
    destruct (Z.ltb_spec k n); [by rewrite Z.shiftl_spec_low|].
    destruct (decide (lo = 0)) as [->|]; [by rewrite Z.bits_0, andb_false_r|].
    rewrite (Z.bits_above_log2 lo k); [by rewrite andb_false_r|lia|].
    assert (Z.log2 lo < n) by (apply Z.log2_lt_pow2; lia). lia. }
  rewrite Z.add_nocarry_lxor by done. symmetry. by apply Z.lxor_lor.
Qed.

#[export] Hint Resolve u8_range u16_range u32_range u64_range
  s16_range s32_range s64_range : word.

(** [wsimp] removes the width conversions whose argument is provably in range. *)
Ltac wsimp :=
  repeat first
    [ rewrite u8_small by lia | rewrite u16_small by lia
    | rewrite u32_small by lia | rewrite u64_small by lia
    | rewrite s16_small by lia | rewrite s32_small by lia
    | rewrite s64_small by lia ].

(** ** Byte strings

    A [char] or [uint8_t] buffer is a list of integers between 0 and 255; a
    [char] is compared by the code only with ASCII constants, so its signedness
    does not matter.  Offsets and sizes ([size_t]) are [nat]: every buffer of the
    program is far shorter than the 2^32 at which a size would wrap. *)
Abbreviation bytes := (list Z).

Definition byte_ok (b : Z) : Prop := 0 <= b < 256.
Definition bytes_ok (l : bytes) : Prop := Forall byte_ok l.

(** The bytes of a C string literal, without the terminator. *)
Definition str (s : string) : bytes :=
  map (fun c => Z.of_N (N_of_ascii c)) (list_ascii_of_string s).

(** [sub b i n]: the [n] bytes at offset [i]. *)
Definition sub (b : bytes) (i n : nat) : bytes := take n (drop i b).

(** [memchr]: the offset of the first [c]. *)
Fixpoint memchr (c : Z) (l : bytes) : option nat :=
  match l with
  | [] => None
  | x :: l' => if x =? c then Some 0%nat else S <$> memchr c l'
  end.

Fixpoint bytes_eqb (a b : bytes) : bool :=
  match a, b with
  | [], [] => true
  | x :: a', y :: b' => (x =? y) && bytes_eqb a' b'
  | _, _ => false
  end.

(** [prefixb p l]: [memcmp(l, p, length p) == 0] on a range of at least that
    many bytes; false on a shorter one. *)
Fixpoint prefixb (p l : bytes) : bool :=
  match p, l with
  | [], _ => true
  | x :: p', y :: l' => (x =? y) && prefixb p' l'
  | _ :: _, [] => false
  end.

(** The C string at the start of a buffer: the bytes before the first NUL. *)
Fixpoint cstr (l : bytes) : bytes :=
  match l with
  | [] => []
  | x :: l' => if x =? 0 then [] else x :: cstr l'
  end.

(** [strstr]: the suffix of [s] that starts at the first occurrence of [key]. *)
Fixpoint strstr (key s : bytes) : option bytes :=
  if prefixb key s then Some s
  else match s with [] => None | _ :: s' => strstr key s' end.

Definition is_digit (c : Z) : bool := (48 <=? c) && (c <=? 57).

(** ASCII case folding, as [tolower] does in the C locale. *)
Definition tolower (c : Z) : Z := if (65 <=? c) && (c <=? 90) then c + 32 else c.

(** Case-insensitive equality of two byte ranges ([strncasecmp] on ranges of the
    same length). *)
Definition ci_eqb (a b : bytes) : bool := bytes_eqb (map tolower a) (map tolower b).

Lemma bytes_eqb_spec a b : reflect (a = b) (bytes_eqb a b).
Proof.
  revert b. induction a as [|x a IH]; intros [|y b]; simpl; try (constructor; congruence).
  destruct (Z.eqb_spec x y) as [->|]; simpl; [|constructor; congruence].
  destruct (IH b) as [->|]; constructor; congruence.
Qed.

Lemma bytes_eqb_refl a : bytes_eqb a a = true.
Proof. by destruct (bytes_eqb_spec a a). Qed.

Lemma prefixb_spec p l : reflect (exists r, l = p ++ r) (prefixb p l).
Proof.
  revert l. induction p as [|x p IH]; intros l; simpl.
  { constructor. by exists l. }
  destruct l as [|y l]; [constructor; intros [r Hr]; done|].
  destruct (Z.eqb_spec x y) as [->|Hne]; simpl.
  - destruct (IH l) as [Hp|Hp]; constructor.
    + destruct Hp as [r ->]. by exists r.
    + intros [r Hr]. apply Hp. exists r. simpl in Hr. congruence.
  - constructor. intros [r Hr]. simpl in Hr. congruence.
Qed.

Lemma prefixb_app p l : prefixb p (p ++ l) = true.
Proof. destruct (prefixb_spec p (p ++ l)) as [|H]; [done|]. destruct H. by exists l. Qed.

Lemma memchr_Some c l i :
  memchr c l = Some i <->
  l !! i = Some c /\ forall j x, (j < i)%nat -> l !! j = Some x -> x <> c.
Proof.
  revert i. induction l as [|y l IH]; intros i; simpl.
  { split; [done|]. intros [H _]. by rewrite lookup_nil in H. }
  destruct (Z.eqb_spec y c) as [->|Hne].
  - split.
    + intros [= <-]. split; [done|]. intros; lia.
    + intros [Hi Hj]. destruct i as [|i]; [done|].
      exfalso. by apply (Hj 0%nat c); [lia | | ].
  - rewrite fmap_Some. split.
    + intros (k & Hk & ->). apply IH in Hk as [Hk1 Hk2]. split; [done|].
      intros [|j] x Hj Hx; simpl in Hx; [congruence|].
      apply (Hk2 j); [lia|done].
    + intros [Hi Hj]. destruct i as [|i]; simpl in Hi; [congruence|].
      exists i. split; [|done]. apply IH. split; [done|].
      intros j x Hlt Hx. by apply (Hj (S j)); [lia|].
Qed.

Lemma memchr_None c l : memchr c l = None <-> Forall (fun x => x <> c) l.
Proof.
  induction l as [|y l IH]; simpl; [done|].
  destruct (Z.eqb_spec y c) as [->|Hne].
  - split; [done|]. intros H. by inversion H.
  - rewrite fmap_None, IH. split; [by constructor|]. intros H. by inversion H.
Qed.

Lemma memchr_lt c l i : memchr c l = Some i -> (i < length l)%nat.
Proof. intros [H _]%memchr_Some. by apply lookup_lt_Some in H. Qed.

Lemma memchr_app_l c l1 l2 i : memchr c l1 = Some i -> memchr c (l1 ++ l2) = Some i.
Proof.
  revert i. induction l1 as [|y l1 IH]; intros i; simpl; [done|].
  destruct (y =? c); [done|]. rewrite !fmap_Some.
  intros (k & Hk & ->). exists k. by rewrite (IH k).
Qed.

Lemma memchr_skip c l1 l2 :
  Forall (fun x => x <> c) l1 -> memchr c (l1 ++ c :: l2) = Some (length l1).
Proof.
  induction 1 as [|y l1 Hy Hl IH]; simpl; [by rewrite Z.eqb_refl|].
  destruct (Z.eqb_spec y c); [done|]. by rewrite IH.
Qed.

(** [memchr] splits the range at the byte it finds. *)
Lemma memchr_split c l i :
  memchr c l = Some i ->
  l = take i l ++ c :: drop (S i) l /\ Forall (fun x => x <> c) (take i l).
Proof.
  intros H. pose proof (memchr_lt _ _ _ H) as Hlt.
  apply memchr_Some in H as [Hi Hj]. split.
  - by rewrite <- (drop_S l c i Hi), take_drop.
  - apply Forall_lookup. intros k x Hk.
    apply lookup_take_Some in Hk as [Hk Hki]. by eapply Hj.
Qed.

Lemma sub_length b i n : (i + n <= length b)%nat -> length (sub b i n) = n.
Proof. intros H. unfold sub. rewrite length_take, length_drop. lia. Qed.

Lemma sub_split p i n m : sub p i (n + m) = sub p i n ++ sub p (i + n) m.
Proof. unfold sub. by rewrite <- drop_drop, take_take_drop. Qed.

Lemma bytes_ok_lookup l i b : bytes_ok l -> l !! i = Some b -> byte_ok b.
Proof. intros H. by apply Forall_lookup_1. Qed.

Lemma bytes_ok_take l n : bytes_ok l -> bytes_ok (take n l).
Proof. apply Forall_take. Qed.

Lemma bytes_ok_drop l n : bytes_ok l -> bytes_ok (drop n l).
Proof. apply Forall_drop. Qed.

Lemma bytes_ok_sub l i n : bytes_ok l -> bytes_ok (sub l i n).
Proof. intros H. by apply bytes_ok_take, bytes_ok_drop. Qed.

Definition bytes_okb (l : bytes) : bool := forallb (fun b => (0 <=? b) && (b <? 256)) l.

Lemma bytes_okb_ok l : bytes_okb l = true -> bytes_ok l.
Proof.
  unfold bytes_okb. rewrite forallb_forall. intros H. apply List.Forall_forall.
  intros b Hb. specialize (H b Hb). unfold byte_ok. lia.
Qed.

(** A decidable fact about every byte, by evaluation. *)
Definition all_bytes (P : Z -> bool) : bool := forallb P (map Z.of_nat (List.seq 0 256)).

Lemma all_bytes_spec P b : all_bytes P = true -> byte_ok b -> P b = true.
Proof.
  unfold all_bytes. rewrite forallb_forall. intros H [Hb1 Hb2]. apply H.
  apply in_map_iff. exists (Z.to_nat b). split; [lia|]. apply in_seq. lia.
Qed.

(** A conversion to [uint8_t] is the low byte. *)
Lemma u8_byte z : byte_ok (u8 z).
Proof. apply u8_range. Qed.

Create HintDb bytes discriminated.
#[export] Hint Resolve u8_byte : bytes.
#[export] Hint Resolve bytes_ok_take bytes_ok_drop bytes_ok_sub : bytes.

Lemma is_digit_spec c : reflect (48 <= c <= 57) (is_digit c).
Proof. apply iff_reflect. unfold is_digit. rewrite andb_true_iff. lia. Qed.

(** ** Checked accesses

    Code that indexes a buffer under its own bounds checks is modelled in the
    monad [run]: [Oob] is an access outside the object (undefined behaviour in C)
    and [NoFuel] a loop that did not end within its bound.  The safety theorem
    of such a routine is that it always returns. *)
Inductive run (A : Type) : Type :=
  | Ret (a : A)
  | Oob
  | NoFuel.
Arguments Ret {A} a.
Arguments Oob {A}.
Arguments NoFuel {A}.

Definition rbind {A B : Type} (m : run A) (k : A -> run B) : run B :=
  match m with Ret a => k a | Oob => Oob | NoFuel => NoFuel end.

Declare Scope run_scope.
Delimit Scope run_scope with run.
Notation "'let!' x ':=' m 'in' k" := (rbind m (fun x => k))
  (at level 10, x pattern, m at level 100, k at level 200,
   format "'[v' 'let!'  x  ':='  m  'in' '/' k ']'") : run_scope.
Open Scope run_scope.

(** One-byte read, and a read of [n] bytes ([memcpy], [memchr], [memcmp]). *)
Definition rd (b : bytes) (i : nat) : run Z :=
  match b !! i with Some v => Ret v | None => Oob end.
Definition rd_sub (b : bytes) (i n : nat) : run bytes :=
  if (i + n <=? length b)%nat then Ret (sub b i n) else Oob.

(** Sequential write of [v] after the bytes [out] already in a buffer of
    capacity [cap]. *)
Definition wr (cap : nat) (out v : bytes) : run bytes :=
  if (length out + length v <=? cap)%nat then Ret (out ++ v) else Oob.

(** One-byte store into a buffer, and a store of a range. *)
Definition put (b : bytes) (i : nat) (v : Z) : run bytes :=
  if (i <? length b)%nat then Ret (<[i := v]> b) else Oob.
Definition put_sub (b : bytes) (i : nat) (v : bytes) : run bytes :=
  if (i + length v <=? length b)%nat then Ret (list_inserts i v b) else Oob.

(** Total correctness of a [run]: it returns, and the value satisfies [P]. *)
Definition wp {A : Type} (m : run A) (P : A -> Prop) : Prop :=
  match m with Ret a => P a | _ => False end.

Lemma wp_ret {A} (a : A) (P : A -> Prop) : P a -> wp (Ret a) P.
Proof. done. Qed.

Lemma wp_bind {A B} (m : run A) (k : A -> run B) P :
  wp m (fun a => wp (k a) P) -> wp (rbind m k) P.
Proof. by destruct m. Qed.

Lemma wp_mono {A} (m : run A) (P Q : A -> Prop) :
  wp m P -> (forall a, P a -> Q a) -> wp m Q.
Proof. destruct m; simpl; auto. Qed.

Lemma wp_elim {A} (m : run A) (P : A -> Prop) :
  wp m P <-> exists a, m = Ret a /\ P a.
Proof.
  split; [destruct m; simpl; eauto; done|]. by intros (a & -> & H).
Qed.

(** Partial correctness: if it returns, the value satisfies [Q]. *)
Definition rl {B : Type} (m : run B) (Q : B -> Prop) : Prop := match m with Ret b => Q b | _ => True end.

Lemma rl_bind {B C : Type} (m : run B) (k : B -> run C) (P : B -> Prop) (Q : C -> Prop) :
  rl m P -> (forall b, P b -> rl (k b) Q) -> rl (rbind m k) Q.
Proof. destruct m; cbn; auto. Qed.

Lemma rl_mono {B : Type} (m : run B) (P Q : B -> Prop) : rl m P -> (forall b, P b -> Q b) -> rl m Q.
Proof. destruct m; cbn; auto. Qed.

Lemma rl_any {B C : Type} (m : run B) (k : B -> run C) (Q : C -> Prop) : (forall b, rl (k b) Q) -> rl (rbind m k) Q.
Proof. intros Hk. apply (rl_bind m k (fun _ => True)); [by destruct m|auto]. Qed.

Lemma wp_rd b i (P : Z -> Prop) :
  (i < length b)%nat -> (forall v, b !! i = Some v -> P v) -> wp (rd b i) P.
Proof.
  intros Hi HP. unfold rd. destruct (lookup_lt_is_Some_2 b i Hi) as [v Hv].
  rewrite Hv. by apply HP.
Qed.

Lemma wp_rd_sub b i n (P : bytes -> Prop) :
  (i + n <= length b)%nat -> P (sub b i n) -> wp (rd_sub b i n) P.
Proof.
  intros Hi HP. unfold rd_sub. by rewrite (proj2 (Nat.leb_le _ _) Hi).
Qed.

Lemma wr_fits cap o v : (length o + length v <= cap)%nat -> wr cap o v = Ret (o ++ v).
Proof. intros H. unfold wr. by rewrite (proj2 (Nat.leb_le _ _) H). Qed.

Lemma wr_length cap o v m : wr cap o v = Ret m -> (length m <= cap)%nat.
Proof. unfold wr. destruct (Nat.leb_spec (length o + length v) cap); [|done]. intros [= <-]. by rewrite length_app. Qed.

Lemma wp_wr cap out v (P : bytes -> Prop) :
  (length out + length v <= cap)%nat -> P (out ++ v) -> wp (wr cap out v) P.
Proof.
  intros Hi HP. unfold wr. by rewrite (proj2 (Nat.leb_le _ _) Hi).
Qed.

Lemma put_lt b i v : (i < length b)%nat -> put b i v = Ret (<[i := v]> b).
Proof. intros H. unfold put. by rewrite (proj2 (Nat.ltb_lt _ _) H). Qed.

Lemma put_app b1 x b2 v : put (b1 ++ x :: b2) (length b1) v = Ret (b1 ++ v :: b2).
Proof.
  rewrite put_lt by (rewrite length_app; simpl; lia).
  rewrite insert_app_r_alt by lia. by rewrite Nat.sub_diag.
Qed.

Lemma put_sub_app b1 b2 b3 v :
  length v = length b2 ->
  put_sub (b1 ++ b2 ++ b3) (length b1) v = Ret (b1 ++ v ++ b3).
Proof.
  intros Hl. unfold put_sub. rewrite (proj2 (Nat.leb_le _ _)) by (rewrite !length_app; lia).
  f_equal. apply list_eq. intros k.
  destruct (decide (k < length b1)%nat).
  { by rewrite list_lookup_inserts_lt, !lookup_app_l by lia. }
  destruct (decide (k < length b1 + length v)%nat).
  { rewrite list_lookup_inserts by (rewrite ?length_app; lia).
    by rewrite lookup_app_r, lookup_app_l by lia. }
  rewrite list_lookup_inserts_ge by lia. rewrite !lookup_app_r by (rewrite ?Hl; lia).
  by rewrite Hl.
Qed.

Lemma put_sub_at b b1 b2 b3 i v :
  b = b1 ++ b2 ++ b3 -> length b1 = i -> length v = length b2 ->
  put_sub b i v = Ret (b1 ++ v ++ b3).
Proof. intros -> <- Hl. by apply put_sub_app. Qed.

(** [wp_step] runs one operation of a checked routine, leaving its bound. *)
Ltac wp_step :=
  lazymatch goal with
  | |- wp (rbind _ _) _ => apply wp_bind
  | |- wp (Ret _) _ => apply wp_ret
  | |- wp (rd _ _) _ => apply wp_rd; [| intros ? ?]
  | |- wp (rd_sub _ _ _) _ => apply wp_rd_sub
  | |- wp (wr _ _ _) _ => apply wp_wr
  end.

(** ** Decimal numbers

    [%d], [%u] and their [long] variants, and the digit loops of the parsers. *)
Fixpoint dec_fuel (n : nat) (z : Z) (acc : bytes) : bytes :=
  match n with
  | O => acc
  | S n' =>
      let acc' := (48 + z mod 10) :: acc in
      if z <? 10 then acc' else dec_fuel n' (z / 10) acc'
  end.

Definition print_u (z : Z) : bytes := dec_fuel (S (Z.to_nat (Z.log2 z))) z [].
Definition print_d (z : Z) : bytes := if z <? 0 then 45 :: print_u (- z) else print_u z.

(** The value of a digit string, most significant digit first. *)
Definition dec_val (l : bytes) : Z := foldl (fun v c => v * 10 + (c - 48)) 0 l.

Lemma foldl_dec_shift l v :
  foldl (fun v c => v * 10 + (c - 48)) v l =
  v * 10 ^ Z.of_nat (length l) + dec_val l.
Proof.
  revert v. induction l as [|c l IH]; intros v; [unfold dec_val; cbn; lia|].
  unfold dec_val. cbn [foldl]. rewrite !IH. cbn [length].
  rewrite Nat2Z.inj_succ, Z.pow_succ_r by lia. ring.
Qed.

Lemma dec_val_app l1 l2 :
  dec_val (l1 ++ l2) = dec_val l1 * 10 ^ Z.of_nat (length l2) + dec_val l2.
Proof. unfold dec_val at 1. rewrite foldl_app. apply foldl_dec_shift. Qed.

Lemma dec_val_cons c l :
  dec_val (c :: l) = (c - 48) * 10 ^ Z.of_nat (length l) + dec_val l.
Proof. unfold dec_val at 1. simpl. apply foldl_dec_shift. Qed.

Lemma dec_val_nonneg l : Forall (fun c => is_digit c = true) l -> 0 <= dec_val l.
Proof.
  induction 1 as [|c l Hc Hl IH]; [done|]. rewrite dec_val_cons.
  destruct (is_digit_spec c); [|done].
  pose proof (Z.pow_nonneg 10 (Z.of_nat (length l))). nia.
Qed.

Lemma dec_fuel_spec n z acc :
  0 <= z -> (Z.to_nat (Z.log2 z) < n)%nat ->
  exists ds, dec_fuel n z acc = ds ++ acc /\ dec_val ds = z /\ ds <> [] /\
    Forall (fun c => is_digit c = true) ds.
Proof.
  revert z acc. induction n as [|n IH]; intros z acc Hz Hn; [lia|].
  assert (is_digit (48 + z mod 10) = true) as Hd.
  { destruct (is_digit_spec (48 + z mod 10)); [done|].
    pose proof (Z.mod_pos_bound z 10). lia. }
  simpl. destruct (Z.ltb_spec z 10).
  - exists [48 + z mod 10]. split; [done|]. split; [|split; [done|by constructor]].
    unfold dec_val. simpl. rewrite Z.mod_small; lia.
  - destruct (IH (z / 10) ((48 + z mod 10) :: acc)) as (ds & -> & Hv & Hne & Hds).
    + apply Z.div_pos; lia.
    + assert (Z.log2 (z / 10) < Z.log2 z) as Hl; [|pose proof (Z.log2_nonneg (z / 10)); lia].
      apply Z.le_lt_trans with (Z.log2 (z / 2)).
      { apply Z.log2_le_mono. apply Z.div_le_compat_l; lia. }
      change (z / 2) with (z / 2 ^ 1). rewrite <- Z.shiftr_div_pow2 by lia.
      rewrite Z.log2_shiftr by lia.
      assert (1 <= Z.log2 z) by (apply Z.log2_le_pow2; lia). lia.
    + exists (ds ++ [48 + z mod 10]). rewrite <- app_assoc. split; [done|].
      split; [|split; [by destruct ds|]].
      * rewrite dec_val_app, Hv. unfold dec_val. simpl.
        rewrite (Z.div_mod z 10) at 3 by lia. lia.
      * apply Forall_app. split; [done|]. by constructor.
Qed.

Lemma print_u_spec z :
  0 <= z ->
  dec_val (print_u z) = z /\ print_u z <> [] /\
  Forall (fun c => is_digit c = true) (print_u z).
Proof.
  intros Hz. unfold print_u.
  destruct (dec_fuel_spec (S (Z.to_nat (Z.log2 z))) z []) as (ds & -> & ?); [lia|lia|].
  by rewrite app_nil_r.
Qed.

Lemma long_max_pos `{DataModel} : 2147483647 <= LONG_MAX.
Proof. destruct long_max_cases; lia. Qed.

(** Appending digits never lowers a number. *)
Lemma dec_val_mono v l :
  0 <= v -> Forall (fun c => is_digit c = true) l ->
  v <= v * 10 ^ Z.of_nat (length l) + dec_val l.
Proof.
  intros Hv Hl. pose proof (dec_val_nonneg l Hl).
  assert (1 <= 10 ^ Z.of_nat (length l)) by (pose proof (Z.pow_pos_nonneg 10 (Z.of_nat (length l))); lia).
  nia.
Qed.

(** The overflow guard of the digit loops, [v > (LONG_MAX - d) / 10]. *)
Lemma digit_guard `{DataModel} v d :
  ((LONG_MAX - d) / 10 <? v) = (LONG_MAX <? v * 10 + d).
Proof.
  destruct (Z.ltb_spec ((LONG_MAX - d) / 10) v) as [Ho|Ho]; symmetry.
  - apply Z.ltb_lt. pose proof (Z.mul_succ_div_gt (LONG_MAX - d) 10 ltac:(lia)). lia.
  - apply Z.ltb_ge. pose proof (Z.mul_div_le (LONG_MAX - d) 10 ltac:(lia)). lia.
Qed.

(** The number of digits. *)
Lemma dec_fuel_length k n z acc :
  0 <= z < 10 ^ Z.of_nat k -> (1 <= k)%nat ->
  (length (dec_fuel n z acc) <= length acc + k)%nat.
Proof.
  revert k z acc. induction n as [|n IH]; intros k z acc Hz Hk; cbn [dec_fuel]; [lia|].
  destruct (Z.ltb_spec z 10); [cbn; lia|].
  destruct k as [|k]; [lia|]. rewrite Nat2Z.inj_succ, Z.pow_succ_r in Hz by lia.
  assert (k <> 0%nat) by (intros ->; cbn in Hz; lia).
  etransitivity; [apply (IH k)|cbn; lia]; [|lia].
  split; [apply Z.div_pos; lia|apply Z.div_lt_upper_bound; lia].
Qed.

Lemma print_u_length k z :
  0 <= z < 10 ^ Z.of_nat k -> (1 <= k)%nat -> (length (print_u z) <= k)%nat.
Proof. intros Hz Hk. apply (dec_fuel_length k _ z [] Hz Hk). Qed.

Lemma print_d_length k z :
  - 10 ^ Z.of_nat k < z < 10 ^ Z.of_nat k -> (1 <= k)%nat -> (length (print_d z) <= k + 1)%nat.
Proof.
  intros Hz Hk. unfold print_d. destruct (Z.ltb_spec z 0).
  - cbn [length]. pose proof (print_u_length k (- z) ltac:(lia) Hk). lia.
  - pose proof (print_u_length k z ltac:(lia) Hk). lia.
Qed.

(** ** Scanning numbers

    What [strtol], [atoi] and [sscanf] share: white space, an optional sign, and
    the digits at the start of what is left. *)
Definition is_space (c : Z) : bool := (c =? 32) || ((9 <=? c) && (c <=? 13)).

Fixpoint skip_space (s : bytes) : bytes :=
  match s with
  | c :: s' => if is_space c then skip_space s' else s
  | [] => []
  end.

(** An optional sign, and what follows. *)
Definition sign_of (s : bytes) : bool * bytes :=
  match s with
  | 45 :: s' => (true, s')
  | 43 :: s' => (false, s')
  | _ => (false, s)
  end.

Fixpoint digits (p : bytes) : bytes :=
  match p with
  | c :: p' => if is_digit c then c :: digits p' else []
  | [] => []
  end.

Lemma digits_all p : Forall (fun c => is_digit c = true) (digits p).
Proof. induction p as [|c p IH]; cbn; [done|]. case_match; [by constructor|done]. Qed.

Lemma digits_app ds r :
  Forall (fun c => is_digit c = true) ds -> digits r = [] -> digits (ds ++ r) = ds.
Proof.
  intros Hd Hr. induction Hd as [|c ds Hc Hd IH]; [done|]. cbn [app digits]. by rewrite Hc, IH.
Qed.

Lemma sign_of_digit c s : is_digit c = true -> sign_of (c :: s) = (false, c :: s).
Proof.
  destruct (is_digit_spec c) as [H|]; [|done]. intros _. unfold sign_of.
  repeat (destruct c as [|c|c]; try done; try lia).
Qed.

#[global] Arguments print_u : simpl never.
#[global] Arguments print_d : simpl never.
