(* ===== verification/Seqext.v ===== *)
(** * RTP sequence and timestamp extension ([src/seqext.c]) *)
From Stdlib Require Import ZArith Lia.
From stdpp Require Import base numbers list.
From S2P Require Import Prelude.

Local Open Scope Z_scope.

(** [seqext_t] of [src/seqext.h]. *)
Record seqext_t := mk_seqext {
  seq_ref : Z;   (* uint64_t: extended value of the current 16-bit reference *)
  ts_ref : Z;    (* uint64_t: extended value of the current 32-bit anchor *)
  inited : bool;
}.

Definition seqext_init (ref_seq ref_ts : Z) : seqext_t :=
  mk_seqext ref_seq ref_ts true.

Definition seqext_rebase (s : seqext_t) (new_seq new_ts : Z) : seqext_t :=
  mk_seqext new_seq new_ts true.

(** [None] is the return value -1; [Some v] is 0 with [*ext = v]. *)
Definition seqext_seq (s : seqext_t) (wire : Z) : seqext_t * option Z :=
  let d := s16 (wire - Z.land (seq_ref s) 65535) in
  if d =? -32768 then (s, None)
  else
    let candidate := s64 (s64 (seq_ref s) + d) in
    if candidate <? 0 then (s, None)
    else
      let v := u64 candidate in
      let s' := if seq_ref s <? v then mk_seqext v (ts_ref s) (inited s) else s in
      (s', Some v).

Definition seqext_ts (s : seqext_t) (wire : Z) : seqext_t * Z :=
  let d := s32 (wire - Z.land (ts_ref s) 4294967295) in
  let candidate := s64 (s64 (ts_ref s) + d) in
  let v := u64 candidate in
  let s' := if ts_ref s <? v then mk_seqext (seq_ref s) v (inited s) else s in
  (s', v).

#[global] Arguments seqext_seq : simpl never.
#[global] Arguments seqext_ts : simpl never.

(** The range in which no 64-bit operation of the extension wraps: a stream
    would have to carry 2^46 packets to leave it. *)
Definition seqext_ok (s : seqext_t) : Prop := 0 <= seq_ref s < 2 ^ 62.

Lemma land_65535 z : Z.land z 65535 = z mod 65536.
Proof. change 65535 with (Z.ones 16). by rewrite Z.land_ones by lia. Qed.

Lemma land_u32max z : Z.land z 4294967295 = z mod 4294967296.
Proof. change 4294967295 with (Z.ones 32). by rewrite Z.land_ones by lia. Qed.

Lemma seqext_init_ok rs rt :
  0 <= rs < 65536 -> seqext_ok (seqext_init rs rt).
Proof. intros. unfold seqext_ok. simpl. lia. Qed.

Lemma seqext_rebase_ok s rs rt :
  0 <= rs < 65536 -> seqext_ok (seqext_rebase s rs rt).
Proof. intros. unfold seqext_ok. simpl. lia. Qed.

(** Closed form of the sequence extension on a reference that has not wrapped. *)
Lemma seqext_seq_eq s wire :
  seqext_ok s ->
  seqext_seq s wire =
    let d := s16 (wire - seq_ref s mod 65536) in
    let c := seq_ref s + d in
    if (d =? -32768) || (c <? 0) then (s, None)
    else (mk_seqext (Z.max (seq_ref s) c) (ts_ref s) (inited s), Some c).
Proof.
  intros Hs. unfold seqext_ok in Hs. unfold seqext_seq. rewrite land_65535. cbv zeta.
  set (d := s16 _). assert (-32768 <= d < 32768) by apply s16_range.
  destruct (d =? -32768); [done|]. simpl.
  rewrite (s64_small (seq_ref s)) by lia.
  rewrite (s64_small (seq_ref s + d)) by lia.
  destruct (Z.ltb_spec (seq_ref s + d) 0); [done|].
  rewrite u64_small by lia.
  destruct (Z.ltb_spec (seq_ref s) (seq_ref s + d)); f_equal.
  - f_equal. lia.
  - destruct s; simpl in *. f_equal. lia.
Qed.

(** The reference only moves forward, by less than half the wire range, and an
    accepted packet is below or at it. *)
Lemma seqext_seq_ref s wire s' r :
  seqext_ok s -> seqext_seq s wire = (s', r) ->
  seq_ref s <= seq_ref s' < seq_ref s + 32768 /\ ts_ref s' = ts_ref s /\
  forall v, r = Some v -> 0 <= v <= seq_ref s' /\ -32768 < v - seq_ref s < 32768.
Proof.
  intros Hok. rewrite seqext_seq_eq by done. cbv zeta.
  pose proof (s16_range (wire - seq_ref s mod 65536)). unfold seqext_ok in Hok.
  destruct (Z.eqb_spec (s16 (wire - seq_ref s mod 65536)) (-32768)); simpl.
  { intros [= <- <-]. split; [lia|]. split; [done|]. done. }
  destruct (Z.ltb_spec (seq_ref s + s16 (wire - seq_ref s mod 65536)) 0).
  { intros [= <- <-]. split; [lia|]. split; [done|]. done. }
  intros [= <- <-]. simpl. split; [lia|]. split; [done|]. intros v [= <-]. lia.
Qed.

Lemma seqext_ts_seq_ref s wire : seq_ref (seqext_ts s wire).1 = seq_ref s.
Proof. unfold seqext_ts. cbv zeta. by case_match. Qed.

(** Whatever the anchor, the low 32 bits of an extended timestamp are the wire
    timestamp. *)
Lemma seqext_ts_u32 s wire :
  0 <= wire < 4294967296 -> u32 (seqext_ts s wire).2 = wire.
Proof.
  intros Hw. unfold seqext_ts. rewrite land_u32max. cbv zeta. simpl.
  rewrite u32_u64, u32_s64. unfold u32. rewrite Zplus_mod.
  fold (u32 (s64 (ts_ref s))) (u32 (s32 (wire - ts_ref s mod 4294967296))).
  rewrite u32_s64, u32_s32. unfold u32. rewrite <- Zplus_mod.
  change 4294967296 with (2 ^ 32) in *.
  replace (ts_ref s + (wire - ts_ref s mod 2 ^ 32))
    with (wire + (ts_ref s / 2 ^ 32) * 2 ^ 32)
    by (rewrite (Z.mod_eq (ts_ref s)) by lia; lia).
  rewrite Z.mod_add by lia. by apply Z.mod_small.
Qed.

(** The extension of one packet whose true index is within reach. *)
Lemma seqext_seq_index s idx :
  seqext_ok s -> 0 <= idx -> -32768 < idx - seq_ref s < 32768 ->
  seqext_seq s (u16 idx) =
    (mk_seqext (Z.max (seq_ref s) idx) (ts_ref s) (inited s), Some idx).
Proof.
  intros Hok Hidx Hd. rewrite seqext_seq_eq by done. cbv zeta.
  assert (s16 (u16 idx - seq_ref s mod 65536) = idx - seq_ref s) as ->.
  { apply s16_eqm; [lia|]. unfold u16. change (2 ^ 16) with 65536.
    rewrite (Z.mod_eq idx), (Z.mod_eq (seq_ref s)) by lia.
    apply Z.mod_divide; [lia|].
    exists (seq_ref s / 65536 - idx / 65536). lia. }
  replace (seq_ref s + (idx - seq_ref s)) with idx by lia.
  destruct (Z.eqb_spec (idx - seq_ref s) (-32768)); [lia|].
  destruct (Z.ltb_spec idx 0); [lia|]. done.
Qed.

(** The extension of a whole stream of wire sequence numbers. *)
Fixpoint seqext_seqs (s : seqext_t) (wires : list Z) : seqext_t * list (option Z) :=
  match wires with
  | [] => (s, [])
  | w :: ws =>
      let '(s1, r) := seqext_seq s w in
      let '(s2, rs) := seqext_seqs s1 ws in (s2, r :: rs)
  end.

(** Each index is within half the wire range of the newest one before it: the
    packets may be lost, duplicated and reordered, but not by 32768 or more. *)
Fixpoint near (newest : Z) (idxs : list Z) : Prop :=
  match idxs with
  | [] => True
  | i :: l => 0 <= i < 2 ^ 62 /\ -32768 < i - newest < 32768 /\ near (Z.max newest i) l
  end.

(** ** Properties *)

(** C30: the sequence extension recovers the true packet indices of a stream.
    Whatever the order, losses and duplicates of the packets, as long as none is
    32768 or more away from the newest before it, the 16-bit numbers on the wire
    extend to exactly the true 64-bit indices, across any number of wrap-arounds
    of the wire, and the reference ends at the newest of them. *)
Theorem seqext_stream_recovers s idxs :
  seqext_ok s -> near (seq_ref s) idxs ->
  seqext_seqs s (map u16 idxs) =
    (mk_seqext (foldl Z.max (seq_ref s) idxs) (ts_ref s) (inited s), map Some idxs).
Proof.
  revert s. induction idxs as [|i l IH]; intros s Hok Hn; simpl.
  { by destruct s. }
  destruct Hn as (Hi & Hd & Hl). rewrite seqext_seq_index by (done || lia).
  rewrite IH; [done| |done]. unfold seqext_ok in *. simpl. lia.
Qed.

Lemma seqext_stream_recovers_witness :
  seqext_seqs (seqext_init 65535 0) (map u16 [65535; 65537; 65536; 65537; 98304; 131071]) =
    (mk_seqext 131071 0 true, map Some [65535; 65537; 65536; 65537; 98304; 131071]).
Proof.
  apply (seqext_stream_recovers (seqext_init 65535 0) [65535; 65537; 65536; 65537; 98304; 131071]).
  - unfold seqext_ok. cbn [seq_ref seqext_init]. lia.
  - cbn [near seq_ref seqext_init]. lia.
Defined.
