(* ===== verification/Jitter.v ===== *)
(** * The jitter buffer ([src/jitter.c], [src/jitter.h])

    A ring of 512 slots indexed by the extended sequence number.  The file holds
    the buffer's state and its operations, the invariant every operation
    preserves, the abstract playout window the ring implements, and the
    properties of pops, flushes, resend requests and resynchronisation. *)
From Stdlib Require Import ZArith Lia.
From stdpp Require Import base numbers list option.
From S2P Require Import Prelude Seqext.

Local Open Scope Z_scope.

(** ** Data *)

Definition JITTER_SLOTS : Z := 512.
Definition JITTER_MAX_PAYLOAD : Z := 2048.
Definition RESYNC_BEHIND : Z := 128.
Definition RESYNC_MIN_RUN : Z := 8.
Definition RESYNC_PREROLL : Z := 16.

Inductive slot_state_t :=
  SLOT_EMPTY | SLOT_WAITING | SLOT_RESEND | SLOT_RECEIVED | SLOT_CONCEALED | SLOT_CONSUMED.

#[export] Instance slot_state_eq_dec : EqDecision slot_state_t.
Proof. solve_decision. Defined.

Inductive pop_kind_t := POP_DATA | POP_CONCEAL.

(** [jitter_slot_t]: what a pop hands to the player; the payload is the first
    [len] bytes of the C array. *)
Record jitter_slot_t := mk_jslot {
  js_kind : pop_kind_t;
  js_ext : Z;
  js_ts : Z;
  js_frames : Z;
  js_payload : bytes;
}.

(** [ring_slot_t]; [rs_payload] is the first [len] bytes of the C array. *)
Record ring_slot_t := mk_rslot {
  rs_state : slot_state_t;
  rs_gen : Z;
  rs_ext : Z;
  rs_ts : Z;
  rs_payload : bytes;
}.

(** [jitter_t]; the deadline callback is an argument of [jitter_pop]. *)
Record jitter_t := mk_jitter {
  ring : list ring_slot_t;
  sx : seqext_t;
  frames_per_pkt : Z;
  gen : Z;
  play_cursor : Z;
  boundary : Z;
  dupes : Z;
  late : Z;
  lost : Z;
  concealed_count : Z;
  overwritten : Z;
  resync_count : Z;
  resync_skipped : Z;
}.

(** Field updates. *)
Definition set_ring r j := mk_jitter r (sx j) (frames_per_pkt j) (gen j) (play_cursor j)
  (boundary j) (dupes j) (late j) (lost j) (concealed_count j) (overwritten j)
  (resync_count j) (resync_skipped j).
Definition set_sx x j := mk_jitter (ring j) x (frames_per_pkt j) (gen j) (play_cursor j)
  (boundary j) (dupes j) (late j) (lost j) (concealed_count j) (overwritten j)
  (resync_count j) (resync_skipped j).
Definition set_cursor c j := mk_jitter (ring j) (sx j) (frames_per_pkt j) (gen j) c
  (boundary j) (dupes j) (late j) (lost j) (concealed_count j) (overwritten j)
  (resync_count j) (resync_skipped j).
Definition add_dupes j := mk_jitter (ring j) (sx j) (frames_per_pkt j) (gen j) (play_cursor j)
  (boundary j) (u32 (dupes j + 1)) (late j) (lost j) (concealed_count j) (overwritten j)
  (resync_count j) (resync_skipped j).
Definition add_late j := mk_jitter (ring j) (sx j) (frames_per_pkt j) (gen j) (play_cursor j)
  (boundary j) (dupes j) (u32 (late j + 1)) (lost j) (concealed_count j) (overwritten j)
  (resync_count j) (resync_skipped j).
Definition add_lost j := mk_jitter (ring j) (sx j) (frames_per_pkt j) (gen j) (play_cursor j)
  (boundary j) (dupes j) (late j) (u32 (lost j + 1)) (u32 (concealed_count j + 1))
  (overwritten j) (resync_count j) (resync_skipped j).
Definition add_overwritten j := mk_jitter (ring j) (sx j) (frames_per_pkt j) (gen j)
  (play_cursor j) (boundary j) (dupes j) (late j) (lost j) (concealed_count j)
  (u32 (overwritten j + 1)) (resync_count j) (resync_skipped j).

Definition empty_slot : ring_slot_t := mk_rslot SLOT_EMPTY 0 0 0 [].

(** ** Operations *)

(** [ext % JITTER_SLOTS] as an index of the ring. *)
Definition slot_idx (ext : Z) : nat := Z.to_nat (ext mod JITTER_SLOTS).

Definition slot_for (j : jitter_t) (ext : Z) : ring_slot_t :=
  default empty_slot (ring j !! slot_idx ext).

Definition set_slot (ext : Z) (s : ring_slot_t) (j : jitter_t) : jitter_t :=
  set_ring (<[slot_idx ext := s]> (ring j)) j.

(** The test [s->gen==j->gen && s->ext_seq==ext && s->state==SLOT_RECEIVED]. *)
Definition slot_received (j : jitter_t) (ext : Z) : bool :=
  let s := slot_for j ext in
  (rs_gen s =? gen j) && (rs_ext s =? ext) && bool_decide (rs_state s = SLOT_RECEIVED).

(** The ring after [memset(j, 0, ...)]. *)
Definition ring_zero : list ring_slot_t := replicate (Z.to_nat JITTER_SLOTS) empty_slot.

Definition jitter_init (fpp ref_seq ref_ts : Z) : jitter_t :=
  mk_jitter ring_zero (seqext_init ref_seq ref_ts) fpp 1 ref_seq ref_seq
    0 0 0 0 0 0 0.

Definition jitter_insert (j : jitter_t) (wseq wts : Z) (pl : bytes) : jitter_t * Z :=
  if JITTER_MAX_PAYLOAD <? Z.of_nat (length pl) then (j, -1)
  else
    match seqext_seq (sx j) wseq with
    | (sx', None) => (set_sx sx' j, -1)
    | (sx', Some ext) =>
        let j := set_sx sx' j in
        if ext <? boundary j then (add_late j, -1)
        else if ext <? play_cursor j then (add_late j, 1)
        else
          let s := slot_for j ext in
          if (rs_gen s =? gen j) && (rs_ext s =? ext) &&
             bool_decide (rs_state s = SLOT_RECEIVED)
          then (add_dupes j, 1)
          else
            let j1 :=
              if (rs_gen s =? gen j) && bool_decide (rs_state s = SLOT_RECEIVED) &&
                 negb (rs_ext s =? ext)
              then add_overwritten j else j in
            let '(sx'', ts) := seqext_ts (sx j1) wts in
            (set_slot ext (mk_rslot SLOT_RECEIVED (gen j1) ext (u32 ts) pl)
               (set_sx sx'' j1), 0)
    end.

(** [None] is the return value 1 (stall); [Some slot] is 0. *)
Definition jitter_pop (dl : option (Z -> bool)) (j : jitter_t) :
    jitter_t * option jitter_slot_t :=
  let c := play_cursor j in
  let s := slot_for j c in
  if slot_received j c then
    (set_cursor (u64 (c + 1))
       (set_slot c (mk_rslot SLOT_CONSUMED (rs_gen s) (rs_ext s) (rs_ts s) (rs_payload s)) j),
     Some (mk_jslot POP_DATA c (rs_ts s) (frames_per_pkt j) (rs_payload s)))
  else if match dl with Some f => f c | None => false end then
    (set_cursor (u64 (c + 1))
       (add_lost (set_slot c (mk_rslot SLOT_CONCEALED (gen j) c (rs_ts s) (rs_payload s)) j)),
     Some (mk_jslot POP_CONCEAL c 0 (frames_per_pkt j) []))
  else (j, None).

Definition jitter_flush (j : jitter_t) (nseq nts : Z) : jitter_t :=
  mk_jitter (ring j) (seqext_rebase (sx j) nseq nts) (frames_per_pkt j) (u32 (gen j + 1))
    nseq nseq (dupes j) (late j) (lost j) (concealed_count j) (overwritten j)
    (resync_count j) (resync_skipped j).

(** The [received] test of the resend scan: the slot holds [e] in this
    generation and is received, concealed or consumed. *)
Definition slot_settled (j : jitter_t) (e : Z) : bool :=
  let s := slot_for j e in
  (rs_gen s =? gen j) && (rs_ext s =? e) &&
  bool_decide (rs_state s = SLOT_RECEIVED \/ rs_state s = SLOT_CONCEALED \/
               rs_state s = SLOT_CONSUMED).

Fixpoint resend_loop (fuel : nat) (j : jitter_t) (e lim : Z) (hole : option Z) :
    option (Z * Z) :=
  match fuel with
  | O => None
  | S fuel' =>
      if e <? lim then
        if slot_settled j e then
          match hole with
          | Some start => Some (start, e - 1)
          | None => resend_loop fuel' j (e + 1) lim None
          end
        else
          resend_loop fuel' j (e + 1) lim
            (match hole with Some start => Some start | None => Some e end)
      else None
  end.

(** [Some (from, to)] is the return value 0. *)
Definition jitter_next_resend (j : jitter_t) : option (Z * Z) :=
  resend_loop (Z.to_nat JITTER_SLOTS) j (play_cursor j)
    (u64 (play_cursor j + JITTER_SLOTS)) None.

(** Step 1 of the resync: the highest received ext_seq not behind the cursor,
    over the slots in ring order. *)
Definition scan_hi (j : jitter_t) (acc : option Z) (s : ring_slot_t) : option Z :=
  if (rs_gen s =? gen j) && bool_decide (rs_state s = SLOT_RECEIVED) &&
     (play_cursor j <=? rs_ext s)
  then match acc with
       | Some hi => if hi <? rs_ext s then Some (rs_ext s) else acc
       | None => Some (rs_ext s)
       end
  else acc.

(** Step 2: walk back from [hi] while the slots stay received and contiguous.
    The ring holds 512 slots, so 512 steps are enough. *)
Fixpoint walk_back (fuel : nat) (j : jitter_t) (run_start : Z) : Z :=
  match fuel with
  | O => run_start
  | S fuel' =>
      if play_cursor j <? run_start then
        if slot_received j (run_start - 1) then walk_back fuel' j (run_start - 1)
        else run_start
      else run_start
  end.

(** [Some skipped] is the return value 1. *)
Definition jitter_try_resync `{DataModel} (j : jitter_t) : jitter_t * option Z :=
  match foldl (scan_hi j) None (ring j) with
  | None => (j, None)
  | Some hi =>
      if hi <? u64 (play_cursor j + RESYNC_BEHIND) then (j, None)
      else
        let run_start := walk_back (Z.to_nat JITTER_SLOTS) j hi in
        if u64 (hi - run_start + 1) <? RESYNC_MIN_RUN then (j, None)
        else
          let target :=
            if RESYNC_PREROLL <? run_start then run_start - RESYNC_PREROLL else run_start in
          let target := if target <? play_cursor j then play_cursor j else target in
          let skipped := target - play_cursor j in
          (mk_jitter (ring j) (sx j) (frames_per_pkt j) (gen j) target (boundary j)
             (dupes j) (late j) (lost j) (concealed_count j) (overwritten j)
             (u32 (resync_count j + 1)) ((resync_skipped j + skipped) mod 2 ^ long_bits),
           Some skipped)
  end.

(** ** The playout window

    What the ring holds, seen by extended sequence number: [window j e] is the
    packet a pop of [e] would deliver. *)
Definition window (j : jitter_t) (e : Z) : option (Z * bytes) :=
  if slot_received j e then Some (rs_ts (slot_for j e), rs_payload (slot_for j e)) else None.

(** ** Invariant *)

(** What every slot of the ring satisfies. *)
Definition slot_ok (j : jitter_t) (i : nat) (s : ring_slot_t) : Prop :=
  0 <= rs_gen s <= gen j /\
  Z.of_nat (length (rs_payload s)) <= JITTER_MAX_PAYLOAD /\
  (rs_gen s = gen j ->
     slot_idx (rs_ext s) = i /\ 0 <= rs_ext s /\
     (rs_state s = SLOT_RECEIVED -> boundary j <= rs_ext s <= seq_ref (sx j))).

Record jitter_ok (j : jitter_t) : Prop := {
  ok_len : length (ring j) = 512%nat;
  ok_gen : 0 < gen j < 2 ^ 32;
  ok_slots : forall i s, ring j !! i = Some s -> slot_ok j i s;
  ok_bound : 0 <= boundary j <= play_cursor j;
  ok_seq : 0 <= seq_ref (sx j);
}.

(** Room for one more operation before a counter would wrap. *)
Definition jitter_room (j : jitter_t) : Prop :=
  gen j < 2 ^ 32 - 1 /\ play_cursor j < 2 ^ 61 /\ seq_ref (sx j) < 2 ^ 61.

Lemma slot_idx_lt e : (slot_idx e < 512)%nat.
Proof. unfold slot_idx, JITTER_SLOTS. pose proof (Z.mod_pos_bound e 512). lia. Qed.

Lemma slot_idx_eq e e' : slot_idx e = slot_idx e' <-> e mod 512 = e' mod 512.
Proof.
  unfold slot_idx, JITTER_SLOTS.
  pose proof (Z.mod_pos_bound e 512). pose proof (Z.mod_pos_bound e' 512). lia.
Qed.

Lemma slot_for_lookup j e :
  length (ring j) = 512%nat -> ring j !! slot_idx e = Some (slot_for j e).
Proof.
  intros Hl. unfold slot_for.
  destruct (lookup_lt_is_Some_2 (ring j) (slot_idx e)) as [s Hs].
  { rewrite Hl. apply slot_idx_lt. }
  by rewrite Hs.
Qed.

Lemma slot_for_ok j e : jitter_ok j -> slot_ok j (slot_idx e) (slot_for j e).
Proof. intros H. eapply ok_slots; [done|]. by apply slot_for_lookup, ok_len. Qed.

Lemma slot_for_set j e s e' :
  length (ring j) = 512%nat ->
  slot_for (set_slot e s j) e' = if bool_decide (e' mod 512 = e mod 512) then s else slot_for j e'.
Proof.
  intros Hl. unfold slot_for, set_slot. simpl. case_bool_decide as H.
  - apply slot_idx_eq in H. rewrite H.
    rewrite list_lookup_insert_eq; [done|]. rewrite Hl. apply slot_idx_lt.
  - rewrite list_lookup_insert_ne; [done|]. rewrite slot_idx_eq. congruence.
Qed.

(** Operations that leave the ring, the generation and the slots' bounds alone
    leave the window alone. *)
Lemma window_ext j j' e : ring j' = ring j -> gen j' = gen j -> window j' e = window j e.
Proof.
  intros Hr Hg. unfold window, slot_received, slot_for. by rewrite Hr, Hg.
Qed.

Lemma slot_received_iff j e :
  slot_received j e = true <->
  rs_gen (slot_for j e) = gen j /\ rs_ext (slot_for j e) = e /\
  rs_state (slot_for j e) = SLOT_RECEIVED.
Proof.
  unfold slot_received. rewrite !andb_true_iff, bool_decide_eq_true, !Z.eqb_eq. tauto.
Qed.

Lemma window_Some j e p :
  window j e = Some p -> slot_received j e = true /\
  p = (rs_ts (slot_for j e), rs_payload (slot_for j e)).
Proof. unfold window. destruct (slot_received j e); [|done]. by intros [= <-]. Qed.

Lemma window_is_Some j e : is_Some (window j e) <-> slot_received j e = true.
Proof.
  unfold window. destruct (slot_received j e); split; intros; [done|by eexists| |done].
  by destruct H.
Qed.

Lemma window_bool j e : bool_decide (is_Some (window j e)) = slot_received j e.
Proof.
  destruct (slot_received j e) eqn:Hr.
  - apply bool_decide_eq_true_2. by apply window_is_Some.
  - apply bool_decide_eq_false_2. rewrite window_is_Some. congruence.
Qed.

Lemma window_range j e :
  jitter_ok j -> is_Some (window j e) -> boundary j <= e <= seq_ref (sx j).
Proof.
  intros Hok [p Hp]. apply window_Some in Hp as [Hr _].
  apply slot_received_iff in Hr as (Hg & He & Hs).
  destruct (slot_for_ok j e Hok) as (_ & _ & H). destruct (H Hg) as (_ & _ & Hb).
  specialize (Hb Hs). by rewrite He in Hb.
Qed.

(** The window after one slot has been rewritten: a slot of this generation that
    is received shows its packet, anything else hides the slot's index. *)
Lemma window_set j e s e' :
  length (ring j) = 512%nat -> rs_gen s = gen j -> rs_ext s = e ->
  window (set_slot e s j) e' =
    if bool_decide (e' mod 512 = e mod 512) then
      if bool_decide (e' = e) && bool_decide (rs_state s = SLOT_RECEIVED)
      then Some (rs_ts s, rs_payload s) else None
    else window j e'.
Proof.
  intros Hl Hg He. unfold window, slot_received. rewrite slot_for_set by done.
  change (gen (set_slot e s j)) with (gen j).
  case_bool_decide as Hm; [|done].
  rewrite Hg, He, Z.eqb_refl. cbn [andb].
  destruct (Z.eqb_spec e e') as [<-|Hne].
  - rewrite (bool_decide_eq_true_2 (e = e)) by done. done.
  - rewrite (bool_decide_eq_false_2 (e' = e)) by congruence. done.
Qed.

(** Replacing a slot, under possibly changed cursor, boundary and reference. *)
Lemma jitter_ok_update j j' e s :
  jitter_ok j ->
  ring j' = <[slot_idx e := s]> (ring j) -> gen j' = gen j -> boundary j' = boundary j ->
  seq_ref (sx j) <= seq_ref (sx j') -> play_cursor j <= play_cursor j' ->
  slot_ok j' (slot_idx e) s ->
  jitter_ok j'.
Proof.
  intros [Hl Hg Hs Hb Hq] Hr Hg' Hb' Hq' Hc Hs'. constructor.
  - by rewrite Hr, length_insert.
  - by rewrite Hg'.
  - intros i t Ht. rewrite Hr in Ht.
    apply list_lookup_insert_Some in Ht as [(<- & -> & _)|[Hne Ht]]; [done|].
    destruct (Hs i t Ht) as (H1 & H2 & H3). unfold slot_ok. rewrite Hg', Hb'.
    split; [done|]. split; [done|]. intros Hgt. destruct (H3 Hgt) as (H4 & H5 & H6).
    split; [done|]. split; [done|]. intros Hst. specialize (H6 Hst). lia.
  - rewrite Hb'. lia.
  - lia.
Qed.

(** The same when the ring is left alone. *)
Lemma jitter_ok_frame j j' :
  jitter_ok j ->
  ring j' = ring j -> gen j' = gen j -> boundary j' = boundary j ->
  seq_ref (sx j) <= seq_ref (sx j') -> play_cursor j <= play_cursor j' ->
  jitter_ok j'.
Proof.
  intros [Hl Hg Hs Hb Hq] Hr Hg' Hb' Hq' Hc. constructor.
  - by rewrite Hr.
  - by rewrite Hg'.
  - intros i t Ht. rewrite Hr in Ht.
    destruct (Hs i t Ht) as (H1 & H2 & H3). unfold slot_ok. rewrite Hg', Hb'.
    split; [done|]. split; [done|]. intros Hgt. destruct (H3 Hgt) as (H4 & H5 & H6).
    split; [done|]. split; [done|]. intros Hst. specialize (H6 Hst). lia.
  - rewrite Hb'. lia.
  - lia.
Qed.

(** Discharges [jitter_ok] of a state whose ring and generation are those of [j]. *)
Ltac jframe j := apply (jitter_ok_frame j); simpl; first [done | lia].

Lemma jitter_init_ok fpp rs rt :
  0 <= rs < 65536 -> jitter_ok (jitter_init fpp rs rt).
Proof.
  intros H. constructor; try done; try (simpl; lia).
  intros i s Hs. change (ring_zero !! i = Some s) in Hs. unfold ring_zero in Hs.
  apply lookup_replicate in Hs as [-> _].
  unfold slot_ok, JITTER_MAX_PAYLOAD. simpl. lia.
Qed.

(** ** Insertion *)

(** A packet that is not stored leaves the window alone. *)
Local Ltac dropped j :=
  intros [= <- <-]; split_and!; try done; simpl; try lia;
  first [jframe j | left; split_and!; [done|by auto|done]].

(** The cases of an insertion, with the state each leaves. *)
Lemma jitter_insert_cases j wseq wts pl j' rc :
  jitter_ok j -> jitter_room j -> 0 <= wts < 4294967296 ->
  jitter_insert j wseq wts pl = (j', rc) ->
  jitter_ok j' /\ gen j' = gen j /\ boundary j' = boundary j /\
  play_cursor j' = play_cursor j /\ frames_per_pkt j' = frames_per_pkt j /\
  seq_ref (sx j) <= seq_ref (sx j') < seq_ref (sx j) + 32768 /\
  ((rc <> 0 /\ (rc = -1 \/ rc = 1) /\ forall e, window j' e = window j e) \/
   (rc = 0 /\ exists ext,
      (seqext_seq (sx j) wseq).2 = Some ext /\ play_cursor j <= ext /\
      window j ext = None /\ Z.of_nat (length pl) <= JITTER_MAX_PAYLOAD /\
      forall e, window j' e =
        if bool_decide (e mod 512 = ext mod 512)
        then if bool_decide (e = ext) then Some (wts, pl) else None
        else window j e)).
Proof.
  intros Hok [Hg [Hc Hq]] Hts. unfold jitter_insert.
  destruct (Z.ltb_spec JITTER_MAX_PAYLOAD (Z.of_nat (length pl))) as [Hlen|Hlen]; [dropped j|].
  assert (seqext_ok (sx j)) as Hsx.
  { pose proof (ok_seq j Hok). unfold seqext_ok. lia. }
  destruct (seqext_seq (sx j) wseq) as [sx' [ext|]] eqn:Hseq; cbv beta iota zeta; cbn [snd].
  2:{ destruct (seqext_seq_ref _ _ _ _ Hsx Hseq) as (Hr & _ & _).
      assert (jitter_ok (set_sx sx' j)) by (jframe j). dropped j. }
  destruct (seqext_seq_ref _ _ _ _ Hsx Hseq) as (Hr & _ & Hv).
  destruct (Hv ext eq_refl) as [Hve Hvd].
  assert (jitter_ok (set_sx sx' j)) as Hok' by (jframe j).
  change (boundary (set_sx sx' j)) with (boundary j).
  change (play_cursor (set_sx sx' j)) with (play_cursor j).
  change (slot_for (set_sx sx' j) ext) with (slot_for j ext).
  change (gen (set_sx sx' j)) with (gen j).
  destruct (Z.ltb_spec ext (boundary j)); [dropped j|].
  destruct (Z.ltb_spec ext (play_cursor j)); [dropped j|].
  fold (slot_received j ext).
  destruct (slot_received j ext) eqn:Hrec; [dropped j|].
  match goal with |- context [if ?b then add_overwritten ?k else ?k] =>
    set (j1 := if b then add_overwritten k else k) end.
  assert (ring j1 = ring j /\ gen j1 = gen j /\ boundary j1 = boundary j /\
    play_cursor j1 = play_cursor j /\ sx j1 = sx' /\ frames_per_pkt j1 = frames_per_pkt j)
    as (R1 & R2 & R3 & R4 & R5 & R6).
  { unfold j1. by case_match. }
  pose proof (seqext_ts_seq_ref (sx j1) wts) as Hts1.
  pose proof (seqext_ts_u32 (sx j1) wts Hts) as Hts2.
  destruct (seqext_ts (sx j1) wts) as [sx'' ts]. simpl in Hts1, Hts2.
  cbv beta iota. rewrite Hts2. rewrite R5 in Hts1.
  intros [= <- <-]. simpl.
  split_and!; try done; try (rewrite ?Hts1; lia).
  - eapply (jitter_ok_update j _ ext); simpl; rewrite ?R1, ?R2, ?R3, ?R4, ?Hts1; try done; [lia|].
    unfold slot_ok. simpl. rewrite R2, R3, Hts1.
    pose proof (ok_gen j Hok). pose proof (ok_bound j Hok). split_and!; [lia|lia|done|].
    intros _. split_and!; [done|lia|]. intros _. lia.
  - right. split; [done|]. exists ext. split_and!; [done|lia| |done|].
    + unfold window. by rewrite Hrec.
    + intros e. rewrite window_set; simpl; try done.
      * case_bool_decide; [|by apply window_ext].
        by rewrite andb_true_r.
      * rewrite R1. by apply ok_len.
Qed.

(** ** Pop *)

(** The window loses the popped packet, or the slot of the concealed one. *)
Lemma jitter_pop_cases dl j j' r :
  jitter_ok j -> jitter_room j ->
  jitter_pop dl j = (j', r) ->
  jitter_ok j' /\ gen j' = gen j /\ boundary j' = boundary j /\ sx j' = sx j /\
  match r with
  | Some s =>
      play_cursor j' = play_cursor j + 1 /\ js_ext s = play_cursor j /\
      js_frames s = frames_per_pkt j /\
      match js_kind s with
      | POP_DATA => window j (play_cursor j) = Some (js_ts s, js_payload s)
      | POP_CONCEAL =>
          window j (play_cursor j) = None /\ js_ts s = 0 /\ js_payload s = [] /\
          (exists f, dl = Some f /\ f (play_cursor j) = true)
      end /\
      forall e, window j' e =
        if bool_decide (e mod 512 = play_cursor j mod 512) then None else window j e
  | None =>
      j' = j /\ window j (play_cursor j) = None /\
      match dl with Some f => f (play_cursor j) = false | None => True end
  end.
Proof.
  intros Hok (Hg & Hc & Hq). unfold jitter_pop.
  pose proof (ok_len j Hok) as Hl. pose proof (ok_bound j Hok) as Hb.
  pose proof (slot_for_ok j (play_cursor j) Hok) as (S1 & S2 & S3).
  destruct (slot_received j (play_cursor j)) eqn:Hrec.
  - apply slot_received_iff in Hrec as Hr. destruct Hr as (R1 & R2 & R3).
    rewrite u64_small by lia. intros [= <- <-]. simpl.
    split_and!; try done.
    + apply (jitter_ok_update j _ (play_cursor j)
        (mk_rslot SLOT_CONSUMED (rs_gen (slot_for j (play_cursor j)))
          (rs_ext (slot_for j (play_cursor j))) (rs_ts (slot_for j (play_cursor j)))
          (rs_payload (slot_for j (play_cursor j))))); simpl; try done; [lia|].
      unfold slot_ok. simpl. split_and!; [lia|lia|done|].
      intros Hge. destruct (S3 Hge) as (T1 & T2 & _). done.
    + unfold window. by rewrite Hrec.
    + intros e. rewrite (window_ext (set_slot (play_cursor j)
        (mk_rslot SLOT_CONSUMED (rs_gen (slot_for j (play_cursor j)))
          (rs_ext (slot_for j (play_cursor j))) (rs_ts (slot_for j (play_cursor j)))
          (rs_payload (slot_for j (play_cursor j)))) j)) by done.
      rewrite window_set by done. simpl. case_bool_decide; [|done]. by rewrite andb_false_r.
  - assert (window j (play_cursor j) = None) as Hw by (unfold window; by rewrite Hrec).
    destruct (match dl with Some f => f (play_cursor j) | None => false end) eqn:Hdl.
    2:{ intros [= <- <-]. split_and!; try done. by destruct dl. }
    rewrite u64_small by lia. intros [= <- <-]. simpl. split_and!; try done.
    + apply (jitter_ok_update j _ (play_cursor j)
        (mk_rslot SLOT_CONCEALED (gen j) (play_cursor j) (rs_ts (slot_for j (play_cursor j)))
          (rs_payload (slot_for j (play_cursor j))))); simpl; try done; [lia|].
      pose proof (ok_gen j Hok).
      unfold slot_ok. simpl. split_and!; [lia|lia|done|]. intros _. split_and!; [done|lia|done].
    + destruct dl as [f|]; [|done]. by exists f.
    + intros e. rewrite (window_ext (set_slot (play_cursor j)
        (mk_rslot SLOT_CONCEALED (gen j) (play_cursor j)
          (rs_ts (slot_for j (play_cursor j))) (rs_payload (slot_for j (play_cursor j)))) j))
        by done.
      rewrite window_set by done. simpl. case_bool_decide; [|done]. by rewrite andb_false_r.
Qed.

(** ** Flush *)

(** Every slot of an older generation is invisible. *)
Lemma jitter_flush_cases j nseq nts :
  jitter_ok j -> jitter_room j -> 0 <= nseq < 65536 ->
  jitter_ok (jitter_flush j nseq nts) /\
  gen (jitter_flush j nseq nts) = gen j + 1 /\
  (forall e, window (jitter_flush j nseq nts) e = None).
Proof.
  intros Hok (Hg & _ & _) Hn. pose proof (ok_gen j Hok) as Hgen.
  assert (gen (jitter_flush j nseq nts) = gen j + 1) as Hg'.
  { unfold jitter_flush. simpl. by rewrite u32_small by lia. }
  assert (forall i s, ring j !! i = Some s -> rs_gen s <= gen j) as Hold.
  { intros i s Hs. by destruct (ok_slots j Hok i s Hs) as ([_ H] & _). }
  split_and!; [|done|].
  - constructor; rewrite ?Hg'; simpl; try lia.
    + by apply ok_len.
    + intros i s Hs. simpl in Hs. destruct (ok_slots j Hok i s Hs) as (H1 & H2 & _).
      unfold slot_ok. rewrite Hg'. split_and!; [lia|lia|done|]. intros He. lia.
  - intros e. unfold window, slot_received. rewrite Hg'.
    change (slot_for (jitter_flush j nseq nts) e) with (slot_for j e).
    pose proof (Hold _ _ (slot_for_lookup j e (ok_len j Hok))).
    destruct (Z.eqb_spec (rs_gen (slot_for j e)) (gen j + 1)); [lia|done].
Qed.

(** ** Resend scan *)

(** The scan reports the first maximal hole that a settled slot ends. *)
Lemma resend_loop_some fuel j e lim hole from to :
  resend_loop fuel j e lim hole = Some (from, to) ->
  (forall h, hole = Some h -> h <= e) ->
  e <= to + 1 < lim /\ slot_settled j (to + 1) = true /\
  match hole with Some h => from = h | None => e <= from <= to end /\
  (forall x, Z.max e from <= x <= to -> slot_settled j x = false) /\
  (hole = None -> forall x, e <= x < from -> slot_settled j x = true).
Proof.
  revert e hole. induction fuel as [|fuel IH]; intros e hole; simpl; [done|].
  destruct (Z.ltb_spec e lim); [|done].
  destruct (slot_settled j e) eqn:Hs.
  - destruct hole as [h|]; intros Hres Hh.
    + injection Hres as <- <-. specialize (Hh h eq_refl).
      replace (e - 1 + 1) with e by lia. split_and!; try done; try lia.
    + apply IH in Hres as (H1 & H2 & H3 & H4 & H5); [|done].
      split_and!; try done; try lia.
      * intros x Hx. apply H4. lia.
      * intros _ x Hx. destruct (decide (x = e)) as [->|]; [done|].
        apply (H5 eq_refl). lia.
  - intros Hres Hh.
    apply IH in Hres as (H1 & H2 & H3 & H4 & _).
    2:{ destruct hole as [h'|]; intros h [= <-]; [specialize (Hh h' eq_refl); lia|lia]. }
    assert (forall x, Z.max e from <= x <= to -> slot_settled j x = false) as Hall.
    { intros x Hx. destruct (decide (x = e)) as [->|]; [done|]. apply H4. lia. }
    destruct hole as [h|]; simpl in H3; subst from.
    + specialize (Hh h eq_refl). split_and!; try done; lia.
    + split_and!; try done; try lia.
Qed.

Lemma resend_loop_none fuel j e lim hole :
  resend_loop fuel j e lim hole = None -> lim - e <= Z.of_nat fuel ->
  match hole with
  | Some _ => forall x, e <= x < lim -> slot_settled j x = false
  | None => forall x y, e <= x < y -> y < lim ->
      slot_settled j x = false -> slot_settled j y = false
  end.
Proof.
  revert e hole. induction fuel as [|fuel IH]; intros e hole; cbn [resend_loop].
  { intros _ Hf. destruct hole; intros; lia. }
  intros Hres Hf. destruct (Z.ltb_spec e lim); [|destruct hole; intros; lia].
  destruct (slot_settled j e) eqn:Hs.
  - destruct hole as [h|]; [done|]. apply IH in Hres; [|lia].
    intros x y Hx Hy Hxs. destruct (decide (x = e)) as [->|]; [congruence|].
    apply (Hres x y); [lia|done|done].
  - apply IH in Hres; [|lia].
    destruct hole as [h|]; simpl in Hres.
    + intros x Hx. destruct (decide (x = e)) as [->|]; [done|]. apply Hres. lia.
    + intros x y Hx Hy _. apply Hres. lia.
Qed.

(** ** Resync *)

(** [scan_hi] over the ring: the maximum received ext_seq not behind the cursor. *)
Lemma scan_hi_fold j l acc :
  match foldl (scan_hi j) acc l with
  | None => acc = None /\ Forall (fun s => scan_hi j None s = None) l
  | Some hi =>
      (acc = Some hi \/ exists s, s ∈ l /\ scan_hi j None s = Some hi) /\
      (forall a, acc = Some a -> a <= hi) /\
      (forall s x, s ∈ l -> scan_hi j None s = Some x -> x <= hi)
  end.
Proof.
  revert acc. induction l as [|s l IH]; intros acc; simpl.
  - destruct acc as [a|]; [|done]. split_and!; [by left| |].
    + intros ? [= ->]. lia.
    + intros s x Hs. by apply not_elem_of_nil in Hs.
  - specialize (IH (scan_hi j acc s)).
    destruct (foldl (scan_hi j) (scan_hi j acc s) l) as [hi|].
    + destruct IH as (I1 & I2 & I3).
      assert (forall x, scan_hi j None s = Some x -> x <= hi) as Hx.
      { intros x. unfold scan_hi at 1. unfold scan_hi in I2. case_match; [|done].
        intros [= <-]. destruct acc as [a|]; [|by apply I2].
        destruct (Z.ltb_spec a (rs_ext s)); [by apply I2|].
        specialize (I2 a eq_refl). lia. }
      split_and!.
      * destruct I1 as [I1|(t & Ht & Htx)]; [|right; exists t; split; [by right|done]].
        unfold scan_hi in I1. unfold scan_hi. 
        destruct ((rs_gen s =? gen j) && bool_decide (rs_state s = SLOT_RECEIVED) &&
                  (play_cursor j <=? rs_ext s)) eqn:Hc; [|by left].
        destruct acc as [a|].
        -- destruct (a <? rs_ext s); [right|by left].
           exists s. split; [by left|]. by rewrite Hc.
        -- right. exists s. split; [by left|]. by rewrite Hc.
      * intros a ->. unfold scan_hi in I2. case_match; [|by apply I2].
        destruct (Z.ltb_spec a (rs_ext s)); [|by apply I2].
        specialize (I2 _ eq_refl). lia.
      * intros t x Ht Htx. apply elem_of_cons in Ht as [->|Ht]; [by apply Hx|by eapply I3].
    + destruct IH as [I1 I2]. unfold scan_hi in I1.
      destruct ((rs_gen s =? gen j) && bool_decide (rs_state s = SLOT_RECEIVED) &&
                (play_cursor j <=? rs_ext s)) eqn:Hc.
      * destruct acc as [a|]; [|done]. by destruct (a <? rs_ext s).
      * split; [done|]. constructor; [|done]. unfold scan_hi. by rewrite Hc.
Qed.

(** The received slots of the ring are the window at or after the cursor. *)
Lemma scan_hi_window j s x :
  jitter_ok j -> s ∈ ring j -> scan_hi j None s = Some x ->
  play_cursor j <= x /\ is_Some (window j x).
Proof.
  intros Hok Hs Hx. unfold scan_hi in Hx. case_match eqn:Hc; [|done]. injection Hx as <-.
  rewrite !andb_true_iff, bool_decide_eq_true, Z.eqb_eq, Z.leb_le in Hc.
  destruct Hc as [[Hg Hst] Hle]. split; [done|].
  apply list_elem_of_lookup in Hs as [i Hi].
  destruct (ok_slots j Hok i s Hi) as (_ & _ & H3). destruct (H3 Hg) as (H4 & _ & _).
  apply window_is_Some, slot_received_iff. unfold slot_for. rewrite H4, Hi. done.
Qed.

Lemma window_scan_hi j e :
  jitter_ok j -> play_cursor j <= e -> is_Some (window j e) ->
  exists s, s ∈ ring j /\ scan_hi j None s = Some e.
Proof.
  intros Hok He Hw. apply window_is_Some, slot_received_iff in Hw as (H1 & H2 & H3).
  exists (slot_for j e). split.
  - apply list_elem_of_lookup. exists (slot_idx e). by apply slot_for_lookup, ok_len.
  - unfold scan_hi. rewrite H1, H3, H2, Z.eqb_refl.
    rewrite (bool_decide_eq_true_2 (SLOT_RECEIVED = SLOT_RECEIVED)) by done.
    by rewrite (proj2 (Z.leb_le _ _) He).
Qed.

(** [hi] of the code is the newest received packet at or after the cursor. *)
Lemma scan_hi_spec j :
  jitter_ok j ->
  match foldl (scan_hi j) None (ring j) with
  | None => forall e, play_cursor j <= e -> window j e = None
  | Some hi => play_cursor j <= hi /\ is_Some (window j hi) /\
      forall e, play_cursor j <= e -> is_Some (window j e) -> e <= hi
  end.
Proof.
  intros Hok. pose proof (scan_hi_fold j (ring j) None) as H.
  destruct (foldl (scan_hi j) None (ring j)) as [hi|].
  - destruct H as ([H|(s & Hs & Hx)] & _ & H3); [done|].
    destruct (scan_hi_window j s hi Hok Hs Hx). split_and!; [done|done|].
    intros e He Hw. destruct (window_scan_hi j e Hok He Hw) as (t & Ht & Htx). by eapply H3.
  - intros e He. destruct (window j e) eqn:Hw; [|done]. exfalso.
    destruct (window_scan_hi j e Hok He) as (t & Ht & Htx); [by eexists|].
    destruct H as [_ H]. rewrite Forall_forall in H. apply list_elem_of_In in Ht; specialize (H t Ht). congruence.
Qed.

Lemma walk_back_spec fuel j hi :
  let r := walk_back fuel j hi in
  (r <= hi) /\ (play_cursor j <= hi -> play_cursor j <= r) /\
  hi - r <= Z.of_nat fuel /\
  (forall e, r <= e < hi -> slot_received j e = true) /\
  (hi - r < Z.of_nat fuel ->
     r <= play_cursor j \/ slot_received j (r - 1) = false).
Proof.
  revert hi. induction fuel as [|fuel IH]; intros hi; cbn [walk_back].
  - cbv zeta. split_and!; try done; intros; lia.
  - destruct (Z.ltb_spec (play_cursor j) hi).
    2:{ cbv zeta. split_and!; try lia; intros; lia. }
    destruct (slot_received j (hi - 1)) eqn:Hr.
    2:{ cbv zeta. split_and!; try lia; intros; try lia. by right. }
    specialize (IH (hi - 1)). cbv zeta in *. destruct IH as (I1 & I2 & I3 & I4 & I5).
    split_and!; try lia.
    + intros e He. destruct (decide (e = hi - 1)) as [->|]; [done|]. apply I4. lia.
    + intros Hf. apply I5. lia.
Qed.

(** A run of received slots is shorter than the ring: the 512 steps of
    [walk_back] never run out. *)
Lemma walk_back_fuel j hi :
  jitter_ok j -> is_Some (window j hi) ->
  hi - walk_back (Z.to_nat JITTER_SLOTS) j hi < JITTER_SLOTS.
Proof.
  intros Hok Hhi. destruct (walk_back_spec (Z.to_nat JITTER_SLOTS) j hi) as (_ & _ & H3 & H4 & _).
  apply Z.nle_gt. intros Hge. change (Z.of_nat (Z.to_nat JITTER_SLOTS)) with 512 in H3.
  change JITTER_SLOTS with 512 in *.
  assert (slot_received j (hi - 512) = true) as Hr by (apply H4; lia).
  apply window_is_Some in Hhi.
  apply slot_received_iff in Hr as (_ & R2 & _). apply slot_received_iff in Hhi as (_ & Q2 & _).
  assert (slot_for j (hi - 512) = slot_for j hi) as E.
  { unfold slot_for. f_equal. f_equal. apply slot_idx_eq.
    replace (hi - 512) with (hi + (-1) * 512) by lia. by rewrite Z.mod_add. }
  rewrite E in R2. lia.
Qed.

#[global] Arguments jitter_insert : simpl never.
#[global] Arguments jitter_pop : simpl never.
#[global] Arguments jitter_flush : simpl never.
#[global] Arguments jitter_try_resync : simpl never.
#[global] Arguments jitter_next_resend : simpl never.
