(* ===== verification/JitterSpec.v ===== *)
(** * What the jitter buffer promises

    The abstract playout window: a cursor, a boundary and a partial map from true
    packet indices to packets.  The ring of [Jitter] refines it, and the delivery
    guarantees are proved on the abstract machine. *)
From Stdlib Require Import ZArith Lia.
From stdpp Require Import base numbers list option.
From S2P Require Import Prelude Seqext Jitter.

Local Open Scope Z_scope.

(** ** The abstract machine *)

Record playout := mk_playout {
  po_cursor : Z;
  po_bound : Z;
  po_frames : Z;
  po_win : Z -> option (Z * bytes);
}.

(** One slot of the ring serves every index of a residue class modulo 512:
    using it for one index forgets the others. *)
Definition evict (i : Z) (w : Z -> option (Z * bytes)) : Z -> option (Z * bytes) :=
  fun e => if bool_decide (e mod 512 = i mod 512) then None else w e.
Definition put (i : Z) (p : Z * bytes) (w : Z -> option (Z * bytes)) : Z -> option (Z * bytes) :=
  fun e => if bool_decide (e mod 512 = i mod 512)
           then if bool_decide (e = i) then Some p else None
           else w e.

(** The operations of the buffer, a packet being named by its true index. *)
Inductive jop :=
  | OpInsert (idx ts : Z) (pl : bytes)
  | OpPop (dl : option (Z -> bool))
  | OpFlush (seq ts : Z)
  | OpResync.

Inductive jout :=
  | OutInsert (rc : Z)
  | OutPop (r : option jitter_slot_t)
  | OutFlush
  | OutResync (skipped : option Z).

(** The return code of an insertion, from the window alone. *)
Definition insert_rc (a : playout) (idx : Z) (pl : bytes) : Z :=
  if JITTER_MAX_PAYLOAD <? Z.of_nat (length pl) then -1
  else if idx <? po_bound a then -1
  else if idx <? po_cursor a then 1
  else if bool_decide (is_Some (po_win a idx)) then 1
  else 0.

(** A step of the abstract machine.  A resync may only move the cursor forward,
    to at most 16 packets before a run of at least 8 packets that are present. *)
Inductive sstep (a : playout) : jop -> jout -> playout -> Prop :=
  | S_insert idx ts pl a' :
      po_cursor a' = po_cursor a -> po_bound a' = po_bound a -> po_frames a' = po_frames a ->
      (forall e, po_win a' e =
         if insert_rc a idx pl =? 0 then put idx (ts, pl) (po_win a) e else po_win a e) ->
      sstep a (OpInsert idx ts pl) (OutInsert (insert_rc a idx pl)) a'
  | S_pop_data dl ts pl a' :
      po_win a (po_cursor a) = Some (ts, pl) ->
      po_cursor a' = po_cursor a + 1 -> po_bound a' = po_bound a -> po_frames a' = po_frames a ->
      (forall e, po_win a' e = evict (po_cursor a) (po_win a) e) ->
      sstep a (OpPop dl)
        (OutPop (Some (mk_jslot POP_DATA (po_cursor a) ts (po_frames a) pl))) a'
  | S_pop_conceal f a' :
      po_win a (po_cursor a) = None -> f (po_cursor a) = true ->
      po_cursor a' = po_cursor a + 1 -> po_bound a' = po_bound a -> po_frames a' = po_frames a ->
      (forall e, po_win a' e = evict (po_cursor a) (po_win a) e) ->
      sstep a (OpPop (Some f))
        (OutPop (Some (mk_jslot POP_CONCEAL (po_cursor a) 0 (po_frames a) []))) a'
  | S_pop_stall dl :
      po_win a (po_cursor a) = None ->
      (forall f, dl = Some f -> f (po_cursor a) = false) ->
      sstep a (OpPop dl) (OutPop None) a
  | S_flush seq ts a' :
      po_cursor a' = seq -> po_bound a' = seq -> po_frames a' = po_frames a ->
      (forall e, po_win a' e = None) ->
      sstep a (OpFlush seq ts) OutFlush a'
  | S_resync_no : sstep a OpResync (OutResync None) a
  | S_resync skipped r hi a' :
      0 <= skipped -> po_cursor a' = po_cursor a + skipped ->
      po_bound a' = po_bound a -> po_frames a' = po_frames a ->
      po_cursor a + RESYNC_BEHIND <= hi -> r + RESYNC_MIN_RUN <= hi + 1 ->
      po_cursor a' <= r <= Z.max (po_cursor a) (po_cursor a' + RESYNC_PREROLL) ->
      (forall e, r <= e <= hi -> is_Some (po_win a e)) ->
      (forall e, po_cursor a <= e -> is_Some (po_win a e) -> e <= hi) ->
      (forall e, po_win a' e = po_win a e) ->
      sstep a OpResync (OutResync (Some skipped)) a'.

(** ** The refinement *)

Definition jstep `{DataModel} (j : jitter_t) (op : jop) : jitter_t * jout :=
  match op with
  | OpInsert idx ts pl => let '(j', rc) := jitter_insert j (u16 idx) ts pl in (j', OutInsert rc)
  | OpPop dl => let '(j', r) := jitter_pop dl j in (j', OutPop r)
  | OpFlush seq ts => (jitter_flush j seq ts, OutFlush)
  | OpResync => let '(j', r) := jitter_try_resync j in (j', OutResync r)
  end.

(** What the caller guarantees: packets carry 32-bit timestamps and true indices
    within half the wire range of the newest one, flushes 16-bit numbers. *)
Definition op_ok (j : jitter_t) (op : jop) : Prop :=
  match op with
  | OpInsert idx ts pl =>
      0 <= idx /\ -32768 < idx - seq_ref (sx j) < 32768 /\ 0 <= ts < 4294967296
  | OpFlush seq ts => 0 <= seq < 65536
  | _ => True
  end.

Definition abs (j : jitter_t) : playout :=
  mk_playout (play_cursor j) (boundary j) (frames_per_pkt j) (window j).

(** The return code of an insertion of a packet with true index [idx]. *)
Lemma jitter_insert_rc j idx ts pl :
  jitter_ok j -> jitter_room j -> 0 <= idx -> -32768 < idx - seq_ref (sx j) < 32768 ->
  (jitter_insert j (u16 idx) ts pl).2 = insert_rc (abs j) idx pl.
Proof.
  intros Hok (_ & _ & Hq) Hi Hd. pose proof (ok_seq j Hok).
  unfold jitter_insert, insert_rc. cbn [po_bound po_cursor po_win abs].
  destruct (JITTER_MAX_PAYLOAD <? Z.of_nat (length pl)); [done|].
  rewrite seqext_seq_index by (unfold seqext_ok; lia). cbv zeta.
  match goal with |- context [set_sx ?x j] => set (x0 := x) end.
  change (boundary (set_sx x0 j)) with (boundary j).
  change (play_cursor (set_sx x0 j)) with (play_cursor j).
  destruct (idx <? boundary j); [done|]. destruct (idx <? play_cursor j); [done|].
  change (slot_for (set_sx x0 j) idx) with (slot_for j idx).
  change (gen (set_sx x0 j)) with (gen j). fold (slot_received j idx).
  rewrite window_bool. destruct (slot_received j idx); [done|]. by destruct (seqext_ts _ _).
Qed.

(** A resync leaves the window alone and moves the cursor forward to the preroll
    of a run of received packets that ends at the newest one. *)
Lemma jitter_try_resync_cases `{DataModel} j j' r :
  jitter_ok j -> jitter_room j -> jitter_try_resync j = (j', r) ->
  match r with
  | None => j' = j
  | Some skipped =>
      jitter_ok j' /\ (forall e, window j' e = window j e) /\ gen j' = gen j /\
      boundary j' = boundary j /\ sx j' = sx j /\ frames_per_pkt j' = frames_per_pkt j /\
      0 <= skipped /\ play_cursor j' = play_cursor j + skipped /\
      exists run hi,
        play_cursor j + RESYNC_BEHIND <= hi /\ run + RESYNC_MIN_RUN <= hi + 1 /\
        play_cursor j' <= run <= Z.max (play_cursor j) (play_cursor j' + RESYNC_PREROLL) /\
        (forall e, run <= e <= hi -> is_Some (window j e)) /\
        (forall e, play_cursor j <= e -> is_Some (window j e) -> e <= hi) /\
        hi <= seq_ref (sx j)
  end.
Proof.
  intros Hok (_ & Hc & Hq). unfold jitter_try_resync.
  pose proof (scan_hi_spec j Hok) as Hhi.
  destruct (foldl (scan_hi j) None (ring j)) as [hi|]; [|by intros [= <- <-]].
  destruct Hhi as (H1 & H2 & H3). pose proof (window_range j hi Hok H2) as H4.
  pose proof (ok_bound j Hok) as Hb.
  rewrite (u64_small (play_cursor j + RESYNC_BEHIND)) by (unfold RESYNC_BEHIND; lia).
  destruct (Z.ltb_spec hi (play_cursor j + RESYNC_BEHIND)); [by intros [= <- <-]|].
  pose proof (walk_back_spec (Z.to_nat JITTER_SLOTS) j hi) as W. cbv zeta in W |- *.
  set (run := walk_back _ j hi) in *. destruct W as (W1 & W2 & W3 & W4 & _).
  specialize (W2 H1). unfold RESYNC_BEHIND, RESYNC_MIN_RUN, RESYNC_PREROLL in *.
  rewrite (u64_small (hi - run + 1)) by lia.
  destruct (Z.ltb_spec (hi - run + 1) 8); [by intros [= <- <-]|].
  set (t0 := if 16 <? run then run - 16 else run).
  set (t := if t0 <? play_cursor j then play_cursor j else t0).
  assert (play_cursor j <= t <= run /\ run <= Z.max (play_cursor j) (t + 16)) as Ht.
  { unfold t, t0. destruct (Z.ltb_spec 16 run); case_match eqn:E;
      first [rewrite Z.ltb_lt in E | rewrite Z.ltb_ge in E]; lia. }
  intros [= <- <-]. simpl. split_and!; try done; try lia.
  - apply (jitter_ok_frame j); simpl; first [done | lia].
  - exists run, hi. split_and!; try done; try lia.
    intros e He. destruct (decide (e = hi)) as [->|]; [done|].
    apply window_is_Some, W4. lia.
Qed.

(** Every step of the ring is a step of the abstract machine. *)
Lemma jstep_refines `{DataModel} j op j' o :
  jitter_ok j -> jitter_room j -> op_ok j op -> jstep j op = (j', o) ->
  jitter_ok j' /\ sstep (abs j) op o (abs j').
Proof.
  intros Hok Hroom Hop Hst. destruct op as [idx ts pl|dl|seq ts|]; simpl in Hst, Hop.
  - destruct Hop as (Hi & Hd & Hts).
    pose proof (jitter_insert_rc j idx ts pl Hok Hroom Hi Hd) as Hrc.
    destruct (jitter_insert j (u16 idx) ts pl) as [j1 rc] eqn:E. injection Hst as <- <-.
    simpl in Hrc. subst rc.
    destruct (jitter_insert_cases _ _ _ _ _ _ Hok Hroom Hts E)
      as (Hok' & _ & Hb & Hc & Hf & _ & Hw).
    split; [done|]. constructor; simpl; [done|done|done|]. intros e.
    destruct Hw as [(Hne & _ & Hw)|(H0 & ext & Hext & _ & _ & _ & Hw)].
    + destruct (Z.eqb_spec (insert_rc (abs j) idx pl) 0); [done|apply Hw].
    + rewrite H0. simpl. rewrite Hw.
      rewrite seqext_seq_index in Hext; [|unfold seqext_ok|done|done].
      * injection Hext as <-. done.
      * destruct Hroom as (_ & _ & ?). pose proof (ok_seq j Hok). lia.
  - destruct (jitter_pop dl j) as [j1 r] eqn:E. injection Hst as <- <-.
    assert (frames_per_pkt j1 = frames_per_pkt j) as Hfr.
    { revert E. unfold jitter_pop. repeat case_match; by intros [= <- _]. }
    destruct (jitter_pop_cases _ _ _ _ Hok Hroom E) as (Hok' & _ & Hb & _ & Hr).
    split; [done|]. destruct r as [[k ex ts fr pl]|].
    + destruct Hr as (Hc & He & Hf & Hk & Hw). simpl in He, Hf, Hk. subst ex fr.
      destruct k.
      * apply S_pop_data; simpl; done.
      * destruct Hk as (Hk1 & -> & -> & f & -> & Hf). apply S_pop_conceal; simpl; done.
    + destruct Hr as (-> & Hw & Hdl). apply S_pop_stall; simpl; [done|].
      intros f ->. done.
  - injection Hst as <- <-. destruct (jitter_flush_cases j seq ts Hok Hroom Hop) as (? & _ & Hw).
    split; [done|]. apply S_flush; simpl; done.
  - destruct (jitter_try_resync j) as [j1 r] eqn:E. injection Hst as <- <-.
    pose proof (jitter_try_resync_cases _ _ _ Hok Hroom E) as Hr. destruct r as [sk|].
    + destruct Hr as (Hok' & Hw & _ & Hb & _ & Hf & Hs0 & Hcur & run & hi & ? & ? & ? & ? & ? & _).
      split; [done|]. eapply (S_resync _ sk run hi); simpl; done.
    + subst j1. split; [done|]. constructor.
Qed.

(** ** Runs *)

Inductive jrun `{DataModel} : jitter_t -> list (jop * jout) -> jitter_t -> Prop :=
  | jrun_nil j : jrun j [] j
  | jrun_cons j op o j1 tr j2 :
      op_ok j op -> jstep j op = (j1, o) -> jrun j1 tr j2 -> jrun j ((op, o) :: tr) j2.

Inductive srun : playout -> list (jop * jout) -> playout -> Prop :=
  | srun_nil a : srun a [] a
  | srun_cons a op o a1 tr a2 :
      sstep a op o a1 -> srun a1 tr a2 -> srun a ((op, o) :: tr) a2.

Definition is_flush (x : jop * jout) : bool :=
  match x.1 with OpFlush _ _ => true | _ => false end.
Definition flushes (tr : list (jop * jout)) : Z := Z.of_nat (length (List.filter is_flush tr)).

(** Room for a whole run: fewer than 2^32 flushes, and 2^46 operations before an
    extended number leaves the 64-bit range. *)
Definition run_room (j : jitter_t) (tr : list (jop * jout)) : Prop :=
  gen j + flushes tr < 2 ^ 32 - 1 /\
  Z.max (play_cursor j) (seq_ref (sx j)) + 65536 * Z.of_nat (length tr) < 2 ^ 61.

Lemma flushes_cons x tr : flushes (x :: tr) = (if is_flush x then 1 else 0) + flushes tr.
Proof. unfold flushes. simpl. destruct (is_flush x); simpl; lia. Qed.

Lemma flushes_nonneg tr : 0 <= flushes tr.
Proof. unfold flushes. lia. Qed.

Lemma run_room_here j x tr : run_room j (x :: tr) -> jitter_room j.
Proof.
  unfold run_room, jitter_room. rewrite flushes_cons. pose proof (flushes_nonneg tr).
  destruct (is_flush x); cbn [length]; lia.
Qed.

(** Each step uses up at most its share of the room. *)
Lemma jstep_room `{DataModel} j op o j' tr :
  jitter_ok j -> run_room j ((op, o) :: tr) -> op_ok j op -> jstep j op = (j', o) ->
  run_room j' tr.
Proof.
  intros Hok Hrun Hop Hst. pose proof (run_room_here _ _ _ Hrun) as Hroom.
  unfold run_room in *. rewrite flushes_cons in Hrun. cbn [length] in Hrun.
  destruct op as [idx ts pl|dl|seq ts|]; simpl in Hst, Hop; cbn [is_flush fst] in Hrun.
  - destruct Hop as (Hi & Hd & Hts).
    destruct (jitter_insert j (u16 idx) ts pl) as [j1 rc] eqn:E. injection Hst as <- <-.
    destruct (jitter_insert_cases _ _ _ _ _ _ Hok Hroom Hts E) as (_ & Hg & _ & Hc & _ & Hq & _).
    lia.
  - destruct (jitter_pop dl j) as [j1 r] eqn:E. injection Hst as <- <-.
    destruct (jitter_pop_cases _ _ _ _ Hok Hroom E) as (_ & Hg & _ & Hq & Hr).
    rewrite Hq, Hg. clear -Hr Hrun. destruct r; destruct Hr as (Hr & _); [rewrite Hr|subst j1];
      clear -Hrun; lia.
  - injection Hst as <- <-. destruct (jitter_flush_cases j seq ts Hok Hroom Hop) as (_ & -> & _).
    pose proof (ok_bound j Hok). unfold jitter_flush, seqext_rebase. cbn [play_cursor sx seq_ref]. lia.
  - destruct (jitter_try_resync j) as [j1 r] eqn:E. injection Hst as <- <-.
    pose proof (jitter_try_resync_cases _ _ _ Hok Hroom E) as Hr. destruct r as [sk|].
    + destruct Hr as (_ & _ & -> & _ & -> & _ & _ & Hc & run & hi & H1 & H2 & H3 & H4 & H5 & H6).
      unfold RESYNC_MIN_RUN in *. lia.
    + subst j1. lia.
Qed.

Lemma jrun_refines `{DataModel} j tr j' :
  jitter_ok j -> run_room j tr -> jrun j tr j' -> jitter_ok j' /\ srun (abs j) tr (abs j').
Proof.
  intros Hok Hroom Hrun. induction Hrun as [j|j op o j1 tr j2 Hop Hst Hrun IH].
  { split; [done|constructor]. }
  destruct (jstep_refines j op j1 o Hok (run_room_here _ _ _ Hroom) Hop Hst) as [Hok1 Hs].
  pose proof (jstep_room j op o j1 tr Hok Hroom Hop Hst) as Hroom1.
  destruct (IH Hok1 Hroom1) as [Hok2 Hs2]. split; [done|]. by econstructor.
Qed.

(** ** Guarantees of the abstract machine *)

Definition popped (x : jop * jout) : option Z :=
  match x.2 with OutPop (Some s) => Some (js_ext s) | _ => None end.
Definition pops (tr : list (jop * jout)) : list Z := omap popped tr.

(** One step without a flush: the cursor does not move back, and a popped index
    is the old cursor, below the new one. *)
Lemma sstep_cursor a op o a' :
  sstep a op o a' -> is_flush (op, o) = false ->
  po_cursor a <= po_cursor a' /\
  match popped (op, o) with
  | Some e => e = po_cursor a /\ po_cursor a' = po_cursor a + 1
  | None => True
  end.
Proof. destruct 1; simpl; intros; try done; split_and?; try done; lia. Qed.

Fixpoint increasing_from (lo : Z) (l : list Z) : Prop :=
  match l with
  | [] => True
  | x :: l' => lo <= x /\ increasing_from (x + 1) l'
  end.

Lemma increasing_from_weaken lo lo' l :
  lo' <= lo -> increasing_from lo l -> increasing_from lo' l.
Proof. destruct l; simpl; [done|]. intros ? [? ?]. split; [lia|done]. Qed.

Lemma srun_increasing a tr a' :
  srun a tr a' -> flushes tr = 0 -> increasing_from (po_cursor a) (pops tr).
Proof.
  induction 1 as [a|a op o a1 tr a2 Hs Hrun IH]; [done|].
  rewrite flushes_cons. pose proof (flushes_nonneg tr).
  destruct (is_flush (op, o)) eqn:Hf; [lia|]. intros Hz.
  destruct (sstep_cursor _ _ _ _ Hs Hf) as [Hc Hp]. specialize (IH ltac:(lia)).
  unfold pops in *. simpl. destruct (popped (op, o)) as [e|].
  - destruct Hp as [-> Hp]. simpl. split; [lia|]. by rewrite <- Hp.
  - by eapply increasing_from_weaken.
Qed.

(** [inserted_since log e p]: packet [p] was accepted under index [e], and no
    flush came after. *)
Definition inserted_since (log : list (jop * jout)) (e : Z) (p : Z * bytes) : Prop :=
  exists l1 l2, log = l1 ++ (OpInsert e p.1 p.2, OutInsert 0) :: l2 /\
    Forall (fun x => is_flush x = false) l2.

Lemma inserted_since_snoc log x e p :
  is_flush x = false -> inserted_since log e p -> inserted_since (log ++ [x]) e p.
Proof.
  intros Hx (l1 & l2 & -> & Hl). exists l1, (l2 ++ [x]). split.
  - by rewrite <- app_assoc.
  - apply Forall_app. split; [done|]. by constructor.
Qed.

(** Everything in the window was accepted since the last flush. *)
Lemma sstep_authentic log a op o a' :
  sstep a op o a' ->
  (forall e p, po_win a e = Some p -> inserted_since log e p) ->
  (forall e p, po_win a' e = Some p -> inserted_since (log ++ [(op, o)]) e p).
Proof.
  intros Hs Hlog e p Hp. destruct Hs as
    [idx ts pl a' _ _ _ Hw|dl ts pl a' _ _ _ _ Hw|f a' _ _ _ _ _ Hw|dl _ _
    |seq ts a' _ _ _ Hw| |sk r hi a' _ _ _ _ _ _ _ _ _ Hw].
  - rewrite Hw in Hp. destruct (Z.eqb_spec (insert_rc a idx pl) 0) as [H0|H0].
    + unfold put in Hp. case_bool_decide; [|by apply inserted_since_snoc, Hlog].
      case_bool_decide; [|done]. subst e. injection Hp as <-.
      exists log, []. rewrite H0. split; [done|constructor].
    + by apply inserted_since_snoc, Hlog.
  - rewrite Hw in Hp. unfold evict in Hp. case_bool_decide; [done|].
    by apply inserted_since_snoc, Hlog.
  - rewrite Hw in Hp. unfold evict in Hp. case_bool_decide; [done|].
    by apply inserted_since_snoc, Hlog.
  - by apply inserted_since_snoc, Hlog.
  - by rewrite Hw in Hp.
  - by apply inserted_since_snoc, Hlog.
  - rewrite Hw in Hp. by apply inserted_since_snoc, Hlog.
Qed.

Lemma srun_authentic log a tr a' :
  srun a tr a' ->
  (forall e p, po_win a e = Some p -> inserted_since log e p) ->
  (forall e p, po_win a' e = Some p -> inserted_since (log ++ tr) e p).
Proof.
  intros Hrun. revert log. induction Hrun as [a|a op o a1 tr a2 Hs Hrun IH]; intros log Hlog.
  { by rewrite app_nil_r. }
  rewrite (cons_middle (op, o)), app_assoc. apply IH. by eapply sstep_authentic.
Qed.

Lemma srun_app_inv a tr1 tr2 a' :
  srun a (tr1 ++ tr2) a' -> exists a1, srun a tr1 a1 /\ srun a1 tr2 a'.
Proof.
  revert a. induction tr1 as [|x tr1 IH]; intros a Hrun; simpl in Hrun.
  - exists a. split; [constructor|done].
  - inversion Hrun as [|? op o a1 ? ? Hs Hr]; subst.
    destruct (IH _ Hr) as (a2 & H1 & H2). exists a2. split; [by econstructor|done].
Qed.

Lemma abs_init_empty fpp rs rt e : po_win (abs (jitter_init fpp rs rt)) e = None.
Proof.
  simpl. unfold window, slot_received, slot_for.
  change (ring (jitter_init fpp rs rt)) with ring_zero.
  unfold ring_zero. rewrite lookup_replicate_2 by apply slot_idx_lt. done.
Qed.

(** ** Executable runs *)

Definition op_okb (j : jitter_t) (op : jop) : bool :=
  match op with
  | OpInsert idx ts pl =>
      (0 <=? idx) && (-32768 <? idx - seq_ref (sx j)) && (idx - seq_ref (sx j) <? 32768) &&
      (0 <=? ts) && (ts <? 4294967296)
  | OpFlush seq ts => (0 <=? seq) && (seq <? 65536)
  | _ => true
  end.

Fixpoint exec `{DataModel} (j : jitter_t) (ops : list jop) : list (jop * jout) * jitter_t :=
  match ops with
  | [] => ([], j)
  | op :: ops' =>
      let '(j1, o) := jstep j op in
      let '(tr, j2) := exec j1 ops' in ((op, o) :: tr, j2)
  end.

Fixpoint execb `{DataModel} (j : jitter_t) (ops : list jop) : bool :=
  match ops with
  | [] => true
  | op :: ops' => op_okb j op && execb (jstep j op).1 ops'
  end.

Lemma op_okb_ok j op : op_okb j op = true -> op_ok j op.
Proof.
  destruct op; simpl; try done; rewrite ?andb_true_iff; intros; lia.
Qed.

Lemma exec_jrun `{DataModel} j ops :
  execb j ops = true -> jrun j (exec j ops).1 (exec j ops).2.
Proof.
  revert j. induction ops as [|op ops IH]; intros j; simpl.
  { intros _. constructor. }
  rewrite andb_true_iff. intros [H1 H2]. specialize (IH _ H2).
  destruct (jstep j op) as [j1 o] eqn:E. simpl in IH.
  destruct (exec j1 ops) as [tr j2]. simpl in *.
  econstructor; [by apply op_okb_ok|done|done].
Qed.

(** ** Properties *)

(** C1: the ring refines the abstract playout window.  Every run of the buffer's
    operations (insertions, pops, flushes, resyncs) from a well-formed state keeps
    it well-formed and is, output by output, a run of the abstract machine: the
    modulo-512 slots, generations and slot states never lose, duplicate or invent
    a packet the abstract window does not. *)
Theorem jitter_refines_playout `{DataModel} j tr j' :
  jitter_ok j -> run_room j tr -> jrun j tr j' ->
  jitter_ok j' /\ srun (abs j) tr (abs j').
Proof. apply jrun_refines. Qed.

(** Audio is delivered in order and at most once.  Between two flushes the
    indices popped (data or concealed) form a strictly increasing sequence that
    starts at or after the cursor, whatever the order of arrival, the duplicates,
    the losses and the resyncs. *)
Theorem jitter_delivers_in_order `{DataModel} j tr j' :
  jitter_ok j -> run_room j tr -> jrun j tr j' -> flushes tr = 0 ->
  increasing_from (play_cursor j) (pops tr).
Proof.
  intros Hok Hroom Hrun Hf. destruct (jrun_refines _ _ _ Hok Hroom Hrun) as [_ Hs].
  by apply (srun_increasing (abs j) tr (abs j')).
Qed.

(** C22: no stale or foreign audio is played.  A data pop delivers, byte for byte
    and with its timestamp, a packet that was accepted under the very index it is
    played at, and no flush came between its arrival and the pop. *)
Theorem jitter_pop_authentic `{DataModel} fpp rs rt tr dl s j' :
  0 <= rs < 65536 ->
  run_room (jitter_init fpp rs rt) (tr ++ [(OpPop dl, OutPop (Some s))]) ->
  jrun (jitter_init fpp rs rt) (tr ++ [(OpPop dl, OutPop (Some s))]) j' ->
  js_kind s = POP_DATA ->
  inserted_since tr (js_ext s) (js_ts s, js_payload s).
Proof.
  intros Hrs Hroom Hrun Hk.
  destruct (jrun_refines _ _ _ (jitter_init_ok fpp rs rt Hrs) Hroom Hrun) as [_ Hs].
  apply srun_app_inv in Hs as (a1 & Hs1 & Hs2).
  assert (forall e p, po_win a1 e = Some p -> inserted_since ([] ++ tr) e p) as Hin.
  { eapply srun_authentic; [exact Hs1|]. intros e p He. by rewrite abs_init_empty in He. }
  inversion Hs2 as [|? ? ? a2 ? ? Hst]; subst.
  inversion Hst as [|? ts pl ? Hw| | | | |]; subst; [|done]. simpl. by apply Hin.
Qed.

(** A resend request asks for exactly the first bounded hole.  The scan
    reports a non-empty range that starts at the first missing packet at or after
    the cursor, ends just before a packet already held, played or concealed, and
    spans fewer than 512 packets; if it reports none, no missing packet of the
    512-packet window precedes a held one. *)
Theorem jitter_next_resend_spec j :
  jitter_ok j -> jitter_room j ->
  match jitter_next_resend j with
  | Some (from, to) =>
      play_cursor j <= from <= to /\ to + 1 < play_cursor j + 512 /\
      (forall x, play_cursor j <= x < from -> slot_settled j x = true) /\
      (forall x, from <= x <= to -> slot_settled j x = false) /\
      slot_settled j (to + 1) = true
  | None =>
      forall x y, play_cursor j <= x < y -> y < play_cursor j + 512 ->
        slot_settled j x = false -> slot_settled j y = false
  end.
Proof.
  intros Hok (_ & Hc & _). pose proof (ok_bound j Hok) as Hb.
  unfold jitter_next_resend. rewrite u64_small by (unfold JITTER_SLOTS; lia).
  unfold JITTER_SLOTS.
  destruct (resend_loop _ j _ _ None) as [[from to]|] eqn:E.
  - apply resend_loop_some in E as (H1 & H2 & H3 & H4 & H5); [|done].
    split_and!; try done; try lia.
    + intros x Hx. by apply (H5 eq_refl).
    + intros x Hx. apply H4. lia.
  - by apply (resend_loop_none _ _ _ _ None E); lia.
Qed.

(** A resync recovers from a lapped buffer without going back.  When it fires,
    the window is untouched, the cursor moves forward by exactly the reported
    number of packets, and lands at most 16 packets before a run of at least 8
    present packets that ends at the newest one, which was at least 128 packets
    ahead. *)
Theorem jitter_resync_spec `{DataModel} j j' skipped :
  jitter_ok j -> jitter_room j -> jitter_try_resync j = (j', Some skipped) ->
  jitter_ok j' /\ (forall e, window j' e = window j e) /\
  0 <= skipped /\ play_cursor j' = play_cursor j + skipped /\
  exists run newest,
    play_cursor j + 128 <= newest /\ run + 8 <= newest + 1 /\
    play_cursor j' <= run <= Z.max (play_cursor j) (play_cursor j' + 16) /\
    (forall e, run <= e <= newest -> is_Some (window j e)) /\
    (forall e, play_cursor j <= e -> is_Some (window j e) -> e <= newest).
Proof.
  intros Hok Hroom E. destruct (jitter_try_resync_cases _ _ _ Hok Hroom E)
    as (H1 & H2 & _ & _ & _ & _ & H3 & H4 & run & hi & H5 & H6 & H7 & H8 & H9 & _).
  split_and!; try done. by exists run, hi.
Qed.

(** ** Witnesses *)

(** A run that wraps the wire, loses, duplicates and reorders packets, conceals,
    flushes and plays on. *)
Definition sample_ops : list jop :=
  [OpInsert 65534 1000 [1; 2; 3]; OpInsert 65537 1003 [7]; OpInsert 65537 1003 [7];
   OpInsert 65535 1001 [4]; OpPop None; OpPop None; OpPop None;
   OpPop (Some (fun _ => true)); OpPop None; OpInsert 65534 1000 [1; 2; 3]].
Definition sample_j : jitter_t := jitter_init 352 65534 0.

Lemma sample_j_ok : jitter_ok sample_j.
Proof. apply jitter_init_ok. lia. Qed.

Lemma sample_room n tr :
  length tr = n -> Z.of_nat n <= 1000 -> run_room sample_j tr.
Proof.
  intros Hl Hn. unfold run_room. change (gen sample_j) with 1.
  change (play_cursor sample_j) with 65534. change (seq_ref (sx sample_j)) with 65534.
  assert (flushes tr <= Z.of_nat (length tr)).
  { unfold flushes. apply inj_le, filter_length_le. }
  lia.
Qed.

Lemma exec_ok (n : nat) ops :
  length (@exec lp64 sample_j ops).1 = n -> Z.of_nat n <= 1000 ->
  @execb lp64 sample_j ops = true -> jitter_ok (@exec lp64 sample_j ops).2.
Proof.
  intros Hl Hn Hb. eapply (@jrun_refines lp64); [apply sample_j_ok| |by apply exec_jrun].
  by apply (sample_room n).
Qed.

Lemma jitter_refines_playout_witness :
  jitter_ok (@exec lp64 sample_j sample_ops).2 /\
  srun (abs sample_j) (@exec lp64 sample_j sample_ops).1
    (abs (@exec lp64 sample_j sample_ops).2).
Proof.
  apply (@jitter_refines_playout lp64); [apply sample_j_ok| |].
  - apply (sample_room 10); [vm_compute; reflexivity|lia].
  - apply exec_jrun. vm_compute. reflexivity.
Defined.

Lemma jitter_delivers_in_order_witness :
  increasing_from 65534 (pops (@exec lp64 sample_j sample_ops).1) /\
  pops (@exec lp64 sample_j sample_ops).1 = [65534; 65535; 65536; 65537].
Proof.
  split; [|vm_compute; reflexivity].
  apply (@jitter_delivers_in_order lp64 sample_j _ (@exec lp64 sample_j sample_ops).2).
  - apply sample_j_ok.
  - apply (sample_room 10); [vm_compute; reflexivity|lia].
  - apply exec_jrun. vm_compute. reflexivity.
  - vm_compute. reflexivity.
Defined.

Lemma jitter_pop_authentic_witness :
  inserted_since [(OpInsert 65534 1000 [1; 2; 3], OutInsert 0)] 65534 (1000, [1; 2; 3]).
Proof.
  apply (@jitter_pop_authentic lp64 352 65534 0 [(OpInsert 65534 1000 [1; 2; 3], OutInsert 0)] None
    (mk_jslot POP_DATA 65534 1000 352 [1; 2; 3])
    (@exec lp64 sample_j [OpInsert 65534 1000 [1; 2; 3]; OpPop None]).2).
  - lia.
  - apply (sample_room 2); [vm_compute; reflexivity|lia].
  - apply (@exec_jrun lp64 sample_j [OpInsert 65534 1000 [1; 2; 3]; OpPop None]).
    vm_compute. reflexivity.
  - reflexivity.
Defined.

Definition sample_gap : jitter_t :=
  (@exec lp64 sample_j [OpInsert 65534 0 [1]; OpInsert 65538 0 [2]]).2.

Lemma sample_gap_ok : jitter_ok sample_gap.
Proof.
  apply (exec_ok 2); [vm_compute; reflexivity|lia|vm_compute; reflexivity].
Qed.

Lemma jitter_next_resend_spec_witness :
  jitter_next_resend sample_gap = Some (65535, 65537) /\
  match jitter_next_resend sample_gap with
  | Some (from, to) =>
      play_cursor sample_gap <= from <= to /\ to + 1 < play_cursor sample_gap + 512 /\
      (forall x, play_cursor sample_gap <= x < from -> slot_settled sample_gap x = true) /\
      (forall x, from <= x <= to -> slot_settled sample_gap x = false) /\
      slot_settled sample_gap (to + 1) = true
  | None =>
      forall x y, play_cursor sample_gap <= x < y -> y < play_cursor sample_gap + 512 ->
        slot_settled sample_gap x = false -> slot_settled sample_gap y = false
  end.
Proof.
  split; [vm_compute; reflexivity|].
  apply (jitter_next_resend_spec sample_gap); [apply sample_gap_ok|].
  unfold jitter_room. split_and!; vm_compute; reflexivity.
Defined.

(** Ten packets far ahead of the cursor, as after a lapped buffer. *)
Definition sample_lapped : jitter_t :=
  (@exec lp64 sample_j (map (fun i => OpInsert (65734 + Z.of_nat i) 0 [1]) (seq 0 10))).2.

Lemma sample_lapped_ok : jitter_ok sample_lapped.
Proof.
  apply (exec_ok 10); [vm_compute; reflexivity|lia|vm_compute; reflexivity].
Qed.

Lemma jitter_resync_spec_witness :
  jitter_ok (@jitter_try_resync lp64 sample_lapped).1 /\
  (forall e, window (@jitter_try_resync lp64 sample_lapped).1 e = window sample_lapped e) /\
  0 <= 184 /\
  play_cursor (@jitter_try_resync lp64 sample_lapped).1 = play_cursor sample_lapped + 184 /\
  exists run newest,
    play_cursor sample_lapped + 128 <= newest /\ run + 8 <= newest + 1 /\
    play_cursor (@jitter_try_resync lp64 sample_lapped).1 <= run <=
      Z.max (play_cursor sample_lapped)
        (play_cursor (@jitter_try_resync lp64 sample_lapped).1 + 16) /\
    (forall e, run <= e <= newest -> is_Some (window sample_lapped e)) /\
    (forall e, play_cursor sample_lapped <= e -> is_Some (window sample_lapped e) -> e <= newest).
Proof.
  apply (@jitter_resync_spec lp64 sample_lapped _ 184); [apply sample_lapped_ok| |].
  - unfold jitter_room. split_and!; vm_compute; reflexivity.
  - vm_compute. reflexivity.
Defined.
