(* ===== verification/Clock.v ===== *)
(** * NTP conversion and the clock estimate ([src/raop_clock.c]) *)
From Stdlib Require Import ZArith Lia.
From stdpp Require Import base numbers list.
From S2P Require Import Prelude.

Local Open Scope Z_scope.

Definition NS : Z := 1000000000.

(** [clock_verdict_t] and [raop_clock_t] of [src/raop_clock.h]. *)
Inductive clock_verdict_t := CLK_START | CLK_CONTINUE | CLK_REBUFFER.

Record raop_clock_t := mk_clock {
  offset_ns : Z;      (* int64_t: signed remote-minus-local estimate *)
  best_rtt_ns : Z;    (* uint64_t: lowest RTT seen *)
  have_offset : bool;
  clk_started : bool;
}.

(** A 64-bit signed sum; the code computes it in [int64_t]. *)
Definition ntp_from_ns (mono_ns off : Z) : Z :=
  let t := s64 (s64 mono_ns + off) in
  let t := if t <? 0 then 0 else t in
  let sec := t / NS in
  let frac := t mod NS in
  let fixed := u64 (Z.shiftl frac 32) / NS in
  Z.lor (u64 (Z.shiftl sec 32)) fixed.

Definition ns_from_ntp (ntp : Z) : Z :=
  let sec := Z.shiftr ntp 32 in
  let frac := Z.land ntp 4294967295 in
  s64 (u64 (u64 (sec * NS) + Z.shiftr (u64 (frac * NS)) 32)).

Definition clock_init : raop_clock_t := mk_clock 0 (u64 (-1)) false false.

Definition clock_timing_reply (c : raop_clock_t) (t1_ns remote_ntp t4_ns : Z) : raop_clock_t :=
  if t4_ns <? t1_ns then c
  else
    let rtt := u64 (t4_ns - t1_ns) in
    if have_offset c && (best_rtt_ns c <=? rtt) then c
    else
      let mid := s64 (u64 (t1_ns + t4_ns) / 2) in
      let remote_ns := ns_from_ntp remote_ntp in
      mk_clock (s64 (remote_ns - mid)) rtt true (clk_started c).

Definition clock_policy (c : raop_clock_t) (occ target margin : Z) :
    raop_clock_t * clock_verdict_t :=
  if (occ <? target - margin) || (target + margin <? occ) then
    (mk_clock (offset_ns c) (best_rtt_ns c) (have_offset c) false, CLK_REBUFFER)
  else if negb (clk_started c) then
    (mk_clock (offset_ns c) (best_rtt_ns c) (have_offset c) true, CLK_START)
  else (c, CLK_CONTINUE).

(** ** NTP conversion *)

(** The integral value of an NTP number in nanoseconds, before rounding: seconds
    plus a 32-bit binary fraction. *)
Lemma ntp_fields sec fixed :
  0 <= sec < 2 ^ 32 -> 0 <= fixed < 2 ^ 32 ->
  let n := Z.lor (u64 (Z.shiftl sec 32)) fixed in
  0 <= n < 2 ^ 64 /\ Z.shiftr n 32 = sec /\ Z.land n 4294967295 = fixed.
Proof.
  intros Hs Hf. cbv zeta. rewrite Z.shiftl_mul_pow2 by lia.
  rewrite u64_small by lia. rewrite <- Z.shiftl_mul_pow2 by lia.
  rewrite lor_shiftl_add by lia. split; [lia|].
  rewrite Z.shiftr_div_pow2 by lia. change 4294967295 with (Z.ones 32).
  rewrite Z.land_ones by lia. split.
  - rewrite Z.add_comm, Z.div_add by lia. rewrite Z.div_small; lia.
  - rewrite Z.add_comm, Z.mod_add by lia. by apply Z.mod_small.
Qed.

Lemma ntp_from_ns_eq mono off :
  0 <= mono < 2 ^ 63 -> 0 <= mono + off < 2 ^ 32 * NS ->
  ntp_from_ns mono off =
    Z.lor (u64 (Z.shiftl ((mono + off) / NS) 32)) ((mono + off) mod NS * 2 ^ 32 / NS).
Proof.
  intros Hm Ht. unfold ntp_from_ns, NS in *. rewrite (s64_small mono) by lia.
  rewrite s64_small by lia. destruct (Z.ltb_spec (mono + off) 0); [lia|].
  pose proof (Z.mod_pos_bound (mono + off) 1000000000 ltac:(lia)).
  rewrite (Z.shiftl_mul_pow2 (_ mod _)) by lia. rewrite (u64_small (_ * _)) by lia. done.
Qed.

Lemma ns_from_ntp_eq sec fixed :
  0 <= sec < 2 ^ 32 -> 0 <= fixed < 2 ^ 32 ->
  ns_from_ntp (Z.lor (u64 (Z.shiftl sec 32)) fixed) = sec * NS + fixed * NS / 2 ^ 32.
Proof.
  intros Hs Hf. unfold ns_from_ntp. destruct (ntp_fields sec fixed Hs Hf) as (_ & -> & ->).
  unfold NS. rewrite (u64_small (sec * _)) by lia. rewrite (u64_small (fixed * _)) by lia.
  rewrite Z.shiftr_div_pow2 by lia.
  assert (0 <= fixed * 1000000000 / 2 ^ 32 < 1000000000).
  { split; [apply Z.div_pos; lia|]. apply Z.div_lt_upper_bound; lia. }
  rewrite u64_small by lia. by rewrite s64_small by lia.
Qed.

(** Through NTP and back, a time loses at most one nanosecond. *)
Lemma ntp_round_trip mono off :
  0 <= mono < 2 ^ 63 -> 0 <= mono + off < 2 ^ 32 * NS ->
  mono + off - 1 <= ns_from_ntp (ntp_from_ns mono off) <= mono + off.
Proof.
  intros Hm Ht. rewrite ntp_from_ns_eq by done. set (t := mono + off) in *.
  pose proof (Z.mod_pos_bound t NS ltac:(unfold NS; lia)) as Hr.
  pose proof (Z.div_mod t NS ltac:(unfold NS; lia)) as Hd.
  set (q := t / NS) in *. set (r := t mod NS) in *. set (f := r * 2 ^ 32 / NS).
  assert (0 <= q < 2 ^ 32) as Hq.
  { unfold q. split; [apply Z.div_pos; unfold NS in *; lia|].
    apply Z.div_lt_upper_bound; unfold NS in *; lia. }
  assert (0 <= f < 2 ^ 32) as Hf.
  { unfold f. split; [apply Z.div_pos; unfold NS in *; lia|].
    apply Z.div_lt_upper_bound; unfold NS in *; lia. }
  rewrite ns_from_ntp_eq by done.
  assert (r - 1 <= f * NS / 2 ^ 32 <= r); [|lia].
  pose proof (Z.mul_div_le (r * 2 ^ 32) NS ltac:(unfold NS; lia)) as L1.
  pose proof (Z.mul_succ_div_gt (r * 2 ^ 32) NS ltac:(unfold NS; lia)) as L2.
  fold f in L1, L2. unfold NS in *. split.
  - apply Z.div_le_lower_bound; lia.
  - apply Z.div_le_upper_bound; lia.
Qed.

(** ** The offset estimate *)

(** One timing exchange, as the sender sees it: our clock reads [x_t1] when the
    request leaves and [x_t4] when the reply arrives; the sender stamped it at our
    time [x_t], with its clock [theta] nanoseconds ahead of ours. *)
Record exchange := mk_exchange { x_t1 : Z; x_t : Z; x_t4 : Z }.

Definition exchange_ok (theta : Z) (x : exchange) : Prop :=
  0 <= x_t1 x <= x_t x /\ x_t x <= x_t4 x < 2 ^ 61 /\ 0 <= theta + x_t x < 2 ^ 32 * NS.

(** The sender's NTP stamp for it. *)
Definition reply_stamp (theta : Z) (x : exchange) : Z := ntp_from_ns (x_t x) theta.

Definition apply_exchange (theta : Z) (c : raop_clock_t) (x : exchange) : raop_clock_t :=
  clock_timing_reply c (x_t1 x) (reply_stamp theta x) (x_t4 x).

(** The estimate is within half the best round trip of the true offset, and the
    best round trip is the smallest seen. *)
Definition estimate_ok (theta : Z) (seen : list exchange) (c : raop_clock_t) : Prop :=
  (have_offset c = false -> seen = []) /\
  (have_offset c = true ->
     0 <= best_rtt_ns c /\ 2 * Z.abs (offset_ns c - theta) <= best_rtt_ns c + 2 /\
     (exists x, x ∈ seen /\ best_rtt_ns c = x_t4 x - x_t1 x) /\
     (forall x, x ∈ seen -> best_rtt_ns c <= x_t4 x - x_t1 x)).

Lemma apply_exchange_ok theta seen c x :
  exchange_ok theta x -> -2 ^ 62 < theta < 2 ^ 62 ->
  estimate_ok theta seen c -> estimate_ok theta (x :: seen) (apply_exchange theta c x).
Proof.
  intros (H1 & H4 & Hst) Hth (Hn & Hy). unfold apply_exchange, clock_timing_reply, reply_stamp.
  destruct (Z.ltb_spec (x_t4 x) (x_t1 x)); [lia|].
  rewrite (u64_small (x_t4 x - x_t1 x)) by lia.
  destruct (have_offset c && (best_rtt_ns c <=? x_t4 x - x_t1 x)) eqn:E.
  - apply andb_true_iff in E as [Eh El]. apply Z.leb_le in El.
    split; [congruence|]. intros _. destruct (Hy Eh) as (A1 & A2 & (y & Hy1 & Hy2) & A4).
    split_and!; try done.
    + exists y. split; [by right|done].
    + intros z [->|Hz]%elem_of_cons; [lia|by apply A4].
  - rewrite (u64_small (x_t1 x + x_t4 x)) by lia.
    pose proof (Z.div_mod (x_t1 x + x_t4 x) 2 ltac:(lia)) as Hd.
    pose proof (Z.mod_pos_bound (x_t1 x + x_t4 x) 2 ltac:(lia)) as Hm.
    set (mid := (x_t1 x + x_t4 x) / 2) in *.
    rewrite (s64_small mid) by lia.
    pose proof (ntp_round_trip (x_t x) theta ltac:(lia) ltac:(lia)) as Hrt.
    set (rem := ns_from_ntp _) in *. unfold NS in *.
    rewrite s64_small by lia. split; simpl; [done|]. intros _.
    split_and!; [lia|lia| |].
    + exists x. split; [by left|done].
    + intros z [->|Hz]%elem_of_cons; [lia|].
      apply andb_false_iff in E as [E|E].
      * rewrite (Hn E) in Hz. by apply not_elem_of_nil in Hz.
      * apply Z.leb_gt in E. destruct (have_offset c) eqn:Eh.
        -- destruct (Hy eq_refl) as (_ & _ & _ & A4). specialize (A4 z Hz). lia.
        -- rewrite (Hn eq_refl) in Hz. by apply not_elem_of_nil in Hz.
Qed.

(** ** Properties *)

(** C9: the offset estimate is as good as the best exchange.  After any sequence
    of genuine timing exchanges with a sender whose clock is [theta] ahead, the
    estimate is within half the smallest round trip seen (and one nanosecond of
    rounding) of [theta], and the recorded round trip is the smallest. *)
Theorem clock_offset_accuracy theta xs :
  -2 ^ 62 < theta < 2 ^ 62 -> Forall (exchange_ok theta) xs -> xs <> [] ->
  let c := foldl (apply_exchange theta) clock_init xs in
  have_offset c = true /\
  2 * Z.abs (offset_ns c - theta) <= best_rtt_ns c + 2 /\
  (exists x, x ∈ xs /\ best_rtt_ns c = x_t4 x - x_t1 x) /\
  Forall (fun x => best_rtt_ns c <= x_t4 x - x_t1 x) xs.
Proof.
  intros Hth Hxs Hne. cbv zeta.
  assert (forall c seen, estimate_ok theta seen c ->
    estimate_ok theta (rev xs ++ seen) (foldl (apply_exchange theta) c xs)) as Hind.
  { clear Hne. induction Hxs as [|x xs Hx Hxs IH]; intros c seen Hc; simpl; [done|].
    rewrite <- app_assoc. simpl. apply IH. by apply apply_exchange_ok. }
  destruct (Hind clock_init [] ltac:(by split)) as (Hn & Hy). rewrite app_nil_r in *.
  destruct (have_offset (foldl (apply_exchange theta) clock_init xs)) eqn:E.
  - destruct (Hy eq_refl) as (_ & H1 & (x & Hx & Hxe) & H2). split_and!; [done|done| |].
    + exists x. split; [|done]. apply list_elem_of_In, in_rev. by apply list_elem_of_In.
    + apply List.Forall_forall. intros z Hz. apply H2. apply list_elem_of_In.
      by apply -> in_rev.
  - specialize (Hn eq_refl). apply (f_equal (@length _)) in Hn. rewrite length_rev in Hn.
    by destruct xs.
Qed.

Lemma clock_offset_accuracy_witness :
  let c := foldl (apply_exchange 5000) clock_init
             [mk_exchange 1000 2000 9000; mk_exchange 20000 20400 20900] in
  have_offset c = true /\ 2 * Z.abs (offset_ns c - 5000) <= best_rtt_ns c + 2 /\
  (exists x, x ∈ [mk_exchange 1000 2000 9000; mk_exchange 20000 20400 20900] /\
     best_rtt_ns c = x_t4 x - x_t1 x) /\
  Forall (fun x => best_rtt_ns c <= x_t4 x - x_t1 x)
    [mk_exchange 1000 2000 9000; mk_exchange 20000 20400 20900].
Proof.
  apply (clock_offset_accuracy 5000); [lia| |done].
  repeat constructor; cbn [x_t1 x_t x_t4]; unfold NS; lia.
Defined.

(** A time converted to NTP and back is the same time, up to one nanosecond,
    as long as it lies within the 136 years of the 32-bit seconds field. *)
Theorem ntp_conversion_round_trip mono off :
  0 <= mono < 2 ^ 63 -> 0 <= mono + off < 2 ^ 32 * NS ->
  mono + off - 1 <= ns_from_ntp (ntp_from_ns mono off) <= mono + off.
Proof. apply ntp_round_trip. Qed.

Lemma ntp_conversion_round_trip_witness :
  1234567890123 - 1 <= ns_from_ntp (ntp_from_ns 1234567890000 123) <= 1234567890123.
Proof. apply (ntp_conversion_round_trip 1234567890000 123); unfold NS; lia. Defined.
