(* ===== verification/Rtp.v ===== *)
(** * RTP wire formats and the UDP socket triple ([src/rtp.c], [src/rtp.h])

    The parsers read the datagram through checked accesses; the builders store
    into the caller's buffer.  [rtp_open] runs against a model of the kernel that
    answers each system call arbitrarily. *)
From Stdlib Require Import ZArith Lia.
From stdpp Require Import base numbers list gmap.
From S2P Require Import Prelude.

Local Open Scope Z_scope.

(** ** Network-order fields *)

Definition rd_be16 (p : bytes) (i : nat) : run Z :=
  let! a := rd p i in
  let! b := rd p (i + 1) in
  Ret (u16 (Z.lor (Z.shiftl a 8) b)).

Definition rd_be32 (p : bytes) (i : nat) : run Z :=
  let! a := rd p i in
  let! b := rd p (i + 1) in
  let! c := rd p (i + 2) in
  let! d := rd p (i + 3) in
  Ret (Z.lor (Z.lor (Z.lor (u32 (Z.shiftl a 24)) (u32 (Z.shiftl b 16)))
        (u32 (Z.shiftl c 8))) d).

Definition rd_be64 (p : bytes) (i : nat) : run Z :=
  let! hi := rd_be32 p i in
  let! lo := rd_be32 p (i + 4) in
  Ret (Z.lor (u64 (Z.shiftl hi 32)) lo).

Definition put_be16 (p : bytes) (i : nat) (v : Z) : run bytes :=
  let! p := put p i (u8 (Z.shiftr v 8)) in
  put p (i + 1) (u8 v).

Definition put_be32 (p : bytes) (i : nat) (v : Z) : run bytes :=
  let! p := put p i (u8 (Z.shiftr v 24)) in
  let! p := put p (i + 1) (u8 (Z.shiftr v 16)) in
  let! p := put p (i + 2) (u8 (Z.shiftr v 8)) in
  put p (i + 3) (u8 v).

Definition put_be64 (p : bytes) (i : nat) (v : Z) : run bytes :=
  let! p := put_be32 p i (u32 (Z.shiftr v 32)) in
  put_be32 p (i + 4) (u32 v).

(** ** Datagrams *)

(** [rtp_audio_t]: the payload is the offset and length of the view into the
    datagram. *)
Record rtp_audio_t := mk_audio {
  seq : Z;
  rtptime : Z;
  payload : nat;
  payload_len : nat;
}.

Inductive ctrl_kind_t := CTRL_SYNC | CTRL_RESEND_AUDIO | CTRL_UNKNOWN.

Definition rtp_parse_audio (buf : bytes) : run (option rtp_audio_t) :=
  let len := length buf in
  if (len <? 28)%nat then Ret None
  else
    let! b0 := rd buf 0 in
    if negb (Z.land b0 192 =? 128) then Ret None
    else if negb (Z.land b0 63 =? 0) then Ret None
    else
      let! b1 := rd buf 1 in
      if negb (Z.land b1 127 =? 96) then Ret None
      else
        let! s := rd_be16 buf 2 in
        let! t := rd_be32 buf 4 in
        Ret (Some (mk_audio s t 12 (len - 12))).

(** For [CTRL_RESEND_AUDIO], the offset and length of the embedded packet. *)
Definition rtp_classify_control (buf : bytes) : run (ctrl_kind_t * option (nat * nat)) :=
  let len := length buf in
  if (len <? 2)%nat then Ret (CTRL_UNKNOWN, None)
  else
    let! b1 := rd buf 1 in
    let type := Z.land b1 127 in
    if type =? 84 then Ret (CTRL_SYNC, None)
    else if type =? 86 then
      if (4 <? len)%nat then Ret (CTRL_RESEND_AUDIO, Some (4%nat, (len - 4)%nat))
      else Ret (CTRL_UNKNOWN, None)
    else Ret (CTRL_UNKNOWN, None).

Definition rtp_parse_sync (buf : bytes) : run (option (Z * Z)) :=
  if (length buf <? 16)%nat then Ret None
  else
    let! rtp_now := rd_be32 buf 4 in
    let! ntp_now := rd_be64 buf 8 in
    Ret (Some (rtp_now, ntp_now)).

(** The builders return the C result and the caller's buffer ([cap] is its
    length). *)
Definition rtp_build_resend (first count : Z) (out : bytes) : run (Z * bytes) :=
  if (length out <? 8)%nat then Ret (-1, out)
  else
    let! out := put out 0 128 in
    let! out := put out 1 213 in
    let! out := put_be16 out 2 1 in
    let! out := put_be16 out 4 first in
    let! out := put_be16 out 6 count in
    Ret (8, out).

Definition rtp_build_timing_request (t_tx_ntp : Z) (out : bytes) : run (Z * bytes) :=
  if (length out <? 32)%nat then Ret (-1, out)
  else
    let! out := put_sub out 0 (replicate 32 0) in
    let! out := put out 0 128 in
    let! out := put out 1 210 in
    let! out := put_be16 out 2 7 in
    let! out := put_be64 out 24 t_tx_ntp in
    Ret (32, out).

(** The sender's transmit time and the echoed originate token. *)
Definition rtp_parse_timing_reply (buf : bytes) : run (option (Z * Z)) :=
  if (length buf <? 32)%nat then Ret None
  else
    let! b1 := rd buf 1 in
    if negb (Z.land b1 127 =? 83) then Ret None
    else
      let! remote_tx_ntp := rd_be64 buf 24 in
      let! origin_echo := rd_be64 buf 8 in
      Ret (Some (remote_tx_ntp, origin_echo)).

(** ** Sockets *)

(** The part of the kernel the helpers touch: the descriptors the process has
    open, which of them are non-blocking, the bound ports, the number of system
    calls made so far, and how many of them closed a descriptor that was not open
    (in a process with threads, one that another thread may just have opened). *)
Record kernel := mk_kernel {
  k_open : gset Z;
  k_nonblock : gset Z;
  k_port : gmap Z Z;
  k_calls : nat;
  k_stray : nat;
}.

(** The kernel's answers, which may depend on its whole state. *)
Record answers := mk_answers {
  a_socket : kernel -> Z;            (* a descriptor, or -1 *)
  a_bind : kernel -> Z -> option Z;  (* the ephemeral port chosen, or failure *)
  a_getsockname : kernel -> Z -> bool;
  a_fcntl : kernel -> Z -> bool;
}.

(** What the system promises: [socket] returns -1 or a descriptor that is not in
    use, which is an [int], and a bound port is a 16-bit number. *)
Class KernelOk (a : answers) := {
  socket_fresh : forall k, a_socket a k = -1 \/ 0 <= a_socket a k /\ a_socket a k ∉ k_open k;
  socket_int : forall k, a_socket a k <= INT_MAX;
  bind_port : forall k fd p, a_bind a k fd = Some p -> 0 < p < 65536;
}.

Definition tick (k : kernel) : kernel :=
  mk_kernel (k_open k) (k_nonblock k) (k_port k) (S (k_calls k)) (k_stray k).

Definition sys_socket (a : answers) (k : kernel) : Z * kernel :=
  let fd := a_socket a k in
  (fd, if fd <? 0 then tick k
       else mk_kernel ({[fd]} ∪ k_open k) (k_nonblock k) (k_port k) (S (k_calls k)) (k_stray k)).

Definition sys_bind (a : answers) (fd : Z) (k : kernel) : bool * kernel :=
  match a_bind a k fd with
  | Some p => (true, mk_kernel (k_open k) (k_nonblock k) (<[fd := p]> (k_port k)) (S (k_calls k)) (k_stray k))
  | None => (false, tick k)
  end.

Definition sys_getsockname (a : answers) (fd : Z) (k : kernel) : option Z * kernel :=
  (if a_getsockname a k fd then k_port k !! fd else None, tick k).

Definition sys_fcntl_nonblock (a : answers) (fd : Z) (k : kernel) : bool * kernel :=
  if a_fcntl a k fd
  then (true, mk_kernel (k_open k) ({[fd]} ∪ k_nonblock k) (k_port k) (S (k_calls k)) (k_stray k))
  else (false, tick k).

Definition sys_close (fd : Z) (k : kernel) : kernel :=
  mk_kernel (k_open k ∖ {[fd]}) (k_nonblock k ∖ {[fd]}) (delete fd (k_port k)) (S (k_calls k))
    (if decide (fd ∈ k_open k) then k_stray k else S (k_stray k)).

Record rtp_sockets_t := mk_sockets {
  audio_fd : Z; control_fd : Z; timing_fd : Z;
  server_port : Z; control_port : Z; timing_port : Z;
}.

Definition rtp_close (s : rtp_sockets_t) (k : kernel) : rtp_sockets_t * kernel :=
  let '(s, k) :=
    if 0 <=? audio_fd s
    then (mk_sockets (-1) (control_fd s) (timing_fd s) (server_port s) (control_port s)
            (timing_port s), sys_close (audio_fd s) k)
    else (s, k) in
  let '(s, k) :=
    if 0 <=? control_fd s
    then (mk_sockets (audio_fd s) (-1) (timing_fd s) (server_port s) (control_port s)
            (timing_port s), sys_close (control_fd s) k)
    else (s, k) in
  if 0 <=? timing_fd s
  then (mk_sockets (audio_fd s) (control_fd s) (-1) (server_port s) (control_port s)
          (timing_port s), sys_close (timing_fd s) k)
  else (s, k).

(** The body of [rtp_open] is a sequence of steps on the socket record and the
    kernel, each of which may [goto fail]. *)
Definition step (A : Type) : Type := rtp_sockets_t * kernel -> option A * (rtp_sockets_t * kernel).

Definition sbind {A B} (m : step A) (f : A -> step B) : step B := fun st =>
  let '(r, st) := m st in
  match r with Some x => f x st | None => (None, st) end.

Notation "'do!' m ';' k" := (sbind m (fun _ => k))
  (at level 10, m at level 100, k at level 200, right associativity).

Definition upd (f : rtp_sockets_t -> rtp_sockets_t) : step unit := fun st => (Some tt, (f st.1, st.2)).

Definition set_audio (s : rtp_sockets_t) (fd : Z) : rtp_sockets_t :=
  mk_sockets fd (control_fd s) (timing_fd s) (server_port s) (control_port s) (timing_port s).
Definition set_control (s : rtp_sockets_t) (fd : Z) : rtp_sockets_t :=
  mk_sockets (audio_fd s) fd (timing_fd s) (server_port s) (control_port s) (timing_port s).
Definition set_timing (s : rtp_sockets_t) (fd : Z) : rtp_sockets_t :=
  mk_sockets (audio_fd s) (control_fd s) fd (server_port s) (control_port s) (timing_port s).
Definition set_server_port (s : rtp_sockets_t) (p : Z) : rtp_sockets_t :=
  mk_sockets (audio_fd s) (control_fd s) (timing_fd s) p (control_port s) (timing_port s).
Definition set_control_port (s : rtp_sockets_t) (p : Z) : rtp_sockets_t :=
  mk_sockets (audio_fd s) (control_fd s) (timing_fd s) (server_port s) p (timing_port s).
Definition set_timing_port (s : rtp_sockets_t) (p : Z) : rtp_sockets_t :=
  mk_sockets (audio_fd s) (control_fd s) (timing_fd s) (server_port s) (control_port s) p.

(** [s->x_fd = socket(..); if (s->x_fd < 0) goto fail;] *)
Definition open_one (a : answers) (set : rtp_sockets_t -> Z -> rtp_sockets_t) : step unit := fun st =>
  let '(fd, k) := sys_socket a st.2 in
  (if fd <? 0 then None else Some tt, (set st.1 fd, k)).

(** [bind], then [getsockname] for the port. *)
Definition bind_one (a : answers) (fd_of : rtp_sockets_t -> Z)
    (set_port : rtp_sockets_t -> Z -> rtp_sockets_t) : step unit := fun st =>
  let '(ok, k) := sys_bind a (fd_of st.1) st.2 in
  if negb ok then (None, (st.1, k))
  else
    let '(p, k) := sys_getsockname a (fd_of st.1) k in
    match p with
    | None => (None, (st.1, k))
    | Some p => (Some tt, (set_port st.1 p, k))
    end.

Definition nonblock_one (a : answers) (fd_of : rtp_sockets_t -> Z) : step unit := fun st =>
  let '(ok, k) := sys_fcntl_nonblock a (fd_of st.1) st.2 in
  (if ok then Some tt else None, (st.1, k)).

Definition rtp_open_body (a : answers) : step unit :=
  do! upd (fun s => set_timing (set_control (set_audio s (-1)) (-1)) (-1));
  do! open_one a set_audio;
  do! open_one a set_control;
  do! open_one a set_timing;
  do! bind_one a audio_fd set_server_port;
  do! bind_one a control_fd set_control_port;
  do! bind_one a timing_fd set_timing_port;
  do! nonblock_one a audio_fd;
  do! nonblock_one a control_fd;
  nonblock_one a timing_fd.

Definition rtp_open (a : answers) (s : rtp_sockets_t) (k : kernel) :
    Z * rtp_sockets_t * kernel :=
  match rtp_open_body a (s, k) with
  | (Some _, (s, k)) => (0, s, k)
  | (None, (s, k)) => let '(s, k) := rtp_close s k in (-1, s, k)
  end.

(** [rtp_recv]: the result of the non-blocking [recvfrom] ([None] is the [errno]
    [EAGAIN]/[EWOULDBLOCK], [Some n] its return value). *)
Definition rtp_recv (recvfrom : option Z) : Z :=
  match recvfrom with
  | None => 0
  | Some n => if n <? 0 then -1 else n
  end.

(** [rtp_sendto]: the result of [sendto]. *)
Definition rtp_sendto (sendto : Z) : Z := if sendto <? 0 then -1 else sendto.

(** ** Field lemmas *)

Lemma rd_be16_spec p i a b :
  p !! i = Some a -> p !! (i + 1)%nat = Some b -> byte_ok a -> byte_ok b ->
  rd_be16 p i = Ret (a * 2 ^ 8 + b).
Proof.
  unfold byte_ok. intros Ha Hb Ka Kb. unfold rd_be16, rd. rewrite Ha, Hb. cbn [rbind].
  rewrite lor_shiftl_add by lia. rewrite u16_small by lia. done.
Qed.

Lemma rd_be32_spec p i a b c d :
  p !! i = Some a -> p !! (i + 1)%nat = Some b -> p !! (i + 2)%nat = Some c ->
  p !! (i + 3)%nat = Some d -> byte_ok a -> byte_ok b -> byte_ok c -> byte_ok d ->
  rd_be32 p i = Ret (a * 2 ^ 24 + (b * 2 ^ 16 + (c * 2 ^ 8 + d))).
Proof.
  unfold byte_ok. intros Ha Hb Hc Hd Ka Kb Kc Kd. unfold rd_be32, rd.
  rewrite Ha, Hb, Hc, Hd. cbn [rbind].
  rewrite !u32_small by (rewrite Z.shiftl_mul_pow2; lia).
  rewrite <- !Z.lor_assoc. 
  by rewrite (lor_shiftl_add c), (lor_shiftl_add b), (lor_shiftl_add a) by lia.
Qed.

Lemma rd_be64_spec p i hi lo :
  rd_be32 p i = Ret hi -> rd_be32 p (i + 4) = Ret lo ->
  0 <= hi < 2 ^ 32 -> 0 <= lo < 2 ^ 32 -> rd_be64 p i = Ret (hi * 2 ^ 32 + lo).
Proof.
  intros Hh Hl Kh Kl. unfold rd_be64. rewrite Hh, Hl. cbn [rbind].
  rewrite u64_small by (rewrite Z.shiftl_mul_pow2; lia).
  by rewrite lor_shiftl_add by lia.
Qed.

(** Big-endian bytes of a number. *)
Definition be16 (v : Z) : bytes := [u8 (Z.shiftr v 8); u8 v].
Definition be32 (v : Z) : bytes :=
  [u8 (Z.shiftr v 24); u8 (Z.shiftr v 16); u8 (Z.shiftr v 8); u8 v].
Definition be64 (v : Z) : bytes := be32 (u32 (Z.shiftr v 32)) ++ be32 (u32 v).

Lemma be16_value v : 0 <= v < 2 ^ 16 -> u8 (Z.shiftr v 8) * 2 ^ 8 + u8 v = v.
Proof.
  intros Hv. rewrite Z.shiftr_div_pow2 by lia. unfold u8.
  Z.to_euclidean_division_equations. lia.
Qed.

Lemma be32_value v :
  0 <= v < 2 ^ 32 ->
  u8 (Z.shiftr v 24) * 2 ^ 24 + (u8 (Z.shiftr v 16) * 2 ^ 16 + (u8 (Z.shiftr v 8) * 2 ^ 8 + u8 v)) = v.
Proof.
  intros Hv. rewrite !Z.shiftr_div_pow2 by lia. unfold u8.
  Z.to_euclidean_division_equations. lia.
Qed.

Lemma be64_value v :
  0 <= v < 2 ^ 64 -> u32 (Z.shiftr v 32) * 2 ^ 32 + u32 v = v.
Proof.
  intros Hv. rewrite !Z.shiftr_div_pow2 by lia. unfold u32.
  Z.to_euclidean_division_equations. lia.
Qed.

(** A field is read back where its bytes stand. *)
Lemma rd_be16_at p i v :
  sub p i 2 = be16 v -> 0 <= v < 2 ^ 16 -> rd_be16 p i = Ret v.
Proof.
  unfold sub. intros Hs Hv. rewrite <- (be16_value v) at 1 by done.
  apply rd_be16_spec; auto with bytes.
  - rewrite <- (Nat.add_0_r i), <- lookup_drop, <- (lookup_take_lt _ 2) by lia. by rewrite Hs.
  - rewrite <- lookup_drop, <- (lookup_take_lt _ 2) by lia. by rewrite Hs.
Qed.

Lemma rd_be32_at p i v :
  sub p i 4 = be32 v -> 0 <= v < 2 ^ 32 -> rd_be32 p i = Ret v.
Proof.
  unfold sub. intros Hs Hv. rewrite <- (be32_value v) at 1 by done.
  apply rd_be32_spec; auto with bytes.
  - rewrite <- (Nat.add_0_r i), <- lookup_drop, <- (lookup_take_lt _ 4) by lia. by rewrite Hs.
  - rewrite <- lookup_drop, <- (lookup_take_lt _ 4) by lia. by rewrite Hs.
  - rewrite <- lookup_drop, <- (lookup_take_lt _ 4) by lia. by rewrite Hs.
  - rewrite <- lookup_drop, <- (lookup_take_lt _ 4) by lia. by rewrite Hs.
Qed.

Lemma rd_be64_at p i v :
  sub p i 8 = be64 v -> 0 <= v < 2 ^ 64 -> rd_be64 p i = Ret v.
Proof.
  intros Hs Hv. rewrite <- (be64_value v) at 1 by done.
  change 8%nat with (4 + 4)%nat in Hs. rewrite sub_split in Hs. unfold be64 in Hs.
  assert (length (sub p i 4) = 4%nat) as Hl.
  { apply (f_equal length) in Hs. rewrite !length_app in Hs. cbn [length be32] in Hs.
    pose proof (firstn_le_length 4 (drop i p)). pose proof (firstn_le_length 4 (drop (i + 4) p)).
    unfold sub in *. lia. }
  apply app_inj_1 in Hs as [H1 H2]; [|by rewrite Hl].
  apply rd_be64_spec; try apply rd_be32_at; auto using u32_range.
Qed.

(** ** Safety of the parsers *)

Lemma wp_rd_be16 p i (Q : Z -> Prop) :
  (i + 2 <= length p)%nat -> (forall v, Q v) -> wp (rd_be16 p i) Q.
Proof. intros Hi HQ. unfold rd_be16. repeat (wp_step; try lia). apply HQ. Qed.

Lemma wp_rd_be32 p i (Q : Z -> Prop) :
  (i + 4 <= length p)%nat -> (forall v, Q v) -> wp (rd_be32 p i) Q.
Proof. intros Hi HQ. unfold rd_be32. repeat (wp_step; try lia). apply HQ. Qed.

Lemma wp_rd_be64 p i (Q : Z -> Prop) :
  (i + 8 <= length p)%nat -> (forall v, Q v) -> wp (rd_be64 p i) Q.
Proof.
  intros Hi HQ. unfold rd_be64. wp_step. apply wp_rd_be32; [lia|]. intros.
  wp_step. apply wp_rd_be32; [lia|]. intros. apply HQ.
Qed.

Definition view_ok (buf : bytes) (v : nat * nat) : Prop := (v.1 + v.2 <= length buf)%nat.

Lemma rtp_parse_audio_wp buf :
  wp (rtp_parse_audio buf) (fun r => match r with
    | Some a => view_ok buf (payload a, payload_len a) /\ (16 <= payload_len a)%nat
    | None => True end).
Proof.
  unfold rtp_parse_audio. case_match eqn:E; [done|]. apply Nat.ltb_ge in E.
  wp_step. wp_step; [lia|]. case_match; [done|]. case_match; [done|].
  wp_step. wp_step; [lia|]. case_match; [done|].
  wp_step. apply wp_rd_be16; [lia|]. intros s. wp_step. apply wp_rd_be32; [lia|]. intros t.
  unfold view_ok. simpl. lia.
Qed.

Lemma rtp_classify_control_wp buf :
  wp (rtp_classify_control buf) (fun r => match r with
    | (CTRL_RESEND_AUDIO, v) => exists v', v = Some v' /\ view_ok buf v' /\ (0 < v'.2)%nat
    | (_, v) => v = None end).
Proof.
  unfold rtp_classify_control. case_match eqn:E; [done|]. apply Nat.ltb_ge in E.
  wp_step. wp_step; [lia|]. case_match; [done|]. case_match; [|done].
  case_match eqn:E2; [|done]. apply Nat.ltb_lt in E2.
  eexists. split; [done|]. unfold view_ok. simpl. lia.
Qed.

Lemma rtp_parse_sync_wp buf : wp (rtp_parse_sync buf) (fun _ => True).
Proof.
  unfold rtp_parse_sync. case_match eqn:E; [done|]. apply Nat.ltb_ge in E.
  wp_step. apply wp_rd_be32; [lia|]. intros. wp_step. by apply wp_rd_be64; [lia|].
Qed.

Lemma rtp_parse_timing_reply_wp buf : wp (rtp_parse_timing_reply buf) (fun _ => True).
Proof.
  unfold rtp_parse_timing_reply. case_match eqn:E; [done|]. apply Nat.ltb_ge in E.
  wp_step. wp_step; [lia|]. case_match; [done|].
  wp_step. apply wp_rd_be64; [lia|]. intros. wp_step. by apply wp_rd_be64; [lia|].
Qed.

(** Every datagram parser is memory safe on every buffer, of any length and
    content: it returns, reads nothing outside the datagram, and the views it
    hands out (the audio payload, at least one cipher block, and the packet inside
    a resend) lie inside the datagram. *)
Theorem rtp_parsers_safe buf :
  wp (rtp_parse_audio buf) (fun r => match r with
    | Some a => view_ok buf (payload a, payload_len a) /\ (16 <= payload_len a)%nat
    | None => True end) /\
  wp (rtp_classify_control buf) (fun r => match r with
    | (CTRL_RESEND_AUDIO, v) => exists v', v = Some v' /\ view_ok buf v' /\ (0 < v'.2)%nat
    | (_, v) => v = None end) /\
  wp (rtp_parse_sync buf) (fun _ => True) /\
  wp (rtp_parse_timing_reply buf) (fun _ => True).
Proof.
  auto using rtp_parse_audio_wp, rtp_classify_control_wp, rtp_parse_sync_wp, rtp_parse_timing_reply_wp.
Qed.

(** ** The formats *)

(** A RAOP audio packet: version 2, payload type 96, the marker and the four SSRC
    bytes free. *)
Definition audio_packet (marker : bool) (s t : Z) (ssrc pl : bytes) : bytes :=
  [128; if marker then 224 else 96] ++ be16 s ++ be32 t ++ ssrc ++ pl.

(** The resend response that wraps it. *)
Definition resend_packet (h0 h1 h2 : Z) (marker : bool) (pkt : bytes) : bytes :=
  [h0; if marker then 214 else 86; h1; h2] ++ pkt.

Lemma audio_first_byte b :
  byte_ok b -> Z.land b 192 = 128 -> Z.land b 63 = 0 -> b = 128.
Proof.
  intros Hb H1 H2.
  apply (all_bytes_spec (fun b => negb ((Z.land b 192 =? 128) && (Z.land b 63 =? 0)) || (b =? 128)))
    in Hb; [|by vm_compute]. rewrite H1, H2 in Hb. simpl in Hb. lia.
Qed.

Lemma audio_second_byte b :
  byte_ok b -> Z.land b 127 = 96 -> b = 96 \/ b = 224.
Proof.
  intros Hb H1.
  apply (all_bytes_spec (fun b => negb (Z.land b 127 =? 96) || (b =? 96) || (b =? 224)))
    in Hb; [|by vm_compute]. rewrite H1 in Hb. simpl in Hb. lia.
Qed.

Lemma be16_of_bytes a b : byte_ok a -> byte_ok b -> be16 (a * 2 ^ 8 + b) = [a; b].
Proof.
  unfold byte_ok, be16. intros Ha Hb. rewrite Z.shiftr_div_pow2 by lia. unfold u8.
  f_equal; [|f_equal]; Z.to_euclidean_division_equations; lia.
Qed.

Lemma be32_of_bytes a b c d :
  byte_ok a -> byte_ok b -> byte_ok c -> byte_ok d ->
  be32 (a * 2 ^ 24 + (b * 2 ^ 16 + (c * 2 ^ 8 + d))) = [a; b; c; d].
Proof.
  unfold byte_ok, be32. intros Ha Hb Hc Hd. rewrite !Z.shiftr_div_pow2 by lia. unfold u8.
  repeat f_equal; Z.to_euclidean_division_equations; lia.
Qed.

Definition audio_fields_ok (a : rtp_audio_t) (ssrc pl : bytes) : Prop :=
  0 <= seq a < 2 ^ 16 /\ 0 <= rtptime a < 2 ^ 32 /\ length ssrc = 4%nat /\
  (16 <= length pl)%nat /\ payload a = 12%nat /\ payload_len a = length pl.

Lemma parse_audio_packet m a ssrc pl :
  audio_fields_ok a ssrc pl ->
  rtp_parse_audio (audio_packet m (seq a) (rtptime a) ssrc pl) = Ret (Some a).
Proof.
  intros (Hs & Ht & Hl & Hp & Ho & Hn). unfold rtp_parse_audio.
  assert (length (audio_packet m (seq a) (rtptime a) ssrc pl) = 12 + length pl)%nat as Hlen.
  { unfold audio_packet. rewrite !length_app. simpl. lia. }
  rewrite Hlen. rewrite (proj2 (Nat.ltb_ge _ _)) by lia.
  replace (rd (audio_packet m (seq a) (rtptime a) ssrc pl) 0) with (Ret 128) by done.
  cbn [rbind]. change (Z.land 128 192 =? 128) with true. change (Z.land 128 63 =? 0) with true.
  cbn [negb].
  replace (rd (audio_packet m (seq a) (rtptime a) ssrc pl) 1) with (Ret (if m then 224 else 96)) by done.
  cbn [rbind]. replace (Z.land (if m then 224 else 96) 127 =? 96) with true by (by destruct m).
  cbn [negb]. rewrite (rd_be16_at _ 2 (seq a)) by done. cbn [rbind].
  rewrite (rd_be32_at _ 4 (rtptime a)) by done. cbn [rbind].
  do 2 f_equal. destruct a; simpl in *. f_equal; lia.
Qed.

Lemma parse_audio_inv buf a :
  bytes_ok buf -> rtp_parse_audio buf = Ret (Some a) ->
  exists m ssrc pl, buf = audio_packet m (seq a) (rtptime a) ssrc pl /\ audio_fields_ok a ssrc pl.
Proof.
  intros Hb. unfold rtp_parse_audio. destruct (Nat.ltb_spec (length buf) 28) as [|Hlen]; [done|].
  destruct buf as [|b0 [|b1 [|b2 [|b3 [|b4 [|b5 [|b6 [|b7 [|b8 [|b9 [|b10 [|b11 pl]]]]]]]]]]]];
    try (simpl in Hlen; lia).
  repeat (apply Forall_cons in Hb as [? Hb]).
  set (buf := b0 :: _) in *. change (rd buf 0) with (Ret b0). change (rd buf 1) with (Ret b1).
  cbn [rbind].
  destruct (Z.eqb_spec (Z.land b0 192) 128) as [E0|]; [|done].
  destruct (Z.eqb_spec (Z.land b0 63) 0) as [E1|]; [|done].
  destruct (Z.eqb_spec (Z.land b1 127) 96) as [E2|]; [|done]. cbn [negb].
  rewrite (rd_be16_spec buf 2 b2 b3) by done. cbn [rbind].
  rewrite (rd_be32_spec buf 4 b4 b5 b6 b7) by done. cbn [rbind].
  intros [= <-]. cbn [seq rtptime payload payload_len].
  exists (b1 =? 224), [b8; b9; b10; b11], pl. split.
  - unfold audio_packet. cbn [seq rtptime]. rewrite be16_of_bytes, be32_of_bytes by done.
    assert (b0 = 128) as Hb0 by (by apply audio_first_byte).
    assert (b1 = 96 \/ b1 = 224) as Hb1 by (by apply audio_second_byte).
    unfold buf. rewrite Hb0. by destruct Hb1 as [-> | ->].
  - unfold audio_fields_ok, byte_ok in *. cbn [seq rtptime payload payload_len].
    simpl in Hlen |- *. split_and!; try done; lia.
Qed.

(** C26: the audio parser accepts exactly the RAOP audio packets and recovers
    their fields: a datagram parses to [a] if and only if it is the encoding of
    [a]'s sequence number and timestamp, around a payload of at least one cipher
    block that [a] points at. *)
Theorem rtp_parse_audio_iff buf a :
  bytes_ok buf ->
  rtp_parse_audio buf = Ret (Some a) <->
  exists m ssrc pl, buf = audio_packet m (seq a) (rtptime a) ssrc pl /\
    audio_fields_ok a ssrc pl /\ sub buf (payload a) (payload_len a) = pl.
Proof.
  intros Hb. split.
  - intros H. destruct (parse_audio_inv buf a Hb H) as (m & ssrc & pl & -> & Hok).
    exists m, ssrc, pl. split_and!; [done..|].
    destruct Hok as (_ & _ & Hl & _ & -> & ->). unfold sub.
    destruct ssrc as [|? [|? [|? [|? [|]]]]]; try done. simpl. apply firstn_all.
  - intros (m & ssrc & pl & -> & Hok & _). by apply parse_audio_packet.
Qed.

Lemma rtp_parse_audio_iff_witness :
  exists m ssrc pl,
    audio_packet true 4660 305419896 [9; 9; 9; 9] (replicate 16 7) =
      audio_packet m 4660 305419896 ssrc pl /\
    audio_fields_ok (mk_audio 4660 305419896 12 16) ssrc pl /\
    sub (audio_packet true 4660 305419896 [9; 9; 9; 9] (replicate 16 7)) 12 16 = pl.
Proof.
  apply (proj1 (rtp_parse_audio_iff (audio_packet true 4660 305419896 [9; 9; 9; 9] (replicate 16 7))
    (mk_audio 4660 305419896 12 16)
    ltac:(apply bytes_okb_ok; reflexivity))).
  by vm_compute.
Defined.

(** A retransmitted packet is the packet: the control port classifies a
    resend response as such, and the view it hands to the audio path is the
    original datagram, byte for byte, so it parses as the original did. *)
Theorem rtp_resend_unwraps h0 h1 h2 m pkt :
  pkt <> [] ->
  exists v, rtp_classify_control (resend_packet h0 h1 h2 m pkt) = Ret (CTRL_RESEND_AUDIO, Some v) /\
    sub (resend_packet h0 h1 h2 m pkt) v.1 v.2 = pkt.
Proof.
  intros Hp. exists (4%nat, length pkt). split.
  - unfold rtp_classify_control. change (length (resend_packet h0 h1 h2 m pkt))
      with (4 + length pkt)%nat. destruct pkt as [|x pkt]; [done|]. clear Hp.
    simpl. by destruct m.
  - unfold sub. simpl. apply firstn_all.
Qed.

Lemma rtp_resend_unwraps_witness :
  exists v, rtp_classify_control (resend_packet 128 0 1 true [1; 2]) = Ret (CTRL_RESEND_AUDIO, Some v) /\
    sub (resend_packet 128 0 1 true [1; 2]) v.1 v.2 = [1; 2].
Proof. by apply (rtp_resend_unwraps 128 0 1 true [1; 2]). Defined.

Lemma skip_sub b1 b2 b3 i n :
  length b1 = i -> length b2 = n -> sub (b1 ++ b2 ++ b3) i n = b2.
Proof. intros <- <-. unfold sub. by rewrite drop_app_length, take_app_length. Qed.

(** The timing request with its token, and the reply a sender builds from a
    request: type 83, the request's transmit field copied to the originate field,
    any receive time, and its own transmit time. *)
Definition timing_request (token : Z) : bytes :=
  [128; 210; 0; 7; 0; 0; 0; 0] ++ replicate 16 0 ++ be64 token.

Definition timing_reply (head : bytes) (request receive : bytes) (stamp : Z) : bytes :=
  head ++ sub request 24 8 ++ receive ++ be64 stamp.

Lemma build_timing_request_eq token out :
  (32 <= length out)%nat ->
  rtp_build_timing_request token out = Ret (32, timing_request token ++ drop 32 out).
Proof.
  intros Ho. do 32 (destruct out as [|? out]; [simpl in Ho; lia|]). clear Ho. reflexivity.
Qed.

Lemma build_resend_eq first count out :
  (8 <= length out)%nat ->
  rtp_build_resend first count out =
  Ret (8, [128; 213; 0; 1] ++ be16 first ++ be16 count ++ drop 8 out).
Proof.
  intros Ho. do 8 (destruct out as [|? out]; [simpl in Ho; lia|]). clear Ho. reflexivity.
Qed.

(** A timing reply identifies the request it answers.  The request built for
    a token fits any buffer of 32 bytes; a reply that echoes its transmit field,
    as the sender does, parses to exactly that token and the sender's stamp; and
    a buffer too small for the request is refused untouched. *)
Theorem rtp_timing_exchange token stamp head receive out :
  0 <= token < 2 ^ 64 -> 0 <= stamp < 2 ^ 64 ->
  length head = 8%nat -> Z.land (head !!! 1%nat) 127 = 83 -> length receive = 8%nat ->
  if (length out <? 32)%nat then rtp_build_timing_request token out = Ret (-1, out)
  else exists req,
    rtp_build_timing_request token out = Ret (32, req ++ drop 32 out) /\
    length req = 32%nat /\
    rtp_parse_timing_reply (timing_reply head req receive stamp) = Ret (Some (stamp, token)).
Proof.
  intros Ht Hs Hh Hty Hr. destruct (Nat.ltb_spec (length out) 32) as [Ho|Ho].
  { unfold rtp_build_timing_request. by rewrite (proj2 (Nat.ltb_lt _ _)). }
  exists (timing_request token). split; [by apply build_timing_request_eq|]. split; [done|].
  unfold timing_reply. change (sub (timing_request token) 24 8) with (be64 token).
  set (buf := head ++ be64 token ++ receive ++ be64 stamp).
  assert (length buf = 32%nat) as Hl.
  { unfold buf. rewrite !length_app, Hh, Hr. done. }
  unfold rtp_parse_timing_reply. rewrite Hl. cbn [Nat.ltb Nat.leb].
  assert (rd buf 1 = Ret (head !!! 1%nat)) as ->.
  { unfold rd, buf. rewrite lookup_app_l by lia.
    by rewrite (list_lookup_lookup_total_lt head 1) by lia. }
  cbn [rbind]. rewrite Hty. cbn [negb Z.eqb Pos.eqb].
  rewrite (rd_be64_at buf 24 stamp); [|unfold buf|done].
  2: { rewrite !app_assoc. rewrite <- (app_nil_r (be64 stamp)). apply skip_sub; [|done].
       rewrite !length_app, Hh, Hr. done. }
  cbn [rbind]. rewrite (rd_be64_at buf 8 token); [|unfold buf|done]; [done|].
  by apply skip_sub.
Qed.

Lemma rtp_timing_exchange_witness :
  exists req,
    rtp_build_timing_request 81985529216486895 (replicate 40 1) = Ret (32, req ++ drop 32 (replicate 40 1)) /\
    length req = 32%nat /\
    rtp_parse_timing_reply (timing_reply [128; 211; 0; 7; 0; 0; 0; 0] req (replicate 8 3) 77) =
      Ret (Some (77, 81985529216486895)).
Proof.
  by apply (rtp_timing_exchange 81985529216486895 77 [128; 211; 0; 7; 0; 0; 0; 0] (replicate 8 3)
           (replicate 40 1)); [lia | lia | | |].
Defined.

(** ** Opening the sockets *)

Definition fds (s : rtp_sockets_t) : list Z := [audio_fd s; control_fd s; timing_fd s].

(** No descriptor is in two fields. *)
Definition apart (s : rtp_sockets_t) : Prop :=
  (0 <= audio_fd s -> audio_fd s <> control_fd s /\ audio_fd s <> timing_fd s) /\
  (0 <= control_fd s -> control_fd s <> timing_fd s).

(** What the record holds is open, was not open before ([k0]), and nothing else
    was opened or closed since; nothing was closed that was not open. *)
Definition held (k0 : kernel) (s : rtp_sockets_t) (k : kernel) : Prop :=
  (forall x, x ∈ k_open k <-> x ∈ k_open k0 \/ (0 <= x /\ x ∈ fds s)) /\
  (forall x, x ∈ fds s -> x = -1 \/ 0 <= x /\ x ∉ k_open k0) /\
  apart s /\ k_stray k = k_stray k0.

Definition sok {A} (m : step A) (Q F : rtp_sockets_t -> kernel -> Prop)
    (s : rtp_sockets_t) (k : kernel) : Prop :=
  match m (s, k) with
  | (Some _, (s, k)) => Q s k
  | (None, (s, k)) => F s k
  end.

Lemma sok_bind {A B} (m : step A) (f : A -> step B) Q F s k :
  sok m (fun s' k' => forall x, sok (f x) Q F s' k') F s k -> sok (sbind m f) Q F s k.
Proof.
  unfold sok, sbind. destruct (m (s, k)) as [[x|] [s' k']]; [|done]. intros H. apply H.
Qed.

(** Opening a socket into a field that holds none: the field gets a fresh
    descriptor, or the record keeps nothing new. *)
Definition sets_field (set : rtp_sockets_t -> Z -> rtp_sockets_t) (s : rtp_sockets_t) : Prop :=
  forall fd, fd ∈ fds (set s fd) /\
    (forall x, x ∈ fds (set s fd) -> x = fd \/ x ∈ fds s) /\
    (forall x, x ∈ fds s -> 0 <= x -> x ∈ fds (set s fd)) /\
    (apart s -> (0 <= fd -> fd ∉ fds s) -> apart (set s fd)).

Lemma sets_audio s : audio_fd s = -1 -> sets_field set_audio s.
Proof.
  intros Hs fd. unfold fds. cbn. rewrite Hs. split; [set_solver|].
  split_and!; [intros x; rewrite !elem_of_cons; intuition lia..|].
  unfold apart. cbn. rewrite Hs, !elem_of_cons, elem_of_nil. intuition lia.
Qed.

Lemma sets_control s : control_fd s = -1 -> sets_field set_control s.
Proof.
  intros Hs fd. unfold fds. cbn. rewrite Hs. split; [set_solver|].
  split_and!; [intros x; rewrite !elem_of_cons; intuition lia..|].
  unfold apart. cbn. rewrite Hs, !elem_of_cons, elem_of_nil. intuition lia.
Qed.

Lemma sets_timing s : timing_fd s = -1 -> sets_field set_timing s.
Proof.
  intros Hs fd. unfold fds. cbn. rewrite Hs. split; [set_solver|].
  split_and!; [intros x; rewrite !elem_of_cons; intuition lia..|].
  unfold apart. cbn. rewrite Hs, !elem_of_cons, elem_of_nil. intuition lia.
Qed.

(** The same table, and no stray close. *)
Definition same_table (k k' : kernel) : Prop := k_open k' = k_open k /\ k_stray k' = k_stray k.

Lemma held_open k0 s k k' : held k0 s k -> same_table k k' -> held k0 s k'.
Proof. intros (H1 & H2 & H3 & H4) [He Hs]. split; [by rewrite He|]. by rewrite Hs. Qed.

Section Open.
Context (a : answers) `{!KernelOk a} (k0 : kernel).

Lemma open_one_ok set s k (Q : rtp_sockets_t -> kernel -> Prop) :
  held k0 s k -> sets_field set s ->
  (forall k' fd, 0 <= fd -> fd ∉ fds s -> held k0 (set s fd) k' -> Q (set s fd) k') ->
  sok (open_one a set) Q (held k0) s k.
Proof.
  intros (Ho & Hf & Hd & Hy) Hset HQ. unfold sok, open_one, sys_socket. cbn [fst snd].
  destruct (Hset (a_socket a k)) as (Hs1 & Hs2 & Hs3 & Hs4).
  destruct (socket_fresh k) as [Hk|[Hk1 Hk2]].
  - rewrite Hk in *. cbn. split_and!; cbn; [| |apply Hs4; [done|lia]|done].
    + intros x. rewrite Ho. split; [intros [?|[? ?]]; auto|].
      intros [?|[H0 Hx]]; [by left|]. destruct (Hs2 x Hx); [lia|auto].
    + intros x Hx. destruct (Hs2 x Hx); auto.
  - rewrite (proj2 (Z.ltb_ge _ _)) by done.
    assert (a_socket a k ∉ fds s) as Hne.
    { intros Hin. apply Hk2, Ho. by right. }
    apply HQ; [done|done|]. split_and!; cbn; [| |by apply Hs4|done].
    + intros x. rewrite elem_of_union, elem_of_singleton, Ho. split.
      * intros [->|[?|[? ?]]]; auto.
      * intros [?|[? Hx]]; [auto|]. destruct (Hs2 x Hx); auto.
    + intros x Hx. destruct (Hs2 x Hx) as [->|]; [|auto].
      right. split; [done|]. intros Hc. apply Hk2, Ho. by left.
Qed.

(** The later steps neither open nor close anything. *)
Lemma bind_one_ok fd_of set_port s k (Q F : rtp_sockets_t -> kernel -> Prop) :
  (forall k', same_table k k' -> F s k') ->
  (forall k' p, same_table k k' -> k_nonblock k' = k_nonblock k ->
     k_port k' = <[fd_of s := p]> (k_port k) -> 0 < p < 65536 -> Q (set_port s p) k') ->
  sok (bind_one a fd_of set_port) Q F s k.
Proof.
  intros HF HQ. unfold sok, bind_one, sys_bind. cbn [fst snd].
  destruct (a_bind a k (fd_of s)) as [p|] eqn:E; cbn; [|by apply HF].
  unfold sys_getsockname. destruct (a_getsockname _ _ _); cbn; [|by apply HF].
  rewrite lookup_insert_eq. apply HQ; cbn; try done. by eapply bind_port.
Qed.

Lemma nonblock_one_ok fd_of s k (Q F : rtp_sockets_t -> kernel -> Prop) :
  (forall k', same_table k k' -> F s k') ->
  (forall k', same_table k k' -> k_port k' = k_port k ->
     k_nonblock k' = {[fd_of s]} ∪ k_nonblock k -> Q s k') ->
  sok (nonblock_one a fd_of) Q F s k.
Proof.
  intros HF HQ. unfold sok, nonblock_one, sys_fcntl_nonblock. cbn [fst snd].
  destruct (a_fcntl a k (fd_of s)); cbn; [by apply HQ|by apply HF].
Qed.
End Open.

(** A close of what is open. *)
Lemma close_open fd k : fd ∈ k_open k -> k_stray (sys_close fd k) = k_stray k.
Proof. intros Hf. cbn. by rewrite decide_True. Qed.

(** Closing releases exactly what is held, each descriptor once. *)
Lemma rtp_close_held k0 s k :
  held k0 s k ->
  let '(s', k') := rtp_close s k in same_table k0 k' /\ fds s' = [-1; -1; -1].
Proof.
  intros (Ho & Hf & [Ha1 Ha2] & Hy).
  pose proof (Hf (audio_fd s) ltac:(left)) as H1.
  pose proof (Hf (control_fd s) ltac:(right; left)) as H2.
  pose proof (Hf (timing_fd s) ltac:(right; right; left)) as H3.
  unfold rtp_close, fds in *.
  destruct (Z.leb_spec 0 (audio_fd s)); cbn [audio_fd control_fd timing_fd];
    destruct (Z.leb_spec 0 (control_fd s)); cbn [audio_fd control_fd timing_fd];
    destruct (Z.leb_spec 0 (timing_fd s)); cbn [audio_fd control_fd timing_fd].
  all: split; [split|repeat f_equal; lia].
  all: lazymatch goal with
       | |- k_stray _ = _ =>
           rewrite ?close_open; [exact Hy|cbn [sys_close k_open]..];
           rewrite ?elem_of_difference, ?elem_of_singleton, Ho, !elem_of_cons; intuition lia
       | _ => cbn [sys_close k_open]
       end.
  all: apply set_eq; intros x; specialize (Ho x).
  all: rewrite ?elem_of_difference, ?elem_of_singleton, Ho, !elem_of_cons, elem_of_nil.
  all: destruct (decide (x ∈ k_open k0)) as [Hx|Hx];
    [split; [tauto|intros _; split_and?; [by left|..]; intros ->; intuition lia]|].
  all: split; [|tauto]; intros Hc; exfalso; revert Hc; intuition lia.
Qed.

Definition opened (k : kernel) (s' : rtp_sockets_t) (k' : kernel) : Prop :=
  held k s' k' /\ NoDup (fds s') /\ (forall fd, fd ∈ fds s' -> 0 <= fd) /\
  (forall fd, fd ∈ fds s' -> fd ∈ k_nonblock k') /\
  k_port k' !! audio_fd s' = Some (server_port s') /\
  k_port k' !! control_fd s' = Some (control_port s') /\
  k_port k' !! timing_fd s' = Some (timing_port s') /\
  Forall (fun p => 0 < p < 65536) [server_port s'; control_port s'; timing_port s'].

Lemma same_table_trans k1 k2 k3 : same_table k1 k2 -> same_table k2 k3 -> same_table k1 k3.
Proof. intros [] []. split; congruence. Qed.

Lemma rtp_open_body_ok a `{!KernelOk a} s k : sok (rtp_open_body a) (opened k) (held k) s k.
Proof.
  unfold rtp_open_body. apply sok_bind. unfold sok at 1, upd. cbn [fst snd]. intros _.
  set (s0 := set_timing _ _).
  assert (held k s0 k) as H0.
  { split_and!; [intros x|intros x|split; cbn; lia|done]; unfold s0, fds; cbn;
      rewrite ?elem_of_cons, ?elem_of_nil; [|intuition].
    split; [by left|]. intros [?|[? ?]]; [done|]. intuition lia. }
  eapply sok_bind, (open_one_ok a k); [done|by apply sets_audio|]. intros k1 fd1 N1 M1 H1 _.
  eapply sok_bind, (open_one_ok a k); [done|by apply sets_control|]. intros k2 fd2 N2 M2 H2 _.
  eapply sok_bind, (open_one_ok a k); [done|by apply sets_timing|]. intros k3 fd3 N3 M3 H3 _.
  unfold s0, fds in M1, M2, M3. cbn in M1, M2, M3.
  assert (NoDup [fd1; fd2; fd3]) as Hnd.
  { repeat constructor; rewrite ?elem_of_cons, ?elem_of_nil in *; intuition congruence. }
  assert (fd1 <> fd2 /\ fd1 <> fd3 /\ fd2 <> fd3) as Hne.
  { rewrite !elem_of_cons in *. intuition congruence. }
  clear M1 M2 M3 H0 H1 H2.
  eapply sok_bind, (bind_one_ok a); [intros; by eapply held_open|]. intros k4 p1 E4 B4 P4 R4 _.
  eapply sok_bind, (bind_one_ok a); [intros; eapply held_open; [exact H3|by eauto 6 using same_table_trans]|].
  intros k5 p2 E5 B5 P5 R5 _.
  eapply sok_bind, (bind_one_ok a); [intros; eapply held_open; [exact H3|by eauto 6 using same_table_trans]|].
  intros k6 p3 E6 B6 P6 R6 _.
  eapply sok_bind, (nonblock_one_ok a); [intros; eapply held_open; [exact H3|by eauto 6 using same_table_trans]|].
  intros k7 E7 P7 B7 _.
  eapply sok_bind, (nonblock_one_ok a); [intros; eapply held_open; [exact H3|by eauto 6 using same_table_trans]|].
  intros k8 E8 P8 B8 _.
  apply (nonblock_one_ok a); [intros; eapply held_open; [exact H3|by eauto 6 using same_table_trans]|].
  intros k9 E9 P9 B9. unfold opened, fds in *. cbn in *. split_and!.
  - eapply held_open; [exact H3|by eauto 8 using same_table_trans].
  - done.
  - intros fd. rewrite !elem_of_cons, elem_of_nil. intuition congruence.
  - intros fd. rewrite B9, B8, B7. set_solver.
  - rewrite P9, P8, P7, P6, P5, P4. rewrite !lookup_insert_ne, lookup_insert_eq by intuition. done.
  - rewrite P9, P8, P7, P6, P5. rewrite lookup_insert_ne, lookup_insert_eq by intuition. done.
  - rewrite P9, P8, P7, P6. by rewrite lookup_insert_eq.
  - rewrite !Forall_cons, Forall_nil. done.
Qed.

(** The triple and nothing else, or nothing. *)
Lemma rtp_open_spec a `{!KernelOk a} s k :
  let '(r, s', k') := rtp_open a s k in
  (r = 0 /\ opened k s' k') \/ (r = -1 /\ same_table k k' /\ fds s' = [-1; -1; -1]).
Proof.
  unfold rtp_open. pose proof (rtp_open_body_ok a s k) as Hok. unfold sok in Hok.
  destruct (rtp_open_body a (s, k)) as [[x|] [s' k']]; [by left|].
  apply rtp_close_held in Hok. destruct (rtp_close s' k') as [s'' k'']. by right.
Qed.

(** The fields of the record are of their types: descriptors or -1, and ports. *)
Definition fd_ok (fd : Z) : Prop := -1 <= fd <= INT_MAX.
Definition socks_ok (s : rtp_sockets_t) : Prop :=
  Forall fd_ok (fds s) /\ Forall (fun p => 0 <= p < 65536) [server_port s; control_port s; timing_port s].

Lemma rtp_close_typed s k : socks_ok s -> socks_ok (rtp_close s k).1.
Proof.
  assert (fd_ok (-1)) by (unfold fd_ok, INT_MAX; lia). unfold socks_ok, fds, rtp_close. rewrite !Forall_cons.
  intros ((? & ? & ? & ?) & ? & ? & ? & ?).
  destruct (0 <=? audio_fd s); cbn [audio_fd control_fd timing_fd];
    destruct (0 <=? control_fd s); cbn [audio_fd control_fd timing_fd];
    destruct (0 <=? timing_fd s); cbn; rewrite ?Forall_cons; tauto.
Qed.

Section Typed.
Context (a : answers) `{!KernelOk a}.

Lemma open_one_typed set s k (Q : rtp_sockets_t -> kernel -> Prop) :
  (forall fd, fd_ok fd -> socks_ok (set s fd)) -> (forall fd k', socks_ok (set s fd) -> Q (set s fd) k') ->
  sok (open_one a set) Q (fun s _ => socks_ok s) s k.
Proof.
  intros Hset HQ. unfold sok, open_one, sys_socket. cbn [fst snd].
  assert (fd_ok (a_socket a k)) as Hfd.
  { split; [destruct (socket_fresh k); lia|apply socket_int]. }
  destruct (a_socket a k <? 0); [by apply Hset|by apply HQ, Hset].
Qed.

Lemma rtp_open_typed s k : socks_ok s -> socks_ok (rtp_open a s k).1.2.
Proof.
  intros Hs. assert (sok (rtp_open_body a) (fun s _ => socks_ok s) (fun s _ => socks_ok s) s k) as Hb.
  { unfold rtp_open_body. apply sok_bind. unfold sok at 1, upd. cbn [fst snd]. intros _.
    assert (fd_ok (-1)) by (unfold fd_ok, INT_MAX; lia).
    unfold socks_ok, fds in Hs. rewrite !Forall_cons in Hs. destruct Hs as (_ & Hp1 & Hp2 & Hp3 & _).
    eapply sok_bind, open_one_typed; [intros fd1 H1; unfold socks_ok, fds; cbn; rewrite !Forall_cons, !Forall_nil; tauto|].
    intros fd1 k1 H1 _.
    eapply sok_bind, open_one_typed; [intros fd2 H2; revert H1; unfold socks_ok, fds; cbn; rewrite !Forall_cons, !Forall_nil; tauto|].
    intros fd2 k2 H2 _.
    eapply sok_bind, open_one_typed; [intros fd3 H3; revert H2; unfold socks_ok, fds; cbn; rewrite !Forall_cons, !Forall_nil; tauto|].
    intros fd3 k3 H3 _. clear H1 H2.
    eapply sok_bind, (bind_one_ok a); [intros; exact H3|]. intros k4 p1 _ _ _ R1 _.
    eapply sok_bind, (bind_one_ok a); [intros; revert H3; unfold socks_ok, fds; cbn; rewrite !Forall_cons; intuition lia|].
    intros k5 p2 _ _ _ R2 _.
    eapply sok_bind, (bind_one_ok a); [intros; revert H3; unfold socks_ok, fds; cbn; rewrite !Forall_cons; intuition lia|].
    intros k6 p3 _ _ _ R3 _.
    match goal with |- sok _ _ _ ?t _ => assert (socks_ok t) as Ht
      by (revert H3; unfold socks_ok, fds; cbn; rewrite !Forall_cons; intuition lia) end.
    eapply sok_bind, (nonblock_one_ok a); [done|]. intros k7 _ _ _ _.
    eapply sok_bind, (nonblock_one_ok a); [done|]. intros k8 _ _ _ _.
    by apply (nonblock_one_ok a). }
  unfold rtp_open. unfold sok in Hb. destruct (rtp_open_body a (s, k)) as [[x|] [s' k']]; [done|].
  pose proof (rtp_close_typed s' k' Hb). by destruct (rtp_close s' k').
Qed.
End Typed.

(** C27: opening the socket triple is all or nothing, whatever the kernel answers
    and wherever it fails.  On success the record holds three distinct new
    descriptors, all non-blocking and bound to the ports it reports, and nothing
    else was opened; on failure every descriptor it opened is closed again, once, and
    the record holds none. *)
Theorem rtp_open_all_or_nothing a `{!KernelOk a} s k :
  let '(r, s', k') := rtp_open a s k in
  k_stray k' = k_stray k /\
  ((r = 0 /\ NoDup (fds s') /\ (forall fd, fd ∈ fds s' -> fd ∉ k_open k) /\
    (forall fd, fd ∈ k_open k' <-> fd ∈ k_open k \/ fd ∈ fds s') /\
    (forall fd, fd ∈ fds s' -> fd ∈ k_nonblock k') /\
    k_port k' !! audio_fd s' = Some (server_port s') /\
    k_port k' !! control_fd s' = Some (control_port s') /\
    k_port k' !! timing_fd s' = Some (timing_port s') /\
    Forall (fun p => 0 < p < 65536) [server_port s'; control_port s'; timing_port s']) \/
  (r = -1 /\ k_open k' = k_open k /\ fds s' = [-1; -1; -1])).
Proof.
  pose proof (rtp_open_spec a s k) as Hok. destruct (rtp_open a s k) as [[r s'] k'].
  destruct Hok as [(-> & (Ho & Hf & Hd & Hy) & Hn & Hp & Hb & Hrest)|(-> & [Hk Hy] & Hr)];
    (split; [exact Hy|]); [left|by right].
  split_and!; try tauto.
  - intros fd Hfd. destruct (Hf fd Hfd) as [->|[_ ?]]; [|done]. by apply Hp in Hfd.
  - intros fd. rewrite Ho. split; [intros [?|[? ?]]; auto|intros [?|?]; auto].
Qed.

(** A descriptor that is not in use: the number of the call. *)
Definition sample_socket (k : kernel) : Z :=
  if decide (Z.of_nat (k_calls k) ∈ k_open k) then -1
  else if INT_MAX <? Z.of_nat (k_calls k) then -1 else Z.of_nat (k_calls k).

Lemma sample_socket_fresh k :
  (sample_socket k = -1 \/ 0 <= sample_socket k /\ sample_socket k ∉ k_open k) /\ sample_socket k <= INT_MAX.
Proof.
  unfold sample_socket, INT_MAX. case_decide; [split; [by left|done]|].
  destruct (Z.ltb_spec 2147483647 (Z.of_nat (k_calls k))); [split; [by left|done]|].
  split; [right; split; [lia|done]|done].
Qed.

(** A kernel that hands out the descriptors in order and then fails. *)
Definition sample_kernel : answers :=
  mk_answers sample_socket
    (fun k fd => if (fd <? 2) then Some 40000 else None) (fun _ _ => true) (fun _ _ => true).

Lemma sample_kernel_ok : KernelOk sample_kernel.
Proof.
  constructor; cbn.
  - apply sample_socket_fresh.
  - apply sample_socket_fresh.
  - intros k fd p. case_match eqn:E; intros [= <-]. apply Z.ltb_lt in E.
    lia.
Qed.

Definition sample_s0 : rtp_sockets_t := mk_sockets 7 7 7 0 0 0.
Definition sample_k0 : kernel := mk_kernel ∅ ∅ ∅ 0 0.

Lemma rtp_open_all_or_nothing_witness :
  let '(r, s', k') := rtp_open sample_kernel sample_s0 sample_k0 in
  k_stray k' = k_stray sample_k0 /\
  ((r = 0 /\ NoDup (fds s') /\ (forall fd, fd ∈ fds s' -> fd ∉ k_open sample_k0) /\
    (forall fd, fd ∈ k_open k' <-> fd ∈ k_open sample_k0 \/ fd ∈ fds s') /\
    (forall fd, fd ∈ fds s' -> fd ∈ k_nonblock k') /\
    k_port k' !! audio_fd s' = Some (server_port s') /\
    k_port k' !! control_fd s' = Some (control_port s') /\
    k_port k' !! timing_fd s' = Some (timing_port s') /\
    Forall (fun p => 0 < p < 65536) [server_port s'; control_port s'; timing_port s']) \/
  (r = -1 /\ k_open k' = k_open sample_k0 /\ fds s' = [-1; -1; -1])).
Proof.
  exact (@rtp_open_all_or_nothing sample_kernel sample_kernel_ok sample_s0 sample_k0).
Defined.
