(* ===== verification/AirportKey.v ===== *)
(** * The AirPort Express key ([src/airport_key.c])

    The private key of the challenge response and of the session-key unwrapping, as
    the five big-endian arrays of the source, and what BearSSL requires of a key in
    that form. *)
From Stdlib Require Import ZArith Lia Znumtheory List.
From stdpp Require Import base numbers list.
From S2P Require Import Prelude.

Local Open Scope Z_scope.

Definition RSA_P : bytes :=
  [0xf7; 0xe0; 0xbf; 0x5a; 0x1e; 0x67; 0x18; 0x31; 0x9a; 0x8b; 0x62; 0x09;
   0xc3; 0x17; 0x14; 0x44; 0x04; 0x59; 0xf9; 0x73; 0x85; 0x66; 0x13; 0xb1;
   0x7a; 0xe1; 0x50; 0x8b; 0xb3; 0xe6; 0x31; 0x6e; 0x6b; 0x7f; 0x46; 0x2d;
   0x2f; 0x7d; 0x64; 0x41; 0x2b; 0x84; 0xb7; 0x6b; 0xc2; 0x3f; 0x2b; 0x0c;
   0x35; 0x62; 0x45; 0x52; 0x79; 0xb2; 0x43; 0xa9; 0xf7; 0x31; 0x6f; 0x95;
   0x80; 0x07; 0xb3; 0x4c; 0x61; 0xf7; 0x68; 0xe2; 0xd4; 0x4e; 0xd5; 0xff;
   0x2b; 0x27; 0x28; 0x17; 0xec; 0x32; 0xb3; 0xe4; 0x93; 0x92; 0x92; 0x28;
   0xfa; 0xe7; 0x8e; 0x77; 0x4c; 0xa0; 0xf7; 0x5e; 0xbd; 0x69; 0xd5; 0x92;
   0x02; 0x79; 0x8f; 0x11; 0x6e; 0x36; 0x0c; 0x64; 0x38; 0xb3; 0x2e; 0x1b;
   0xd8; 0xb9; 0xdc; 0x1e; 0x32; 0x32; 0xf0; 0xd3; 0x09; 0x18; 0x88; 0x3c;
   0xc4; 0x3e; 0xf8; 0xdd; 0xa2; 0x2c; 0x36; 0x91].

Definition RSA_Q : bytes :=
  [0xef; 0x6f; 0xff; 0xf9; 0x94; 0xf1; 0xe5; 0x64; 0x41; 0xaa; 0x00; 0x35;
   0xfd; 0x19; 0xa0; 0xc8; 0xd6; 0xf0; 0x23; 0x78; 0xc7; 0x05; 0x80; 0xd9;
   0xc4; 0x84; 0x20; 0x79; 0x1d; 0xf4; 0x07; 0xc5; 0x91; 0xfb; 0x6e; 0xbf;
   0xca; 0x32; 0x2c; 0x30; 0x86; 0xdd; 0x90; 0x1f; 0xd2; 0xfa; 0xe1; 0xae;
   0xbb; 0x64; 0xad; 0xf6; 0xbb; 0x79; 0xff; 0x80; 0x51; 0xbe; 0xbd; 0x0c;
   0xd8; 0x20; 0xab; 0x89; 0x87; 0x40; 0x06; 0x01; 0xa7; 0xb2; 0xfe; 0x93;
   0x90; 0xca; 0xcc; 0x9a; 0xca; 0xb8; 0xed; 0x2b; 0xf9; 0x1d; 0x18; 0x6d;
   0x8f; 0x69; 0x64; 0x3d; 0x7e; 0xfe; 0x0f; 0x5d; 0x56; 0xdf; 0x75; 0x77;
   0xa2; 0xd0; 0x35; 0xea; 0x54; 0x13; 0xfc; 0x98; 0xd8; 0xf3; 0xf9; 0x08;
   0xda; 0x05; 0x9a; 0x37; 0x9d; 0xa4; 0xb1; 0xcc; 0x38; 0xf1; 0x5d; 0x56;
   0x0a; 0x83; 0xcc; 0x31; 0x71; 0x53; 0xc8; 0x4b].

Definition RSA_DP : bytes :=
  [0xd0; 0xeb; 0xaf; 0xbc; 0x40; 0x25; 0xba; 0x81; 0x8c; 0x75; 0x70; 0x23;
   0x34; 0x38; 0x4e; 0x8f; 0x69; 0x6f; 0x80; 0x4d; 0x7a; 0xa0; 0xe7; 0x76;
   0x4e; 0x50; 0x7b; 0xb7; 0xd3; 0xdf; 0xef; 0xc7; 0xd6; 0x78; 0xc6; 0x68;
   0x2d; 0x3f; 0xad; 0x71; 0x34; 0x41; 0xbe; 0xea; 0xe7; 0x24; 0xa0; 0x9e;
   0xc0; 0x9b; 0xdc; 0x3b; 0xc0; 0x70; 0x9c; 0x91; 0x33; 0xd4; 0x89; 0xec;
   0xe2; 0xa5; 0x1a; 0xdd; 0x05; 0x31; 0x27; 0x49; 0x0f; 0x92; 0x86; 0xd1;
   0x73; 0xc8; 0xa4; 0x05; 0x4d; 0xc2; 0x0a; 0x57; 0x5c; 0x7e; 0x4c; 0x0c;
   0x98; 0x34; 0xf4; 0xa1; 0xde; 0x87; 0x49; 0x17; 0xa3; 0xe4; 0x00; 0xea;
   0xf8; 0x85; 0x06; 0x2d; 0xb5; 0xcb; 0x7e; 0x34; 0x36; 0x89; 0xe7; 0x11;
   0xf7; 0x5f; 0xe7; 0x83; 0xd7; 0xe1; 0x91; 0x92; 0xfd; 0x76; 0x9c; 0xd5;
   0x42; 0xbe; 0xa4; 0xb9; 0x01; 0x07; 0xec; 0xd1].

Definition RSA_DQ : bytes :=
  [0x7f; 0x40; 0x18; 0xdc; 0x7d; 0xea; 0x29; 0x2d; 0xa5; 0x30; 0x42; 0x38;
   0x6f; 0x31; 0x05; 0xa0; 0x77; 0x8a; 0xdc; 0x6f; 0x3d; 0xe6; 0x90; 0xda;
   0x2b; 0x74; 0xc5; 0x05; 0x59; 0x83; 0xed; 0xf5; 0x74; 0x66; 0x1a; 0x2f;
   0xd7; 0xb7; 0xde; 0x80; 0x53; 0xcc; 0xc0; 0xe2; 0x08; 0xf0; 0xc8; 0xac;
   0x62; 0x6f; 0x59; 0x7d; 0x3d; 0x99; 0xd2; 0xce; 0x51; 0xa3; 0x7b; 0x39;
   0xae; 0x4b; 0x7e; 0x9e; 0xf2; 0xc0; 0x75; 0xf0; 0xbf; 0x3d; 0x83; 0xca;
   0xcd; 0x32; 0xda; 0x96; 0x91; 0x92; 0xc2; 0x89; 0x92; 0x35; 0x82; 0x5c;
   0x07; 0xd1; 0xcd; 0x32; 0x59; 0xa1; 0x90; 0x6c; 0xdc; 0xd4; 0x99; 0xcb;
   0x61; 0x3e; 0x22; 0xc9; 0x4c; 0xb1; 0xea; 0x97; 0x19; 0x06; 0x60; 0x9d;
   0xf1; 0xb0; 0xf4; 0x8b; 0x06; 0x3f; 0x17; 0x37; 0x20; 0x34; 0x36; 0x94;
   0x99; 0xb5; 0xfd; 0xf9; 0x70; 0xef; 0x44; 0x0d].

Definition RSA_IQ : bytes :=
  [0x90; 0x4e; 0xe9; 0x20; 0xf9; 0x44; 0xef; 0x5a; 0xaf; 0x7c; 0x94; 0x20;
   0xa0; 0x0f; 0x5e; 0x9b; 0x48; 0x08; 0x2c; 0x0b; 0x84; 0xe0; 0xfb; 0xb5;
   0xdd; 0xa2; 0xa2; 0x26; 0x77; 0xdf; 0xb7; 0xb8; 0x48; 0x8d; 0xb2; 0xbe;
   0xe6; 0x4c; 0x9b; 0xdd; 0x3c; 0xac; 0x66; 0xfa; 0x32; 0x0e; 0x76; 0xf7;
   0x1c; 0xe2; 0xaf; 0x22; 0x72; 0xbb; 0xbd; 0x76; 0xca; 0xb9; 0x4e; 0x08;
   0x4a; 0x0c; 0x41; 0xd9; 0xb0; 0x77; 0x1d; 0xc6; 0x33; 0x40; 0xc1; 0xac;
   0xcf; 0x5a; 0x89; 0xda; 0x01; 0xb4; 0x37; 0x98; 0x6f; 0x26; 0x9c; 0xf0;
   0xc2; 0x16; 0xe1; 0x5e; 0xa1; 0x4a; 0x03; 0x8c; 0xda; 0x69; 0x2a; 0xf0;
   0xeb; 0x6d; 0xb0; 0x0e; 0x78; 0x80; 0x2b; 0x93; 0x25; 0x20; 0x4d; 0x2d;
   0x20; 0x02; 0x8a; 0x3f; 0x8c; 0xb1; 0x34; 0x68; 0xe8; 0x0f; 0x64; 0x18;
   0x8e; 0x10; 0x46; 0xba; 0x1b; 0xe4; 0x58; 0xa6].

(** [br_rsa_private_key]: the modulus width and the arrays with their lengths. *)
Record br_rsa_private_key := mk_key {
  n_bitlen : nat;
  key_p : bytes; plen : nat;
  key_q : bytes; qlen : nat;
  key_dp : bytes; dplen : nat;
  key_dq : bytes; dqlen : nat;
  key_iq : bytes; iqlen : nat;
}.

Definition AIRPORT_RSA_SK : br_rsa_private_key := {|
  n_bitlen := 2048;
  key_p := RSA_P; plen := length RSA_P;
  key_q := RSA_Q; qlen := length RSA_Q;
  key_dp := RSA_DP; dplen := length RSA_DP;
  key_dq := RSA_DQ; dqlen := length RSA_DQ;
  key_iq := RSA_IQ; iqlen := length RSA_IQ;
|}.

(** ** What a key of this form must satisfy *)

(** An array as the number it denotes. *)
Definition be_num (l : bytes) : Z := foldl (fun v b => v * 256 + b) 0 l.

Definition k_p k := be_num (take (plen k) (key_p k)).
Definition k_q k := be_num (take (qlen k) (key_q k)).
Definition k_dp k := be_num (take (dplen k) (key_dp k)).
Definition k_dq k := be_num (take (dqlen k) (key_dq k)).
Definition k_iq k := be_num (take (iqlen k) (key_iq k)).

(** For the public exponent [e]: the modulus has exactly [n_bitlen] bits, the
    exponents are the reduced inverses of [e], [iq] that of [q], and [p] is the
    larger factor and neither array starts with a zero byte. *)
Definition key_ok (e : Z) (k : br_rsa_private_key) : bool :=
  (2 ^ (Z.of_nat (n_bitlen k) - 1) <=? k_p k * k_q k) && (k_p k * k_q k <? 2 ^ Z.of_nat (n_bitlen k)) &&
  (k_q k <? k_p k) && Z.odd (k_p k) && Z.odd (k_q k) &&
  (0 <? k_dp k) && (k_dp k <? k_p k - 1) && (e * k_dp k mod (k_p k - 1) =? 1) &&
  (0 <? k_dq k) && (k_dq k <? k_q k - 1) && (e * k_dq k mod (k_q k - 1) =? 1) &&
  (0 <? k_iq k) && (k_iq k <? k_p k) && (k_iq k * k_q k mod k_p k =? 1).

(** Garner's recombination of the two half results, for which [iq] is there. *)
Definition crt (k : br_rsa_private_key) (a b : Z) : Z :=
  b + k_q k * ((a - b) * k_iq k mod k_p k).

Lemma garner p q iq x : 0 < q -> 0 <= x < p * q -> iq * q mod p = 1 ->
  x mod q + q * ((x mod p - x mod q) * iq mod p) = x.
Proof.
  intros Hq Hx Hi.
  assert (0 < p) as Hp by nia.
  pose proof (Z.div_mod x q ltac:(lia)) as E.
  assert (0 <= x / q < p) as Hr.
  { split; [apply Z.div_pos; lia | apply Z.div_lt_upper_bound; lia]. }
  assert ((x mod p - x mod q) * iq mod p = x / q) as ->; [|lia].
  rewrite <- (Z.mod_small (x / q) p) by lia.
  rewrite <- Zmult_mod_idemp_l, Zminus_mod_idemp_l, Zmult_mod_idemp_l.
  replace ((x - x mod q) * iq) with (x / q * (iq * q)) by (rewrite E at 2; ring).
  by rewrite <- Zmult_mod_idemp_r, Hi, Z.mul_1_r.
Qed.

Lemma key_ok_iq e k : key_ok e k = true -> 0 < k_q k /\ k_iq k * k_q k mod k_p k = 1.
Proof.
  unfold key_ok. rewrite !andb_true_iff, !Z.ltb_lt, !Z.eqb_eq. intuition lia.
Qed.

Lemma airport_key_ok : key_ok 65537 AIRPORT_RSA_SK = true.
Proof. vm_compute. reflexivity. Qed.

Lemma arrays_ok (n : nat) (ls : list bytes) :
  forallb (fun a => forallb (fun b => (0 <=? b) && (b <? 256)) a && (length a =? n)%nat) ls = true ->
  Forall (fun a => bytes_ok a /\ length a = n) ls.
Proof.
  intros H. apply Forall_forall. intros a Ha. apply list_elem_of_In in Ha.
  pose proof (proj1 (forallb_forall _ _) H a Ha) as Hb.
  apply andb_prop in Hb as [H1 H2]. split; [|by apply Nat.eqb_eq in H2].
  apply Forall_forall. intros b Hb. apply list_elem_of_In in Hb.
  pose proof (proj1 (forallb_forall _ _) H1 b Hb) as Hc.
  apply andb_prop in Hc as [Hc Hd]. apply Z.leb_le in Hc. apply Z.ltb_lt in Hd. by split.
Qed.

(** C32: the AirPort key is a well-formed private key for the public exponent 65537:
    its arrays are of 128 bytes each and stay inside their declared lengths, the
    product of the factors has exactly the 2048 bits announced, [dp] and [dq] invert
    the exponent modulo [p - 1] and [q - 1], and [iq] inverts [q] modulo [p], so that
    every residue of the modulus is recovered from its two halves. *)
Theorem airport_key_well_formed :
  Forall (fun a => bytes_ok a /\ length a = 128%nat) [RSA_P; RSA_Q; RSA_DP; RSA_DQ; RSA_IQ] /\
  key_ok 65537 AIRPORT_RSA_SK = true /\
  forall x, 0 <= x < k_p AIRPORT_RSA_SK * k_q AIRPORT_RSA_SK ->
    crt AIRPORT_RSA_SK (x mod k_p AIRPORT_RSA_SK) (x mod k_q AIRPORT_RSA_SK) = x.
Proof.
  split; [|split; [exact airport_key_ok|]].
  - apply arrays_ok. vm_compute. reflexivity.
  - intros x Hx. destruct (key_ok_iq _ _ airport_key_ok) as [Hq Hi].
    unfold crt. by apply garner.
Qed.
