(* ===== verification/B64.v ===== *)
(** * Base64 and the session crypto shims

    [src/b64.c], [src/apple_response.c], [src/aes_cbc.c] and [src/rsa_oaep.c].  The
    BearSSL primitives these call are parameters. *)
From Stdlib Require Import ZArith Lia String.
From stdpp Require Import base numbers list.
From S2P Require Import Prelude AirportKey.

Local Open Scope Z_scope.

(** ** The decoder *)

(** [val]: the six bits of an alphabet character, -1 for any other. *)
Definition val (c : Z) : Z :=
  if (65 <=? c) && (c <=? 90) then c - 65
  else if (97 <=? c) && (c <=? 122) then c - 97 + 26
  else if (48 <=? c) && (c <=? 57) then c - 48 + 52
  else if c =? 43 then 62
  else if c =? 47 then 63
  else -1.

Definition b64_skip (c : Z) : bool := (c =? 13) || (c =? 10) || (c =? 32) || (c =? 9).

(** The loop of [b64_decode]: the accumulator, the number of pending bits, the
    bytes written so far, the significant characters seen, and whether padding
    has begun.  [Some] is the state when the input is exhausted. *)
Record b64_state := mk_b64 {
  acc : Z; bits : Z; out : bytes; nsig : Z; seen_pad : bool;
}.

Definition b64_char (out_cap : nat) (s : b64_state) (c : Z) : run (option b64_state) :=
  if b64_skip c then Ret (Some s)
  else if c =? 61 then Ret (Some (mk_b64 (acc s) (bits s) (out s) (nsig s) true))
  else if seen_pad s then Ret None
  else
    let v := val c in
    if v <? 0 then Ret None
    else
      let n := nsig s + 1 in
      let a := Z.lor (u32 (Z.shiftl (acc s) 6)) v in
      let b := bits s + 6 in
      if 8 <=? b then
        let b := b - 8 in
        if (out_cap <=? length (out s))%nat then Ret None
        else
          let! o := wr out_cap (out s) [u8 (Z.shiftr a b)] in
          Ret (Some (mk_b64 a b o n false))
      else Ret (Some (mk_b64 a b (out s) n false)).

Fixpoint b64_loop (out_cap : nat) (s : b64_state) (inp : bytes) : run (option b64_state) :=
  match inp with
  | [] => Ret (Some s)
  | c :: inp' =>
      let! r := b64_char out_cap s c in
      match r with
      | None => Ret None
      | Some s' => b64_loop out_cap s' inp'
      end
  end.

(** The decoded bytes, or [None] for the -1 of the code. *)
Definition b64_decode (inp : bytes) (out_cap : nat) : run (option bytes) :=
  let! r := b64_loop out_cap (mk_b64 0 0 [] 0 false) inp in
  match r with
  | None => Ret None
  | Some s => if nsig s mod 4 =? 1 then Ret None else Ret (Some (out s))
  end.

(** ** The encoder of the Apple-Response *)

Definition T64 : bytes := str "ABCDEFGHIJKLMNOPQRSTUVWXYZabcdefghijklmnopqrstuvwxyz0123456789+/".

(** [T[(v>>k)&63]] *)
Definition t64 (v k : Z) : run Z := rd T64 (Z.to_nat (Z.land (Z.shiftr v k) 63)).

(** [b64_nopad]: three bytes at a time, then the rest, then the terminator; [cap]
    is the size of the caller's buffer. *)
Fixpoint b64_nopad (cap : nat) (inp o : bytes) : run bytes :=
  match inp with
  | a :: b :: c :: inp' =>
      let v := Z.lor (Z.lor (Z.shiftl a 16) (Z.shiftl b 8)) c in
      let! c0 := t64 v 18 in let! o := wr cap o [c0] in
      let! c1 := t64 v 12 in let! o := wr cap o [c1] in
      let! c2 := t64 v 6 in let! o := wr cap o [c2] in
      let! c3 := t64 v 0 in let! o := wr cap o [c3] in
      b64_nopad cap inp' o
  | [a] =>
      let v := Z.shiftl a 16 in
      let! c0 := t64 v 18 in let! o := wr cap o [c0] in
      let! c1 := t64 v 12 in let! o := wr cap o [c1] in
      let! _ := wr cap o [0] in Ret o
  | [a; b] =>
      let v := Z.lor (Z.shiftl a 16) (Z.shiftl b 8) in
      let! c0 := t64 v 18 in let! o := wr cap o [c0] in
      let! c1 := t64 v 12 in let! o := wr cap o [c1] in
      let! c2 := t64 v 6 in let! o := wr cap o [c2] in
      let! _ := wr cap o [0] in Ret o
  | [] => let! _ := wr cap o [0] in Ret o
  end.

(** ** The Apple-Challenge signature *)

(** The modulus width in bytes. *)
Definition klen : nat := (n_bitlen AIRPORT_RSA_SK + 7) / 8.

Section Crypto.
(** [br_rsa_i31_private] with the AirPort key, in place on a block of [klen]
    bytes; [br_rsa_i31_oaep_decrypt] (empty label, SHA-1): the recovered bytes; and the AES-CBC
    decryption of whole blocks. *)
Context (rsa_private : bytes -> option bytes).
Context (oaep_decrypt : bytes -> option bytes).
Context (aes_cbcdec : bytes -> bytes -> bytes -> bytes).

Definition type1_block (pl : bytes) : bytes :=
  [0; 1] ++ replicate (klen - 32 - 3) 255 ++ [0] ++ pl.

Definition response_payload (challenge ip4 mac : bytes) : run bytes :=
  let payload := replicate 32 0 in
  let! payload := put_sub payload 0 challenge in
  let! payload := put_sub payload (length challenge) ip4 in
  put_sub payload (length challenge + 4) mac.

(** The text of the signature, or [None] for -1. *)
Definition raop_apple_response (challenge ip4 mac : bytes) (out_cap : nat) : run (option bytes) :=
  if (length challenge =? 0)%nat then Ret None
  else if (512 <? klen)%nat || (16 <? length challenge)%nat then Ret None
  else
    let! payload := response_payload challenge ip4 mac in
    if (klen <? 32 + 11)%nat then Ret None
    else
      match rsa_private (type1_block payload) with
      | None => Ret None
      | Some blk =>
          let need := (klen / 3 * 4 + (if klen mod 3 =? 1 then 2 else if klen mod 3 =? 2 then 3 else 0))%nat in
          if (out_cap <? need + 1)%nat then Ret None
          else
            let! o := b64_nopad out_cap blk [] in
            Ret (Some o)
      end.

(** [raop_oaep_unwrap_key]: the key iff the padding yields exactly 16 bytes. *)
Definition raop_oaep_unwrap_key (rsaaeskey : bytes) : option bytes :=
  if negb (length rsaaeskey =? klen)%nat then None
  else if (512 <? klen)%nat then None
  else
    match oaep_decrypt rsaaeskey with
    | None => None
    | Some m => if negb (length m =? 16)%nat then None else Some m
    end.

(** [raop_aes_cbc_decrypt]: the whole blocks are decrypted in place, the rest is
    left as it is. *)
Definition raop_aes_cbc_decrypt (key iv buf : bytes) : bytes :=
  let whole := (length buf / 16 * 16)%nat in
  if (whole =? 0)%nat then buf
  else aes_cbcdec key iv (take whole buf) ++ drop whole buf.
End Crypto.

(** ** The value of a text *)

(** Bytes as one number, and base64 characters as one number. *)
Definition be_val (l : bytes) : Z := foldl (fun v b => v * 256 + b) 0 l.
Definition sx_val (l : list Z) : Z := foldl (fun v x => v * 64 + x) 0 l.

Lemma be_val_snoc l b : be_val (l ++ [b]) = be_val l * 256 + b.
Proof. unfold be_val. by rewrite foldl_app. Qed.

Lemma sx_val_snoc l x : sx_val (l ++ [x]) = sx_val l * 64 + x.
Proof. unfold sx_val. by rewrite foldl_app. Qed.

Lemma foldl_radix_shift (r v : Z) l :
  foldl (fun v b => v * r + b) v l =
  v * r ^ Z.of_nat (length l) + foldl (fun v b => v * r + b) 0 l.
Proof.
  revert v. induction l as [|b l IH]; intros v; [cbn; lia|].
  cbn [foldl]. rewrite IH. rewrite (IH (0 * r + b)). cbn [length].
  rewrite Nat2Z.inj_succ, Z.pow_succ_r by lia. ring.
Qed.

Lemma be_val_bound l : bytes_ok l -> 0 <= be_val l < 256 ^ Z.of_nat (length l).
Proof.
  induction l as [|b l IH] using rev_ind; [by intros; cbn|].
  intros [Hl Hb]%Forall_app. apply Forall_cons in Hb as [Hb _]. unfold byte_ok in Hb.
  specialize (IH Hl). rewrite be_val_snoc, length_app. cbn [length].
  rewrite Nat.add_1_r, Nat2Z.inj_succ, Z.pow_succ_r by lia. lia.
Qed.

Lemma be_val_inj a b :
  bytes_ok a -> bytes_ok b -> length a = length b -> be_val a = be_val b -> a = b.
Proof.
  revert b. induction a as [|x a IH] using rev_ind; intros b Ha Hb Hl Hv.
  { by destruct b. }
  destruct b as [|y b _] using rev_ind; [rewrite length_app in Hl; simpl in Hl; lia|].
  rewrite !length_app in Hl. simpl in Hl. rewrite !be_val_snoc in Hv.
  apply Forall_app in Ha as [Ha Hx], Hb as [Hb Hy].
  apply Forall_cons in Hx as [Hx _], Hy as [Hy _]. unfold byte_ok in *.
  assert (x = y) as -> by lia. f_equal. apply IH; [done|done|lia|lia].
Qed.

(** ** Encoding *)

Definition sextet (x : Z) : Prop := 0 <= x < 64.

(** The character of a sextet. *)
Definition ch (x : Z) : Z := T64 !!! Z.to_nat x.

Lemma all_sextets (P : Z -> bool) x :
  forallb P (map Z.of_nat (List.seq 0 64)) = true -> sextet x -> P x = true.
Proof.
  rewrite forallb_forall. intros H [Hb1 Hb2]. apply H.
  apply in_map_iff. exists (Z.to_nat x). split; [lia|]. apply in_seq. lia.
Qed.

Lemma val_ch x : sextet x -> val (ch x) = x /\ b64_skip (ch x) = false /\ ch x <> 61.
Proof.
  intros Hx.
  pose proof (all_sextets (fun x => (val (ch x) =? x) && negb (b64_skip (ch x)) && negb (ch x =? 61))
    x eq_refl Hx) as H.
  apply andb_true_iff in H as [[H1 H2]%andb_true_iff H3].
  split; [lia|]. split; [by apply negb_true_iff|lia].
Qed.

Lemma t64_spec v k : 0 <= k -> t64 v k = Ret (ch (v / 2 ^ k mod 64)).
Proof.
  intros Hk. unfold t64. change 63 with (Z.ones 6). rewrite Z.land_ones by lia.
  rewrite Z.shiftr_div_pow2 by lia. change (2 ^ 6) with 64.
  set (x := _ mod 64). assert (sextet x) as Hx by (apply Z.mod_pos_bound; lia).
  unfold rd, ch. rewrite list_lookup_lookup_total_lt; [done|].
  change (length T64) with 64%nat. unfold sextet in Hx. lia.
Qed.

(** What the encoder writes for a byte string: [p] is the number of zero bits
    that complete the last character. *)
Definition encodes (bs xs : list Z) : Prop :=
  Forall sextet xs /\
  exists p, (p = 0 \/ p = 2 \/ p = 4) /\
    6 * Z.of_nat (length xs) = 8 * Z.of_nat (length bs) + p /\
    sx_val xs = be_val bs * 2 ^ p.

Definition enc_len (n : nat) : nat :=
  (n / 3 * 4 + (if n mod 3 =? 1 then 2 else if n mod 3 =? 2 then 3 else 0))%nat.

Lemma enc_len_add3 n : enc_len (3 + n) = (4 + enc_len n)%nat.
Proof.
  unfold enc_len. replace (3 + n)%nat with (n + 1 * 3)%nat by lia.
  rewrite Nat.div_add, Nat.Div0.mod_add by lia. lia.
Qed.

Lemma word24 a b c :
  byte_ok a -> byte_ok b -> byte_ok c ->
  Z.lor (Z.lor (Z.shiftl a 16) (Z.shiftl b 8)) c = a * 65536 + b * 256 + c.
Proof.
  unfold byte_ok. intros Ha Hb Hc. rewrite <- Z.lor_assoc.
  rewrite (lor_shiftl_add b c 8), (lor_shiftl_add a _ 16) by lia. lia.
Qed.

Lemma sx_val_cons x xs : sx_val (x :: xs) = x * 64 ^ Z.of_nat (length xs) + sx_val xs.
Proof. unfold sx_val at 1. cbn [foldl]. rewrite foldl_radix_shift. unfold sx_val. lia. Qed.

Lemma be_val_cons x xs : be_val (x :: xs) = x * 256 ^ Z.of_nat (length xs) + be_val xs.
Proof. unfold be_val at 1. cbn [foldl]. rewrite foldl_radix_shift. unfold be_val. lia. Qed.

Lemma encodes_group a b c bs xs :
  byte_ok a -> byte_ok b -> byte_ok c -> encodes bs xs ->
  let v := a * 65536 + b * 256 + c in
  encodes (a :: b :: c :: bs)
    ((v / 2 ^ 18 mod 64) :: (v / 2 ^ 12 mod 64) :: (v / 2 ^ 6 mod 64) :: (v / 2 ^ 0 mod 64) :: xs).
Proof.
  intros Ha Hb Hc (Hx & p & Hp & Hl & Hv) v. split.
  { repeat (apply List.Forall_cons; [apply Z.mod_pos_bound; lia|]). done. }
  exists p. split; [done|]. split; [cbn [length]; lia|].
  assert (v = (v / 2 ^ 18 mod 64) * 2 ^ 18 + (v / 2 ^ 12 mod 64) * 2 ^ 12
    + (v / 2 ^ 6 mod 64) * 2 ^ 6 + v / 2 ^ 0 mod 64) as Hd.
  { unfold v, byte_ok in *. Z.to_euclidean_division_equations. lia. }
  rewrite !sx_val_cons, !be_val_cons, Hv. cbn [length]. rewrite !Nat2Z.inj_succ.
  rewrite !Z.pow_succ_r by lia.
  assert (64 ^ Z.of_nat (length xs) = 256 ^ Z.of_nat (length bs) * 2 ^ p) as Hpow.
  { change 64 with (2 ^ 6). change 256 with (2 ^ 8).
    rewrite <- !Z.pow_mul_r by lia. rewrite Hl. rewrite Z.pow_add_r by lia. done. }
  rewrite Hpow. set (P := 256 ^ Z.of_nat (length bs)). set (Q := 2 ^ p).
  transitivity (v * (P * Q) + be_val bs * Q); [|unfold v; ring].
  rewrite Hd at 5. change (2 ^ 18) with (64 * 64 * 64). change (2 ^ 12) with (64 * 64).
  change (2 ^ 6) with 64. ring.
Qed.

(** The stores of one group. *)
Local Ltac written := repeat (rewrite wr_fits by (rewrite ?length_app; cbn; lia); cbn [rbind]).

(** The encoder terminates within the buffer and writes the characters of an
    encoding, of the expected length. *)
Lemma b64_nopad_spec cap bs o :
  bytes_ok bs -> (length o + enc_len (length bs) + 1 <= cap)%nat ->
  exists xs, b64_nopad cap bs o = Ret (o ++ map ch xs) /\
    encodes bs xs /\ length xs = enc_len (length bs).
Proof.
  remember (length bs) as n eqn:Hn. revert bs o Hn.
  induction (lt_wf n) as [n _ IH]; intros bs o -> Hb Hc.
  destruct bs as [|a [|b [|c bs]]].
  - exists []. cbn [b64_nopad map]. rewrite wr_fits by (cbn in *; lia). cbn [rbind].
    rewrite app_nil_r. split; [done|]. split; [|done]. split; [done|]. exists 0. by split_and!; [left|..].
  - apply Forall_cons in Hb as [Ha _].
    assert (Z.shiftl a 16 = a * 65536 + 0 * 256 + 0) as Hv by (rewrite Z.shiftl_mul_pow2; lia).
    cbn [b64_nopad]. rewrite Hv. change (enc_len (length [a])) with 2%nat in *.
    rewrite !t64_spec by lia. cbn [rbind]. written. set (v := a * 65536 + 0 * 256 + 0).
    exists [v / 2 ^ 18 mod 64; v / 2 ^ 12 mod 64]. rewrite <- app_assoc. split; [done|]. split; [|done].
    split; [repeat (apply List.Forall_cons; [apply Z.mod_pos_bound; lia|]); done|].
    exists 4. split; [lia|]. split; [done|]. unfold v, byte_ok, sx_val, be_val in *. cbn [foldl].
    Z.to_euclidean_division_equations. lia.
  - apply Forall_cons in Hb as [Ha Hb]. apply Forall_cons in Hb as [Hb _].
    assert (Z.lor (Z.shiftl a 16) (Z.shiftl b 8) = a * 65536 + b * 256 + 0) as Hv.
    { pose proof (word24 a b 0 Ha Hb ltac:(done)) as H. by rewrite Z.lor_0_r in H. }
    cbn [b64_nopad]. rewrite Hv. change (enc_len (length [a; b])) with 3%nat in *.
    rewrite !t64_spec by lia. cbn [rbind]. written. set (v := a * 65536 + b * 256 + 0).
    exists [v / 2 ^ 18 mod 64; v / 2 ^ 12 mod 64; v / 2 ^ 6 mod 64]. rewrite <- !app_assoc.
    split; [done|]. split; [|done].
    split; [repeat (apply List.Forall_cons; [apply Z.mod_pos_bound; lia|]); done|].
    exists 2. split; [lia|]. split; [done|]. unfold v, byte_ok, sx_val, be_val in *. cbn [foldl].
    Z.to_euclidean_division_equations. lia.
  - apply Forall_cons in Hb as [Ha Hb]. apply Forall_cons in Hb as [Hb Hbs].
    apply Forall_cons in Hbs as [Hcb Hbs].
    change (length (a :: b :: c :: bs)) with (3 + length bs)%nat in *. rewrite enc_len_add3 in *.
    cbn [b64_nopad]. rewrite word24 by done. set (v := a * 65536 + b * 256 + c).
    rewrite !t64_spec by lia. cbn [rbind]. written. rewrite <- !app_assoc. cbn [app].
    edestruct (IH (length bs)) as (xs & -> & He & Hl); [lia|done|done| |].
    { rewrite length_app. cbn [length]. lia. }
    exists (v / 2 ^ 18 mod 64 :: v / 2 ^ 12 mod 64 :: v / 2 ^ 6 mod 64 :: v / 2 ^ 0 mod 64 :: xs).
    rewrite <- app_assoc. split; [done|]. split; [by apply encodes_group|].
    cbn [length]. lia.
Qed.

(** ** Decoding *)

(** The decoder after the sextets [xs]: the bytes written and the pending bits
    are their value. *)
Definition dec_ok (xs : list Z) (s : b64_state) : Prop :=
  (bits s = 0 \/ bits s = 2 \/ bits s = 4 \/ bits s = 6) /\
  0 <= acc s < 2 ^ 32 /\ bytes_ok (out s) /\
  nsig s = Z.of_nat (length xs) /\
  8 * Z.of_nat (length (out s)) + bits s = 6 * Z.of_nat (length xs) /\
  be_val (out s) * 2 ^ bits s + acc s mod 2 ^ bits s = sx_val xs.

Lemma dec_ok_step cap xs s x :
  dec_ok xs s -> seen_pad s = false -> sextet x ->
  exists r, b64_char cap s (ch x) = Ret r /\
    match r with
    | Some s' => dec_ok (xs ++ [x]) s' /\ seen_pad s' = false /\
        ((length (out s) <= cap)%nat -> (length (out s') <= cap)%nat)
    | None => (cap <= length (out s))%nat /\ bits s <> 0
    end.
Proof.
  intros (Hb & Ha & Ho & Hn & Hl & Hv) Hp Hx.
  destruct (val_ch x Hx) as (V1 & V2 & V3). unfold b64_char. rewrite V2.
  rewrite (proj2 (Z.eqb_neq _ _) V3), Hp, V1. unfold sextet in Hx.
  rewrite (proj2 (Z.ltb_ge x 0)) by lia.
  assert (Z.lor (u32 (Z.shiftl (acc s) 6)) x = u32 (acc s * 64) + x) as Hor.
  { rewrite Z.shiftl_mul_pow2 by lia. change (2 ^ 6) with 64.
    replace (u32 (acc s * 64)) with (Z.shiftl (acc s mod 2 ^ 26) 6).
    - by rewrite lor_shiftl_add, Z.shiftl_mul_pow2 by lia.
    - rewrite Z.shiftl_mul_pow2 by lia. unfold u32. change (2 ^ 32) with (2 ^ 26 * 64).
      change (2 ^ 6) with 64. by rewrite Z.mul_mod_distr_r by lia. }
  rewrite Hor. set (a := u32 (acc s * 64) + x).
  assert (0 <= a < 2 ^ 32) as Hra.
  { unfold a, u32. clear -Ha Hx. Z.to_euclidean_division_equations. lia. }
  assert (a mod 2 ^ (bits s + 6) = acc s mod 2 ^ bits s * 64 + x) as Ham.
  { unfold a, u32. clear -Ha Hx Hb. destruct Hb as [-> | [-> | [-> | ->]]];
      cbn [Z.add Pos.add Pos.succ]; Z.to_euclidean_division_equations; lia. }
  destruct (Z.leb_spec 8 (bits s + 6)) as [H8|H8].
  - destruct (Nat.leb_spec cap (length (out s))) as [Hc|Hc].
    { exists None. split; [done|]. split; [done|]. lia. }
    rewrite wr_fits by (cbn; lia). cbn [rbind].
    eexists. split; [done|]. split; [|split; [done|cbn; rewrite length_app; cbn; lia]].
    cbn. replace (bits s + 6 - 8) with (bits s - 2) by lia.
    unfold dec_ok. cbn [bits acc out nsig]. rewrite !length_app, be_val_snoc, sx_val_snoc.
    cbn [length]. split; [lia|]. split; [done|]. split; [apply Forall_app; auto with bytes|].
    split; [lia|]. split; [lia|]. rewrite <- Hv.
    rewrite Z.shiftr_div_pow2 by lia. unfold u8.
    clear -Ham Hb H8 Hra. destruct Hb as [E | [E | [E | E]]]; rewrite E in *; try lia;
      cbn [Z.sub Z.add Z.opp Pos.add Pos.succ Z.pos_sub Pos.pred_double] in *;
      Z.to_euclidean_division_equations; lia.
  - eexists. split; [done|]. split; [|by split].
    unfold dec_ok. cbn [bits acc out nsig]. rewrite !length_app, sx_val_snoc.
    cbn [length]. assert (bits s = 0) as E by lia. rewrite E in *.
    split; [lia|]. split; [done|]. split; [done|]. split; [lia|]. split; [lia|].
    rewrite <- Hv, Ham. lia.
Qed.

(** A character with a value is the character of that value. *)
Lemma ch_val c : 0 <= val c -> sextet (val c) /\ c = ch (val c).
Proof.
  intros Hc. assert (byte_ok c) as Hb.
  { unfold val in Hc. unfold byte_ok. repeat case_match; lia. }
  pose proof (all_bytes_spec
    (fun c => (val c <? 0) || ((val c <? 64) && (c =? ch (val c)))) c eq_refl Hb) as H.
  apply orb_true_iff in H as [H|[H1 H2]%andb_true_iff]; unfold sextet; lia.
Qed.

Lemma ch_inj x y : sextet x -> sextet y -> ch x = ch y -> x = y.
Proof.
  intros Hx Hy E. destruct (val_ch x Hx) as [<- _], (val_ch y Hy) as [<- _]. by rewrite E.
Qed.

(** The characters that count, and a well-formed text: sextets, then padding. *)
Definition significant (inp : bytes) : bytes := List.filter (fun c => negb (b64_skip c)) inp.

Definition b64_text (inp : bytes) (xs : list Z) : Prop :=
  Forall sextet xs /\ exists k, significant inp = map ch xs ++ replicate k 61.

(** The whole bytes in [n] sextets. *)
Definition dec_len (n : nat) : nat := (6 * n / 8)%nat.

Lemma dec_ok_len xs s : dec_ok xs s -> length (out s) = dec_len (length xs).
Proof.
  intros (Hb & _ & _ & _ & Hl & _). unfold dec_len. apply Nat.div_unique with (Z.to_nat (bits s)); lia.
Qed.

Lemma b64_text_skip c inp xs : b64_skip c = true -> b64_text (c :: inp) xs <-> b64_text inp xs.
Proof. intros H. unfold b64_text, significant. cbn. by rewrite H. Qed.

Lemma b64_text_pad inp xs : b64_text (61 :: inp) xs <-> xs = [] /\ b64_text inp [].
Proof.
  unfold b64_text, significant. cbn. split.
  - intros (Hx & k & Hk). destruct xs as [|x xs].
    + split; [done|]. split; [done|]. destruct k as [|k]; [done|]. exists k. simpl in *. congruence.
    + apply Forall_cons in Hx as [Hx _]. destruct (val_ch x Hx) as (_ & _ & Hne).
      simpl in Hk. congruence.
  - intros (-> & _ & k & Hk). split; [done|]. exists (S k). simpl in *. congruence.
Qed.

Lemma b64_text_char x inp xs :
  sextet x -> b64_text (ch x :: inp) xs <-> exists ys, xs = x :: ys /\ b64_text inp ys.
Proof.
  intros Hx. destruct (val_ch x Hx) as (_ & Hs & Hne). unfold b64_text, significant. cbn.
  rewrite Hs. cbn [negb]. split.
  - intros (Hxs & k & Hk). destruct xs as [|y ys]; [destruct k; simpl in Hk; congruence|].
    apply Forall_cons in Hxs as [Hy Hys]. simpl in Hk. injection Hk as E1 E2.
    apply ch_inj in E1; [|done|done]. subst y. exists ys. split; [done|]. by split; [|exists k].
  - intros (ys & -> & Hys & k & Hk). split; [by constructor|]. exists k. simpl. by rewrite Hk.
Qed.

Lemma b64_text_bad c inp xs :
  b64_skip c = false -> c <> 61 -> val c < 0 -> ~ b64_text (c :: inp) xs.
Proof.
  intros Hs Hp Hv (Hxs & k & Hk). unfold significant in Hk. cbn in Hk. rewrite Hs in Hk.
  destruct xs as [|x xs]; [destruct k; simpl in Hk; congruence|].
  apply Forall_cons in Hxs as [Hx _]. simpl in Hk. destruct (val_ch x Hx) as [Hvx _].
  injection Hk as E _. rewrite E, Hvx in Hv. unfold sextet in Hx. lia.
Qed.

(** The loop decides whether the rest of the input is a text that fits, and
    decodes it. *)
Lemma b64_loop_spec cap inp xs s :
  dec_ok xs s -> (length (out s) <= cap)%nat ->
  exists r, b64_loop cap s inp = Ret r /\
    match r with
    | Some s' => exists ys, b64_text inp ys /\ (seen_pad s = true -> ys = []) /\
        dec_ok (xs ++ ys) s' /\ (length (out s') <= cap)%nat
    | None => forall ys, b64_text inp ys -> (seen_pad s = true -> ys = []) ->
        (cap < dec_len (length (xs ++ ys)))%nat
    end.
Proof.
  revert xs s. induction inp as [|c inp IH]; intros xs s Hd Hc; cbn [b64_loop].
  { eexists. split; [done|]. exists []. rewrite app_nil_r. split_and!; try done.
    split; [done|]. by exists 0%nat. }
  destruct (b64_skip c) eqn:Es.
  { unfold b64_char. rewrite Es. cbn [rbind]. destruct (IH xs s Hd Hc) as (r & -> & Hr).
    exists r. split; [done|]. destruct r as [s'|].
    - destruct Hr as (ys & Hy & Hr). exists ys. split; [by apply b64_text_skip|done].
    - intros ys Hy. apply Hr. by apply b64_text_skip in Hy. }
  destruct (decide (c = 61)) as [->|Hne].
  { unfold b64_char. rewrite Es. cbn [Z.eqb Pos.eqb rbind].
    edestruct (IH xs (mk_b64 (acc s) (bits s) (out s) (nsig s) true)) as (r & -> & Hr); [done|done|].
    exists r. split; [done|]. destruct r as [s'|].
    - destruct Hr as (ys & Hy & Hp & Hr). specialize (Hp eq_refl) as ->.
      exists []. split; [by apply b64_text_pad|]. done.
    - intros ys [-> Hy]%b64_text_pad _. by apply Hr. }
  destruct (seen_pad s) eqn:Ep.
  { unfold b64_char. rewrite Es, (proj2 (Z.eqb_neq _ _) Hne), Ep. exists None. split; [done|].
    intros ys (Hys & k & Hk) Hnil. rewrite (Hnil eq_refl) in Hk. unfold significant in Hk.
    cbn in Hk. rewrite Es in Hk. destruct k; simpl in Hk; congruence. }
  destruct (Z.ltb_spec (val c) 0) as [Hv|Hv].
  { unfold b64_char. rewrite Es, (proj2 (Z.eqb_neq _ _) Hne), Ep, (proj2 (Z.ltb_lt _ _) Hv).
    exists None. split; [done|]. intros ys Hy. by apply b64_text_bad in Hy. }
  destruct (ch_val c Hv) as [Hx ->]. set (x := val c) in *.
  destruct (dec_ok_step cap xs s x Hd Ep Hx) as (r & -> & Hr). cbn [rbind].
  destruct r as [s'|].
  - destruct Hr as (Hd' & Hp' & Hc'). specialize (Hc' Hc).
    destruct (IH _ s' Hd' Hc') as (r & -> & Hr). exists r. split; [done|].
    destruct r as [s''|].
    + destruct Hr as (ys & Hy & _ & Hr). exists (x :: ys). split; [apply b64_text_char; eauto|].
      split; [congruence|]. by rewrite <- app_assoc in Hr.
    + intros ys (ys' & -> & Hy)%b64_text_char _; [|done].
      specialize (Hr ys' Hy ltac:(congruence)). by rewrite <- app_assoc in Hr.
  - exists None. split; [done|]. intros ys (ys' & -> & Hy)%b64_text_char _; [|done].
    pose proof (dec_ok_len _ _ Hd) as Hlen. destruct Hd as (Hb & _ & _ & _ & Hl & _).
    destruct Hr as [Hr1 Hr2]. rewrite length_app. cbn [length]. unfold dec_len.
    apply Nat.lt_le_trans with ((6 * (length xs + 1)) / 8)%nat;
      [|apply Nat.Div0.div_le_mono; lia].
    apply Nat.lt_le_trans with (S (length (out s))); [lia|]. apply Nat.div_le_lower_bound; lia.
Qed.

Lemma dec_ok_init : dec_ok [] (mk_b64 0 0 [] 0 false).
Proof. unfold dec_ok. cbn. split_and!; try done; try lia. constructor. Qed.

(** The bytes of a text of sextets [xs]: their bits, the incomplete last byte
    dropped. *)
Definition b64_bytes (xs : list Z) (bs : bytes) : Prop :=
  bytes_ok bs /\ length bs = dec_len (length xs) /\
  be_val bs = sx_val xs / 2 ^ (Z.of_nat (6 * length xs) mod 8).

Lemma dec_ok_bytes xs s : dec_ok xs s -> b64_bytes xs (out s).
Proof.
  intros Hd. pose proof (dec_ok_len _ _ Hd) as Hlen. destruct Hd as (Hb & Ha & Ho & _ & Hl & Hv).
  split; [done|]. split; [done|].
  assert (Z.of_nat (6 * length xs) mod 8 = bits s) as ->.
  { rewrite Nat2Z.inj_mul. symmetry. apply Z.mod_unique with (Z.of_nat (length (out s))); lia. }
  rewrite <- Hv. rewrite Z.mul_comm.
  apply Z.div_unique with (acc s mod 2 ^ bits s); [|done]. left. apply Z.mod_pos_bound.
  apply Z.pow_pos_nonneg; lia.
Qed.

Lemma b64_bytes_inj xs a b : b64_bytes xs a -> b64_bytes xs b -> a = b.
Proof.
  intros (Ha & La & Va) (Hb & Lb & Vb). apply be_val_inj; congruence.
Qed.

(** A text has one reading. *)
Lemma b64_text_inj inp xs ys : b64_text inp xs -> b64_text inp ys -> ys = xs.
Proof.
  revert xs ys. induction inp as [|c inp IH]; intros xs ys Hx Hy.
  { destruct Hx as (_ & k & Hk), Hy as (_ & k' & Hk'). by destruct xs, ys. }
  destruct (b64_skip c) eqn:Es; [apply b64_text_skip in Hx, Hy; auto|].
  destruct (decide (c = 61)) as [->|Hne].
  { apply b64_text_pad in Hx as [-> _], Hy as [-> _]. done. }
  destruct (Z.ltb_spec (val c) 0) as [Hv|Hv]; [by apply b64_text_bad in Hx|].
  destruct (ch_val c Hv) as [Hs E]. rewrite E in Hx, Hy. clear E.
  apply b64_text_char in Hx as (x' & -> & Hx); [|done].
  apply b64_text_char in Hy as (y' & -> & Hy); [|done]. f_equal. auto.
Qed.

(** The complete specification of [b64_decode]. *)
Lemma b64_decode_exact inp cap :
  exists r, b64_decode inp cap = Ret r /\
    forall bs, r = Some bs <->
      exists xs, b64_text inp xs /\ (length xs mod 4 <> 1)%nat /\ b64_bytes xs bs /\
        (length bs <= cap)%nat.
Proof.
  unfold b64_decode.
  destruct (b64_loop_spec cap inp [] _ dec_ok_init ltac:(cbn; lia)) as (r & -> & Hr).
  cbn [rbind]. destruct r as [s|].
  - destruct Hr as (xs & Hx & _ & Hd & Hc). cbn [app] in Hd.
    assert (nsig s mod 4 = Z.of_nat (length xs mod 4)) as Hn.
    { destruct Hd as (_ & _ & _ & -> & _). by rewrite Nat2Z.inj_mod. }
    assert (forall ys, b64_text inp ys -> ys = xs) as Huniq by (intros; by eapply b64_text_inj).
    destruct (Z.eqb_spec (nsig s mod 4) 1) as [E|E].
    + exists None. split; [done|]. intros bs. split; [done|]. intros (ys & Hy & Hm & _).
      rewrite (Huniq ys Hy) in Hm. lia.
    + exists (Some (out s)). split; [done|]. intros bs. split.
      * intros [= <-]. exists xs. split; [done|]. split; [lia|]. split; [by apply dec_ok_bytes|done].
      * intros (ys & Hy & _ & Hbs & _). rewrite (Huniq ys Hy) in Hbs. f_equal.
        eapply b64_bytes_inj; [by apply dec_ok_bytes|done].
  - exists None. split; [done|]. intros bs. split; [done|]. intros (ys & Hy & _ & Hbs & Hle).
    specialize (Hr ys Hy ltac:(done)). cbn [app] in Hr. destruct Hbs as (_ & Hl & _). lia.
Qed.

(** The base64 decoder is exact and memory safe on every input and every
    output size: it returns the bytes of the text when the input is a well-formed
    text (sextets, then padding, with blanks anywhere) of a possible length that
    fits, and refuses every other input; it never writes outside its buffer. *)
Theorem b64_decode_spec inp cap :
  exists r, b64_decode inp cap = Ret r /\
    forall bs, r = Some bs <->
      exists xs, b64_text inp xs /\ (length xs mod 4 <> 1)%nat /\ b64_bytes xs bs /\
        (length bs <= cap)%nat.
Proof.
  apply b64_decode_exact.
Qed.

(** ** Round trips *)

Lemma significant_no_skip l : Forall (fun c => b64_skip c = false) l -> significant l = l.
Proof. unfold significant. induction 1 as [|c l Hc Hl IH]; cbn; [done|]. by rewrite Hc, IH. Qed.

Lemma encodes_text bs xs k : encodes bs xs -> b64_text (map ch xs ++ replicate k 61) xs.
Proof.
  intros (Hx & _). split; [done|]. exists k. apply significant_no_skip. apply Forall_app. split.
  - apply Forall_map. eapply Forall_impl; [exact Hx|]. intros x Hs. by apply val_ch.
  - by apply Forall_replicate.
Qed.

Lemma encodes_bytes bs xs :
  bytes_ok bs -> encodes bs xs -> (length xs mod 4 <> 1)%nat /\ b64_bytes xs bs.
Proof.
  intros Hb (Hx & p & Hp & Hl & Hv). split.
  { intros Hm. pose proof (Nat.div_mod_eq (length xs) 4). lia. }
  split; [done|]. unfold dec_len. split; [apply Nat.div_unique with (Z.to_nat p); lia|].
  rewrite Nat2Z.inj_mul. change (Z.of_nat 6) with 6. rewrite Hl.
  replace ((8 * Z.of_nat (length bs) + p) mod 8) with p
    by (apply Z.mod_unique with (Z.of_nat (length bs)); lia).
  rewrite Hv. symmetry. apply Z.div_mul. apply Z.pow_nonzero; lia.
Qed.

(** Decoding inverts encoding: the text the encoder writes, with any amount
    of padding after it, decodes to the bytes it encodes; and the encoder stays
    within the length its caller computed. *)
Theorem b64_round_trip bs cap cap' k :
  bytes_ok bs -> (enc_len (length bs) + 1 <= cap)%nat -> (length bs <= cap')%nat ->
  exists t, b64_nopad cap bs [] = Ret t /\ length t = enc_len (length bs) /\
    b64_decode (t ++ replicate k 61) cap' = Ret (Some bs).
Proof.
  intros Hb Hc Hc'. destruct (b64_nopad_spec cap bs [] Hb ltac:(cbn [length]; lia)) as (xs & -> & He & Hl).
  exists (map ch xs). split; [done|]. split; [by rewrite length_map|].
  destruct (b64_decode_exact (map ch xs ++ replicate k 61) cap') as (r & -> & Hr).
  destruct (encodes_bytes bs xs Hb He) as [Hm Hbs]. f_equal. apply Hr. exists xs.
  by split; [eapply encodes_text|].
Qed.

Lemma b64_round_trip_witness :
  exists t, b64_nopad 8 [77; 97; 255; 0] [] = Ret t /\ length t = 6%nat /\
    b64_decode (t ++ replicate 2 61) 16 = Ret (Some [77; 97; 255; 0]).
Proof.
  apply (b64_round_trip [77; 97; 255; 0] 8 16 2); [by apply bytes_okb_ok|cbn; lia|cbn; lia].
Defined.

(** The 32 bytes that are signed. *)
Lemma response_payload_eq challenge ip4 mac :
  (length challenge <= 16)%nat -> length ip4 = 4%nat -> length mac = 6%nat ->
  response_payload challenge ip4 mac =
  Ret (challenge ++ ip4 ++ mac ++ replicate (22 - length challenge) 0).
Proof.
  intros Hc Hi Hm. unfold response_payload.
    rewrite (put_sub_at _ [] (replicate (length challenge) 0) (replicate (32 - length challenge) 0));
      [|cbn [app]; rewrite <- replicate_add; f_equal; lia|done|by rewrite length_replicate].
    cbn [rbind app].
    rewrite (put_sub_at _ challenge (replicate 4 0) (replicate (28 - length challenge) 0));
      [|rewrite <- replicate_add; do 2 f_equal; lia|done|by rewrite length_replicate].
    cbn [rbind].
    rewrite (put_sub_at _ (challenge ++ ip4) (replicate 6 0) (replicate (22 - length challenge) 0));
      [|rewrite <- app_assoc, <- replicate_add; do 3 f_equal; lia|rewrite length_app; lia
       |by rewrite length_replicate].
    by rewrite <- app_assoc.
Qed.

Lemma type1_block_length pl : length pl = 32%nat -> length (type1_block pl) = klen.
Proof.
  intros Hp. unfold type1_block. rewrite !length_app, length_replicate, Hp. done.
Qed.

Lemma bytes_ok_type1 pl : bytes_ok pl -> bytes_ok (type1_block pl).
Proof.
  intros Hp. unfold type1_block, bytes_ok. rewrite !Forall_app.
  split_and!; [by apply bytes_okb_ok|by apply Forall_replicate|by apply bytes_okb_ok|done].
Qed.

(** C31: an Apple-Challenge is answered with a verifiable signature.  For a
    challenge of 1 to 16 bytes and a buffer that holds the text, the routine
    returns the base64 text of a block from which the holder of the public key
    recovers the PKCS#1 type-1 padding of challenge, address and hardware address,
    zero-filled to 32 bytes; it overruns neither its block nor the caller's
    buffer. *)
Theorem raop_apple_response_verifies rsa_private rsa_public challenge ip4 mac cap :
  (forall blk s, rsa_private blk = Some s ->
     rsa_public s = blk /\ bytes_ok s /\ length s = length blk) ->
  (forall blk, bytes_ok blk -> length blk = klen -> blk !! 0%nat = Some 0 ->
     rsa_private blk <> None) ->
  bytes_ok challenge -> bytes_ok ip4 -> bytes_ok mac ->
  (0 < length challenge <= 16)%nat -> length ip4 = 4%nat -> length mac = 6%nat ->
  (enc_len klen + 1 <= cap)%nat ->
  exists t s, raop_apple_response rsa_private challenge ip4 mac cap = Ret (Some t) /\
    length t = enc_len klen /\
    b64_decode t 512 = Ret (Some s) /\
    rsa_public s = [0; 1] ++ replicate 221 255 ++ [0] ++
      (challenge ++ ip4 ++ mac ++ replicate (22 - length challenge) 0).
Proof.
  intros Hrsa Htot Bc Bi Bm Hc Hi Hm Hcap. unfold raop_apple_response.
  rewrite (proj2 (Nat.eqb_neq _ _)) by lia.
  change (512 <? klen)%nat with false. rewrite (proj2 (Nat.ltb_ge 16 _)) by lia. cbn [orb].
  set (pl := challenge ++ ip4 ++ mac ++ replicate (22 - length challenge) 0).
  rewrite response_payload_eq by lia. fold pl.
  cbn [rbind]. change (klen <? 32 + 11)%nat with false.
  assert (length (type1_block pl) = klen) as Hbl.
  { apply type1_block_length. unfold pl. rewrite !length_app, length_replicate. lia. }
  destruct (rsa_private (type1_block pl)) as [s|] eqn:Es.
  2: { exfalso. eapply (Htot (type1_block pl)); [|done|done|done].
       apply bytes_ok_type1. unfold pl, bytes_ok. rewrite !Forall_app.
       split_and!; [done..|by apply Forall_replicate]. }
  destruct (Hrsa _ _ Es) as (Hpub & Hsb & Hsl). rewrite Hbl in Hsl.
  change ((klen / 3 * 4 + _)%nat) with (enc_len klen). rewrite (proj2 (Nat.ltb_ge _ _)) by lia.
  destruct (b64_nopad_spec cap s [] Hsb ltac:(rewrite Hsl; cbn [length]; lia)) as (xs & -> & He & Hl).
  cbn [rbind app]. exists (map ch xs), s. split; [done|].
  split; [rewrite length_map; congruence|]. split; [|by rewrite Hpub].
  destruct (b64_decode_exact (map ch xs) 512) as (r & -> & Hr).
  destruct (encodes_bytes s xs Hsb He) as [Hmod Hbs]. f_equal. apply Hr. exists xs.
  rewrite <- (app_nil_r (map ch xs)). split; [by apply (encodes_text s xs 0)|].
  split; [done|]. split; [done|]. rewrite Hsl. change klen with 256%nat. lia.
Qed.

(** A key whose two operations complement every byte. *)
Definition sample_rsa (blk : bytes) : bytes := map (fun b => u8 (255 - b)) blk.
Definition sample_rsa_private (blk : bytes) : option bytes :=
  if bytes_okb blk then Some (sample_rsa blk) else None.

Lemma bytes_okb_spec l : bytes_okb l = true <-> bytes_ok l.
Proof.
  split; [apply bytes_okb_ok|]. intros H. unfold bytes_okb. apply forallb_forall.
  intros b Hb. eapply List.Forall_forall in H; [|exact Hb]. unfold byte_ok in H. lia.
Qed.

Lemma sample_rsa_inv blk s :
  sample_rsa_private blk = Some s ->
  sample_rsa s = blk /\ bytes_ok s /\ length s = length blk.
Proof.
  unfold sample_rsa_private. destruct (bytes_okb blk) eqn:E; intros [= <-].
  apply bytes_okb_spec in E. unfold sample_rsa. rewrite length_map. split_and!; [|..|done].
  - rewrite map_map. induction E as [|b l Hb Hl IH]; cbn; [done|]. rewrite IH.
    unfold byte_ok in Hb. by rewrite (u8_small (255 - b)), u8_small by lia;
      replace (255 - (255 - b)) with b by lia.
  - apply Forall_map. apply List.Forall_forall. intros b _. apply u8_byte.
Qed.

Lemma sample_rsa_total blk :
  bytes_ok blk -> length blk = klen -> blk !! 0%nat = Some 0 -> sample_rsa_private blk <> None.
Proof. intros H _ _. unfold sample_rsa_private. by rewrite (proj2 (bytes_okb_spec blk) H). Qed.

Lemma raop_apple_response_verifies_witness :
  exists t s, raop_apple_response sample_rsa_private [1; 2; 3] [192; 168; 0; 9]
      [1; 2; 3; 4; 5; 6] 400 = Ret (Some t) /\
    length t = enc_len klen /\ b64_decode t 512 = Ret (Some s) /\
    sample_rsa s = [0; 1] ++ replicate 221 255 ++ [0] ++
      ([1; 2; 3] ++ [192; 168; 0; 9] ++ [1; 2; 3; 4; 5; 6] ++ replicate (22 - 3) 0).
Proof.
  apply (raop_apple_response_verifies sample_rsa_private sample_rsa [1; 2; 3]);
    [apply sample_rsa_inv|apply sample_rsa_total|by apply bytes_okb_ok|by apply bytes_okb_ok
    |by apply bytes_okb_ok|cbn; lia|done|done|change klen with 256%nat; vm_compute; lia].
Defined.
