(* ===== verification/Sdp.v ===== *)
(** * The ANNOUNCE body ([src/sdp.c], [src/sdp.h])

    A range [\[p, end)] of the body is the list of its bytes.  [long] has the width
    of the data model. *)
From Stdlib Require Import ZArith Lia String.
From stdpp Require Import base numbers list.
From S2P Require Import Prelude B64.

Local Open Scope Z_scope.

Definition SDP_OK : Z := 0.
Definition SDP_ERR_PARSE : Z := -1.
Definition SDP_ERR_FORMAT : Z := -2.
Definition SDP_ERR_KEYLEN : Z := -3.
Definition SDP_ERR_FMTP : Z := -4.
Definition SDP_ERR_OVERFLOW : Z := -5.

(** [raop_sdp_t].  [rsaaeskey] holds the [rsaaeskey_len] decoded bytes (the rest of
    the 256-byte array is zero). *)
Record raop_sdp_t := mk_sdp {
  rsaaeskey : bytes;
  aesiv : bytes;
  payload_type : Z;
  frame_length : Z;
  bit_depth : Z;
  channels : Z;
  sample_rate : Z;
  cookie : bytes;
}.

(** ** Lines and attributes *)

Definition strip_cr (l : bytes) : bytes :=
  match last l with
  | Some 13 => take (length l - 1) l
  | _ => l
  end.

(** [next_line] on the rest of the body: the line and what follows it. *)
Definition next_line (rest : bytes) : option (bytes * bytes) :=
  match rest with
  | [] => None
  | _ =>
      match memchr 10 rest with
      | Some k => Some (strip_cr (take k rest), drop (k + 1) rest)
      | None => Some (strip_cr rest, [])
      end
  end.

(** The [while (next_line(...) == 0)] loops: the first line that [f] accepts. *)
Fixpoint first_line {A} (f : bytes -> option A) (fuel : nat) (rest : bytes) : run (option A) :=
  match fuel with
  | O => NoFuel
  | S fuel' =>
      match next_line rest with
      | None => Ret None
      | Some (line, rest') =>
          match f line with
          | Some v => Ret (Some v)
          | None => first_line f fuel' rest'
          end
      end
  end.

Definition b64_decoded_upper_bound (s : bytes) : nat :=
  let sig := length (List.filter
    (fun c => negb ((c =? 61) || (c =? 13) || (c =? 10) || (c =? 32) || (c =? 9))) s) in
  (sig * 6 / 8)%nat.

(** One line of [find_attr]: ["a=<key>:"] and a value. *)
Definition attr_line (key line : bytes) : option bytes :=
  let klen := length key in
  if ((2 + klen <? length line)%nat && prefixb [97; 61] line
      && prefixb key (drop 2 line) && prefixb [58] (drop (2 + klen) line))%bool
  then Some (drop (2 + klen + 1) line) else None.

Definition find_attr (body key : bytes) : run (option bytes) :=
  first_line (attr_line key) (S (length body)) body.

(** ** Numbers *)

Section Numbers.
Context `{DM : DataModel}.

(** The digit loop: the value in a [long] and the rest, or overflow. *)
Fixpoint uint_digits (v : Z) (p : bytes) : option (Z * bytes) :=
  match p with
  | c :: p' =>
      if is_digit c then
        let d := c - 48 in
        if (LONG_MAX - d) / 10 <? v then None else uint_digits (v * 10 + d) p'
      else Some (v, p)
  | [] => Some (v, [])
  end.

Definition parse_uint_bounded (p : bytes) : option (Z * bytes) :=
  match p with
  | [] => None
  | c :: _ =>
      if negb (is_digit c) then None
      else
        match uint_digits 0 p with
        | None => None
        | Some (v, p') => if INT_MAX <? v then None else Some (v, p')
        end
  end.

Fixpoint skip_while (f : Z -> bool) (p : bytes) : bytes :=
  match p with
  | c :: p' => if f c then skip_while f p' else p
  | [] => []
  end.

Fixpoint parse_uint_list (p : bytes) (count : nat) : option (list Z) :=
  match count with
  | O => match skip_while (fun c => (c =? 32) || (c =? 9)) p with [] => Some [] | _ => None end
  | S n =>
      match parse_uint_bounded (skip_while (fun c => c =? 32) p) with
      | None => None
      | Some (v, ep) => cons v <$> parse_uint_list ep n
      end
  end.
End Numbers.

(** ** The fmtp fields and the cookie *)

Definition fmtp_fields_in_range (f : nat -> Z) : bool :=
  negb ((f 0%nat <=? 0) || (16384 <? f 0%nat)) &&
  forallb (fun i => negb ((f i <? 0) || (255 <? f i))) [1; 2; 3; 4; 5]%nat &&
  negb ((f 6%nat <? 0) || (255 <? f 6%nat)) &&
  negb ((f 7%nat <? 0) || (65535 <? f 7%nat)).

Definition put_be32 (c : bytes) (i : nat) (v : Z) : run bytes :=
  let v := u32 v in
  let! c := put c i (u8 (Z.shiftr v 24)) in
  let! c := put c (i + 1) (u8 (Z.shiftr v 16)) in
  let! c := put c (i + 2) (u8 (Z.shiftr v 8)) in
  put c (i + 3) (u8 v).

Definition put_be16 (c : bytes) (i : nat) (v : Z) : run bytes :=
  let v := u32 v in
  let! c := put c i (u8 (Z.shiftr v 8)) in
  put c (i + 1) (u8 v).

Definition build_cookie (f : nat -> Z) : run bytes :=
  let c := replicate 48 0 in
  let! c := put c 3 12 in
  let! c := put_sub c 4 (str "frma") in
  let! c := put_sub c 8 (str "alac") in
  let! c := put c 15 36 in
  let! c := put_sub c 16 (str "alac") in
  let! c := put_be32 c 24 (f 0%nat) in
  let! c := put c 28 (u8 (f 1%nat)) in
  let! c := put c 29 (u8 (f 2%nat)) in
  let! c := put c 30 (u8 (f 3%nat)) in
  let! c := put c 31 (u8 (f 4%nat)) in
  let! c := put c 32 (u8 (f 5%nat)) in
  let! c := put c 33 (u8 (f 6%nat)) in
  let! c := put_be16 c 34 (f 7%nat) in
  let! c := put_be32 c 36 (f 8%nat) in
  let! c := put_be32 c 40 (f 9%nat) in
  put_be32 c 44 (f 10%nat).

(** ** The parser *)

Section Parse.
Context `{DM : DataModel}.

Definition m_audio (line : bytes) : option bytes :=
  if prefixb (str "m=audio ") line then Some line else None.

(** The payload type of the m= line. *)
Definition sdp_payload_type (body : bytes) : run (option Z) :=
  let! m := first_line m_audio (S (length body)) body in
  match m with
  | None => Ret None
  | Some line =>
      match strstr (str "RTP/AVP ") line with
      | None => Ret None
      | Some hit => Ret (fst <$> parse_uint_bounded (drop 8 hit))
      end
  end.

(** The fmtp block: the twelve numbers, checked against the payload type. *)
Definition sdp_fmtp (body : bytes) (pt : Z) : run (list Z + Z) :=
  let! fm := find_attr body (str "fmtp") in
  match fm with
  | None => Ret (inr SDP_ERR_PARSE)
  | Some v =>
      match parse_uint_list v 12 with
      | None => Ret (inr SDP_ERR_FMTP)
      | Some all =>
          let f i := nth (S i) all 0 in
          if negb (nth 0 all 0 =? pt) then Ret (inr SDP_ERR_FORMAT)
          else if negb (fmtp_fields_in_range f) then Ret (inr SDP_ERR_FMTP)
          else if negb (f 6%nat =? 2) || negb (f 10%nat =? 44100) || negb (f 2%nat =? 16)
          then Ret (inr SDP_ERR_FORMAT)
          else Ret (inl all)
      end
  end.

Definition sdp_key (body : bytes) : run (bytes + Z) :=
  let! rk := find_attr body (str "rsaaeskey") in
  match rk with
  | None => Ret (inr SDP_ERR_PARSE)
  | Some v =>
      if (256 <? b64_decoded_upper_bound v)%nat then Ret (inr SDP_ERR_OVERFLOW)
      else
        let! d := b64_decode v 256 in
        match d with
        | None => Ret (inr SDP_ERR_PARSE)
        | Some k =>
            if negb (length k =? 128)%nat && negb (length k =? 256)%nat
            then Ret (inr SDP_ERR_KEYLEN) else Ret (inl k)
        end
  end.

Definition sdp_iv (body : bytes) : run (bytes + Z) :=
  let! iv := find_attr body (str "aesiv") in
  match iv with
  | None => Ret (inr SDP_ERR_PARSE)
  | Some v =>
      if (32 <? b64_decoded_upper_bound v)%nat then Ret (inr SDP_ERR_OVERFLOW)
      else
        let! d := b64_decode v 32 in
        match d with
        | None => Ret (inr SDP_ERR_PARSE)
        | Some b => if negb (length b =? 16)%nat then Ret (inr SDP_ERR_KEYLEN) else Ret (inl b)
        end
  end.

(** [inl] is [SDP_OK] with the record; [inr] an error code. *)
Definition sdp_parse (body : bytes) : run (raop_sdp_t + Z) :=
  let! pt := sdp_payload_type body in
  match pt with
  | None => Ret (inr SDP_ERR_PARSE)
  | Some pt =>
      let! r := sdp_fmtp body pt in
      match r with
      | inr e => Ret (inr e)
      | inl all =>
          let f i := nth (S i) all 0 in
          let! c := build_cookie f in
          let! k := sdp_key body in
          match k with
          | inr e => Ret (inr e)
          | inl key =>
              let! v := sdp_iv body in
              match v with
              | inr e => Ret (inr e)
              | inl iv =>
                  Ret (inl (mk_sdp key iv pt (f 0%nat) (f 2%nat) (f 6%nat) (f 10%nat) c))
              end
          end
      end
  end.
End Parse.

(** ** Helper lemmas *)

Lemma strip_cr_length l : (length (strip_cr l) <= length l)%nat.
Proof.
  unfold strip_cr. repeat case_match; try lia; rewrite length_take; lia.
Qed.

Lemma next_line_shrinks rest line rest' :
  next_line rest = Some (line, rest') -> (length rest' < length rest)%nat.
Proof.
  unfold next_line. destruct rest as [|c rest]; [done|].
  destruct (memchr 10 (c :: rest)) as [k|] eqn:E; intros [= _ <-].
  - rewrite length_drop. cbn [length]. lia.
  - cbn [length]. lia.
Qed.

(** The line loops end. *)
Lemma first_line_total {A} (f : bytes -> option A) fuel rest :
  (length rest < fuel)%nat ->
  exists r, first_line f fuel rest = Ret r /\
    match r with Some v => exists line, f line = Some v | None => True end.
Proof.
  revert rest. induction fuel as [|fuel IH]; intros rest Hf; [lia|]. cbn [first_line].
  destruct (next_line rest) as [[line rest']|] eqn:E; [|by exists None].
  destruct (f line) as [v|] eqn:Ef; [by exists (Some v); split; [|exists line]|].
  apply IH. apply next_line_shrinks in E. lia.
Qed.

Lemma find_attr_total body key : exists r, find_attr body key = Ret r.
Proof.
  unfold find_attr. destruct (first_line_total (attr_line key) (S (length body)) body) as (r & -> & _);
    [lia|by exists r].
Qed.

Lemma build_cookie_eq f :
  build_cookie f = Ret (
    [0; 0; 0; 12] ++ str "frma" ++ str "alac" ++ [0; 0; 0; 36] ++ str "alac" ++ [0; 0; 0; 0] ++
    (let be32 v := [u8 (Z.shiftr (u32 v) 24); u8 (Z.shiftr (u32 v) 16); u8 (Z.shiftr (u32 v) 8); u8 (u32 v)] in
     be32 (f 0%nat) ++ [u8 (f 1%nat); u8 (f 2%nat); u8 (f 3%nat); u8 (f 4%nat); u8 (f 5%nat); u8 (f 6%nat)] ++
     [u8 (Z.shiftr (u32 (f 7%nat)) 8); u8 (u32 (f 7%nat))] ++
     be32 (f 8%nat) ++ be32 (f 9%nat) ++ be32 (f 10%nat))).
Proof. reflexivity. Qed.

(** ** Numbers *)

Section NumbersSpec.
Context `{DM : DataModel}.

(** The overflow guard of the digit loop is exact. *)
Lemma uint_digits_spec v p :
  0 <= v <= LONG_MAX ->
  let r := v * 10 ^ Z.of_nat (length (digits p)) + dec_val (digits p) in
  uint_digits v p = if r <=? LONG_MAX then Some (r, drop (length (digits p)) p) else None.
Proof.
  revert v. induction p as [|c p IH]; intros v Hv; cbn [uint_digits digits].
  { cbn [length]. change (dec_val []) with 0. rewrite Z.pow_0_r.
    rewrite (proj2 (Z.leb_le _ _)) by lia. do 2 f_equal. lia. }
  destruct (is_digit_spec c) as [Hd|Hd].
  2: { cbn [length]. change (dec_val []) with 0. rewrite Z.pow_0_r.
       rewrite (proj2 (Z.leb_le _ _)) by lia. do 2 f_equal. lia. }
  cbn [length]. rewrite dec_val_cons, Nat2Z.inj_succ, Z.pow_succ_r by lia.
  set (P := 10 ^ Z.of_nat (length (digits p))).
  replace (v * (10 * P) + ((c - 48) * P + dec_val (digits p)))
    with ((v * 10 + (c - 48)) * P + dec_val (digits p)) by ring.
  pose proof (dec_val_mono (v * 10 + (c - 48)) (digits p) ltac:(lia) (digits_all p)) as Hm.
  fold P in Hm.
  destruct (Z.ltb_spec ((LONG_MAX - (c - 48)) / 10) v) as [Ho|Ho].
  - rewrite (proj2 (Z.leb_gt _ _)); [done|].
    assert (LONG_MAX < v * 10 + (c - 48)); [|lia].
    pose proof (Z.mul_succ_div_gt (LONG_MAX - (c - 48)) 10 ltac:(lia)). lia.
  - rewrite IH; [done|].
    pose proof (Z.mul_div_le (LONG_MAX - (c - 48)) 10 ltac:(lia)). lia.
Qed.

(** A number is read as its value when that fits an [int], whatever the width of
    [long]. *)
Lemma parse_uint_bounded_spec p :
  parse_uint_bounded p =
  let ds := digits p in
  if (length ds =? 0)%nat then None
  else if dec_val ds <=? INT_MAX then Some (dec_val ds, drop (length ds) p) else None.
Proof.
  unfold parse_uint_bounded. destruct p as [|c p]; [done|].
  destruct (is_digit c) eqn:Hd; cbn [negb].
  2: { cbn [digits]. by rewrite Hd. }
  pose proof long_max_pos as Hl. rewrite uint_digits_spec by lia.
  rewrite Z.mul_0_l, Z.add_0_l. set (ds := digits (c :: p)).
  assert ((length ds =? 0)%nat = false) as -> by (unfold ds; cbn [digits]; by rewrite Hd).
  cbv zeta. unfold INT_MAX.
  destruct (Z.leb_spec (dec_val ds) LONG_MAX), (Z.leb_spec (dec_val ds) 2147483647); try done.
  - by rewrite (proj2 (Z.ltb_ge _ _)) by lia.
  - by rewrite (proj2 (Z.ltb_lt _ _)) by lia.
  - lia.
Qed.
End NumbersSpec.

Lemma digits_print v rest :
  0 <= v -> digits rest = [] -> digits (print_u v ++ rest) = print_u v.
Proof.
  intros Hv Hr. apply digits_app; [apply print_u_spec, Hv|done].
Qed.

Fixpoint join_sp (vs : list Z) : bytes :=
  match vs with
  | [] => []
  | [v] => print_u v
  | v :: vs' => print_u v ++ 32 :: join_sp vs'
  end.

Lemma print_u_digit v : 0 <= v -> exists c l, print_u v = c :: l /\ is_digit c = true.
Proof.
  intros Hv. destruct (print_u_spec v Hv) as (_ & Hne & Hd).
  destruct (print_u v) as [|c l]; [done|]. inversion Hd. eauto.
Qed.

Lemma parse_uint_print `{DataModel} v rest :
  0 <= v <= INT_MAX -> digits rest = [] -> parse_uint_bounded (print_u v ++ rest) = Some (v, rest).
Proof.
  intros Hv Hr. rewrite parse_uint_bounded_spec. cbv zeta. rewrite digits_print by (lia || done).
  destruct (print_u_spec v ltac:(lia)) as (Hval & Hne & _).
  destruct (print_u v) as [|c l] eqn:E; [done|]. cbn [length Nat.eqb]. rewrite <- E in *.
  rewrite Hval, (proj2 (Z.leb_le _ _)) by lia. do 2 f_equal. rewrite E. cbn. by rewrite drop_app_length.
Qed.

Lemma skip_spaces_print v rest :
  0 <= v -> skip_while (fun c => c =? 32) (print_u v ++ rest) = print_u v ++ rest.
Proof.
  intros Hv. destruct (print_u_digit v Hv) as (c & l & -> & Hc). cbn.
  destruct (is_digit_spec c); [|done]. by rewrite (proj2 (Z.eqb_neq c 32)) by lia.
Qed.

Lemma parse_uint_list_join `{DataModel} vs :
  Forall (fun v => 0 <= v <= INT_MAX) vs -> parse_uint_list (join_sp vs) (length vs) = Some vs.
Proof.
  induction 1 as [|v vs Hv Hvs IH]; [done|]. cbn [length parse_uint_list].
  destruct vs as [|w vs].
  - cbn [join_sp]. rewrite <- (app_nil_r (print_u v)), skip_spaces_print by lia.
    by rewrite parse_uint_print by done.
  - change (join_sp (v :: w :: vs)) with (print_u v ++ 32 :: join_sp (w :: vs)).
    rewrite skip_spaces_print by lia. rewrite parse_uint_print by done.
    replace (parse_uint_list (32 :: join_sp (w :: vs)) (length (w :: vs)))
      with (parse_uint_list (join_sp (w :: vs)) (length (w :: vs))) by done.
    by rewrite IH.
Qed.

Lemma parse_uint_list_range `{DataModel} p n vs :
  parse_uint_list p n = Some vs -> length vs = n /\ Forall (fun v => 0 <= v <= INT_MAX) vs.
Proof.
  revert p vs. induction n as [|n IH]; intros p vs; cbn [parse_uint_list].
  { case_match; [|done]. by intros [= <-]. }
  rewrite parse_uint_bounded_spec. set (q := skip_while _ p). cbv zeta.
  destruct (Nat.eqb_spec (length (digits q)) 0); [done|].
  destruct (Z.leb_spec (dec_val (digits q)) INT_MAX); [|done].
  intros (vs' & Hvs & ->)%fmap_Some. destruct (IH _ _ Hvs) as [Hl Hr].
  split; [cbn; congruence|]. constructor; [|done]. split; [|done].
  apply dec_val_nonneg, digits_all.
Qed.

(** The number parsers do not depend on the width of [long]. *)
Lemma parse_uint_list_model (M1 M2 : DataModel) p n :
  @parse_uint_list M1 p n = @parse_uint_list M2 p n.
Proof.
  revert p. induction n as [|n IH]; intros p; cbn [parse_uint_list]; [done|].
  rewrite !parse_uint_bounded_spec. cbv zeta. repeat case_match; try done. by rewrite IH.
Qed.

(** ** Properties *)

(** The 32-bit big-endian number at an offset of the cookie. *)
Definition cookie_be32 (c : bytes) (i : nat) : Z := be_val (sub c i 4).

(** What session creation relies on: one of the two modulus widths, a full
    initial vector, 16-bit stereo at 44100 Hz with a positive bounded packet
    length, and a cookie that tells the decoder the same. *)
Definition sdp_valid (s : raop_sdp_t) : Prop :=
  (length (rsaaeskey s) = 128%nat \/ length (rsaaeskey s) = 256%nat) /\
  bytes_ok (rsaaeskey s) /\ length (aesiv s) = 16%nat /\ bytes_ok (aesiv s) /\
  0 <= payload_type s <= INT_MAX /\ 1 <= frame_length s <= 16384 /\
  bit_depth s = 16 /\ channels s = 2 /\ sample_rate s = 44100 /\
  length (cookie s) = 48%nat /\ cookie_be32 (cookie s) 24 = frame_length s /\
  cookie s !! 29%nat = Some 16 /\ cookie s !! 33%nat = Some 2 /\
  cookie_be32 (cookie s) 44 = 44100.

Lemma b64_decode_ok v cap bs :
  b64_decode v cap = Ret (Some bs) -> bytes_ok bs /\ (length bs <= cap)%nat.
Proof.
  intros H. destruct (b64_decode_exact v cap) as (r & Hr & Hs). rewrite Hr in H.
  injection H as ->. destruct (Hs bs) as [Hs' _]. destruct (Hs' eq_refl) as (xs & _ & _ & (Hb & _) & Hl). done.
Qed.

Lemma b64_decode_total v cap : exists r, b64_decode v cap = Ret r.
Proof. destruct (b64_decode_exact v cap) as (r & Hr & _). by exists r. Qed.

Section SdpSpec.
Context `{DM : DataModel}.

Lemma sdp_key_spec body :
  exists r, sdp_key body = Ret r /\
    match r with
    | inl k => bytes_ok k /\ (length k = 128%nat \/ length k = 256%nat)
    | inr e => e <> SDP_OK
    end.
Proof.
  unfold sdp_key. destruct (find_attr_total body (str "rsaaeskey")) as (r & ->). cbn [rbind].
  destruct r as [v|]; [|by eexists]. case_match; [by eexists|].
  destruct (b64_decode_total v 256) as ([k|] & Hd); rewrite Hd; cbn [rbind]; [|by eexists].
  apply b64_decode_ok in Hd as [Hk _].
  destruct (Nat.eqb_spec (length k) 128), (Nat.eqb_spec (length k) 256); cbn;
    eexists; (split; [reflexivity|]); cbn; auto.
Qed.

Lemma sdp_iv_spec body :
  exists r, sdp_iv body = Ret r /\
    match r with
    | inl v => bytes_ok v /\ length v = 16%nat
    | inr e => e <> SDP_OK
    end.
Proof.
  unfold sdp_iv. destruct (find_attr_total body (str "aesiv")) as (r & ->). cbn [rbind].
  destruct r as [v|]; [|by eexists]. case_match; [by eexists|].
  destruct (b64_decode_total v 32) as ([k|] & Hd); rewrite Hd; cbn [rbind]; [|by eexists].
  apply b64_decode_ok in Hd as [Hk _].
  destruct (Nat.eqb_spec (length k) 16); cbn; eexists; (split; [reflexivity|]); cbn; auto.
Qed.

Definition fields_ok (all : list Z) : Prop :=
  let f i := nth (S i) all 0 in
  1 <= f 0%nat <= 16384 /\ f 2%nat = 16 /\ f 6%nat = 2 /\ f 10%nat = 44100.

Lemma sdp_fmtp_spec body pt :
  exists r, sdp_fmtp body pt = Ret r /\
    match r with inl all => fields_ok all | inr e => e <> SDP_OK end.
Proof.
  unfold sdp_fmtp. destruct (find_attr_total body (str "fmtp")) as (r & ->). cbn [rbind].
  destruct r as [v|]; [|by eexists]. destruct (parse_uint_list v 12) as [all|]; [|by eexists].
  cbv zeta. destruct (negb _); [by eexists|].
  destruct (fmtp_fields_in_range _) eqn:Hr; cbn [negb]; [|by eexists].
  destruct (Z.eqb_spec (nth 7 all 0) 2), (Z.eqb_spec (nth 11 all 0) 44100),
    (Z.eqb_spec (nth 3 all 0) 16); cbn [negb orb]; eexists; (split; [reflexivity|]); try done.
  unfold fmtp_fields_in_range in Hr. rewrite !andb_true_iff in Hr.
  destruct Hr as [[[H0 _] _] _]. apply negb_true_iff, orb_false_iff in H0 as [H0 H1].
  unfold fields_ok. split_and!; try done; lia.
Qed.

Lemma be32_cookie v :
  0 <= v < 2 ^ 32 ->
  be_val [u8 (Z.shiftr (u32 v) 24); u8 (Z.shiftr (u32 v) 16); u8 (Z.shiftr (u32 v) 8); u8 (u32 v)] = v.
Proof.
  intros Hv. rewrite (u32_small v) by lia. rewrite !Z.shiftr_div_pow2 by lia. unfold u8, be_val.
  cbn [foldl]. Z.to_euclidean_division_equations. lia.
Qed.

Lemma sdp_parse_total body :
  exists r, sdp_parse body = Ret r /\
    match r with inl s => sdp_valid s | inr e => e <> SDP_OK end.
Proof.
  unfold sdp_parse, sdp_payload_type.
  destruct (first_line_total m_audio (S (length body)) body ltac:(lia)) as (m & -> & _).
  cbn [rbind]. destruct m as [line|]; cbn [rbind]; [|by eexists].
  destruct (strstr _ line) as [hit|]; cbn [rbind]; [|by eexists].
  rewrite parse_uint_bounded_spec. cbv zeta.
  destruct (Nat.eqb_spec (length (digits (drop 8 hit))) 0); cbn [fmap option_fmap option_map rbind]; [by eexists|].
  destruct (Z.leb_spec (dec_val (digits (drop 8 hit))) INT_MAX); cbn [fmap option_fmap option_map rbind fst]; [|by eexists].
  set (pt := dec_val _) in *.
  destruct (sdp_fmtp_spec body pt) as (r & -> & Hr). cbn [rbind].
  destruct r as [all|e]; [|by exists (inr e)]. rewrite build_cookie_eq. cbn [rbind].
  destruct (sdp_key_spec body) as (r & -> & Hk). cbn [rbind].
  destruct r as [k|e]; [|by exists (inr e)]. destruct Hk as [Hk1 Hk2].
  destruct (sdp_iv_spec body) as (r & -> & Hv). cbn [rbind].
  destruct r as [iv|e]; [|by exists (inr e)]. destruct Hv as [Hv1 Hv2].
  eexists. split; [done|]. destruct Hr as (F0 & F2 & F6 & F10).
  unfold sdp_valid. cbn [rsaaeskey aesiv payload_type frame_length bit_depth channels sample_rate cookie].
  split_and!; try done; try lia.
  - apply dec_val_nonneg, digits_all.
  - by apply be32_cookie; lia.
  - change (Some (u8 (nth 3 all 0)) = Some 16). by rewrite F2.
  - change (Some (u8 (nth 7 all 0)) = Some 2). by rewrite F6.
  - rewrite F10. by vm_compute.
Qed.

(** Parsing an ANNOUNCE body is total, and what it accepts is valid.  For
    every body the parser ends, and it returns either an error or a session
    description with a key of 128 or 256 bytes, a 16-byte initial vector,
    16-bit stereo at 44100 Hz, a packet length between 1 and 16384 frames, and
    the 48-byte cookie that states the same to the decoder. *)
Theorem sdp_parse_sound body :
  exists r, sdp_parse body = Ret r /\
    match r with inl s => sdp_valid s | inr e => e <> SDP_OK end.
Proof. apply sdp_parse_total. Qed.
End SdpSpec.

(** *** A canonical body *)

Definition crlf (l : bytes) : bytes := l ++ [13; 10].

Definition sdp_lines (pt : Z) (f : list Z) (key iv : bytes) : list bytes :=
  [str "v=0"; str "m=audio 0 RTP/AVP " ++ print_u pt; str "a=fmtp:" ++ join_sp (pt :: f);
   str "a=rsaaeskey:" ++ key; str "a=aesiv:" ++ iv].

Definition sdp_text (pt : Z) (f : list Z) (key iv : bytes) : bytes :=
  List.concat (map crlf (sdp_lines pt f key iv)).

Definition no_nl (l : bytes) : Prop := Forall (fun c => c <> 10) l.

Lemma strip_cr_crlf l : strip_cr (l ++ [13]) = l.
Proof.
  unfold strip_cr. rewrite last_snoc, length_app. cbn [length].
  rewrite Nat.add_sub. apply take_app_length.
Qed.

Lemma next_line_crlf l rest : no_nl l -> next_line (crlf l ++ rest) = Some (l, rest).
Proof.
  intros Hl. unfold crlf. rewrite <- app_assoc.
  change ([13; 10] ++ rest) with ([13] ++ 10 :: rest). rewrite app_assoc.
  set (l' := l ++ [13]). assert (Forall (fun c => c <> 10) l') as Hl'.
  { apply Forall_app. split; [done|]. by repeat constructor. }
  unfold next_line. rewrite memchr_skip by done.
  destruct (l' ++ 10 :: rest) as [|c r] eqn:E; [by apply app_eq_nil in E as [_ E]|].
  rewrite <- E, take_app_length. unfold l' at 1. rewrite strip_cr_crlf.
  by rewrite drop_app_add.
Qed.

(** The loop over a text made of lines stops at the first accepted one. *)
Lemma first_line_lines {A} (f : bytes -> option A) fuel pre l post v :
  Forall no_nl (pre ++ [l]) -> Forall (fun x => f x = None) pre -> f l = Some v ->
  (length pre < fuel)%nat ->
  first_line f fuel (List.concat (map crlf (pre ++ l :: post))) = Ret (Some v).
Proof.
  revert fuel. induction pre as [|x pre IH]; intros fuel Hn Hp Hl Hf;
    (destruct fuel as [|fuel]; [cbn in Hf; lia|]); cbn [app map List.concat first_line].
  - apply Forall_cons in Hn as [Hn _]. by rewrite next_line_crlf, Hl.
  - apply Forall_cons in Hn as [Hn Hns], Hp as [Hp Hps].
    rewrite next_line_crlf, Hp by done. apply IH; try done. cbn in Hf. lia.
Qed.

Lemma print_u_no_nl v : 0 <= v -> no_nl (print_u v).
Proof.
  intros Hv. destruct (print_u_spec v Hv) as (_ & _ & Hd). eapply Forall_impl; [exact Hd|].
  intros c Hc. cbn in Hc. destruct (is_digit_spec c); [lia|done].
Qed.

Lemma join_sp_no_nl vs : Forall (fun v => 0 <= v) vs -> no_nl (join_sp vs).
Proof.
  induction 1 as [|v vs Hv Hvs IH]; [constructor|]. cbn [join_sp]. destruct vs as [|w vs].
  - by apply print_u_no_nl.
  - apply Forall_app. split; [by apply print_u_no_nl|]. by constructor.
Qed.

Lemma no_nl_app a b : no_nl a -> no_nl b -> no_nl (a ++ b).
Proof. intros. by apply Forall_app. Qed.

Definition no_nlb (l : bytes) : bool := forallb (fun c => negb (c =? 10)) l.

Lemma no_nlb_ok l : no_nlb l = true -> no_nl l.
Proof.
  unfold no_nlb. rewrite forallb_forall. intros H. apply List.Forall_forall.
  intros c Hc. specialize (H c Hc). lia.
Qed.

(** A base64 value as a sender writes it: characters and padding. *)
Lemma b64_value_no_nl xs k : Forall sextet xs -> no_nl (map ch xs ++ replicate k 61).
Proof.
  intros Hx. apply no_nl_app; [|by apply Forall_replicate].
  apply Forall_map. eapply Forall_impl; [exact Hx|]. intros x Hs. cbn.
  destruct (val_ch x Hs) as (_ & Hk & _). intros E. by rewrite E in Hk.
Qed.

Lemma upper_bound_value xs k :
  Forall sextet xs ->
  b64_decoded_upper_bound (map ch xs ++ replicate k 61) = (length xs * 6 / 8)%nat.
Proof.
  intros Hx. unfold b64_decoded_upper_bound. cbv zeta. do 2 f_equal.
  rewrite List.filter_app, length_app.
  assert (List.filter (fun c => negb ((c =? 61) || (c =? 13) || (c =? 10) || (c =? 32) || (c =? 9)))
    (replicate k 61) = []) as -> by (induction k as [|k IH]; [done|exact IH]).
  cbn [length]. rewrite Nat.add_0_r. rewrite <- (length_map ch xs). f_equal.
  induction Hx as [|x xs Hs Hx IH]; [done|]. cbn [map List.filter].
  destruct (val_ch x Hs) as (_ & Hk & Hne). unfold b64_skip in Hk.
  rewrite (proj2 (Z.eqb_neq _ _) Hne). cbn [orb]. rewrite !orb_false_iff in Hk.
  destruct Hk as [[[-> ->] ->] ->]. cbn [orb negb length]. by rewrite IH.
Qed.

Lemma b64_value_decodes bs xs k cap :
  bytes_ok bs -> encodes bs xs -> (length bs <= cap)%nat ->
  b64_decode (map ch xs ++ replicate k 61) cap = Ret (Some bs).
Proof.
  intros Hb He Hc. destruct (b64_decode_exact (map ch xs ++ replicate k 61) cap) as (r & -> & Hr).
  destruct (encodes_bytes bs xs Hb He) as [Hm Hbs]. f_equal. apply Hr. exists xs.
  by split; [eapply encodes_text|].
Qed.

Lemma encodes_upper bs xs : encodes bs xs -> (length xs * 6 / 8)%nat = length bs.
Proof.
  intros (_ & p & Hp & Hl & _). symmetry. apply Nat.div_unique with (Z.to_nat p); lia.
Qed.

Lemma attr_line_miss key line : prefixb key (drop 2 line) = false -> attr_line key line = None.
Proof. intros H. unfold attr_line. rewrite H. by rewrite andb_false_r. Qed.

Lemma attr_line_hit key v :
  attr_line key ([97; 61] ++ key ++ 58 :: v) = Some v.
Proof.
  unfold attr_line. rewrite (proj2 (Nat.ltb_lt _ _)) by (rewrite !length_app; cbn [length]; lia).
  rewrite prefixb_app. change (drop 2 ([97; 61] ++ key ++ 58 :: v)) with (key ++ 58 :: v).
  rewrite prefixb_app.
  assert (forall n, drop (2 + length key + n) ([97; 61] ++ key ++ 58 :: v) = drop n (58 :: v)) as Hd.
  { intros n. cbn [Nat.add app drop]. by rewrite drop_app_add. }
  rewrite Hd. rewrite <- (Nat.add_0_r (2 + length key)), Hd. done.
Qed.

(** *** Reading back a rendered announcement *)

Section Render.
Context `{DataModel} (pt : Z) (f : list Z) (kt it : bytes).
Local Abbreviation lines := (sdp_lines pt f kt it).
Local Abbreviation body := (sdp_text pt f kt it).

Lemma sdp_lines_no_nl : 0 <= pt <= INT_MAX -> Forall (fun v => 0 <= v <= INT_MAX) f -> no_nl kt -> no_nl it ->
  Forall no_nl lines.
Proof.
  intros Hpt Hf Nk Ni. assert (no_nl (print_u pt)) as Np by (apply print_u_no_nl; lia).
  assert (no_nl (join_sp (pt :: f))) as Nf.
  { apply join_sp_no_nl. constructor; [lia|]. eapply Forall_impl; [exact Hf|]. intros; cbn in *; lia. }
  assert (forall lit l, no_nlb (str lit) = true -> no_nl l -> no_nl (str lit ++ l)) as Nlit.
  { intros lit l Hlit Hl. by apply no_nl_app; [apply no_nlb_ok|]. }
  unfold sdp_lines. repeat (apply List.Forall_cons; [first [by apply no_nlb_ok | by apply Nlit]|]). constructor.
Qed.

Hypothesis Hnl : Forall no_nl lines.

Lemma sdp_text_long : (5 <= length body)%nat.
Proof. unfold sdp_text, sdp_lines, crlf. cbn [map List.concat]. rewrite !length_app. cbn. lia. Qed.

Lemma sdp_text_payload : 0 <= pt <= INT_MAX -> sdp_payload_type body = Ret (Some pt).
Proof.
  intros Hpt. pose proof sdp_text_long. unfold sdp_payload_type.
  assert (first_line m_audio (S (length body)) body = Ret (Some (str "m=audio 0 RTP/AVP " ++ print_u pt))) as ->.
  { apply (first_line_lines m_audio _ [str "v=0"] (str "m=audio 0 RTP/AVP " ++ print_u pt) (drop 2 lines));
      [exact (Forall_take _ 2%nat _ Hnl)|by repeat constructor|done|cbn; lia]. }
  cbn [rbind]. change (strstr (str "RTP/AVP ") (str "m=audio 0 RTP/AVP " ++ print_u pt))
    with (Some (str "RTP/AVP " ++ print_u pt)).
  cbv iota. change (drop 8 (str "RTP/AVP " ++ print_u pt)) with (print_u pt).
  pose proof (parse_uint_print pt [] Hpt eq_refl) as Hp. rewrite app_nil_r in Hp. by rewrite Hp.
Qed.

(** Each attribute is found on its line, past those of the others. *)
Lemma sdp_text_attrs :
  find_attr body (str "fmtp") = Ret (Some (join_sp (pt :: f))) /\
  find_attr body (str "rsaaeskey") = Ret (Some kt) /\ find_attr body (str "aesiv") = Ret (Some it).
Proof.
  pose proof sdp_text_long. split; [|split].
  - apply (first_line_lines _ _ (take 2 lines) (str "a=fmtp:" ++ join_sp (pt :: f)) (drop 3 lines));
      [exact (Forall_take _ 3%nat _ Hnl)| |exact (attr_line_hit (str "fmtp") (join_sp (pt :: f)))|cbn; lia].
    by repeat constructor; apply attr_line_miss.
  - apply (first_line_lines _ _ (take 3 lines) (str "a=rsaaeskey:" ++ kt) (drop 4 lines));
      [exact (Forall_take _ 4%nat _ Hnl)| |exact (attr_line_hit (str "rsaaeskey") kt)|cbn; lia].
    by repeat constructor; apply attr_line_miss.
  - apply (first_line_lines _ _ (take 4 lines) (str "a=aesiv:" ++ it) (drop 5 lines));
      [exact (Forall_take _ 5%nat _ Hnl)| |exact (attr_line_hit (str "aesiv") it)|cbn; lia].
    by repeat constructor; apply attr_line_miss.
Qed.
End Render.

(** C33: the sessions a sender can announce are accepted.  A body that states a
    payload type, stereo 16-bit 44100 Hz fmtp fields in range, a key of 128 or 256
    bytes and an initial vector of 16 bytes in base64, with or without padding,
    parses to exactly those values, on every width of [long]. *)
Theorem sdp_parse_accepts `{DataModel} pt f kbs kxs kp ibs ixs ip :
  0 <= pt <= INT_MAX -> length f = 11%nat -> Forall (fun v => 0 <= v <= INT_MAX) f ->
  fmtp_fields_in_range (fun i => nth i f 0) = true ->
  nth 2 f 0 = 16 -> nth 6 f 0 = 2 -> nth 10 f 0 = 44100 ->
  bytes_ok kbs -> encodes kbs kxs -> length kbs = 128%nat \/ length kbs = 256%nat ->
  bytes_ok ibs -> encodes ibs ixs -> length ibs = 16%nat ->
  exists c, build_cookie (fun i => nth i f 0) = Ret c /\
    sdp_parse (sdp_text pt f (map ch kxs ++ replicate kp 61) (map ch ixs ++ replicate ip 61)) =
    Ret (inl (mk_sdp kbs ibs pt (nth 0 f 0) 16 2 44100 c)).
Proof.
  intros Hpt Hlf Hf Hr H2 H6 H10 Hkb Hke Hkl Hib Hie Hil.
  eexists. split; [apply build_cookie_eq|].
  set (kt := map ch kxs ++ replicate kp 61). set (it := map ch ixs ++ replicate ip 61).
  assert (Forall no_nl (sdp_lines pt f kt it)) as Nl
    by (apply sdp_lines_no_nl; [done|done|apply b64_value_no_nl, Hke|apply b64_value_no_nl, Hie]).
  pose proof (sdp_text_payload pt f kt it Nl Hpt) as Hpty. destruct (sdp_text_attrs pt f kt it Nl) as (Hfm & Hrk & Hiv).
  set (body := sdp_text pt f kt it) in *.
  unfold sdp_parse. rewrite Hpty. cbn [rbind].
  unfold sdp_fmtp. rewrite Hfm. cbn [rbind].
  pose proof (parse_uint_list_join (pt :: f) (List.Forall_cons _ _ _ Hpt Hf)) as Hj.
  cbn [length] in Hj. rewrite Hlf in Hj. rewrite Hj. cbn [rbind]. cbv zeta.
  change (nth 0 (pt :: f) 0) with pt. rewrite Z.eqb_refl. cbn [negb].
  change (fmtp_fields_in_range (fun i => nth (S i) (pt :: f) 0))
    with (fmtp_fields_in_range (fun i => nth i f 0)). rewrite Hr. cbn [negb].
  cbn [nth]. rewrite H2, H6, H10. cbn [negb Z.eqb Pos.eqb orb rbind].
  rewrite build_cookie_eq. cbn [rbind].
  unfold sdp_key. rewrite Hrk. cbn [rbind]. unfold kt at 1. rewrite upper_bound_value by apply Hke.
  rewrite (encodes_upper kbs) by done. rewrite (proj2 (Nat.ltb_ge _ _)) by lia.
  unfold kt. rewrite (b64_value_decodes kbs) by (done || lia). cbn [rbind].
  assert ((negb (length kbs =? 128) && negb (length kbs =? 256))%nat = false) as ->
    by (destruct Hkl as [-> | ->]; done).
  cbn [rbind]. unfold sdp_iv. rewrite Hiv. cbn [rbind]. unfold it at 1.
  rewrite upper_bound_value by apply Hie.
  rewrite (encodes_upper ibs), Hil by done. change (32 <? 16)%nat with false. cbn iota.
  unfold it. rewrite (b64_value_decodes ibs) by (done || lia). cbn [rbind].
  rewrite Hil. cbn [negb Nat.eqb rbind nth]. by rewrite H2, H6, H10.
Qed.

Lemma encodes_zeros n m :
  (6 * m = 8 * n + 2 \/ 6 * m = 8 * n + 4)%nat -> encodes (replicate n 0) (replicate m 0).
Proof.
  intros H. split; [by apply Forall_replicate|].
  assert (forall r k, foldl (fun v b => v * r + b) 0 (replicate k 0) = 0) as Hz.
  { intros r k. induction k as [|k IH]; [done|]. cbn [replicate foldl].
    by replace (0 * r + 0) with 0 by lia. }
  unfold sx_val, be_val. rewrite !Hz, !length_replicate.
  destruct H; [exists 2|exists 4]; split_and!; lia.
Qed.

Lemma sdp_parse_accepts_witness :
  exists c, build_cookie (fun i => nth i [352; 0; 16; 40; 10; 14; 2; 255; 0; 0; 44100] 0) = Ret c /\
    @sdp_parse ilp32 (sdp_text 96 [352; 0; 16; 40; 10; 14; 2; 255; 0; 0; 44100]
      (map ch (replicate 171 0) ++ replicate 1 61) (map ch (replicate 22 0) ++ replicate 2 61)) =
    Ret (inl (mk_sdp (replicate 128 0) (replicate 16 0) 96 352 16 2 44100 c)).
Proof.
  apply (@sdp_parse_accepts ilp32 96 [352; 0; 16; 40; 10; 14; 2; 255; 0; 0; 44100]);
    [unfold INT_MAX; lia|reflexivity| |reflexivity|reflexivity|reflexivity|reflexivity
    |by apply Forall_replicate|apply encodes_zeros; lia|left; apply length_replicate
    |by apply Forall_replicate|apply encodes_zeros; lia|apply length_replicate].
  unfold INT_MAX. repeat (apply List.Forall_cons; [lia|]). constructor.
Defined.

(** The verdict on an announcement does not depend on the width of [long]:
    the device and the host that runs the tests accept the same bodies with the
    same result. *)
Theorem sdp_parse_model_independent body :
  @sdp_parse ilp32 body = @sdp_parse lp64 body.
Proof.
  unfold sdp_parse. assert (@sdp_payload_type ilp32 body = @sdp_payload_type lp64 body) as ->.
  { unfold sdp_payload_type.
    destruct (first_line _ _ _) as [[l|]| |]; cbn [rbind]; [|reflexivity..].
    destruct (strstr _ l) as [hit|]; [|reflexivity]. by rewrite !parse_uint_bounded_spec. }
  destruct (@sdp_payload_type lp64 body) as [[pt|]| |]; cbn [rbind]; [|reflexivity..].
  assert (@sdp_fmtp ilp32 body pt = @sdp_fmtp lp64 body pt) as ->; [|reflexivity].
  unfold sdp_fmtp. destruct (find_attr _ _) as [[v|]| |]; cbn [rbind]; [|reflexivity..].
  by rewrite (parse_uint_list_model ilp32 lp64).
Qed.
