(* ===== verification/RtspMsg.v ===== *)
(** * RTSP request framing ([src/rtsp_msg.c], [src/rtsp_msg.h])

    The views of a message (method, header values, body) are the bytes they point
    at. *)
From Stdlib Require Import ZArith Lia String.
From stdpp Require Import base numbers list.
From S2P Require Import Prelude.

Local Open Scope Z_scope.

Definition RTSP_MAX_HDRS : nat := 24.

Record rtsp_hdr_t := mk_hdr { name : bytes; hval : bytes }.

(** [body] is [None] for the NULL pointer; [body_len] is the declared length,
    which is all a caller learns of a body that has not arrived. *)
Record rtsp_msg_t := mk_msg {
  method : bytes;
  uri : bytes;
  hdr : list rtsp_hdr_t;
  body : option bytes;
  body_len : Z;
  cseq : Z;
}.

(** The four outcomes: 0 without a header block, -1, 0 with a complete header
    block of the given length and an incomplete body, and 1 with the bytes
    consumed. *)
Inductive parse_result :=
  | NeedMore
  | Malformed
  | Partial (m : rtsp_msg_t) (hdr_block : nat)
  | Complete (m : rtsp_msg_t) (consumed : nat).

Definition parse_rc (r : parse_result) : Z :=
  match r with NeedMore | Partial _ _ => 0 | Malformed => -1 | Complete _ _ => 1 end.

(** [ci_eq]: case-insensitive equality with a literal. *)
Definition ci_eq (a b : bytes) : bool := (length a =? length b)%nat && ci_eqb a b.

Section Parse.
Context `{DM : DataModel}.

Fixpoint nonneg_digits (v : Z) (s : bytes) : option Z :=
  match s with
  | [] => Some v
  | c :: s' =>
      if negb (is_digit c) then None
      else
        let d := c - 48 in
        if (LONG_MAX - d) / 10 <? v then None else nonneg_digits (v * 10 + d) s'
  end.

Definition parse_nonneg_long (s : bytes) : option Z :=
  match s with [] => None | _ => nonneg_digits 0 s end.

(** [rtsp_hdr] *)
Definition rtsp_hdr (m : rtsp_msg_t) (nm : bytes) : option bytes :=
  hval <$> List.find (fun h => ci_eq (name h) nm) (hdr m).

(** The offset just past the first blank line. *)
Fixpoint find_hdrs_end (buf : bytes) : option nat :=
  if prefixb [13; 10; 13; 10] buf then Some 4%nat
  else match buf with
       | [] => None
       | _ :: buf' => S <$> find_hdrs_end buf'
       end.

Fixpoint skip_blank (v : bytes) : bytes :=
  match v with
  | c :: v' => if (c =? 32) || (c =? 9) then skip_blank v' else v
  | [] => []
  end.

Definition strip_cr (v : bytes) : bytes :=
  match last v with
  | Some 13 => take (length v - 1) v
  | _ => v
  end.

(** The header of one line (the bytes before the newline), if it has a colon. *)
Definition header_of_line (line : bytes) : option rtsp_hdr_t :=
  match memchr 58 line with
  | None => None
  | Some c => Some (mk_hdr (take c line) (strip_cr (skip_blank (drop (c + 1) line))))
  end.

Record head_state := mk_head { hs_hdr : list rtsp_hdr_t; hs_cseq : Z; hs_clen : Z }.

(** The effect of one header line; [None] rejects the message. *)
Definition add_header (s : head_state) (line : bytes) : option head_state :=
  match header_of_line line with
  | None => Some s
  | Some h =>
      if (RTSP_MAX_HDRS <=? length (hs_hdr s))%nat then None
      else
        let hdrs := hs_hdr s ++ [h] in
        if ci_eq (name h) (str "CSeq") then
          match parse_nonneg_long (hval h) with
          | Some cs => Some (mk_head hdrs cs (hs_clen s))
          | None => Some (mk_head hdrs (hs_cseq s) (hs_clen s))
          end
        else if ci_eq (name h) (str "Content-Length") then
          match parse_nonneg_long (hval h) with
          | Some cl => Some (mk_head hdrs (hs_cseq s) cl)
          | None => None
          end
        else Some (mk_head hdrs (hs_cseq s) (hs_clen s))
  end.

(** [while (p < hdrs_end-2)]: [p] is the rest of the header block. *)
Fixpoint header_loop (fuel : nat) (s : head_state) (p : bytes) : run (option head_state) :=
  match fuel with
  | O => NoFuel
  | S fuel' =>
      if (length p <=? 2)%nat then Ret (Some s)
      else
        match memchr 10 p with
        | None => Ret (Some s)
        | Some nl =>
            match add_header s (take nl p) with
            | None => Ret None
            | Some s' => header_loop fuel' s' (drop (nl + 1) p)
            end
        end
  end.

(** The request line and the headers of a header block. *)
Definition parse_head (head : bytes) : run (option (bytes * bytes * head_state)) :=
  match memchr 32 head with
  | None => Ret None
  | Some sp1 =>
      let r1 := drop (sp1 + 1) head in
      match memchr 32 r1 with
      | None => Ret None
      | Some sp2 =>
          let r2 := drop sp2 r1 in
          match memchr 10 r2 with
          | None => Ret None
          | Some nl =>
              let! s := header_loop (S (length head)) (mk_head [] (-1) 0) (drop (nl + 1) r2) in
              Ret ((fun s => (take sp1 head, take sp2 r1, s)) <$> s)
          end
      end
  end.

Definition rtsp_msg_parse (buf : bytes) : run parse_result :=
  match find_hdrs_end buf with
  | None => Ret NeedMore
  | Some he =>
      let! r := parse_head (take he buf) in
      match r with
      | None => Ret Malformed
      | Some (mt, ur, s) =>
          let have_body := (length buf - he)%nat in
          let clen := hs_clen s in
          if Z.of_nat have_body <? clen
          then Ret (Partial (mk_msg mt ur (hs_hdr s) None clen (hs_cseq s)) he)
          else
            let b := if 0 <? clen then Some (sub buf he (Z.to_nat clen)) else None in
            Ret (Complete (mk_msg mt ur (hs_hdr s) b clen (hs_cseq s)) (he + Z.to_nat clen))
      end
  end.
End Parse.

(** ** Helper lemmas *)

Lemma find_hdrs_end_bounds buf he :
  find_hdrs_end buf = Some he -> (4 <= he <= length buf)%nat.
Proof.
  revert he. induction buf as [|c buf IH]; intros he; [done|]. cbn [find_hdrs_end].
  destruct (prefixb_spec [13; 10; 13; 10] (c :: buf)) as [[r Hr]|Hn].
  - intros [= <-]. rewrite Hr, length_app. cbn. lia.
  - intros (k & Hk & ->)%fmap_Some. apply IH in Hk. cbn. lia.
Qed.

(** Bytes that arrive later do not move the end of a header block. *)
Lemma find_hdrs_end_app buf more he :
  find_hdrs_end buf = Some he -> find_hdrs_end (buf ++ more) = Some he.
Proof.
  revert he. induction buf as [|c buf IH]; intros he; [done|]. cbn [find_hdrs_end app].
  destruct (prefixb_spec [13; 10; 13; 10] (c :: buf)) as [[r Hr]|Hn].
  - intros [= <-]. rewrite app_comm_cons, Hr, <- app_assoc, prefixb_app. done.
  - intros (k & Hk & ->)%fmap_Some.
    destruct (prefixb_spec [13; 10; 13; 10] (c :: buf ++ more)) as [[r Hr]|_].
    + exfalso. apply Hn. exists (drop 4 (c :: buf)). apply find_hdrs_end_bounds in Hk.
      rewrite <- (take_drop 4 (c :: buf)) at 1. f_equal.
      rewrite <- (take_app_le (c :: buf) more 4) by (cbn; lia). cbn [app]. by rewrite Hr.
    + by rewrite (IH k).
Qed.

Lemma header_loop_total `{DataModel} fuel s p :
  (length p < fuel)%nat -> exists r, header_loop fuel s p = Ret r.
Proof.
  revert s p. induction fuel as [|fuel IH]; intros s p Hf; [lia|]. cbn [header_loop].
  destruct (Nat.leb_spec (length p) 2); [by eexists|].
  destruct (memchr 10 p) as [nl|]; [|by eexists].
  destruct (add_header s (take nl p)) as [s'|]; [|by eexists].
  apply IH. rewrite length_drop. lia.
Qed.

Lemma parse_head_total `{DataModel} head : exists r, parse_head head = Ret r.
Proof.
  unfold parse_head. destruct (memchr 32 head) as [sp1|]; [|by eexists].
  destruct (memchr 32 (drop (sp1 + 1) head)) as [sp2|]; [|by eexists].
  destruct (memchr 10 _) as [nl|]; [|by eexists].
  match goal with |- exists r, rbind (header_loop ?f ?s ?p) _ = _ =>
    destruct (header_loop_total f s p) as (r & ->); [rewrite !length_drop; lia|by eexists] end.
Qed.

(** The header table never overflows. *)
Lemma add_header_bound `{DataModel} s line s' :
  add_header s line = Some s' -> (length (hs_hdr s) <= RTSP_MAX_HDRS)%nat ->
  (length (hs_hdr s') <= RTSP_MAX_HDRS)%nat /\ (0 <= hs_clen s -> 0 <= hs_clen s').
Proof.
  assert (forall v t w, 0 <= v -> nonneg_digits v t = Some w -> 0 <= w) as Hnn.
  { intros v t. revert v. induction t as [|c t IH]; intros v w Hv; cbn [nonneg_digits].
    - by intros [= <-].
    - destruct (is_digit_spec c); [|done]. cbn [negb]. case_match; [done|]. apply IH. lia. }
  unfold add_header. destruct (header_of_line line) as [h|]; [|by intros [= <-]].
  destruct (Nat.leb_spec RTSP_MAX_HDRS (length (hs_hdr s))); [done|].
  assert (length (hs_hdr s ++ [h]) <= RTSP_MAX_HDRS)%nat by (rewrite length_app; cbn; lia).
  destruct (ci_eq _ _).
  - destruct (parse_nonneg_long _); by intros [= <-].
  - destruct (ci_eq _ _); [|by intros [= <-]].
    unfold parse_nonneg_long. destruct (hval h) as [|c t]; [done|].
    destruct (nonneg_digits 0 (c :: t)) as [cl|] eqn:E; [|done]. intros [= <-] _.
    split; [done|]. intros _. by apply (Hnn 0 (c :: t)).
Qed.

(** What every header line preserves, and holds of no headers, holds of the head
    of a request. *)
Lemma header_loop_inv `{DataModel} (P : head_state -> Prop) fuel s p s' :
  (forall s line s', add_header s line = Some s' -> P s -> P s') ->
  header_loop fuel s p = Ret (Some s') -> P s -> P s'.
Proof.
  intros Hstep. revert s p. induction fuel as [|fuel IH]; intros s p; [done|]. cbn [header_loop].
  destruct (length p <=? 2)%nat; [by intros [= <-]|].
  destruct (memchr 10 p) as [nl|]; [|by intros [= <-]].
  destruct (add_header s (take nl p)) as [s1|] eqn:E; [|done]. eauto.
Qed.

Lemma parse_head_inv `{DataModel} (P : head_state -> Prop) head mt ur s :
  (forall s line s', add_header s line = Some s' -> P s -> P s') -> P (mk_head [] (-1) 0) ->
  parse_head head = Ret (Some (mt, ur, s)) -> P s.
Proof.
  intros Hstep H0. unfold parse_head. destruct (memchr 32 head) as [sp1|]; [|done].
  destruct (memchr 32 (drop (sp1 + 1) head)) as [sp2|]; [|done].
  destruct (memchr 10 _) as [nl|]; [|done].
  destruct (header_loop _ _ _) as [[s1|]| |] eqn:E; try done. cbn. intros [= <- <- <-].
  by eapply header_loop_inv.
Qed.

Lemma parse_head_bound `{DataModel} head mt ur s :
  parse_head head = Ret (Some (mt, ur, s)) ->
  (length (hs_hdr s) <= RTSP_MAX_HDRS)%nat /\ 0 <= hs_clen s.
Proof.
  apply (parse_head_inv (fun s => (length (hs_hdr s) <= RTSP_MAX_HDRS)%nat /\ 0 <= hs_clen s)); [|cbn; lia].
  intros s1 line s2 E [H1 H2]. destruct (add_header_bound _ _ _ E H1). auto.
Qed.

(** The CSeq is -1 when absent, or a non-negative [long]. *)
Definition long_cseq `{DataModel} (n : Z) : Prop := -1 <= n <= LONG_MAX.

Lemma parse_nonneg_long_max `{DataModel} s n : parse_nonneg_long s = Some n -> n <= LONG_MAX /\ 0 <= n.
Proof.
  assert (forall t v w, 0 <= v <= LONG_MAX -> nonneg_digits v t = Some w -> 0 <= w <= LONG_MAX) as Hnn.
  { intros t. induction t as [|c t IH]; intros v w Hv; cbn [nonneg_digits].
    - by intros [= <-].
    - destruct (is_digit_spec c); [|done]. cbn [negb]. rewrite digit_guard.
      destruct (Z.ltb_spec LONG_MAX (v * 10 + (c - 48))); [done|]. apply IH. lia. }
  unfold parse_nonneg_long. destruct s as [|c t]; [done|]. intros E.
  apply Hnn in E; [lia|]. pose proof long_max_pos. lia.
Qed.

Lemma add_header_cseq `{DataModel} s line s' :
  add_header s line = Some s' -> long_cseq (hs_cseq s) -> long_cseq (hs_cseq s').
Proof.
  unfold add_header. destruct (header_of_line line) as [h|]; [|by intros [= <-]].
  destruct (_ <=? _)%nat; [done|]. destruct (ci_eq _ _).
  - destruct (parse_nonneg_long (hval h)) as [cs|] eqn:E; intros [= <-]; [|done].
    apply parse_nonneg_long_max in E. unfold long_cseq. cbn [hs_cseq]. lia.
  - destruct (ci_eq _ _); [destruct (parse_nonneg_long _); [|done]|]; by intros [= <-].
Qed.

Lemma parse_head_cseq `{DataModel} head mt ur s :
  parse_head head = Ret (Some (mt, ur, s)) -> long_cseq (hs_cseq s).
Proof.
  apply (parse_head_inv (fun s => long_cseq (hs_cseq s))); [intros ???; apply add_header_cseq|].
  unfold long_cseq. cbn [hs_cseq]. pose proof long_max_pos. lia.
Qed.

(** The declared length is a [long]. *)
Lemma add_header_clen `{DataModel} s line s' :
  add_header s line = Some s' -> hs_clen s <= LONG_MAX -> hs_clen s' <= LONG_MAX.
Proof.
  unfold add_header. destruct (header_of_line line) as [h|]; [|by intros [= <-]].
  destruct (_ <=? _)%nat; [done|]. destruct (ci_eq _ _); [destruct (parse_nonneg_long _); by intros [= <-]|].
  destruct (ci_eq _ _); [|by intros [= <-]].
  destruct (parse_nonneg_long (hval h)) as [cl|] eqn:E; intros [= <-] _.
  apply parse_nonneg_long_max in E. cbn [hs_clen]. lia.
Qed.

Lemma parse_head_clen `{DataModel} head mt ur s :
  parse_head head = Ret (Some (mt, ur, s)) -> hs_clen s <= LONG_MAX.
Proof.
  apply (parse_head_inv (fun s => hs_clen s <= LONG_MAX)); [intros ???; apply add_header_clen|].
  cbn [hs_clen]. pose proof long_max_pos. lia.
Qed.

(** What a result says about the buffer it was parsed from. *)
Definition result_ok (buf : bytes) (r : parse_result) : Prop :=
  match r with
  | NeedMore => find_hdrs_end buf = None
  | Malformed => exists he, find_hdrs_end buf = Some he
  | Partial m hb =>
      find_hdrs_end buf = Some hb /\ (4 <= hb <= length buf)%nat /\ body m = None /\
      Z.of_nat (length buf - hb) < body_len m /\ (length (hdr m) <= RTSP_MAX_HDRS)%nat
  | Complete m c =>
      (4 <= c <= length buf)%nat /\ 0 <= body_len m /\ (length (hdr m) <= RTSP_MAX_HDRS)%nat /\
      match body m with
      | None => body_len m = 0
      | Some b => Z.of_nat (length b) = body_len m /\ 0 < body_len m /\
          b = sub buf (c - length b) (length b)
      end
  end.

Lemma parse_cseq `{DataModel} buf r :
  rtsp_msg_parse buf = Ret r ->
  match r with Partial m _ | Complete m _ => long_cseq (cseq m) | _ => True end.
Proof.
  unfold rtsp_msg_parse. destruct (find_hdrs_end buf) as [he|]; [|by intros [= <-]].
  destruct (parse_head (take he buf)) as [[[[mt ur] s]|]| |] eqn:E; try done; cbn [rbind].
  2: by intros [= <-].
  apply parse_head_cseq in E. destruct (_ <? _); by intros [= <-].
Qed.

Lemma parse_body_len `{DataModel} buf r :
  rtsp_msg_parse buf = Ret r ->
  match r with Partial m _ | Complete m _ => body_len m <= LONG_MAX | _ => True end.
Proof.
  unfold rtsp_msg_parse. destruct (find_hdrs_end buf) as [he|]; [|by intros [= <-]].
  destruct (parse_head (take he buf)) as [[[[mt ur] s]|]| |] eqn:E; try done; cbn [rbind].
  2: by intros [= <-].
  apply parse_head_clen in E. destruct (_ <? _); by intros [= <-].
Qed.

(** ** Properties *)

(** Framing is total and stays inside the buffer.  On every buffer the
    parser ends with one of its four results; a complete message consumes at
    least the blank line and at most the buffer, its body is exactly the declared
    length and ends where the message ends, and at most 24 headers are kept. *)
Lemma rtsp_msg_parse_ok `{DataModel} buf :
  exists r, rtsp_msg_parse buf = Ret r /\ result_ok buf r.
Proof.
  unfold rtsp_msg_parse. destruct (find_hdrs_end buf) as [he|] eqn:E; [|by exists NeedMore].
  pose proof (find_hdrs_end_bounds _ _ E) as Hhe.
  destruct (parse_head_total (take he buf)) as ([[[mt ur] s]|] & Hp); rewrite Hp; cbn [rbind].
  2: { exists Malformed. split; [done|]. by exists he. }
  destruct (parse_head_bound _ _ _ _ Hp) as [Hh Hc].
  destruct (Z.ltb_spec (Z.of_nat (length buf - he)) (hs_clen s)) as [Hb|Hb];
    eexists; (split; [reflexivity|]); cbn [result_ok body body_len hdr].
  - split_and!; try done; lia.
  - split_and!; try done; try lia. destruct (Z.ltb_spec 0 (hs_clen s)) as [Hp0|Hp0]; [|lia].
    rewrite sub_length by lia. split_and!; [lia|done|]. f_equal. lia.
Qed.

(** Framing does not depend on how the bytes arrive.  When more bytes follow,
    a complete message parses to the same message and the same length, a
    malformed one stays malformed, and a message whose body was incomplete keeps
    its method, headers, CSeq and declared length. *)
Lemma rtsp_msg_parse_stable `{DataModel} buf more r :
  rtsp_msg_parse buf = Ret r -> r <> NeedMore ->
  exists r', rtsp_msg_parse (buf ++ more) = Ret r' /\
    match r with
    | Partial m hb =>
        r' = Partial m hb \/
        exists b, r' = Complete (mk_msg (method m) (uri m) (hdr m) (Some b) (body_len m) (cseq m))
                    (hb + length b) /\ Z.of_nat (length b) = body_len m
    | _ => r' = r
    end.
Proof.
  unfold rtsp_msg_parse. destruct (find_hdrs_end buf) as [he|] eqn:E; [|by intros [= <-]].
  pose proof (find_hdrs_end_bounds _ _ E) as Hhe.
  rewrite (find_hdrs_end_app _ more _ E), take_app_le by lia.
  destruct (parse_head_total (take he buf)) as ([[[mt ur] s]|] & Hp); rewrite Hp; cbn [rbind].
  2: { intros [= <-] _. by eexists. }
  destruct (parse_head_bound _ _ _ _ Hp) as [_ Hc].
  destruct (Z.ltb_spec (Z.of_nat (length buf - he)) (hs_clen s)) as [Hb|Hb]; intros [= <-] _.
  - destruct (Z.ltb_spec (Z.of_nat (length (buf ++ more) - he)) (hs_clen s)) as [Hb'|Hb'];
      [by eexists; split; [|left]|].
    eexists. split; [done|]. right. cbn [method uri hdr body_len cseq].
    rewrite (proj2 (Z.ltb_lt 0 _)) by lia. pose proof Hb' as Hb2. rewrite length_app in Hb2.
    exists (sub (buf ++ more) he (Z.to_nat (hs_clen s))).
    rewrite sub_length by (rewrite length_app; lia). split; [done|lia].
  - rewrite (proj2 (Z.ltb_ge _ _)) by (rewrite length_app; lia).
    eexists. split; [done|]. destruct (0 <? hs_clen s); [|done]. do 3 f_equal.
    unfold sub. rewrite drop_app_le by lia. rewrite take_app_le; [done|]. rewrite length_drop. lia.
Qed.

Lemma rtsp_msg_parse_stable_witness :
  exists r', @rtsp_msg_parse ilp32 (str "PAUSE x RTSP/1.0" ++ [13; 10] ++ str "CSeq: 7" ++ [13; 10; 13; 10]
      ++ str "TEARDOWN") = Ret r' /\
    r' = Complete (mk_msg (str "PAUSE") (str "x") [mk_hdr (str "CSeq") (str "7")] None 0 7) 29.
Proof.
  apply (@rtsp_msg_parse_stable ilp32
    (str "PAUSE x RTSP/1.0" ++ [13; 10] ++ str "CSeq: 7" ++ [13; 10; 13; 10]) (str "TEARDOWN")
    (Complete (mk_msg (str "PAUSE") (str "x") [mk_hdr (str "CSeq") (str "7")] None 0 7) 29));
    [by vm_compute|done].
Defined.

(** ** Rendering *)

Definition crlf (l : bytes) : bytes := l ++ [13; 10].

Definition header_line (h : rtsp_hdr_t) : bytes := name h ++ [58; 32] ++ hval h.

(** A request as a sender writes it. *)
Definition render (mt ur : bytes) (hs : list rtsp_hdr_t) (b : bytes) : bytes :=
  List.concat (map crlf ((mt ++ [32] ++ ur ++ [32] ++ str "RTSP/1.0") :: map header_line hs))
    ++ [13; 10] ++ b.

Definition token (l : bytes) : Prop := Forall (fun c => c <> 32 /\ c <> 10 /\ c <> 13) l.
Definition text_line (l : bytes) : Prop := Forall (fun c => c <> 10 /\ c <> 13) l.

(** A header that survives the trip: a name without a colon, a value without line
    breaks that does not start with a blank. *)
Definition header_ok (h : rtsp_hdr_t) : Prop :=
  text_line (name h) /\ Forall (fun c => c <> 58) (name h) /\ text_line (hval h) /\
  match hval h with c :: _ => c <> 32 /\ c <> 9 | [] => True end.

Lemma find_hdrs_end_line l rest :
  text_line l -> l <> [] -> (match rest with 13 :: _ => False | _ => True end) ->
  find_hdrs_end (crlf l ++ rest) = (fun n => length l + 2 + n)%nat <$> find_hdrs_end rest.
Proof.
  intros Hl _ Hr. unfold crlf. rewrite <- app_assoc. cbn [app].
  induction Hl as [|c l [_ Hc] Hl IH].
  - cbn [app length Nat.add].
    assert (prefixb [13; 10; 13; 10] (13 :: 10 :: rest) = false) as H1.
    { destruct rest as [|x rest]; [done|]. cbn [prefixb]. rewrite !Z.eqb_refl.
      destruct (Z.eqb_spec 13 x) as [<-|]; [destruct Hr|reflexivity]. }
    cbn [find_hdrs_end]. rewrite H1. cbn [find_hdrs_end prefixb Z.eqb Pos.eqb andb].
    by destruct (find_hdrs_end rest).
  - cbn [app find_hdrs_end prefixb]. rewrite (proj2 (Z.eqb_neq 13 c)) by lia. cbn [andb].
    rewrite IH. by destruct (find_hdrs_end rest).
Qed.

Lemma find_hdrs_end_lines ls b :
  Forall (fun l => text_line l /\ l <> []) ls -> ls <> [] ->
  find_hdrs_end (List.concat (map crlf ls) ++ [13; 10] ++ b) =
  Some (length (List.concat (map crlf ls)) + 2)%nat.
Proof.
  induction 1 as [|l ls [Hl Hne] Hls IH]; [done|]. intros _. cbn [map List.concat].
  rewrite <- app_assoc. destruct ls as [|l' ls].
  - cbn [map List.concat app]. rewrite length_app. cbn [length]. rewrite Nat.add_0_r.
    unfold crlf. rewrite length_app. rewrite <- app_assoc. clear IH Hls Hne. cbn [app length].
    induction Hl as [|c l [_ Hc] Hl IH]; [done|].
    cbn [app find_hdrs_end prefixb]. rewrite (proj2 (Z.eqb_neq 13 c)) by lia. cbn [andb].
    rewrite IH. done.
  - rewrite find_hdrs_end_line; [|done|done|].
    + rewrite IH by done. cbn [fmap option_fmap option_map]. f_equal. rewrite !length_app.
      assert (length (crlf l) = length l + 2)%nat by (unfold crlf; rewrite length_app; done). lia.
    + inversion Hls as [|? ? [Hl' Hne'] _]; subst. cbn [map List.concat].
      destruct l' as [|c l']; [done|]. inversion Hl' as [|? ? [_ Hc] _]; subst. cbn [app].
      unfold crlf. cbn [app]. destruct (Z.eqb_spec c 13); [lia|]. repeat case_match; done.
Qed.

Lemma strip_cr_snoc v : strip_cr (v ++ [13]) = v.
Proof.
  unfold strip_cr. rewrite last_snoc, length_app. cbn [length].
  rewrite Nat.add_sub. apply take_app_length.
Qed.

Lemma header_of_line_render h : header_ok h -> header_of_line (header_line h ++ [13]) = Some h.
Proof.
  intros (_ & Hc & _ & Hb). unfold header_of_line, header_line.
  rewrite <- !app_assoc. cbn [app]. rewrite memchr_skip by done. rewrite take_app_length.
  rewrite drop_app_add. cbn [drop skip_blank Z.eqb Pos.eqb orb].
  assert (skip_blank (hval h ++ [13]) = hval h ++ [13]) as ->.
  { destruct (hval h) as [|c v]; [done|]. cbn [app skip_blank].
    destruct Hb. by rewrite (proj2 (Z.eqb_neq c 32)), (proj2 (Z.eqb_neq c 9)) by lia. }
  rewrite strip_cr_snoc. by destruct h.
Qed.

Section RoundTrip.
Context `{DM : DataModel}.

Lemma nonneg_digits_spec v s :
  0 <= v -> Forall (fun c => is_digit c = true) s ->
  nonneg_digits v s =
  let r := v * 10 ^ Z.of_nat (length s) + dec_val s in
  if (match s with [] => true | _ => r <=? LONG_MAX end) then Some r else None.
Proof.
  intros Hv Hs. revert v Hv. induction Hs as [|c s Hc Hs IH]; intros v Hv; cbn [nonneg_digits].
  { cbv zeta. cbn [length]. change (dec_val []) with 0. f_equal. lia. }
  rewrite Hc. cbn [negb]. rewrite digit_guard. destruct (is_digit_spec c); [|done].
  cbn [length]. rewrite dec_val_cons, Nat2Z.inj_succ, Z.pow_succ_r by lia.
  set (P := 10 ^ Z.of_nat (length s)) in *.
  replace (v * (10 * P) + ((c - 48) * P + dec_val s))
    with ((v * 10 + (c - 48)) * P + dec_val s) by ring.
  pose proof (dec_val_mono (v * 10 + (c - 48)) s ltac:(lia) Hs) as Hm. fold P in Hm. cbv zeta.
  destruct (Z.ltb_spec LONG_MAX (v * 10 + (c - 48))).
  - by rewrite (proj2 (Z.leb_gt _ _)) by lia.
  - rewrite IH by lia. fold P. cbv zeta. destruct s as [|c' s]; [|done].
    unfold P in *. cbn [length] in *. change (dec_val []) with 0 in *. rewrite Z.pow_0_r in *.
    by rewrite (proj2 (Z.leb_le _ _)) by lia.
Qed.

Lemma parse_print_u n : 0 <= n <= LONG_MAX -> parse_nonneg_long (print_u n) = Some n.
Proof.
  intros Hn. destruct (print_u_spec n ltac:(lia)) as (Hv & Hne & Hd). unfold parse_nonneg_long.
  destruct (print_u n) as [|c s] eqn:E; [done|]. rewrite nonneg_digits_spec by (done || lia).
  rewrite Hv, Z.mul_0_l, Z.add_0_l. cbv zeta. by rewrite (proj2 (Z.leb_le _ _)) by lia.
Qed.

(** The header block of rendered lines folds [add_header] over the headers. *)
Definition add_hdr (s : head_state) (h : rtsp_hdr_t) : option head_state :=
  add_header s (header_line h ++ [13]).

Fixpoint add_all (s : head_state) (hs : list rtsp_hdr_t) : option head_state :=
  match hs with
  | [] => Some s
  | h :: hs' => match add_hdr s h with None => None | Some s' => add_all s' hs' end
  end.

Lemma header_loop_render fuel s hs :
  Forall header_ok hs -> (length hs < fuel)%nat ->
  header_loop fuel s (List.concat (map crlf (map header_line hs)) ++ [13; 10]) = Ret (add_all s hs).
Proof.
  revert s hs. induction fuel as [|fuel IH]; intros s hs Hh Hf; [lia|].
  destruct hs as [|h hs]; [done|]. apply Forall_cons in Hh as [Hh Hhs].
  set (p := List.concat (map crlf (map header_line hs)) ++ [13; 10]).
  assert (List.concat (map crlf (map header_line (h :: hs))) ++ [13; 10] =
    (header_line h ++ [13]) ++ 10 :: p) as ->.
  { cbn [map List.concat]. unfold p. unfold crlf at 1. by rewrite <- !app_assoc. }
  cbn [header_loop add_all].
  assert (Forall (fun c => c <> 10) (header_line h ++ [13])) as Hn.
  { destruct Hh as (H1 & _ & H2 & _). unfold header_line. repeat (apply Forall_app; split).
    - eapply Forall_impl; [exact H1|]. intros c Hc. cbn in Hc. lia.
    - by repeat constructor.
    - eapply Forall_impl; [exact H2|]. intros c Hc. cbn in Hc. lia.
    - by repeat constructor. }
  set (line := header_line h ++ [13]) in *.
  assert (Nat.lt 2 (length (line ++ 10 :: p))) as Hlen.
  { unfold line, header_line. rewrite !length_app. cbn. lia. }
  rewrite (proj2 (Nat.leb_gt _ _)) by lia. rewrite memchr_skip by done. rewrite take_app_length.
  unfold add_hdr. fold line. destruct (add_header s line) as [s'|]; [|done].
  rewrite drop_app_add. cbn [drop]. apply IH; [done|]. cbn in Hf. lia.
Qed.
End RoundTrip.

(** A name that is neither of the two the parser interprets. *)
Definition plain (h : rtsp_hdr_t) : Prop :=
  header_ok h /\ ci_eq (name h) (str "CSeq") = false /\ ci_eq (name h) (str "Content-Length") = false.

Definition request_headers (n : Z) (hs : list rtsp_hdr_t) (b : bytes) : list rtsp_hdr_t :=
  mk_hdr (str "CSeq") (print_u n) ::
  mk_hdr (str "Content-Length") (print_u (Z.of_nat (length b))) :: hs.

Lemma header_ok_number nm v :
  0 <= v -> text_line (str nm) -> Forall (fun c => c <> 58) (str nm) ->
  header_ok (mk_hdr (str nm) (print_u v)).
Proof.
  intros Hv Hn Hc. destruct (print_u_spec v Hv) as (_ & Hne & Hd). unfold header_ok. cbn [name hval].
  split_and!; [done|done| |].
  - eapply Forall_impl; [exact Hd|]. intros c H. cbn in H. destruct (is_digit_spec c); [lia|done].
  - destruct (print_u v) as [|c l]; [done|]. inversion Hd as [|? ? H _]; subst.
    destruct (is_digit_spec c); [lia|done].
Qed.

Lemma add_all_plain `{DataModel} s hs :
  Forall plain hs -> (length (hs_hdr s) + length hs <= RTSP_MAX_HDRS)%nat ->
  add_all s hs = Some (mk_head (hs_hdr s ++ hs) (hs_cseq s) (hs_clen s)).
Proof.
  intros Hp. revert s. induction Hp as [|h hs (Ho & H1 & H2) Hp IH]; intros s Hl.
  { cbn [add_all]. rewrite app_nil_r. by destruct s. }
  cbn [add_all]. unfold add_hdr, add_header. rewrite header_of_line_render by done.
  cbn [length] in Hl. rewrite (proj2 (Nat.leb_gt _ _)) by lia. rewrite H1, H2.
  rewrite IH by (cbn [hs_hdr]; rewrite length_app; cbn [length]; lia).
  cbn [hs_hdr hs_cseq hs_clen]. by rewrite <- app_assoc.
Qed.

Lemma add_all_request `{DataModel} n hs b :
  0 <= n <= LONG_MAX -> Z.of_nat (length b) <= LONG_MAX -> Forall plain hs ->
  (length hs + 2 <= RTSP_MAX_HDRS)%nat ->
  add_all (mk_head [] (-1) 0) (request_headers n hs b) =
  Some (mk_head (request_headers n hs b) n (Z.of_nat (length b))).
Proof.
  intros Hn Hb Hp Hl. unfold request_headers. cbn [add_all]. unfold add_hdr, add_header.
  rewrite !header_of_line_render by (apply header_ok_number; [lia|by repeat constructor..]).
  cbn [name hval hs_hdr length app hs_cseq hs_clen].
  change (ci_eq (str "CSeq") (str "CSeq")) with true.
  change (ci_eq (str "Content-Length") (str "CSeq")) with false.
  change (ci_eq (str "Content-Length") (str "Content-Length")) with true.
  rewrite !parse_print_u by lia. change (RTSP_MAX_HDRS <=? 0)%nat with false.
  cbv iota. cbn [hs_hdr hs_cseq hs_clen length app].
  change (RTSP_MAX_HDRS <=? 1)%nat with false. cbv iota.
  by rewrite add_all_plain by (done || (cbn [hs_hdr length]; lia)).
Qed.

Lemma render_head_eq mt ur hs :
  List.concat (map crlf ((mt ++ [32] ++ ur ++ [32] ++ str "RTSP/1.0") :: map header_line hs)) ++ [13; 10]
  = mt ++ 32 :: ur ++ 32 :: str "RTSP/1.0" ++ 13 :: 10 ::
      (List.concat (map crlf (map header_line hs)) ++ [13; 10]).
Proof.
  cbn [map List.concat]. unfold crlf at 1. by rewrite <- !app_assoc.
Qed.

Lemma parse_head_render `{DataModel} mt ur hs :
  token mt -> token ur -> Forall header_ok hs ->
  parse_head (mt ++ 32 :: ur ++ 32 :: str "RTSP/1.0" ++ 13 :: 10 ::
    (List.concat (map crlf (map header_line hs)) ++ [13; 10])) =
  Ret ((fun s => (mt, ur, s)) <$> add_all (mk_head [] (-1) 0) hs).
Proof.
  intros Hm Hu Hh. set (p := List.concat _ ++ [13; 10]).
  set (r2 := str "RTSP/1.0" ++ 13 :: 10 :: p). unfold parse_head.
  assert (forall l, token l -> Forall (fun c => c <> 32) l) as Htok.
  { intros l Hl. eapply Forall_impl; [exact Hl|]. intros c Hc. cbn in Hc. lia. }
  rewrite memchr_skip by auto. rewrite drop_app_add. cbn [drop]. rewrite !drop_0.
  rewrite memchr_skip by auto. rewrite drop_app_length.
  change (memchr 10 (32 :: r2)) with (Some 10%nat). cbv iota. cbn [drop Nat.add].
  change (drop 10 r2) with p. rewrite !take_app_length.
  unfold p at 1. rewrite header_loop_render; [|done|].
  - by destruct (add_all _ hs).
  - rewrite !length_app. unfold r2. cbn [length]. rewrite length_app. cbn [length].
    rewrite length_app. cbn [length].
    assert (length hs <= length p)%nat; [|lia]. unfold p. rewrite length_app. clear -hs.
    induction hs as [|h hs IH]; cbn [map List.concat length]; [lia|].
    unfold crlf at 1. rewrite !length_app in *. cbn [length] in *. lia.
Qed.

(** C34: a request parses back to what was written.  For a method and URI without
    blanks or line breaks, a CSeq and a body that fit a [long], and up to 22 more
    headers whose values do not start with a blank, the rendered request followed
    by anything parses to exactly that message and consumes exactly its bytes. *)
Theorem rtsp_msg_round_trip `{DataModel} mt ur n hs b rest :
  token mt -> token ur -> 0 <= n <= LONG_MAX -> Z.of_nat (length b) <= LONG_MAX ->
  Forall plain hs -> (length hs + 2 <= RTSP_MAX_HDRS)%nat ->
  let req := render mt ur (request_headers n hs b) b in
  rtsp_msg_parse (req ++ rest) =
  Ret (Complete
    (mk_msg mt ur (request_headers n hs b) (match b with [] => None | _ => Some b end)
       (Z.of_nat (length b)) n) (length req)).
Proof.
  intros Hm Hu Hn Hb Hp Hl. cbv zeta.
  assert (Forall header_ok (request_headers n hs b)) as Hh.
  { repeat apply List.Forall_cons; [apply header_ok_number; [lia|by repeat constructor..]..|].
    eapply Forall_impl; [exact Hp|]. by intros h [? _]. }
  unfold render. set (ls := _ :: map header_line _).
  assert (Forall (fun l => text_line l /\ l <> []) ls) as Hls.
  { constructor.
    - split; [|destruct mt; done]. unfold text_line.
      repeat (apply Forall_app; split); try (by repeat constructor);
        (eapply Forall_impl; [eassumption|]; intros c Hc; cbn in Hc; lia).
    - apply Forall_map. eapply Forall_impl; [exact Hh|]. intros h (H1 & _ & H2 & _). cbn.
      unfold header_line. split; [|destruct (name h); done].
      repeat (apply Forall_app; split); [done|by repeat constructor|done]. }
  assert ((List.concat (map crlf ls) ++ [13; 10] ++ b) ++ rest =
    List.concat (map crlf ls) ++ [13; 10] ++ b ++ rest) as -> by (by rewrite <- !app_assoc).
  unfold rtsp_msg_parse. rewrite find_hdrs_end_lines by done.
  set (head := List.concat (map crlf ls) ++ [13; 10]).
  assert (length head = length (List.concat (map crlf ls)) + 2)%nat as Hhl
    by (unfold head; rewrite length_app; done).
  rewrite <- Hhl. rewrite !app_assoc. fold head. rewrite <- app_assoc, take_app_length.
  unfold head at 1, ls. rewrite render_head_eq, parse_head_render by done.
  rewrite add_all_request by done. cbn [fmap option_fmap option_map rbind hs_clen hs_hdr hs_cseq].
  rewrite !length_app. rewrite (proj2 (Z.ltb_ge _ _)) by lia.
  unfold sub. rewrite drop_app_length, Nat2Z.id, take_app_length.
  destruct b as [|x b]; [done|]. by rewrite (proj2 (Z.ltb_lt 0 _)) by (cbn; lia).
Qed.

Lemma rtsp_msg_round_trip_witness :
  @rtsp_msg_parse ilp32
    (render (str "ANNOUNCE") (str "rtsp://x/1")
       (request_headers 3 [mk_hdr (str "Content-Type") (str "application/sdp")] (str "v=0")) (str "v=0")
     ++ str "OPTI") =
  Ret (Complete
    (mk_msg (str "ANNOUNCE") (str "rtsp://x/1")
       (request_headers 3 [mk_hdr (str "Content-Type") (str "application/sdp")] (str "v=0"))
       (Some (str "v=0")) 3 3)
    (length (render (str "ANNOUNCE") (str "rtsp://x/1")
       (request_headers 3 [mk_hdr (str "Content-Type") (str "application/sdp")] (str "v=0")) (str "v=0")))).
Proof.
  apply (@rtsp_msg_round_trip ilp32 (str "ANNOUNCE") (str "rtsp://x/1") 3
    [mk_hdr (str "Content-Type") (str "application/sdp")] (str "v=0"));
    by repeat constructor.
Defined.
