(* ===== verification/RaopVolume.v ===== *)
(** * The volume of the sender ([src/raop_volume.c])

    The conversion of decibels to a percentage is a single-precision formula followed
    by a truncation, and so is the player's of a percentage to a gain.  Each operation
    rounds; here every step is bounded from above with its rounding error, which shows
    that no error makes the percentage leave its range. *)
From Stdlib Require Import ZArith Lia SpecFloat.
From stdpp Require Import base numbers list.
From S2P Require Import Prelude.

Local Open Scope Z_scope.

(** ** Single precision

    [float] and [double] are binary32 and binary64, rounded to nearest, ties to
    even; [float] expressions are evaluated in [float]. *)
Definition sf_of_Z (prec emax z : Z) : spec_float := binary_normalize prec emax z 0 false.

Definition flt (z : Z) : spec_float := sf_of_Z 24 128 z.

(** [0.5f] *)
Definition half : spec_float := S754_finite false 8388608 (-24).

(** The conversion of a [double] to [float]. *)
Definition to_float (d : spec_float) : spec_float :=
  match d with
  | S754_finite s m e => binary_round 24 128 s m e
  | _ => d
  end.

(** The truncating conversion to [int]; out of range, where C leaves it undefined,
    it saturates as the target's conversion does. *)
Definition to_int (f : spec_float) : Z :=
  match f with
  | S754_finite s m e =>
      let a := if 0 <=? e then Z.pos m * 2 ^ e else Z.pos m / 2 ^ (- e) in
      Z.max INT_MIN (Z.min INT_MAX (if s then - a else a))
  | _ => 0
  end.

Definition is_nan (f : spec_float) : bool := match f with S754_nan => true | _ => false end.

Definition raop_volume_db_to_pct (db : spec_float) : Z :=
  if SFleb db (flt (-30)) then 0
  else if SFleb (flt 0) db then 100
  else
    let pct := SFmul 24 128 (SFdiv 24 128 (SFadd 24 128 db (flt 30)) (flt 30)) (flt 100) in
    to_int (SFadd 24 128 pct half).

(** ** Rounding *)

Section Rounding.

Lemma zdigits2_log2 m : 0 < m -> Zdigits2 m = Z.log2 m + 1.
Proof.
  destruct m as [|p|p]; [lia| |lia]. intros _. cbn [Zdigits2].
  assert (digits2_pos p = Pos.size p) as -> by (induction p; cbn; congruence).
  destruct p; cbn [Z.log2 Pos.size]; lia.
Qed.

Lemma shr_1_half r : 0 <= shr_m r -> shr_m (shr_1 r) = shr_m r / 2.
Proof.
  destruct r as [[|[p|p|]|p] a b]; cbn [shr_m shr_1]; intros Hm; try done.
  - rewrite Pos2Z.inj_xI. apply (Z.div_unique _ _ _ 1); lia.
  - rewrite Pos2Z.inj_xO. apply (Z.div_unique _ _ _ 0); lia.
Qed.

Lemma div_pow_pow x a b : 0 <= a -> 0 <= b -> x / 2 ^ a / 2 ^ b = x / 2 ^ (a + b).
Proof. intros. rewrite Z.pow_add_r by done. apply Z.div_div; [apply Z.pow_nonzero; lia|apply Z.pow_pos_nonneg; lia]. Qed.

Lemma shr_iter p r : 0 <= shr_m r -> shr_m (SpecFloat.iter_pos shr_1 p r) = shr_m r / 2 ^ Z.pos p.
Proof.
  assert (forall x q, 0 <= x -> 0 <= x / 2 ^ Z.pos q) as Hpos by (intros; apply Z.div_pos; [done|by apply Z.pow_pos_nonneg]).
  revert r. induction p as [p IH|p IH|]; intros r Hr; cbn [SpecFloat.iter_pos].
  - pose proof (shr_1_half r Hr) as E1. assert (0 <= shr_m (shr_1 r)) by (rewrite E1; by apply Z.div_pos).
    rewrite IH; [|rewrite IH by done; auto]. rewrite IH, E1 by done. rewrite div_pow_pow by lia.
    change 2 with (2 ^ 1) at 1. rewrite div_pow_pow by lia. f_equal. f_equal. lia.
  - rewrite IH; [|rewrite IH by done; auto]. rewrite IH by done. rewrite div_pow_pow by lia. f_equal. f_equal. lia.
  - by apply shr_1_half.
Qed.

(** The exponent a number [m * 2 ^ e] is rounded at. *)
Definition at_exp (m e : Z) : Z := Z.max e (fexp 24 128 (Zdigits2 m + e)).

Lemma at_exp_low m e : -149 <= at_exp m e.
Proof. unfold at_exp, fexp, SpecFloat.emin. lia. Qed.

Lemma at_exp_above m e : e <= at_exp m e.
Proof. apply Z.le_max_l. Qed.

(** A shift drops the bits below that exponent. *)
Lemma shr_fexp_spec m e l : 0 <= m ->
  shr_m (shr_fexp 24 128 m e l).1 = m / 2 ^ (at_exp m e - e) /\ (shr_fexp 24 128 m e l).2 = at_exp m e.
Proof.
  intros Hm. unfold shr_fexp, shr, at_exp. set (n := fexp 24 128 (Zdigits2 m + e)).
  assert (shr_m (shr_record_of_loc m l) = m) as Hl by (by destruct l as [|[]]).
  destruct (n - e) as [|p|p] eqn:E; cbn [fst snd].
  - rewrite Z.max_l, Z.sub_diag, Z.div_1_r by lia. done.
  - rewrite Z.max_r by lia. rewrite shr_iter, Hl, E by lia. split; [done|lia].
  - rewrite Z.max_l, Z.sub_diag, Z.div_1_r by lia. done.
Qed.

Lemma nearest_even_step m l : m <= round_nearest_even m l <= m + 1.
Proof. unfold round_nearest_even. destruct l as [|[]]; try lia. destruct (Z.even m); lia. Qed.

(** ** Non-negative numbers up to a bound

    The bound is scaled by [2 ^ 200], which makes an integer of every number the
    formulas meet; all of them are at most 512, where the error of one rounding is
    below [EPS], [2 ^ -13]. *)
Definition ONE : Z := 2 ^ 200.
Definition EPS : Z := 2 ^ 187.

Definition upto (v : Z) (f : spec_float) : Prop :=
  match f with
  | S754_zero _ => True
  | S754_finite false m e => -149 <= e <= -14 /\ Z.pos m * 2 ^ (e + 200) <= v
  | _ => False
  end.

Lemma upto_mono v w f : v <= w -> upto v f -> upto w f.
Proof. destruct f as [| | |[] m e]; cbn; try done. lia. Qed.

Lemma pow_split a b : 0 <= a -> 0 <= b -> 2 ^ (a + b) = 2 ^ a * 2 ^ b.
Proof. intros. by rewrite Z.pow_add_r. Qed.

Lemma at_exp_high m e : 0 <= m -> -200 <= e <= -14 -> m * 2 ^ (e + 200) < 2 ^ 210 -> at_exp m e <= -14.
Proof.
  intros Hm He Hv. unfold at_exp, fexp, SpecFloat.emin. apply Z.max_lub; [lia|]. apply Z.max_lub; [|lia].
  destruct (Z.eq_dec m 0) as [->|]; [cbn; lia|]. rewrite zdigits2_log2 by lia.
  assert (Z.log2 m < 10 - e); [|lia]. apply Z.log2_lt_pow2; [lia|].
  replace 210 with ((10 - e) + (e + 200)) in Hv by lia.
  rewrite (pow_split (10 - e) (e + 200)) in Hv by lia.
  apply Z.mul_lt_mono_pos_r with (2 ^ (e + 200)); [apply Z.pow_pos_nonneg; lia|done].
Qed.

Lemma dropped_bits m e k : 0 <= m -> -200 <= e -> 0 <= k -> m / 2 ^ k * 2 ^ (e + k + 200) <= m * 2 ^ (e + 200).
Proof.
  intros Hm He Hk. replace (e + k + 200) with (k + (e + 200)) by lia. rewrite (pow_split k) by lia.
  rewrite Z.mul_assoc. apply Z.mul_le_mono_nonneg_r; [apply Z.pow_nonneg; lia|].
  rewrite Z.mul_comm. apply Z.mul_div_le. apply Z.pow_pos_nonneg; lia.
Qed.

Lemma round_upto v m e l : 0 <= m -> -200 <= e <= -14 -> m * 2 ^ (e + 200) <= v -> v <= 2 ^ 209 ->
  upto (v + EPS) (binary_round_aux 24 128 false m e l).
Proof.
  intros Hm He Hv Hb. unfold binary_round_aux.
  assert (0 < EPS < 2 ^ 209 /\ 2 ^ 209 * 2 = 2 ^ 210) as [Heps Hd] by (split; [split|]; reflexivity).
  pose proof (shr_fexp_spec m e l Hm) as [E1 E2]. destruct (shr_fexp 24 128 m e l) as [r1 e1]. cbn [fst snd] in E1, E2. subst e1.
  pose proof (at_exp_low m e) as L1. pose proof (at_exp_high m e Hm He ltac:(lia)) as H1.
  pose proof (dropped_bits m e (at_exp m e - e) Hm ltac:(lia) (proj2 (Z.le_0_sub _ _) (at_exp_above m e))) as D1.
  rewrite <- E1 in D1. replace (e + (at_exp m e - e) + 200) with (at_exp m e + 200) in D1 by lia.
  pose proof (nearest_even_step (shr_m r1) (loc_of_shr_record r1)) as Hr.
  set (m2 := round_nearest_even _ _) in *. set (e1 := at_exp m e) in *.
  assert (0 <= shr_m r1) as H0 by (rewrite E1; apply Z.div_pos; [lia|apply Z.pow_pos_nonneg; [lia|apply Z.le_0_sub, at_exp_above]]).
  assert (0 < 2 ^ (e1 + 200) <= 2 ^ 186) as Hu by (split; [apply Z.pow_pos_nonneg; lia|apply Z.pow_le_mono_r; lia]).
  assert (m2 * 2 ^ (e1 + 200) <= v + EPS) as H2 by (unfold EPS; change (2 ^ 187) with (2 * 2 ^ 186); nia).
  pose proof (shr_fexp_spec m2 e1 loc_Exact ltac:(lia)) as [E3 E4].
  destruct (shr_fexp 24 128 m2 e1 loc_Exact) as [r2 e2]. cbn [fst snd] in E3, E4. subst e2.
  pose proof (at_exp_low m2 e1) as L2.
  pose proof (at_exp_high m2 e1 ltac:(lia) ltac:(lia) ltac:(lia)) as H3.
  pose proof (dropped_bits m2 e1 (at_exp m2 e1 - e1) ltac:(lia) ltac:(lia) (proj2 (Z.le_0_sub _ _) (at_exp_above m2 e1))) as D2.
  rewrite <- E3 in D2. replace (e1 + (at_exp m2 e1 - e1) + 200) with (at_exp m2 e1 + 200) in D2 by lia.
  assert (0 <= shr_m r2) by (rewrite E3; apply Z.div_pos; [lia|apply Z.pow_pos_nonneg; [lia|apply Z.le_0_sub, at_exp_above]]).
  destruct (shr_m r2) as [|p|p]; [done| |lia]. rewrite (proj2 (Z.leb_le _ _)) by lia. cbn [upto]. lia.
Qed.

(** *** The four operations *)

Lemma shl_align_spec mx ex ex' :
  (shl_align mx ex ex').2 = Z.min ex ex' /\ Z.pos (shl_align mx ex ex').1 = Z.pos mx * 2 ^ (ex - Z.min ex ex').
Proof.
  unfold shl_align. destruct (ex' - ex) as [|p|p] eqn:E; cbn [fst snd].
  - rewrite Z.min_l, Z.sub_diag by lia. split; [done|]. cbn. lia.
  - rewrite Z.min_l, Z.sub_diag by lia. split; [done|]. cbn. lia.
  - rewrite Z.min_r by lia. split; [done|]. replace (ex - ex') with (Z.pos p) by lia. clear E.
    induction p as [|p IH] using Pos.peano_ind; [cbn; lia|]. rewrite Pos.iter_succ, Pos2Z.inj_succ, Z.pow_succ_r, Pos2Z.inj_xO by lia. lia.
Qed.

Lemma rescale m e k : 0 <= k -> -200 <= e - k -> m * 2 ^ k * 2 ^ (e - k + 200) = m * 2 ^ (e + 200).
Proof. intros. rewrite <- Z.mul_assoc, <- pow_split by lia. f_equal. f_equal. lia. Qed.

Lemma normalize_upto v m e s : 0 <= m -> -200 <= e <= -14 -> m * 2 ^ (e + 200) <= v -> v <= 2 ^ 209 ->
  upto (v + EPS) (binary_normalize 24 128 m e s).
Proof.
  intros Hm He Hv Hb. destruct m as [|m|m]; [done| |lia]. cbn [binary_normalize]. unfold binary_round.
  set (e' := fexp _ _ _). assert (-149 <= e') by (unfold e', fexp, SpecFloat.emin; lia).
  destruct (shl_align_spec m e e') as [E1 E2]. destruct (shl_align m e e') as [mz ez]. cbn [fst snd] in *. subst ez.
  apply round_upto; [lia|lia| |done]. rewrite E2.
  pose proof (rescale (Z.pos m) e (e - Z.min e e') ltac:(lia) ltac:(lia)) as Hr.
  replace (e - (e - Z.min e e')) with (Z.min e e') in Hr by lia. lia.
Qed.

Lemma add_upto v w f g : 0 <= v -> 0 <= w -> v + w <= 2 ^ 209 -> upto v f -> upto w g ->
  upto (v + w + EPS) (SFadd 24 128 f g).
Proof.
  assert (0 < EPS) by done. intros Hv Hw Hb Hf Hg.
  destruct f as [sf|sf| |[] mx ex]; try done; destruct g as [sg|sg| |[] my ey]; try done; cbn [SFadd].
  - by destruct sf, sg.
  - by eapply upto_mono; [|exact Hg]; lia.
  - by eapply upto_mono; [|exact Hf]; lia.
  - destruct Hf as [Ex Hx], Hg as [Ey Hy]. cbn zeta. cbn [cond_Zopp].
    destruct (shl_align_spec mx ex (Z.min ex ey)) as [_ ->]. destruct (shl_align_spec my ey (Z.min ex ey)) as [_ ->].
    rewrite (Z.min_r ex), (Z.min_r ey) by lia.
    pose proof (rescale (Z.pos mx) ex (ex - Z.min ex ey) ltac:(lia) ltac:(lia)) as R1.
    pose proof (rescale (Z.pos my) ey (ey - Z.min ex ey) ltac:(lia) ltac:(lia)) as R2.
    replace (ex - (ex - Z.min ex ey)) with (Z.min ex ey) in R1 by lia.
    replace (ey - (ey - Z.min ex ey)) with (Z.min ex ey) in R2 by lia.
    apply normalize_upto; [|lia|lia|done].
    apply Z.add_nonneg_nonneg; apply Z.mul_nonneg_nonneg; try lia; apply Z.pow_nonneg; lia.
Qed.

(** The constant [c], [mc * 2 ^ ec]. *)
Definition is_const (c : Z) (f : spec_float) : Prop :=
  exists mc ec, f = S754_finite false mc ec /\ -51 <= ec <= 0 /\ Z.pos mc = c * 2 ^ (- ec).

Lemma mul_upto c v f g : is_const c g -> 0 <= v -> 0 <= c -> c * v <= 2 ^ 209 -> upto v f ->
  upto (c * v + EPS) (SFmul 24 128 f g).
Proof.
  intros (mc & ec & -> & He & Hc) Hv Hc0 Hb Hf. destruct f as [sf|sf| |[] mx ex]; try done. destruct Hf as [Ex Hx].
  cbn [SFmul xorb]. apply round_upto; [lia|lia| |done]. rewrite Pos2Z.inj_mul, Hc.
  pose proof (rescale (Z.pos mx * c) ex (- ec) ltac:(lia) ltac:(lia)) as R. replace (ex - - ec) with (ex + ec) in R by lia.
  nia.
Qed.

Lemma div_upto c v w f g : is_const c g -> 0 < c -> 0 <= v <= c * w -> v <= 2 ^ 209 -> w <= 2 ^ 209 ->
  upto v f -> upto (w + EPS) (SFdiv 24 128 f g).
Proof.
  intros (mc & ec & -> & He & Hc) Hc0 Hv Hb Hw Hf. destruct f as [sf|sf| |[] mx ex]; try done. destruct Hf as [Ex Hx].
  cbn [SFdiv xorb]. unfold SFdiv_core_binary.
  set (e' := Z.min (fexp 24 128 _) (ex - ec)). set (m' := match ex - ec - e' with Z0 => _ | Zpos _ => _ | Zneg _ => _ end).
  assert (-149 <= e' <= -14) as He'.
  { unfold e', fexp, SpecFloat.emin. rewrite !zdigits2_log2 by lia.
    assert (Z.log2 (Z.pos mx) < 10 - ex) as L1.
    { apply Z.log2_lt_pow2; [lia|]. apply Z.mul_lt_mono_pos_r with (2 ^ (ex + 200)); [apply Z.pow_pos_nonneg; lia|].
      rewrite <- pow_split by lia. replace (10 - ex + (ex + 200)) with 210 by lia.
      assert (2 ^ 209 * 2 = 2 ^ 210 /\ 0 < 2 ^ 209) by done. lia. }
    assert (- ec <= Z.log2 (Z.pos mc)) as L2.
    { apply Z.log2_le_pow2; [lia|]. rewrite Hc. assert (0 < 2 ^ (- ec)) by (apply Z.pow_pos_nonneg; lia). nia. }
    lia. }
  assert (m' = Z.pos mx * 2 ^ (ex - ec - e')) as Hm'.
  { unfold m'. assert (0 <= ex - ec - e') by (unfold e'; lia). destruct (ex - ec - e') as [|p|p]; [cbn; lia| |lia].
    apply Z.shiftl_mul_pow2. lia. }
  assert (0 <= m') by (rewrite Hm'; apply Z.mul_nonneg_nonneg; [lia|apply Z.pow_nonneg; lia]).
  pose proof (Z_div_mod m' (Z.pos mc) ltac:(lia)) as Hdm. destruct (Z.div_eucl m' (Z.pos mc)) as [q r]. destruct Hdm as [Hq Hr].
  assert (0 <= q) by nia. apply round_upto; [done|lia| |done].
  assert (0 < 2 ^ (- ec) /\ 0 < 2 ^ (e' + 200)) as [P1 P2] by (split; apply Z.pow_pos_nonneg; lia).
  apply (Z.mul_le_mono_pos_l _ _ (c * 2 ^ (- ec))); [nia|]. rewrite <- Hc.
  assert (m' * 2 ^ (e' + 200) = Z.pos mx * 2 ^ (ex + 200) * 2 ^ (- ec)) as Hs.
  { rewrite Hm', <- !Z.mul_assoc, <- !pow_split by (lia || (unfold e'; lia)). do 2 f_equal. lia. }
  nia.
Qed.

(** The conversion to an integer drops the fraction. *)
Lemma to_int_upto v n f : upto v f -> v < (n + 1) * ONE -> 0 <= n <= INT_MAX -> 0 <= to_int f <= n.
Proof.
  intros Hf Hv Hn. unfold to_int, INT_MIN, INT_MAX in *. destruct f as [s|s| |[] m e]; [lia|done..|].
  destruct Hf as [He Hm]. rewrite (proj2 (Z.leb_gt 0 e)) by lia.
  assert (0 <= Z.pos m / 2 ^ (- e) <= n); [|lia]. assert (0 < 2 ^ (- e)) by (apply Z.pow_pos_nonneg; lia).
  split; [apply Z.div_pos; lia|]. assert (Z.pos m / 2 ^ (- e) < n + 1); [|lia]. apply Z.div_lt_upper_bound; [done|].
  apply Z.mul_lt_mono_pos_r with (2 ^ (e + 200)); [apply Z.pow_pos_nonneg; lia|].
  rewrite (Z.mul_comm (2 ^ (- e))), <- Z.mul_assoc, <- pow_split by lia. replace (- e + (e + 200)) with 200 by lia.
  unfold ONE in Hv. lia.
Qed.
End Rounding.

(** ** The two conversions *)

Definition proper (f : spec_float) : Prop := valid_binary 24 128 f = true /\ f <> S754_nan.

Lemma valid_small m e : bounded 24 128 m e = true -> -149 <= e /\ Z.pos m < 2 ^ 24.
Proof.
  unfold bounded, canonical_mantissa. intros [Hc _]%andb_true_iff. apply Z.eqb_eq in Hc.
  change (Z.pos (digits2_pos m)) with (Zdigits2 (Z.pos m)) in Hc. rewrite zdigits2_log2 in Hc by lia.
  unfold fexp, SpecFloat.emin in Hc. split; [lia|]. apply Z.log2_lt_pow2; lia.
Qed.

Lemma flt_consts : flt 0 = S754_zero false /\ flt 1 = S754_finite false 8388608 (-23) /\
  is_const 256 (flt 256) /\ is_const 100 (flt 100) /\ is_const 30 (flt 30) /\ half = S754_finite false 8388608 (-24).
Proof.
  split; [by vm_compute|]. split; [by vm_compute|].
  split; [by exists 8388608%positive, (-15)|]. split; [by exists 13107200%positive, (-17)|].
  split; [by exists 15728640%positive, (-19)|]. done.
Qed.

Lemma cmp_mantissa a b : Pos.compare_cont Eq a b = (Z.pos a ?= Z.pos b).
Proof. done. Qed.

(** A proper number is kept between 0 and 1. *)
Lemma clamped_upto g : proper g ->
  let g := if SFltb g (flt 0) then flt 0 else g in upto ONE (if SFltb (flt 1) g then flt 1 else g).
Proof.
  intros [Hv Hn]. destruct flt_consts as (E0 & E1 & _). rewrite E0, E1.
  assert (upto ONE (S754_finite false 8388608 (-23))) as H1 by (cbn; split; [lia|done]).
  destruct g as [s|[]| |[] m e]; try done. cbn [SFltb SFcompare valid_binary] in *. apply valid_small in Hv as [He Hm].
  unfold SFltb, SFcompare. destruct (Z.compare_spec (-23) e) as [<-|Hlt|Hgt]; [|exact H1|].
  - rewrite cmp_mantissa. destruct (Z.compare_spec 8388608 (Z.pos m)) as [Hl|Hl|Hl]; [injection Hl as <-; exact H1|exact H1|]. cbn [upto]. split; [lia|].
    change (-23 + 200) with 177. change ONE with (8388608 * 2 ^ 177). apply Z.mul_le_mono_nonneg_r; [done|lia].
  - cbn [upto]. split; [lia|]. change ONE with (2 ^ (24 + 176)). rewrite (pow_split 24 176) by lia.
    apply Z.mul_le_mono_nonneg; [lia|lia|apply Z.pow_nonneg; lia|apply Z.pow_le_mono_r; lia].
Qed.

Lemma half_upto : upto (ONE / 2) half.
Proof. destruct flt_consts as (_ & _ & _ & _ & _ & ->). cbn. split; [lia|]. by vm_compute. Qed.

(** The percentage of any proper number of decibels. *)
Lemma percent_range db : proper db -> 0 <= raop_volume_db_to_pct db <= 100.
Proof.
  intros [Hv Hn]. unfold raop_volume_db_to_pct. destruct (SFleb db (flt (-30))) eqn:L1; [lia|].
  destruct (SFleb (flt 0) db) eqn:L2; [lia|]. cbv zeta. destruct flt_consts as (E0 & _ & _ & H100 & H30 & _).
  assert (flt (-30) = S754_finite true 15728640 (-19) /\ flt 30 = S754_finite false 15728640 (-19)) as [E1 E2] by by vm_compute.
  assert (0 < EPS /\ 100 * (ONE + EPS + EPS) + EPS + ONE / 2 + EPS < 101 * ONE) as [He Hs] by done.
  assert (0 < ONE /\ 0 < ONE / 2 /\ 101 * ONE <= 2 ^ 209) as (Ho & Hh & Hb) by done.
  assert (upto (30 * ONE + EPS) (SFadd 24 128 db (flt 30))) as Hsum.
  { rewrite E0, E1 in *. rewrite E2. destruct db as [[]|[]| |[] m e]; try done. cbn [valid_binary] in Hv.
    apply valid_small in Hv as [Hlo Hm]. unfold SFleb, SFcompare in L1.
    assert (e <= -19 /\ Z.pos m * 2 ^ (e + 200) <= 30 * ONE /\ Z.pos m <= 15728640 * 2 ^ (-19 - e)) as (Hhi & _ & Hle).
    { destruct (Z.compare_spec e (-19)) as [->|Hlt|Hgt]; [| |done].
      - rewrite cmp_mantissa in L1. assert (Z.pos m <= 15728640) as Hl.
        { destruct (Z.compare_spec (Z.pos m) 15728640); [lia|lia|done]. }
        clear L1. split; [lia|]. split; [|change (2 ^ (-19 - -19)) with 1; lia].
        change (-19 + 200) with 181. change (30 * ONE) with (15728640 * 2 ^ 181). apply Z.mul_le_mono_nonneg_r; [done|lia].
      - split; [lia|]. split.
        + change (30 * ONE) with (30 * 2 ^ (24 + 176)). rewrite (pow_split 24 176) by lia.
          assert (2 ^ (e + 200) <= 2 ^ 176 * 16) by (change (2 ^ 176 * 16) with (2 ^ 180); apply Z.pow_le_mono_r; lia).
          assert (0 < 2 ^ (e + 200)) by (apply Z.pow_pos_nonneg; lia). assert (0 < 2 ^ 176) by done. nia.
        + assert (2 ^ 1 <= 2 ^ (-19 - e)) by (apply Z.pow_le_mono_r; lia). lia. }
    cbn [SFadd cond_Zopp]. cbn zeta. replace (Z.min e (-19)) with e by lia.
    destruct (shl_align_spec m e e) as [_ ->]. destruct (shl_align_spec 15728640 (-19) e) as [_ ->].
    rewrite Z.min_id, Z.min_r, Z.sub_diag by lia.
    change (2 ^ 0) with 1. assert (30 * ONE <= 2 ^ 209) as Hb30 by done.
    assert (Z.pos m * 1 <= 15728640 * 2 ^ (-19 - e)) as Hle' by lia.
    apply normalize_upto; [cbn [cond_Zopp] in *; lia|lia| |exact Hb30].
    transitivity (15728640 * 2 ^ (-19 - e) * 2 ^ (e + 200)); [apply Z.mul_le_mono_nonneg_r; [apply Z.pow_nonneg|]; lia|].
    rewrite <- Z.mul_assoc, <- pow_split by lia. replace (-19 - e + (e + 200)) with 181 by lia. by vm_compute. }
  eapply to_int_upto; [eapply add_upto; [| | |apply (mul_upto 100 (ONE + EPS + EPS)); [exact H100|..|]|exact half_upto]| |];
    [..|apply (div_upto 30 (30 * ONE + EPS) (ONE + EPS)); [exact H30|..|exact Hsum]| |].
  all: unfold INT_MAX; lia.
Qed.

(** ** The conversion to single precision *)

Definition exp_of (m e : Z) : Z := fexp 24 128 (Zdigits2 m + e).

Lemma exp_of_low m e : -149 <= exp_of m e.
Proof. unfold exp_of, fexp, SpecFloat.emin. lia. Qed.

(** What is left of a number shifted to its own exponent has that exponent; if
    nothing is, it was the smallest. *)
Lemma shifted_exp m e : 0 < m -> e <= exp_of m e ->
  let q := m / 2 ^ (exp_of m e - e) in
  0 <= q /\ (0 < q -> exp_of q (exp_of m e) = exp_of m e) /\ (q = 0 -> exp_of m e = -149).
Proof.
  intros Hm He. cbn zeta. set (k := exp_of m e - e). assert (0 <= k) as Hk by lia.
  assert (0 < 2 ^ k) as Hp by (apply Z.pow_pos_nonneg; lia).
  split; [apply Z.div_pos; lia|]. split.
  - intros Hq. assert (Z.log2 (m / 2 ^ k) = Z.log2 m - k) as Hl.
    { rewrite <- Z.shiftr_div_pow2 by done. rewrite Z.log2_shiftr by done. apply Z.max_r.
      assert (k <= Z.log2 m); [|lia]. apply Z.log2_le_pow2; [done|].
      destruct (Z.le_gt_cases (2 ^ k) m); [done|]. rewrite Z.div_small in Hq by lia. lia. }
    unfold exp_of at 1. rewrite zdigits2_log2, Hl by done. unfold k, exp_of at 3. rewrite zdigits2_log2 by done. f_equal. lia.
  - intros Hq. assert (m < 2 ^ k) as Hs.
    { destruct (Z.lt_ge_cases m (2 ^ k)); [done|]. assert (1 <= m / 2 ^ k) by (apply Z.div_le_lower_bound; lia). lia. }
    apply Z.log2_lt_pow2 in Hs; [|done]. unfold k, exp_of, fexp, SpecFloat.emin in *. rewrite zdigits2_log2 in * by done. lia.
Qed.

Lemma round_proper sx m e : 0 < m -> e <= exp_of m e -> proper (binary_round_aux 24 128 sx m e loc_Exact).
Proof.
  intros Hm He. unfold binary_round_aux.
  pose proof (shr_fexp_spec m e loc_Exact ltac:(lia)) as [E1 E2]. unfold at_exp in E1, E2.
  change (fexp 24 128 (Zdigits2 m + e)) with (exp_of m e) in *. rewrite Z.max_r in * by done.
  destruct (shifted_exp m e Hm He) as (Q0 & Q1 & Q2). rewrite <- E1 in *.
  destruct (shr_fexp 24 128 m e loc_Exact) as [r1 e1]. cbn [fst snd] in *. rewrite <- E2 in *. clear E1 E2.
  pose proof (nearest_even_step (shr_m r1) (loc_of_shr_record r1)) as Hr. set (m2 := round_nearest_even _ _) in *.
  pose proof (shr_fexp_spec m2 e1 loc_Exact ltac:(lia)) as [E3 E4]. unfold at_exp in E3, E4.
  change (fexp 24 128 (Zdigits2 m2 + e1)) with (exp_of m2 e1) in *.
  destruct (Z.eq_dec m2 0) as [Z0|Z0].
  { destruct (shr_fexp 24 128 m2 e1 loc_Exact) as [r2 e2]. cbn [fst] in E3. rewrite E3, Z0, Z.div_0_l; [by split|].
    apply Z.pow_nonzero; [lia|]. apply Z.le_0_sub, Z.le_max_l. }
  assert (e1 <= exp_of m2 e1) as He1.
  { destruct (Z.eq_dec (shr_m r1) 0) as [Hz|Hz]; [rewrite (Q2 Hz) at 1; apply exp_of_low|].
    rewrite <- Q1 at 1 by lia. unfold exp_of. rewrite !zdigits2_log2 by lia.
    pose proof (Z.log2_le_mono (shr_m r1) m2 ltac:(lia)). unfold fexp. lia. }
  rewrite Z.max_r in * by done. destruct (shifted_exp m2 e1 ltac:(lia) He1) as (P0 & P1 & _). rewrite <- E3 in *.
  destruct (shr_fexp 24 128 m2 e1 loc_Exact) as [r2 e2]. cbn [fst snd] in *. rewrite <- E4 in *.
  destruct (shr_m r2) as [|p|p]; [by split| |lia]. change (128 - 24) with 104. destruct (Z.leb_spec e2 104) as [H2|H2]; [|by split].
  split; [|done]. cbn [valid_binary]. unfold bounded, canonical_mantissa. apply andb_true_iff. split; [|by apply Z.leb_le].
  apply Z.eqb_eq. by apply P1.
Qed.

Lemma to_float_proper d : is_nan (to_float d) = false -> proper (to_float d).
Proof.
  destruct d as [s|s| |s m e]; cbn [to_float]; intros Hn; try by split. clear Hn. unfold binary_round.
  change (fexp 24 128 (Z.pos (digits2_pos m) + e)) with (exp_of (Z.pos m) e).
  destruct (shl_align_spec m e (exp_of (Z.pos m) e)) as [E1 E2]. destruct (shl_align m e _) as [mz ez]. cbn [fst snd] in *. subst ez.
  apply round_proper; [done|]. set (ez := Z.min e _) in *. assert (0 <= e - ez) by lia.
  assert (exp_of (Z.pos mz) ez = exp_of (Z.pos m) e) as ->; [|lia].
  unfold exp_of. rewrite E2, !zdigits2_log2 by (try apply Z.mul_pos_pos; try apply Z.pow_pos_nonneg; lia).
  rewrite Z.log2_mul_pow2 by lia. f_equal. lia.
Qed.
