(* ===== verification/Rtsp.v ===== *)
(** * The RTSP session machine ([src/rtsp.c], [src/rtsp.h])

    Text buffers are filled with [snprintf] as the code fills them: what is stored
    is cut at the room left, while the length grows by the full length of the
    text; copying more than was stored is an access outside the buffer. *)
From Stdlib Require Import ZArith Lia String SpecFloat.
From stdpp Require Import base numbers list.
From S2P Require Import Prelude B64 Sdp RtspMsg RaopVolume.

Local Open Scope Z_scope.

(** ** [strtol], [strtoul] and [atof] *)

Section LongModel.
Context `{DM : DataModel}.

Definition strtol (s : bytes) : Z :=
  let '(neg, s) := sign_of (skip_space s) in
  let v := dec_val (digits s) in
  let v := if neg then - v else v in
  if LONG_MAX <? v then LONG_MAX else if v <? LONG_MIN then LONG_MIN else v.

Definition strtoul (s : bytes) : Z :=
  let '(neg, s) := sign_of (skip_space s) in
  let v := dec_val (digits s) in
  if ULONG_MAX <? v then ULONG_MAX
  else if neg then (- v) mod 2 ^ long_bits else v.

Definition kv_int (val key : bytes) (def : Z) : Z :=
  match strstr key val with
  | None => def
  | Some p =>
      let v := strtol (drop (length key) p) in
      if INT_MAX <? v then INT_MAX else if v <? INT_MIN then INT_MIN else v
  end.

Definition kv_u32 (val key : bytes) (def : Z) : Z :=
  match strstr key val with
  | None => def
  | Some p =>
      let v := strtoul (drop (length key) p) in
      if UINT32_MAX <? v then UINT32_MAX else v
  end.
End LongModel.

(** A decimal floating-point literal: the digits before and after the point, and
    the exponent. *)
Definition exponent_of (s : bytes) : Z :=
  match s with
  | c :: s' =>
      if (c =? 101) || (c =? 69) then
        let '(neg, t) := sign_of s' in
        let v := dec_val (digits t) in if neg then - v else v
      else 0
  | [] => 0
  end.

(** The double nearest to [m * 10^e]. *)
Definition decimal_double (neg : bool) (m e : Z) : spec_float :=
  match m with
  | Z.pos p =>
      if 0 <=? e
      then match m * 10 ^ e with Z.pos q => binary_round 53 1024 neg q 0 | _ => S754_zero neg end
      else match 10 ^ (- e) with
           | Z.pos q => SFdiv 53 1024 (S754_finite neg p 0) (S754_finite false q 0)
           | _ => S754_nan
           end
  | _ => S754_zero neg
  end.

Definition is_hex (c : Z) : bool :=
  is_digit c || ((97 <=? tolower c) && (tolower c <=? 102)).
Definition hex_digit (c : Z) : Z := if is_digit c then c - 48 else tolower c - 87.

Fixpoint hex_digits (p : bytes) : bytes :=
  match p with
  | c :: p' => if is_hex c then c :: hex_digits p' else []
  | [] => []
  end.

Definition hex_val (l : bytes) : Z := foldl (fun v c => v * 16 + hex_digit c) 0 l.

Definition point_part (digs : bytes -> bytes) (s : bytes) : bytes * bytes :=
  match s with
  | 46 :: s' => let f := digs s' in (f, drop (length f) s')
  | _ => ([], s)
  end.

(** A hexadecimal literal, after its "0x". *)
Definition hex_double (neg : bool) (s : bytes) : spec_float :=
  let i := hex_digits s in
  let '(f, s') := point_part hex_digits (drop (length i) s) in
  let e := match s' with
           | c :: t =>
               if (c =? 112) || (c =? 80) then
                 let '(n, u) := sign_of t in let v := dec_val (digits u) in if n then - v else v
               else 0
           | [] => 0
           end in
  match hex_val (i ++ f) with
  | Z.pos p => binary_round 53 1024 neg p (e - 4 * Z.of_nat (length f))
  | _ => S754_zero neg
  end.

Definition ci_prefix (p s : bytes) : bool := prefixb p (map tolower s).

Definition atof (s : bytes) : spec_float :=
  let '(neg, s) := sign_of (skip_space s) in
  if ci_prefix (str "inf") s then S754_infinity neg
  else if ci_prefix (str "nan") s then S754_nan
  else if ci_prefix (str "0x") s &&
          (match drop 2 s with
           | 46 :: c :: _ => is_hex c
           | c :: _ => is_hex c
           | [] => false
           end)
  then hex_double neg (drop 2 s)
  else
    let i := digits s in
    let '(f, s') := point_part digits (drop (length i) s) in
    if (length i + length f =? 0)%nat then S754_zero false
    else decimal_double neg (dec_val (i ++ f)) (exponent_of s' - Z.of_nat (length f)).

(** ** The session *)

Inductive rtsp_state_t := RTSP_IDLE | RTSP_ANNOUNCED | RTSP_SETUP | RTSP_PLAYING.
Inductive rtsp_action_t :=
  ACT_NONE | ACT_BIND_RTP | ACT_START_PLAY | ACT_FLUSH | ACT_TEARDOWN | ACT_SET_VOLUME.

(** [sdp] is [None] while its contents are indeterminate: before the first
    successful parse, and after a failed one. *)
Record rtsp_session_t := mk_session {
  state : rtsp_state_t;
  sdp : option raop_sdp_t;
  have_sdp : bool;
  local_ip4 : bytes;
  local_mac : bytes;
  sender_control_port : Z;
  sender_timing_port : Z;
  server_port : Z;
  control_port : Z;
  timing_port : Z;
  rtp_seq : Z;
  rtp_ts : Z;
  pending_volume_pct : Z;
  audio_latency : Z;
  action : rtsp_action_t;
}.

Definition rtsp_session_init (ip4 mac : bytes) (latency : Z) : rtsp_session_t :=
  mk_session RTSP_IDLE None false ip4 mac 0 0 0 0 0 0 0 (-1) latency ACT_NONE.

Definition rtsp_set_local_ports (s : rtsp_session_t) (sv ctl tim : Z) : rtsp_session_t :=
  mk_session (state s) (sdp s) (have_sdp s) (local_ip4 s) (local_mac s)
    (sender_control_port s) (sender_timing_port s) sv ctl tim (rtp_seq s) (rtp_ts s)
    (pending_volume_pct s) (audio_latency s) (action s).

Definition set_state (s : rtsp_session_t) (st : rtsp_state_t) (a : rtsp_action_t) : rtsp_session_t :=
  mk_session st (sdp s) (have_sdp s) (local_ip4 s) (local_mac s)
    (sender_control_port s) (sender_timing_port s) (server_port s) (control_port s)
    (timing_port s) (rtp_seq s) (rtp_ts s) (pending_volume_pct s) (audio_latency s) a.

Definition set_sdp (s : rtsp_session_t) (d : option raop_sdp_t) (h : bool) : rtsp_session_t :=
  mk_session (state s) d h (local_ip4 s) (local_mac s)
    (sender_control_port s) (sender_timing_port s) (server_port s) (control_port s)
    (timing_port s) (rtp_seq s) (rtp_ts s) (pending_volume_pct s) (audio_latency s) (action s).

Definition set_sender_ports (s : rtsp_session_t) (c t : Z) : rtsp_session_t :=
  mk_session (state s) (sdp s) (have_sdp s) (local_ip4 s) (local_mac s) c t
    (server_port s) (control_port s) (timing_port s) (rtp_seq s) (rtp_ts s)
    (pending_volume_pct s) (audio_latency s) (action s).

Definition set_rtp (s : rtsp_session_t) (q t : Z) : rtsp_session_t :=
  mk_session (state s) (sdp s) (have_sdp s) (local_ip4 s) (local_mac s)
    (sender_control_port s) (sender_timing_port s) (server_port s) (control_port s)
    (timing_port s) q t (pending_volume_pct s) (audio_latency s) (action s).

Definition set_volume (s : rtsp_session_t) (v : Z) : rtsp_session_t :=
  mk_session (state s) (sdp s) (have_sdp s) (local_ip4 s) (local_mac s)
    (sender_control_port s) (sender_timing_port s) (server_port s) (control_port s)
    (timing_port s) (rtp_seq s) (rtp_ts s) v (audio_latency s) (action s).

(** ** Text buffers *)

(** A local buffer filled by [snprintf(buf+o, sizeof buf-o, ...)]: the bytes stored
    and the length [o]. *)
Definition sn_append (cap : nat) (b : bytes * nat) (text : bytes) : run (bytes * nat) :=
  let '(buf, o) := b in
  if (cap <? o)%nat then Oob
  else Ret (buf ++ take (cap - o - 1) text, (o + length text)%nat).

(** [resp_vprintf]: [vsnprintf] keeps one byte for the terminator, which stays in
    the response when the text is cut. *)
Definition resp_vprintf (cap : nat) (resp text : bytes) : bytes :=
  let room := (cap - length resp)%nat in
  if (length text <? room)%nat then resp ++ text
  else resp ++ take (room - 1) text ++ (if (room =? 0)%nat then [] else [0]).

Definition resp_append (cap : nat) (resp : bytes) (src : bytes * nat) : run bytes :=
  let room := (cap - length resp)%nat in
  let tk := if (src.2 <? room)%nat then src.2 else room in
  if (tk =? 0)%nat then Ret resp
  else
    let! v := rd_sub src.1 0 tk in
    Ret (resp ++ v).

Definition crlf2 (l : bytes) : bytes := l ++ [13; 10].

(** ** Requests *)

Definition mth (m : rtsp_msg_t) (nm : bytes) : bool := bytes_eqb (method m) nm.

(** [rtsp_hdr_copy]: the value of the first header of that name, if it fits with
    its terminator. *)
Definition rtsp_hdr_copy (m : rtsp_msg_t) (nm : bytes) (cap : nat) : option bytes :=
  match List.find (fun h => ci_eq (name h) nm) (hdr m) with
  | None => None
  | Some h => if (cap <? length (hval h) + 1)%nat then None else Some (hval h)
  end.

(** The state of one call: the session, the [extra] headers, the body, the status
    text and the result. *)
Record call := mk_call {
  c_s : rtsp_session_t;
  c_extra : bytes * nat;
  c_body : bytes * nat;
  c_status : bytes;
  c_rc : Z;
}.

Definition st_ok : bytes := str "200 OK".
Definition st_455 : bytes := str "455 Method Not Valid In This State".

Definition with_s (c : call) (s : rtsp_session_t) : call :=
  mk_call s (c_extra c) (c_body c) (c_status c) (c_rc c).
Definition with_extra (c : call) (e : bytes * nat) : call :=
  mk_call (c_s c) e (c_body c) (c_status c) (c_rc c).
Definition with_body (c : call) (b : bytes * nat) : call :=
  mk_call (c_s c) (c_extra c) b (c_status c) (c_rc c).
Definition refuse (c : call) (status : bytes) : call :=
  mk_call (c_s c) (c_extra c) (c_body c) status (-1).

Section Handle.
Context `{DM : DataModel}.
Context (rsa_private : bytes -> option bytes).

Definition challenge (req : rtsp_msg_t) (c : call) : run call :=
  match rtsp_hdr_copy req (str "Apple-Challenge") 256 with
  | None => Ret c
  | Some chb64 =>
      if (length chb64 =? 0)%nat then Ret c
      else
        let! raw := b64_decode chb64 32 in
        match raw with
        | None | Some [] => Ret c
        | Some raw =>
            let! r := raop_apple_response rsa_private raw (local_ip4 (c_s c)) (local_mac (c_s c)) 512 in
            match r with
            | None | Some [] => Ret c
            | Some b64 =>
                let! e := sn_append 1024 (c_extra c) (crlf2 (str "Apple-Response: " ++ b64)) in
                Ret (with_extra c e)
            end
        end
  end.

Definition do_options (c : call) : run call :=
  let! e := sn_append 1024 (c_extra c)
    (crlf2 (str "Public: ANNOUNCE, SETUP, RECORD, PAUSE, FLUSH, TEARDOWN, OPTIONS, GET_PARAMETER, SET_PARAMETER")) in
  Ret (with_extra c e).

Definition do_announce (req : rtsp_msg_t) (c : call) : run call :=
  let s := c_s c in
  match state s with
  | RTSP_IDLE =>
      match body req with
      | None => Ret (refuse c (str "400 Bad Request"))
      | Some b =>
          let! r := sdp_parse b in
          match r with
          | inr _ => Ret (refuse (with_s c (set_sdp s None (have_sdp s))) (str "400 Bad Request"))
          | inl d => Ret (with_s c (set_state (set_sdp s (Some d) true) RTSP_ANNOUNCED (action s)))
          end
      end
  | _ => Ret (refuse c (str "453 Not Enough Bandwidth"))
  end.

Definition do_setup (req : rtsp_msg_t) (c : call) : run call :=
  let s := c_s c in
  match state s, rtsp_hdr_copy req (str "Transport") 256 with
  | RTSP_ANNOUNCED, Some tr =>
      let tr := cstr tr in
      let s := set_sender_ports s (kv_int tr (str "control_port=") 0) (kv_int tr (str "timing_port=") 0) in
      let s := set_state s RTSP_SETUP ACT_BIND_RTP in
      let! e := sn_append 1024 (c_extra c)
        (str "Transport: RTP/AVP/UDP;unicast;mode=record;server_port=" ++ print_d (server_port s)
         ++ str ";control_port=" ++ print_d (control_port s)
         ++ crlf2 (str ";timing_port=" ++ print_d (timing_port s))
         ++ crlf2 (str "Session: 1")) in
      Ret (with_extra (with_s c s) e)
  | _, _ => Ret (refuse c st_455)
  end.

(** The boundary of a RECORD or FLUSH. *)
Definition rtp_info (s : rtsp_session_t) (req : rtsp_msg_t) : rtsp_session_t :=
  match rtsp_hdr_copy req (str "RTP-Info") 128 with
  | None => s
  | Some ri =>
      let ri := cstr ri in
      set_rtp s (u16 (kv_int ri (str "seq=") 0)) (kv_u32 ri (str "rtptime=") 0)
  end.

Definition do_record (req : rtsp_msg_t) (c : call) : run call :=
  let s := c_s c in
  match state s with
  | RTSP_SETUP =>
      let s := set_state (rtp_info s req) RTSP_PLAYING ACT_START_PLAY in
      let! e := sn_append 1024 (c_extra c) (crlf2 (str "Audio-Latency: " ++ print_d (audio_latency s))) in
      Ret (with_extra (with_s c s) e)
  | _ => Ret (refuse c st_455)
  end.

Definition do_flush (req : rtsp_msg_t) (c : call) : run call :=
  let s := c_s c in
  match state s with
  | RTSP_PLAYING => Ret (with_s c (set_state (rtp_info s req) RTSP_PLAYING ACT_FLUSH))
  | _ => Ret (refuse c st_455)
  end.

Definition do_set_parameter (req : rtsp_msg_t) (c : call) : run call :=
  let s := c_s c in
  match body req with
  | Some b =>
      if 0 <? body_len req then
        match strstr (str "volume:") (cstr (take 255 b)) with
        | None => Ret c
        | Some v =>
            let db := to_float (atof (drop 7 v)) in
            if is_nan db then Ret c
            else Ret (with_s c (set_state (set_volume s (raop_volume_db_to_pct db)) (state s) ACT_SET_VOLUME))
        end
      else Ret c
  | None => Ret c
  end.

Definition do_get_parameter (c : call) : run call :=
  let s := c_s c in
  match state s with
  | RTSP_SETUP | RTSP_PLAYING =>
      if 0 <=? pending_volume_pct s then
        let! b := sn_append 512 (c_body c) (crlf2 (str "volume: " ++ print_d (pending_volume_pct s))) in
        Ret (with_body c b)
      else Ret c
  | _ => Ret (refuse c st_455)
  end.

Definition do_teardown (c : call) : call :=
  let s := c_s c in
  let a := match state s with RTSP_IDLE => action s | _ => ACT_TEARDOWN end in
  let s := set_sdp (set_state s RTSP_IDLE a) (sdp s) false in
  with_s c (set_rtp (set_sender_ports (set_volume s (-1)) 0 0) 0 0).

Definition dispatch (req : rtsp_msg_t) (c : call) : run call :=
  if mth req (str "OPTIONS") then do_options c
  else if mth req (str "ANNOUNCE") then do_announce req c
  else if mth req (str "SETUP") then do_setup req c
  else if mth req (str "RECORD") then do_record req c
  else if mth req (str "FLUSH") then do_flush req c
  else if mth req (str "SET_PARAMETER") then do_set_parameter req c
  else if mth req (str "GET_PARAMETER") then do_get_parameter c
  else if mth req (str "TEARDOWN") then Ret (do_teardown c)
  else Ret (refuse c (str "501 Not Implemented")).

Definition assemble (cap : nat) (req : rtsp_msg_t) (c : call) : run bytes :=
  let o := resp_vprintf cap [] (crlf2 (str "RTSP/1.0 " ++ c_status c)) in
  let o := resp_vprintf cap o (crlf2 (str "CSeq: " ++ print_d (cseq req)) ++ crlf2 (str "Server: raopd/1.0")) in
  let! o := (if (0 <? (c_extra c).2)%nat then resp_append cap o (c_extra c) else Ret o) in
  let o := resp_vprintf cap o (crlf2 (crlf2 (str "Content-Length: " ++ print_u (Z.of_nat (c_body c).2)))) in
  if (0 <? (c_body c).2)%nat then resp_append cap o (c_body c) else Ret o.

(** The session after the call, the response and the result. *)
Definition rtsp_handle (s : rtsp_session_t) (req : rtsp_msg_t) (cap : nat) :
    run (rtsp_session_t * bytes * Z) :=
  let c := mk_call (set_state s (state s) ACT_NONE) ([], 0%nat) ([], 0%nat) st_ok 0 in
  let! c := challenge req c in
  let! c := dispatch req c in
  let! resp := assemble cap req c in
  Ret (c_s c, resp, c_rc c).
End Handle.

Example volume_mute : raop_volume_db_to_pct (to_float (atof (str " -144.000000"))) = 0.
Proof. vm_compute. reflexivity. Qed.

Example volume_mid : raop_volume_db_to_pct (to_float (atof (str " -14.5"))) = 52.
Proof. vm_compute. reflexivity. Qed.

Example volume_edges :
  raop_volume_db_to_pct (to_float (atof (str "-30"))) = 0 /\
  raop_volume_db_to_pct (to_float (atof (str "-0.0001"))) = 100 /\
  raop_volume_db_to_pct (to_float (atof (str "+1e0"))) = 100.
Proof. vm_compute. split_and!; reflexivity. Qed.

(** ** The invariant *)

Definition int_ok (z : Z) : Prop := INT_MIN <= z <= INT_MAX.

(** A session that is past IDLE has a valid description. *)
Definition described (s : rtsp_session_t) : Prop :=
  state s <> RTSP_IDLE -> have_sdp s = true /\ exists d, sdp s = Some d /\ sdp_valid d.

Definition sess_ok (s : rtsp_session_t) : Prop :=
  described s /\ length (local_ip4 s) = 4%nat /\ length (local_mac s) = 6%nat /\
  int_ok (server_port s) /\ int_ok (control_port s) /\ int_ok (timing_port s) /\
  int_ok (sender_control_port s) /\ int_ok (sender_timing_port s) /\
  0 <= rtp_seq s < 65536 /\ 0 <= rtp_ts s <= UINT32_MAX /\
  int_ok (pending_volume_pct s) /\ int_ok (audio_latency s).

(** What the response builder needs of the buffers: the text stored is the text
    claimed. *)
Definition buf_ok (b : bytes * nat) (cap : nat) : Prop :=
  length b.1 = b.2 /\ (b.2 <= cap)%nat.

Lemma int_digits z : int_ok z -> (length (print_d z) <= 11)%nat.
Proof.
  unfold int_ok, INT_MIN, INT_MAX. intros H. apply (print_d_length 10); [|lia].
  change (10 ^ Z.of_nat 10) with 10000000000. lia.
Qed.

Lemma sn_append_ok cap buf o text :
  length buf = o -> (o + length text < cap)%nat ->
  sn_append cap (buf, o) text = Ret (buf ++ text, (o + length text)%nat).
Proof.
  intros Hb Hc. unfold sn_append. rewrite (proj2 (Nat.ltb_ge _ _)) by lia.
  by rewrite take_ge by lia.
Qed.

Lemma resp_vprintf_fits cap resp text :
  (length resp + length text < cap)%nat -> resp_vprintf cap resp text = resp ++ text.
Proof. intros H. unfold resp_vprintf. by rewrite (proj2 (Nat.ltb_lt _ _)) by lia. Qed.

Lemma resp_vprintf_bound cap resp text :
  (length resp <= cap)%nat -> (length (resp_vprintf cap resp text) <= cap)%nat.
Proof.
  intros H. unfold resp_vprintf. destruct (Nat.ltb_spec (length text) (cap - length resp)).
  - rewrite length_app. lia.
  - rewrite !length_app, length_take. destruct (Nat.eqb_spec (cap - length resp) 0); cbn; lia.
Qed.

Lemma resp_append_spec cap resp src :
  length src.1 = src.2 -> (length resp <= cap)%nat ->
  exists r, resp_append cap resp src = Ret r /\ (length r <= cap)%nat /\
    ((length resp + src.2 <= cap)%nat -> r = resp ++ src.1).
Proof.
  intros Hs Hr. unfold resp_append. destruct src as [b n]. cbn [fst snd] in *. subst n.
  set (room := (cap - length resp)%nat).
  set (tk := if (length b <? room)%nat then length b else room).
  assert (tk = Nat.min (length b) room) as Ht
    by (unfold tk; destruct (Nat.ltb_spec (length b) room); lia).
  destruct (Nat.eqb_spec tk 0) as [E|E].
  - exists resp. split; [done|]. split; [done|]. intros Hfit.
    destruct b as [|x b]; [by rewrite app_nil_r|]. cbn [length] in *. lia.
  - unfold rd_sub. rewrite (proj2 (Nat.leb_le _ _)) by lia. cbn [rbind].
    eexists. split; [done|]. rewrite length_app, sub_length by lia.
    split; [lia|]. intros Hfit. f_equal. unfold sub. rewrite drop_0. apply take_ge. lia.
Qed.

Section Proofs.
Context `{DM : DataModel} (rsa_private : bytes -> option bytes).

(** The private operation works in place, on bytes. *)
Hypothesis rsa_in_place :
  forall blk s, rsa_private blk = Some s -> length s = length blk /\ bytes_ok s.

Lemma kv_int_ok val key : int_ok (kv_int val key 0).
Proof.
  unfold kv_int, int_ok, INT_MIN, INT_MAX. destruct (strstr key val); [|lia].
  set (v := strtol _). destruct (Z.ltb_spec 2147483647 v); [lia|].
  destruct (Z.ltb_spec v (-2147483648)); lia.
Qed.

Lemma kv_u32_ok val key : 0 <= kv_u32 val key 0 <= UINT32_MAX.
Proof.
  unfold kv_u32, UINT32_MAX. destruct (strstr key val) as [p|]; [|lia].
  assert (forall t, 0 <= strtoul t) as Hs.
  { intros t. unfold strtoul. destruct (sign_of (skip_space t)) as [neg u].
    pose proof (dec_val_nonneg (digits u) (digits_all u)).
    assert (0 <= ULONG_MAX) by (unfold ULONG_MAX; destruct long_bits_ok as [-> | ->]; done).
    case_match; [done|]. destruct neg; [|done]. apply Z.mod_pos_bound.
    destruct long_bits_ok as [-> | ->]; done. }
  specialize (Hs (drop (length key) p)).
  destruct (Z.ltb_spec 4294967295 (strtoul (drop (length key) p))); lia.
Qed.

Lemma volume_int_ok db : int_ok (raop_volume_db_to_pct db).
Proof.
  unfold raop_volume_db_to_pct, int_ok, to_int, INT_MIN, INT_MAX.
  repeat case_match; try lia.
Qed.

Lemma apple_response_total ch ip4 mac :
  length ip4 = 4%nat -> length mac = 6%nat ->
  exists r, raop_apple_response rsa_private ch ip4 mac 512 = Ret r /\
    match r with Some t => (length t = 342)%nat | None => True end.
Proof.
  intros Hi Hm. unfold raop_apple_response.
  destruct (Nat.eqb_spec (length ch) 0); [by eexists|].
  change (512 <? klen)%nat with false. cbn [orb].
  destruct (Nat.ltb_spec 16 (length ch)); [by eexists|].
  rewrite response_payload_eq by lia. cbn [rbind]. change (klen <? 32 + 11)%nat with false.
  set (pl := ch ++ ip4 ++ mac ++ _).
  destruct (rsa_private (type1_block pl)) as [s|] eqn:E; [|by eexists].
  apply rsa_in_place in E as [El Eb]. change ((klen / 3 * 4 + _)%nat) with (enc_len klen).
  change (512 <? enc_len klen + 1)%nat with false. cbv iota.
  assert (length s = klen) as Hk.
  { rewrite El. apply type1_block_length. unfold pl. rewrite !length_app, length_replicate. lia. }
  destruct (b64_nopad_spec 512 s [] Eb) as (xs & -> & _ & Hl).
  { rewrite Hk. change (enc_len klen) with 342%nat. cbn [length]. lia. }
  cbn [rbind app]. eexists. split; [done|]. cbn. rewrite length_map, Hl, Hk. done.
Qed.

(** The answer to a challenge is one header line of at most 360 bytes. *)
Lemma challenge_ok req s st rc :
  sess_ok s ->
  exists e, challenge rsa_private req (mk_call s ([], 0%nat) ([], 0%nat) st rc) =
      Ret (mk_call s e ([], 0%nat) st rc) /\ buf_ok e 360.
Proof.
  intros Hs. unfold challenge. assert (buf_ok ([], 0%nat) 360) as H0 by (split; cbn; lia).
  destruct (rtsp_hdr_copy _ _ _) as [chb|]; [|by eexists].
  destruct (length chb =? 0)%nat; [by eexists|].
  destruct (b64_decode_total chb 32) as (raw & Hr). rewrite Hr. cbn [rbind].
  destruct raw as [[|x raw]|]; [by eexists| |by eexists].
  cbn [c_s]. destruct Hs as (_ & Hi & Hm & _).
  destruct (apple_response_total (x :: raw) (local_ip4 s) (local_mac s) Hi Hm) as (r & -> & Hlen).
  cbn [rbind]. destruct r as [[|y t]|]; [done| |by eexists].
  cbn [c_extra]. set (text := crlf2 _).
  assert (length text <= 360)%nat as Ht.
  { unfold text, crlf2. rewrite !length_app. cbn [length] in *. cbn. lia. }
  rewrite sn_append_ok by (cbn [length]; lia). cbn [rbind].
  exists (text, length text). split; [done|]. split; cbn [fst snd]; lia.
Qed.
(** ** The protocol *)

Inductive rtsp_method :=
  M_OPTIONS | M_ANNOUNCE | M_SETUP | M_RECORD | M_FLUSH | M_SET_PARAMETER | M_GET_PARAMETER
  | M_TEARDOWN | M_OTHER.

Definition method_of (req : rtsp_msg_t) : rtsp_method :=
  if mth req (str "OPTIONS") then M_OPTIONS
  else if mth req (str "ANNOUNCE") then M_ANNOUNCE
  else if mth req (str "SETUP") then M_SETUP
  else if mth req (str "RECORD") then M_RECORD
  else if mth req (str "FLUSH") then M_FLUSH
  else if mth req (str "SET_PARAMETER") then M_SET_PARAMETER
  else if mth req (str "GET_PARAMETER") then M_GET_PARAMETER
  else if mth req (str "TEARDOWN") then M_TEARDOWN
  else M_OTHER.

(** The transitions of the session, with the side effect each asks for; a request
  with no transition is refused. *)
Inductive transition : rtsp_state_t -> rtsp_method -> rtsp_state_t -> rtsp_action_t -> Prop :=
  | T_options st : transition st M_OPTIONS st ACT_NONE
  | T_announce : transition RTSP_IDLE M_ANNOUNCE RTSP_ANNOUNCED ACT_NONE
  | T_setup : transition RTSP_ANNOUNCED M_SETUP RTSP_SETUP ACT_BIND_RTP
  | T_record : transition RTSP_SETUP M_RECORD RTSP_PLAYING ACT_START_PLAY
  | T_flush : transition RTSP_PLAYING M_FLUSH RTSP_PLAYING ACT_FLUSH
  | T_volume st : transition st M_SET_PARAMETER st ACT_SET_VOLUME
  | T_parameter st : transition st M_SET_PARAMETER st ACT_NONE
  | T_get st : st = RTSP_SETUP \/ st = RTSP_PLAYING -> transition st M_GET_PARAMETER st ACT_NONE
  | T_teardown st : st <> RTSP_IDLE -> transition st M_TEARDOWN RTSP_IDLE ACT_TEARDOWN
  | T_idle : transition RTSP_IDLE M_TEARDOWN RTSP_IDLE ACT_NONE.

(** The requests whose content the protocol state alone does not decide. *)
Definition well_formed (req : rtsp_msg_t) : Prop :=
  match method_of req with
  | M_ANNOUNCE => exists b d, body req = Some b /\ sdp_parse b = Ret (inl d)
  | M_SETUP => rtsp_hdr_copy req (str "Transport") 256 <> None
  | _ => True
  end.

(** What a call does to the session: a transition when it succeeds, nothing but a
  discarded description when it is refused. *)
Definition stepped (s s' : rtsp_session_t) (req : rtsp_msg_t) (rc : Z) : Prop :=
  (rc = 0 /\ transition (state s) (method_of req) (state s') (action s') /\ well_formed req) \/
  (rc = -1 /\ state s' = state s /\ action s' = ACT_NONE /\
    (s' = s \/ (state s = RTSP_IDLE /\ s' = set_sdp s None (have_sdp s))) /\
    forall st' a, well_formed req -> transition (state s) (method_of req) st' a -> False).

(** The text of a response with nothing cut. *)
Definition response_text (status : bytes) (n : Z) (extra bd : bytes) : bytes :=
  crlf2 (str "RTSP/1.0 " ++ status) ++ crlf2 (str "CSeq: " ++ print_d n) ++
  crlf2 (str "Server: raopd/1.0") ++ extra ++
  crlf2 (crlf2 (str "Content-Length: " ++ print_u (Z.of_nat (length bd)))) ++ bd.

(** A call whose buffers are as claimed. *)
Definition call_ok (c : call) : Prop :=
  buf_ok (c_extra c) 900 /\ buf_ok (c_body c) 100 /\ (length (c_status c) <= 40)%nat /\
  (c_rc c = 0 \/ c_rc c = -1).

Definition cseq_ok (req : rtsp_msg_t) : Prop := -1 <= cseq req <= LONG_MAX.

Lemma cseq_digits req : cseq_ok req -> (length (print_d (cseq req)) <= 20)%nat.
Proof.
  intros H. apply (print_d_length 19); [|lia]. unfold cseq_ok in H.
  change (10 ^ Z.of_nat 19) with 10000000000000000000.
  destruct long_max_cases as [E | E]; rewrite E in H; lia.
Qed.

(** The response is assembled within the caller's buffer, and whole when that
  holds 1200 bytes. *)
Lemma assemble_ok cap req c :
  call_ok c -> cseq_ok req ->
  exists resp, assemble cap req c = Ret resp /\ (length resp <= cap)%nat /\
    ((1200 <= cap)%nat ->
       resp = response_text (c_status c) (cseq req) (c_extra c).1 (c_body c).1).
Proof.
  intros ([Hx1 Hx2] & [Hb1 Hb2] & Hs & _) Hq. apply cseq_digits in Hq.
  assert (length (print_u (Z.of_nat (c_body c).2)) <= 3)%nat as Hd.
  { apply print_u_length; [|lia]. change (10 ^ Z.of_nat 3) with 1000. lia. }
  unfold assemble.
  set (t1 := crlf2 (str "RTSP/1.0 " ++ c_status c)).
  set (t2 := crlf2 (str "CSeq: " ++ _) ++ _).
  set (t3 := crlf2 (crlf2 _)).
  assert (length t1 <= 51)%nat by (unfold t1, crlf2; rewrite !length_app; cbn; lia).
  assert (length t2 <= 50)%nat by (unfold t2, crlf2; rewrite !length_app; cbn; lia).
  assert (length t3 <= 23)%nat by (unfold t3, crlf2; rewrite !length_app; cbn; lia).
  set (o1 := resp_vprintf cap [] t1). set (o2 := resp_vprintf cap o1 t2).
  assert (length o1 <= cap)%nat as B1 by (apply resp_vprintf_bound; cbn; lia).
  assert (length o2 <= cap)%nat as B2 by (by apply resp_vprintf_bound).
  assert (exists o3, (if (0 <? (c_extra c).2)%nat then resp_append cap o2 (c_extra c) else Ret o2) = Ret o3
    /\ (length o3 <= cap)%nat /\ ((length o2 + (c_extra c).2 <= cap)%nat -> o3 = o2 ++ (c_extra c).1))
    as (o3 & E3 & B3 & F3).
  { destruct (Nat.ltb_spec 0 (c_extra c).2); [by apply resp_append_spec|].
    exists o2. split_and!; [done|done|]. intros _. destruct (c_extra c).1; [by rewrite app_nil_r|].
    cbn in Hx1. lia. }
  rewrite E3. cbn [rbind]. set (o4 := resp_vprintf cap o3 t3).
  assert (length o4 <= cap)%nat as B4 by (by apply resp_vprintf_bound).
  assert (exists o5, (if (0 <? (c_body c).2)%nat then resp_append cap o4 (c_body c) else Ret o4) = Ret o5
    /\ (length o5 <= cap)%nat /\ ((length o4 + (c_body c).2 <= cap)%nat -> o5 = o4 ++ (c_body c).1))
    as (o5 & E5 & B5 & F5).
  { destruct (Nat.ltb_spec 0 (c_body c).2); [by apply resp_append_spec|].
    exists o4. split_and!; [done|done|]. intros _. destruct (c_body c).1; [by rewrite app_nil_r|].
    cbn in Hb1. lia. }
  exists o5. split; [done|]. split; [done|]. intros Hcap.
  assert (o1 = t1) as -> by (unfold o1; rewrite resp_vprintf_fits; [done|cbn [length]; lia]).
  assert (o2 = t1 ++ t2) as -> by (unfold o2; apply resp_vprintf_fits; lia).
  rewrite F3 in * by (rewrite length_app; lia).
  assert (o4 = ((t1 ++ t2) ++ (c_extra c).1) ++ t3) as ->.
  { unfold o4. rewrite F3 by (rewrite length_app; lia). apply resp_vprintf_fits. rewrite !length_app. lia. }
  rewrite F5 by (rewrite !length_app; lia).
  unfold response_text. unfold t1, t2, t3. rewrite Hb1. by rewrite <- !app_assoc.
Qed.

Definition start_ok (c : call) : Prop :=
  buf_ok (c_extra c) 360 /\ c_body c = ([], 0%nat) /\ c_status c = st_ok /\ c_rc c = 0 /\
  action (c_s c) = ACT_NONE.

(** The result of a method: buffers as claimed, the invariant, and its step. *)
Definition done_ok (req : rtsp_msg_t) (c c' : call) : Prop :=
  call_ok c' /\ sess_ok (c_s c') /\ stepped (c_s c) (c_s c') req (c_rc c').

Lemma buf_ok_app e text cap cap' :
  buf_ok e cap -> (cap + length text <= cap')%nat -> (cap' < 1024)%nat ->
  exists e', sn_append 1024 e text = Ret e' /\ buf_ok e' cap'.
Proof.
  intros [H1 H2] Hc Hm. destruct e as [b o]. cbn [fst snd] in *. exists (b ++ text, (o + length text)%nat).
  split; [apply sn_append_ok; lia|]. split; cbn [fst snd]; [rewrite length_app|]; lia.
Qed.

Lemma buf_ok_mono e cap cap' : buf_ok e cap -> (cap <= cap')%nat -> buf_ok e cap'.
Proof. intros [H1 H2] H. split; [done|lia]. Qed.

(** A refused call. *)
Lemma refuse_done req c status :
  start_ok c -> sess_ok (c_s c) -> (length status <= 40)%nat ->
  (forall st' a, well_formed req -> transition (state (c_s c)) (method_of req) st' a -> False) ->
  done_ok req c (refuse c status).
Proof.
  intros (He & Hb & _ & _ & Ha) Hs Hl Hno. split_and!.
  - unfold call_ok, refuse. cbn. rewrite Hb. split_and!; [eapply buf_ok_mono; [eassumption|lia]|split; cbn; lia|done|by right].
  - done.
  - right. cbn. split_and!; auto.
Qed.

(** A call that only adds header text or changes the session. *)
Lemma accept_done req c s e :
  start_ok c -> sess_ok s -> buf_ok e 900 ->
  transition (state (c_s c)) (method_of req) (state s) (action s) -> well_formed req ->
  done_ok req c (with_extra (with_s c s) e).
Proof.
  intros (_ & Hb & Hst & Hrc & Ha) Hs He Ht Hw. split_and!.
  - unfold call_ok. cbn. rewrite Hb, Hst. split_and!; [done|split; cbn; lia|cbn; lia|by left].
  - done.
  - left. cbn. by rewrite Hrc.
Qed.

Lemma accept_done' req c s :
  start_ok c -> sess_ok s ->
  transition (state (c_s c)) (method_of req) (state s) (action s) -> well_formed req ->
  done_ok req c (with_s c s).
Proof.
  intros Hc. pose proof (accept_done req c s (c_extra c) Hc) as H. intros. destruct Hc as (He & _).
  apply H; try done. eapply buf_ok_mono; [eassumption|lia].
Qed.

Lemma do_options_ok req c :
  method_of req = M_OPTIONS -> start_ok c -> sess_ok (c_s c) ->
  exists c', do_options c = Ret c' /\ done_ok req c c'.
Proof.
  intros Hm Hc Hs. unfold do_options. set (text := crlf2 _).
  destruct (buf_ok_app (c_extra c) text 360 600) as (e & -> & He);
    [apply Hc|unfold text, crlf2; rewrite length_app; cbn; lia|lia|]. cbn [rbind].
  eexists. split; [done|]. destruct Hc as (H1 & H2 & H3 & H4 & H5).
  apply (accept_done req c (c_s c) e); [done|done|eapply buf_ok_mono; [eassumption|lia]| |].
  - rewrite Hm, H5. constructor.
  - unfold well_formed. by rewrite Hm.
Qed.

Lemma do_announce_ok req c :
  method_of req = M_ANNOUNCE -> start_ok c -> sess_ok (c_s c) ->
  exists c', do_announce req c = Ret c' /\ done_ok req c c'.
Proof.
  intros Hm Hc Hs. pose proof Hs as (Hd & Hrest). unfold do_announce.
  assert (forall status, (length status <= 40)%nat -> state (c_s c) <> RTSP_IDLE ->
    done_ok req c (refuse c status)) as Href.
  { intros status Hl Hne. apply refuse_done; [done..|]. intros st' a _ Ht. rewrite Hm in Ht.
    inversion Ht. congruence. }
  destruct (state (c_s c)) eqn:Est;
    try (eexists; split; [reflexivity|]; apply Href; [cbn; lia|done]).
  destruct (body req) as [b|] eqn:Eb.
  2: { eexists. split; [done|]. apply refuse_done; [done|done|cbn; lia|].
       intros st' a Hw _. unfold well_formed in Hw. rewrite Hm in Hw.
       destruct Hw as (b & d & Hb & _). congruence. }
  destruct (sdp_parse_total b) as (r & Hr & Hv). rewrite Hr. cbn [rbind].
  destruct r as [d|err].
  - eexists. split; [done|]. apply accept_done'; [done| | |].
    + split; [|done]. intros _. cbn. eauto.
    + cbn. rewrite Hm, Est. destruct Hc as (_ & _ & _ & _ & ->). constructor.
    + unfold well_formed. rewrite Hm. by exists b, d.
  - eexists. split; [done|]. destruct Hc as (H1 & H2 & H3 & H4 & H5). split_and!.
    + unfold call_ok. cbn. rewrite H2.
      split_and!; [eapply buf_ok_mono; [eassumption|lia]|split; cbn; lia|cbn; lia|by right].
    + split; [|done]. intros Hne. by destruct Hne.
    + right. cbn. split_and!; [done|done|done|by right|].
      intros st' a Hw _. unfold well_formed in Hw. rewrite Hm in Hw.
      destruct Hw as (b' & d & Hb & Hp). assert (b' = b) as -> by congruence. congruence.
Qed.

Lemma rtp_info_ok s req :
  sess_ok s -> sess_ok (rtp_info s req) /\ state (rtp_info s req) = state s.
Proof.
  intros Hs. unfold rtp_info. destruct (rtsp_hdr_copy _ _ _) as [ri|]; [|done].
  split; [|done]. destruct Hs as (Hd & H1 & H2 & H3 & H4 & H5 & H6 & H7 & H8 & H9 & H10 & H11).
  pose proof (u16_range (kv_int (cstr ri) (str "seq=") 0)).
  pose proof (kv_u32_ok (cstr ri) (str "rtptime=")). split; [exact Hd|]. cbn. tauto.
Qed.

(** The invariant only depends on the description when the state is entered. *)
Lemma sess_ok_state s st a :
  sess_ok s -> (st <> RTSP_IDLE -> state s <> RTSP_IDLE) -> sess_ok (set_state s st a).
Proof. intros (Hd & Hrest) Hst. split; [|done]. intros Hne. by apply Hd, Hst. Qed.

Lemma do_setup_ok req c :
  method_of req = M_SETUP -> start_ok c -> sess_ok (c_s c) ->
  exists c', do_setup req c = Ret c' /\ done_ok req c c'.
Proof.
  intros Hm Hc Hs. unfold do_setup.
  assert ((forall st' a, well_formed req -> transition (state (c_s c)) (method_of req) st' a -> False) ->
    exists c', Ret (refuse c st_455) = Ret c' /\ done_ok req c c') as Href.
  { intros Hno. eexists. split; [done|]. apply refuse_done; [done|done|cbn; lia|done]. }
  destruct (state (c_s c)) eqn:Est;
    try (apply Href; intros st' a _ Ht; rewrite Hm in Ht; inversion Ht; fail).
  destruct (rtsp_hdr_copy req (str "Transport") 256) as [tr|] eqn:Etr.
  2: { apply Href. intros st' a Hw _. unfold well_formed in Hw. by rewrite Hm in Hw. }
  set (s' := set_state _ RTSP_SETUP ACT_BIND_RTP). cbn [server_port control_port timing_port].
  assert (sess_ok s') as Hs'.
  { apply sess_ok_state.
    - destruct Hs as (Hd & H1 & H2 & H3 & H4 & H5 & H6 & H7 & H8 & H9 & H10 & H11).
      split; [exact Hd|]. cbn. repeat match goal with |- _ /\ _ => split end; try (apply kv_int_ok); tauto.
    - intros _. cbn. by rewrite Est. }
  pose proof Hs' as (_ & _ & _ & P1 & P2 & P3 & _).
  apply int_digits in P1, P2, P3.
  match goal with |- exists c', rbind (sn_append _ _ ?t) _ = _ /\ _ => set (text := t) end.
  destruct (buf_ok_app (c_extra c) text 360 600) as (e & -> & He);
    [apply Hc|unfold text, crlf2; rewrite !length_app; cbn in *; lia|lia|]. cbn [rbind].
  eexists. split; [done|]. apply accept_done; [done|done|eapply buf_ok_mono; [eassumption|lia]| |].
  - rewrite Hm, Est. constructor.
  - unfold well_formed. by rewrite Hm, Etr.
Qed.

Lemma do_record_ok req c :
  method_of req = M_RECORD -> start_ok c -> sess_ok (c_s c) ->
  exists c', do_record req c = Ret c' /\ done_ok req c c'.
Proof.
  intros Hm Hc Hs. unfold do_record. destruct (rtp_info_ok (c_s c) req Hs) as [Hi Hst].
  destruct (state (c_s c)) eqn:Est;
    try (eexists; split; [reflexivity|]; apply refuse_done; [done|done|cbn; lia|];
         intros st' a _ Ht; rewrite Hm, Est in Ht; inversion Ht; fail).
  set (s' := set_state _ RTSP_PLAYING _).
  assert (sess_ok s') as Hs' by (apply sess_ok_state; [done|by rewrite Hst]).
  pose proof Hs' as (_ & _ & _ & _ & _ & _ & _ & _ & _ & _ & _ & P). apply int_digits in P.
  set (text := crlf2 _).
  destruct (buf_ok_app (c_extra c) text 360 600) as (e & -> & He);
    [apply Hc|unfold text, crlf2; rewrite !length_app; cbn in *; lia|lia|]. cbn [rbind].
  eexists. split; [done|]. apply accept_done; [done|done|eapply buf_ok_mono; [eassumption|lia]| |].
  - rewrite Hm, Est. constructor.
  - unfold well_formed. by rewrite Hm.
Qed.

Lemma do_flush_ok req c :
  method_of req = M_FLUSH -> start_ok c -> sess_ok (c_s c) ->
  exists c', do_flush req c = Ret c' /\ done_ok req c c'.
Proof.
  intros Hm Hc Hs. unfold do_flush. destruct (rtp_info_ok (c_s c) req Hs) as [Hi Hst].
  destruct (state (c_s c)) eqn:Est;
    try (eexists; split; [reflexivity|]; apply refuse_done; [done|done|cbn; lia|];
         intros st' a _ Ht; rewrite Hm, Est in Ht; inversion Ht; fail).
  eexists. split; [done|]. apply accept_done'; [done| | |].
  - apply sess_ok_state; [done|by rewrite Hst].
  - rewrite Hm, Est. constructor.
  - unfold well_formed. by rewrite Hm.
Qed.

Lemma do_set_parameter_ok req c :
  method_of req = M_SET_PARAMETER -> start_ok c -> sess_ok (c_s c) ->
  exists c', do_set_parameter req c = Ret c' /\ done_ok req c c'.
Proof.
  intros Hm Hc Hs. unfold do_set_parameter.
  assert (exists c', Ret c = Ret c' /\ done_ok req c c') as Hsame.
  { eexists. split; [done|]. destruct c as [s e b st rc]. cbn in *.
    apply (accept_done' req (mk_call s e b st rc) s); [done|done| |].
    - rewrite Hm. destruct Hc as (_ & _ & _ & _ & Ha). cbn in *. rewrite Ha. constructor.
    - unfold well_formed. by rewrite Hm. }
  destruct (body req) as [b|]; [|done]. destruct (0 <? body_len req); [|done].
  destruct (strstr _ _) as [v|]; [|done]. destruct (is_nan _); [done|].
  eexists. split; [done|]. apply accept_done'; [done| | |].
  - apply sess_ok_state; [|done].
    destruct Hs as (Hd & H1 & H2 & H3 & H4 & H5 & H6 & H7 & H8 & H9 & H10 & H11).
    split; [exact Hd|]. cbn. repeat match goal with |- _ /\ _ => split end; try (apply volume_int_ok); tauto.
  - rewrite Hm. constructor.
  - unfold well_formed. by rewrite Hm.
Qed.

Lemma do_get_parameter_ok req c :
  method_of req = M_GET_PARAMETER -> start_ok c -> sess_ok (c_s c) ->
  exists c', do_get_parameter c = Ret c' /\ done_ok req c c'.
Proof.
  intros Hm Hc Hs. unfold do_get_parameter. pose proof Hc as (He & Hb & Hst & Hrc & Ha).
  assert (well_formed req) as Hw by (unfold well_formed; by rewrite Hm).
  assert (state (c_s c) = RTSP_SETUP \/ state (c_s c) = RTSP_PLAYING -> forall b, buf_ok b 100 ->
    done_ok req c (with_body c b)) as Hok.
  { intros Hin b Hbb. split_and!; [|done|].
    - unfold call_ok. cbn. rewrite Hst. split_and!; [eapply buf_ok_mono; [eassumption|lia]|done|cbn; lia|by left].
    - left. cbn. rewrite Hm, Ha. split_and!; [done| |done]. by constructor. }
  assert (state (c_s c) = RTSP_SETUP \/ state (c_s c) = RTSP_PLAYING ->
    exists c', (if 0 <=? pending_volume_pct (c_s c) then
        let! b := sn_append 512 (c_body c) (crlf2 (str "volume: " ++ print_d (pending_volume_pct (c_s c)))) in
        Ret (with_body c b)
      else Ret c) = Ret c' /\ done_ok req c c') as Hget.
  { intros Hin. destruct (0 <=? pending_volume_pct (c_s c)).
    - pose proof Hs as (_ & _ & _ & _ & _ & _ & _ & _ & _ & _ & P & _). apply int_digits in P.
      set (text := crlf2 _). assert (length text <= 30)%nat as Ht
        by (unfold text, crlf2; rewrite !length_app; cbn; lia).
      rewrite Hb, sn_append_ok by (cbn [length]; lia). cbn [rbind]. eexists. split; [done|].
      apply Hok; [done|]. split; cbn [fst snd app Nat.add]; lia.
    - eexists. split; [done|]. destruct c as [s e b st rc]. cbn in *.
      apply (Hok Hin b). rewrite Hb. split; cbn; lia. }
  destruct (state (c_s c)) eqn:Est; try (apply Hget; auto; fail);
    (eexists; split; [reflexivity|]; apply refuse_done; [done|done|cbn; lia|];
     intros st' a _ Ht; rewrite Hm, Est in Ht; inversion Ht as [| | | | | | |? Hx| |];
     subst; destruct Hx; discriminate).
Qed.

Lemma do_teardown_ok req c :
  method_of req = M_TEARDOWN -> start_ok c -> sess_ok (c_s c) -> done_ok req c (do_teardown c).
Proof.
  intros Hm Hc Hs. unfold do_teardown.
  apply accept_done'; [done| | |].
  - destruct Hs as (Hd & H1 & H2 & H3 & H4 & H5 & H6 & H7 & H8 & H9 & H10 & H11).
    split; [by intros Hne; destruct Hne|]. cbn. unfold int_ok, INT_MIN, INT_MAX, UINT32_MAX in *.
    split_and!; done || lia.
  - rewrite Hm. destruct Hc as (_ & _ & _ & _ & Ha). cbn. rewrite ?Ha.
    destruct (state (c_s c)); constructor; done.
  - unfold well_formed. by rewrite Hm.
Qed.

Lemma dispatch_ok req c :
  start_ok c -> sess_ok (c_s c) -> exists c', dispatch req c = Ret c' /\ done_ok req c c'.
Proof.
  intros Hc Hs. unfold dispatch.
  destruct (method_of req) eqn:Hm; pose proof Hm as Hm'; unfold method_of in Hm';
    repeat (match type of Hm' with (if ?b then _ else _) = _ => destruct b eqn:?; try discriminate Hm' end).
  - by apply do_options_ok.
  - by apply do_announce_ok.
  - by apply do_setup_ok.
  - by apply do_record_ok.
  - by apply do_flush_ok.
  - by apply do_set_parameter_ok.
  - by apply do_get_parameter_ok.
  - eexists. split; [done|]. by apply do_teardown_ok.
  - eexists. split; [done|]. apply refuse_done; [done|done|cbn; lia|].
    intros st' a _ Ht. rewrite Hm in Ht. inversion Ht.
Qed.
End Proofs.

(** ** Properties *)

Lemma handle_ok `{DataModel} rsa_private
    (rsa_in_place : forall blk s, rsa_private blk = Some s -> length s = length blk /\ bytes_ok s)
    s req cap :
  sess_ok s -> cseq_ok req ->
  exists s' resp rc status extra bd,
    rtsp_handle rsa_private s req cap = Ret (s', resp, rc) /\
    sess_ok s' /\ stepped (set_state s (state s) ACT_NONE) s' req rc /\ (length resp <= cap)%nat /\
    ((1200 <= cap)%nat -> resp = response_text status (cseq req) extra bd).
Proof.
  intros Hs Hq. unfold rtsp_handle. set (s0 := set_state s (state s) ACT_NONE).
  assert (sess_ok s0) as Hs0 by (by apply sess_ok_state).
  destruct (challenge_ok rsa_private rsa_in_place req s0 st_ok 0 Hs0) as (e & -> & He). cbn [rbind].
  set (c := mk_call s0 e ([], 0%nat) st_ok 0).
  destruct (dispatch_ok req c) as (c' & -> & Hc & Hs' & Hst); [by split_and!|done|].
  cbn [rbind]. destruct (assemble_ok cap req c' Hc Hq) as (resp & -> & Hl & Ht). cbn [rbind].
  exists (c_s c'), resp, (c_rc c'), (c_status c'), (c_extra c').1, (c_body c').1. split_and!; done.
Qed.

(** The answer to a challenge leaves the session alone. *)
Lemma challenge_keeps `{DataModel} rsa_private req c :
  rl (challenge rsa_private req c) (fun c' => c_s c' = c_s c).
Proof.
  unfold challenge. destruct (rtsp_hdr_copy _ _ _) as [h|]; [|done]. destruct (length h =? 0)%nat; [done|].
  apply rl_any. intros [[|x raw]|]; [done| |done]. apply rl_any. intros [[|y r]|]; [done| |done].
  apply rl_any. by intros e.
Qed.

(** While it plays, the description of a session stays, and the only way out is the
    end of the session. *)
Lemma dispatch_playing `{DataModel} req c :
  state (c_s c) = RTSP_PLAYING ->
  rl (dispatch req c) (fun c' => sdp (c_s c') = sdp (c_s c) /\
    (state (c_s c') = RTSP_PLAYING \/ action (c_s c') = ACT_TEARDOWN)).
Proof.
  intros Hs. assert (forall ri, sdp (rtp_info (c_s c) ri) = sdp (c_s c)) as Hri
    by (intros ri; unfold rtp_info; by destruct (rtsp_hdr_copy _ _ _)).
  unfold dispatch. repeat (destruct (mth req _)).
  - apply rl_any. intros e. split; [done|by left].
  - unfold do_announce. rewrite Hs. split; [done|by left].
  - unfold do_setup. rewrite Hs. split; [done|by left].
  - unfold do_record. rewrite Hs. split; [done|by left].
  - unfold do_flush. rewrite Hs. split; [apply Hri|by left].
  - unfold do_set_parameter. repeat case_match; (split; [done|by left]).
  - unfold do_get_parameter. rewrite Hs. destruct (0 <=? _); [apply rl_any; intros b|]; (split; [done|by left]).
  - unfold do_teardown. rewrite Hs. split; [done|by right].
  - split; [done|by left].
Qed.

Lemma handle_playing `{DataModel} rsa_private s req cap :
  state s = RTSP_PLAYING ->
  rl (rtsp_handle rsa_private s req cap) (fun r => sdp r.1.1 = sdp s /\
    (state r.1.1 = RTSP_PLAYING \/ action r.1.1 = ACT_TEARDOWN)).
Proof.
  intros Hs. unfold rtsp_handle. eapply rl_bind; [apply challenge_keeps|]. cbn [c_s]. intros c Ec.
  eapply rl_bind; [apply dispatch_playing; by rewrite Ec|]. rewrite Ec. intros c' Hc'.
  apply rl_any. by intros resp.
Qed.

(** The volume a session keeps is a percentage, or the mark that there is none. *)
Definition volume_ok (s : rtsp_session_t) : Prop :=
  -1 <= pending_volume_pct s <= 100 /\ (action s = ACT_SET_VOLUME -> 0 <= pending_volume_pct s).

(** Only SET_PARAMETER sets a volume, and TEARDOWN forgets it. *)
Lemma dispatch_volume `{DataModel} req c : action (c_s c) = ACT_NONE -> volume_ok (c_s c) -> rl (dispatch req c) (fun c' => volume_ok (c_s c')).
Proof.
  intros Ha [Hv _]. assert (volume_ok (c_s c)) as Hc by (split; [done|by rewrite Ha]).
  assert (forall c' a, a <> ACT_SET_VOLUME -> pending_volume_pct (c_s c') = pending_volume_pct (c_s c) -> action (c_s c') = a ->
    volume_ok (c_s c')) as Hsame by (intros c' a Hne E1 E2; split; [by rewrite E1|by rewrite E2]).
  assert (forall ri, pending_volume_pct (rtp_info (c_s c) ri) = pending_volume_pct (c_s c)) as Hri
    by (intros ri; unfold rtp_info; by destruct (rtsp_hdr_copy _ _ _)).
  unfold dispatch. repeat (destruct (mth req _)).
  - apply rl_any. by intros e.
  - unfold do_announce. destruct (state (c_s c)); try done. destruct (body req); [|done]. apply rl_any.
    intros [d|x]; (eapply Hsame; [|done|exact Ha]; done).
  - unfold do_setup. destruct (state (c_s c)); try done. destruct (rtsp_hdr_copy _ _ _); [|done]. apply rl_any.
    intros e. by eapply Hsame; [|done|done].
  - unfold do_record. destruct (state (c_s c)); try done. apply rl_any. intros e.
    eapply Hsame; [|apply Hri|done]; done.
  - unfold do_flush. destruct (state (c_s c)); try done. eapply Hsame; [|apply Hri|done]; done.
  - unfold do_set_parameter. destruct (body req) as [b|]; [|done]. destruct (0 <? body_len req); [|done].
    destruct (strstr _ _) as [v|]; [|done]. destruct (is_nan _) eqn:En; [done|].
    pose proof (percent_range _ (to_float_proper _ En)). split; cbn; lia.
  - unfold do_get_parameter. destruct (state (c_s c)); try done; (destruct (0 <=? _); [|done]; apply rl_any; by intros b).
  - cbn. split; cbn; [lia|]. destruct (state (c_s c)); try done. by rewrite Ha.
  - done.
Qed.

Lemma handle_volume `{DataModel} rsa_private s req cap :
  volume_ok s -> rl (rtsp_handle rsa_private s req cap) (fun r => volume_ok r.1.1).
Proof.
  intros [Hv _]. unfold rtsp_handle. eapply rl_bind; [apply challenge_keeps|]. cbn [c_s]. intros c Ec.
  eapply rl_bind; [apply dispatch_volume; rewrite Ec; [done|by split]|]. intros c' Hc'.
  apply rl_any. by intros resp.
Qed.

(** A session reached by requests from a fresh one. *)
Inductive reachable `{DataModel} (rsa_private : bytes -> option bytes) : rtsp_session_t -> Prop :=
  | R_init ip4 mac latency :
      length ip4 = 4%nat -> length mac = 6%nat -> int_ok latency ->
      reachable rsa_private (rtsp_session_init ip4 mac latency)
  | R_ports s a b c :
      reachable rsa_private s -> int_ok a -> int_ok b -> int_ok c ->
      reachable rsa_private (rtsp_set_local_ports s a b c)
  | R_handle s req cap s' resp rc :
      reachable rsa_private s -> cseq_ok req ->
      rtsp_handle rsa_private s req cap = Ret (s', resp, rc) -> reachable rsa_private s'.

Lemma reachable_ok `{DataModel} rsa_private
    (rsa_in_place : forall blk s, rsa_private blk = Some s -> length s = length blk /\ bytes_ok s) s :
  reachable rsa_private s -> sess_ok s.
Proof.
  induction 1 as [ip4 mac latency Hi Hm Hl|s a b c Hr IH Ha Hb Hc|s req cap s' resp rc Hr IH Hq Hh].
  - split; [by intros Hne; destruct Hne|]. cbn. unfold int_ok, INT_MIN, INT_MAX, UINT32_MAX in *.
    split_and!; done || lia.
  - destruct IH as (Hd & H1 & H2 & H3 & H4 & H5 & Hrest). split; [exact Hd|]. cbn. tauto.
  - destruct (handle_ok rsa_private rsa_in_place s req cap IH Hq) as (s1 & r1 & rc1 & ? & ? & ? & E & Hs & _).
    rewrite E in Hh. by injection Hh as <- <- <-.
Qed.

(** Whatever requests arrive, in whatever order, every session that has left
    IDLE holds a valid session description: no SETUP, RECORD or FLUSH is ever
    accepted, and no playback started, without one. *)
Theorem rtsp_described `{DataModel} rsa_private s :
  (forall blk s, rsa_private blk = Some s -> length s = length blk /\ bytes_ok s) ->
  reachable rsa_private s -> state s <> RTSP_IDLE ->
  have_sdp s = true /\ exists d, sdp s = Some d /\ sdp_valid d.
Proof. intros Hr Hs. by apply (reachable_ok rsa_private Hr s Hs). Qed.

(** C7: the handler is total and implements the protocol.  On every reachable
    session and every request it returns without leaving its buffers; it either
    succeeds with exactly one transition of the protocol and the side effect that
    transition asks for, or refuses, changing nothing but a discarded
    description; and it refuses only what the protocol does not allow or a
    request whose own content is unusable. *)
Theorem rtsp_handle_refines_protocol `{DataModel} rsa_private s req cap :
  (forall blk s, rsa_private blk = Some s -> length s = length blk /\ bytes_ok s) ->
  reachable rsa_private s -> cseq_ok req ->
  exists s' resp rc, rtsp_handle rsa_private s req cap = Ret (s', resp, rc) /\
    stepped (set_state s (state s) ACT_NONE) s' req rc.
Proof.
  intros Hr Hs Hq.
  destruct (handle_ok rsa_private Hr s req cap (reachable_ok _ Hr _ Hs) Hq)
    as (s' & resp & rc & ? & ? & ? & E & _ & Hst & _). by exists s', resp, rc.
Qed.

(** A response is never cut or malformed.  It always fits the caller's
    buffer, and in a buffer of 1200 bytes (the daemon's has 4096) it is a complete
    response: a status line, the CSeq of the request, the server line, the
    method's headers, and a Content-Length that is the length of the body that
    follows. *)
Theorem rtsp_response_complete `{DataModel} rsa_private s req cap s' resp rc :
  (forall blk s, rsa_private blk = Some s -> length s = length blk /\ bytes_ok s) ->
  reachable rsa_private s -> cseq_ok req ->
  rtsp_handle rsa_private s req cap = Ret (s', resp, rc) ->
  (length resp <= cap)%nat /\
  ((1200 <= cap)%nat -> exists status extra bd, resp = response_text status (cseq req) extra bd).
Proof.
  intros Hr Hs Hq E.
  destruct (handle_ok rsa_private Hr s req cap (reachable_ok _ Hr _ Hs) Hq)
    as (s1 & r1 & rc1 & st & ex & bd & E1 & _ & _ & Hl & Ht).
  rewrite E1 in E. injection E as <- <- <-. split; [done|]. intros Hc. exists st, ex, bd. auto.
Qed.

(** *** Witnesses: a session announced and set up *)

Definition sample_body : bytes :=
  sdp_text 96 [352; 0; 16; 40; 10; 14; 2; 255; 0; 0; 44100]
    (map ch (replicate 171 0) ++ replicate 1 61) (map ch (replicate 22 0) ++ replicate 2 61).

Definition sample_announce : rtsp_msg_t :=
  mk_msg (str "ANNOUNCE") (str "rtsp://x/1") [mk_hdr (str "CSeq") (str "1")] (Some sample_body)
    (Z.of_nat (length sample_body)) 1.

Definition sample_setup : rtsp_msg_t :=
  mk_msg (str "SETUP") (str "rtsp://x/1")
    [mk_hdr (str "CSeq") (str "2");
     mk_hdr (str "Transport") (str "RTP/AVP/UDP;unicast;control_port=6001;timing_port=6002")] None 0 2.

Definition no_rsa (blk : bytes) : option bytes := None.

Lemma no_rsa_in_place blk s : no_rsa blk = Some s -> length s = length blk /\ bytes_ok s.
Proof. done. Qed.

Definition sample_init : rtsp_session_t :=
  rtsp_session_init [192; 168; 0; 9] [1; 2; 3; 4; 5; 6] 88200.

Lemma sample_init_reachable : @reachable ilp32 no_rsa sample_init.
Proof. apply R_init; [done|done|]. unfold int_ok, INT_MIN, INT_MAX. lia. Qed.

(** The session and response after a request. *)
Definition after (s : rtsp_session_t) (req : rtsp_msg_t) : rtsp_session_t * bytes * Z :=
  match @rtsp_handle ilp32 no_rsa s req 4096 with Ret r => r | _ => (s, [], 0) end.

Definition sample_announced : rtsp_session_t := (after sample_init sample_announce).1.1.
Definition sample_ready : rtsp_session_t := (after sample_announced sample_setup).1.1.

Lemma small_cseq n m u h b l : -1 <= n <= 1000 -> @cseq_ok ilp32 (mk_msg m u h b l n).
Proof. intros Hn. unfold cseq_ok, LONG_MAX. cbn [cseq]. cbn [long_bits ilp32]. lia. Qed.

Lemma sample_announced_reachable : @reachable ilp32 no_rsa sample_announced.
Proof.
  eapply (@R_handle ilp32 no_rsa sample_init sample_announce 4096);
    [apply sample_init_reachable|apply small_cseq; lia|].
  unfold sample_announced, after. vm_compute. reflexivity.
Qed.

Lemma sample_ready_reachable : @reachable ilp32 no_rsa sample_ready.
Proof.
  eapply (@R_handle ilp32 no_rsa sample_announced sample_setup 4096);
    [apply sample_announced_reachable|apply small_cseq; lia|].
  unfold sample_ready, after. vm_compute. reflexivity.
Qed.

Lemma rtsp_described_witness :
  state sample_ready = RTSP_SETUP /\
  have_sdp sample_ready = true /\ exists d, sdp sample_ready = Some d /\ sdp_valid d.
Proof.
  split; [by vm_compute|].
  apply (@rtsp_described ilp32 no_rsa sample_ready no_rsa_in_place sample_ready_reachable).
  vm_compute. discriminate.
Defined.

Lemma rtsp_handle_refines_protocol_witness :
  exists s' resp rc, @rtsp_handle ilp32 no_rsa sample_announced sample_setup 4096 = Ret (s', resp, rc) /\
    @stepped ilp32 (set_state sample_announced (state sample_announced) ACT_NONE) s' sample_setup rc.
Proof.
  apply (@rtsp_handle_refines_protocol ilp32 no_rsa sample_announced sample_setup 4096
    no_rsa_in_place sample_announced_reachable).
  apply small_cseq. lia.
Defined.

Lemma rtsp_response_complete_witness :
  let '(s', resp, rc) := after sample_announced sample_setup in
  (length resp <= 4096)%nat /\
  ((1200 <= 4096)%nat -> exists status extra bd, resp = response_text status 2 extra bd).
Proof.
  destruct (after sample_announced sample_setup) as [[s' resp] rc] eqn:E.
  apply (@rtsp_response_complete ilp32 no_rsa sample_announced sample_setup 4096 s' resp rc
    no_rsa_in_place sample_announced_reachable ltac:(apply small_cseq; lia)).
  rewrite <- E. vm_compute. reflexivity.
Defined.
