(* ===== verification/Bodycap.v ===== *)
(** * Streaming capture of a request body ([src/bodycap.c], [src/bodycap.h])

    The file system is a map from paths to contents; [open], [write] and [rename]
    may fail, and [write] may be short, as the [disk] decides. *)
From Stdlib Require Import ZArith Lia String.
From stdpp Require Import base numbers list gmap.
From S2P Require Import Prelude.

Local Open Scope Z_scope.

Inductive bodycap_mode_t := BODYCAP_DISCARD | BODYCAP_FILE | BODYCAP_MEM.

#[export] Instance bodycap_mode_eq_dec : EqDecision bodycap_mode_t.
Proof. solve_decision. Defined.

(** [mem] holds the [mem_len] bytes stored so far of a buffer of [mem_cap]. *)
Record bodycap_t := mk_cap {
  mode : bodycap_mode_t;
  remaining : Z;
  failed : bool;
  fd_open : bool;
  tmp : bytes;
  final : bytes;
  mem : bytes;
  mem_cap : nat;
}.

Record fs := mk_fs { files : gmap bytes bytes; calls : nat }.

(** The answers of the system: whether [open] and [rename] succeed, and how many
    of the requested bytes a [write] takes (0 stands for any result that is not
    positive). *)
Record disk := mk_disk {
  d_open : fs -> bytes -> bool;
  d_write : fs -> nat -> nat;
  d_rename : fs -> bool;
}.

Class DiskOk (d : disk) := write_le : forall f n, (d_write d f n <= n)%nat.

Section Capture.
Context (d : disk).

Definition sys_open (path : bytes) (f : fs) : bool * fs :=
  if d_open d f path then (true, mk_fs (<[path := []]> (files f)) (S (calls f)))
  else (false, mk_fs (files f) (S (calls f))).

(** A write appends to the open file. *)
Definition sys_write (path data : bytes) (f : fs) : nat * fs :=
  let n := d_write d f (length data) in
  (n, mk_fs (<[path := (default [] (files f !! path)) ++ take n data]> (files f)) (S (calls f))).

Definition sys_rename (a b : bytes) (f : fs) : bool * fs :=
  if d_rename d f then
    match files f !! a with
    | Some c => (true, mk_fs (<[b := c]> (delete a (files f))) (S (calls f)))
    | None => (false, mk_fs (files f) (S (calls f)))
    end
  else (false, mk_fs (files f) (S (calls f))).

Definition sys_unlink (a : bytes) (f : fs) : fs := mk_fs (delete a (files f)) (S (calls f)).

(** [snprintf] into a 256-byte path. *)
Definition path256 (p : bytes) : bytes := take 255 p.

Definition bodycap_begin (m : bodycap_mode_t) (declared_len : Z) (final_path : option bytes)
    (cap : nat) (f : fs) : bodycap_t * fs :=
  let rem := if declared_len <? 0 then 0 else declared_len in
  match m, final_path with
  | BODYCAP_FILE, Some p =>
      let t := path256 (p ++ str ".tmp") in
      let '(ok, f) := sys_open t f in
      (mk_cap m rem (negb ok) ok t (path256 p) [] cap, f)
  | _, _ => (mk_cap m rem false false [] [] [] cap, f)
  end.

(** The write loop: the remaining data, and whether it failed. *)
Fixpoint write_loop (fuel : nat) (path data : bytes) (f : fs) : run (bool * fs) :=
  match data with
  | [] => Ret (false, f)
  | _ =>
      match fuel with
      | O => NoFuel
      | S fuel' =>
          let '(w, f) := sys_write path data f in
          if (w =? 0)%nat then Ret (true, f)
          else write_loop fuel' path (drop w data) f
      end
  end.

(** The bytes consumed, the capture and the file system. *)
Definition bodycap_feed (b : bodycap_t) (data : bytes) (f : fs) : run (nat * bodycap_t * fs) :=
  let tk := (if Z.to_nat (remaining b) <? length data then Z.to_nat (remaining b) else length data)%nat in
  let chunk := take tk data in
  let rem := remaining b - Z.of_nat tk in
  if negb (tk =? 0)%nat && negb (failed b) then
    match mode b with
    | BODYCAP_FILE =>
        let! r := (if fd_open b then write_loop (S (length chunk)) (tmp b) chunk f else Ret (true, f)) in
        Ret (tk, mk_cap (mode b) rem r.1 (fd_open b) (tmp b) (final b) (mem b) (mem_cap b), r.2)
    | BODYCAP_MEM =>
        if (mem_cap b <? length (mem b) + tk)%nat then
          let fit := (mem_cap b - length (mem b))%nat in
          let! m := wr (mem_cap b) (mem b) (take fit data) in
          Ret (tk, mk_cap (mode b) rem true (fd_open b) (tmp b) (final b) m (mem_cap b), f)
        else
          let! m := wr (mem_cap b) (mem b) chunk in
          Ret (tk, mk_cap (mode b) rem (failed b) (fd_open b) (tmp b) (final b) m (mem_cap b), f)
    | BODYCAP_DISCARD =>
        Ret (tk, mk_cap (mode b) rem (failed b) (fd_open b) (tmp b) (final b) (mem b) (mem_cap b), f)
    end
  else
    Ret (tk, mk_cap (mode b) rem (failed b) (fd_open b) (tmp b) (final b) (mem b) (mem_cap b), f).

Definition bodycap_done (b : bodycap_t) : bool := remaining b =? 0.

Definition bodycap_finish (b : bodycap_t) (f : fs) : Z * bodycap_t * fs :=
  let ok := bodycap_done b && negb (failed b) in
  match mode b with
  | BODYCAP_FILE =>
      let b := mk_cap (mode b) (remaining b) (failed b) false (tmp b) (final b) (mem b) (mem_cap b) in
      if ok then
        let '(r, f) := sys_rename (tmp b) (final b) f in
        if r then (0, b, f) else (-1, b, sys_unlink (tmp b) f)
      else (-1, b, sys_unlink (tmp b) f)
  | _ => (if ok then 0 else -1, b, f)
  end.

(** The body as it arrives, chunk by chunk. *)
Fixpoint feed_all (b : bodycap_t) (chunks : list bytes) (f : fs) : run (bodycap_t * fs) :=
  match chunks with
  | [] => Ret (b, f)
  | c :: cs =>
      let! r := bodycap_feed b c f in
      feed_all r.1.2 cs r.2
  end.
End Capture.

(** ** Lemmas *)

Section Spec.
Context (d : disk) `{!DiskOk d}.

(** The write loop ends; it only appends to its file, and without a failure it
  appends all of the data. *)
Lemma write_loop_spec fuel path data f c :
  (length data < fuel)%nat -> files f !! path = Some c ->
  exists bad f', write_loop d fuel path data f = Ret (bad, f') /\
    delete path (files f') = delete path (files f) /\
    (exists c', files f' !! path = Some c') /\
    (bad = false -> files f' !! path = Some (c ++ data)).
Proof.
  revert data f c. induction fuel as [|fuel IH]; intros data f c Hf Hc; [lia|].
  cbn [write_loop]. destruct data as [|x data].
  { exists false, f. rewrite app_nil_r. split_and!; eauto. }
  unfold sys_write. set (dt := x :: data) in *. pose proof (write_le f (length dt)) as Hw.
  set (w := d_write d f (length dt)) in *.
  destruct (Nat.eqb_spec w 0) as [E|E].
  { eexists true, _. split; [done|]. cbn. rewrite delete_insert_eq, lookup_insert_eq. split_and!; eauto; done. }
  edestruct (IH (drop w dt)) as (bad & f' & -> & Hd & Hx & Hok).
  - rewrite length_drop. lia.
  - cbn. apply lookup_insert_eq.
  - exists bad, f'. split; [done|]. split; [by rewrite Hd; cbn; rewrite delete_insert_eq|].
    split; [done|]. intros ->. rewrite Hok by done. rewrite Hc. cbn.
    by rewrite <- app_assoc, take_drop.
Qed.

(** What a capture of [n] declared bytes has made of the bytes [seen] so far. *)
Definition captured (n : Z) (f0 : fs) (b0 : bodycap_t) (seen : bytes) (b : bodycap_t) (f : fs) : Prop :=
  mode b = mode b0 /\ tmp b = tmp b0 /\ final b = final b0 /\ mem_cap b = mem_cap b0 /\
  remaining b = n - Z.min n (Z.of_nat (length seen)) /\
  match mode b0 with
  | BODYCAP_FILE =>
      delete (tmp b0) (files f) = delete (tmp b0) (files f0) /\
      (fd_open b = true -> exists c, files f !! tmp b0 = Some c) /\
      (failed b = false -> fd_open b = true /\
         files f !! tmp b0 = Some (take (Z.to_nat n) seen))
  | BODYCAP_MEM =>
      f = f0 /\ mem b = take (mem_cap b0) (take (Z.to_nat n) seen) /\
      failed b = (mem_cap b0 <? length (take (Z.to_nat n) seen))%nat
  | BODYCAP_DISCARD => f = f0 /\ failed b = false
  end.

Lemma take_seen n (seen chunk : bytes) :
  (n <= length seen)%nat -> take n (seen ++ chunk) = take n seen.
Proof. intros. by rewrite take_app_le. Qed.

(** The part of a body a call takes. *)
Lemma taken_seen n (seen data : bytes) tk : 0 <= n ->
  tk = Nat.min (Z.to_nat (n - Z.min n (Z.of_nat (length seen)))) (length data) ->
  n - Z.min n (Z.of_nat (length seen)) - Z.of_nat tk = n - Z.min n (Z.of_nat (length (seen ++ data))) /\
  take (Z.to_nat n) (seen ++ data) = take (Z.to_nat n) seen ++ take tk data.
Proof.
  intros Hn Ht. rewrite length_app. split; [lia|]. destruct (decide (Z.to_nat n <= length seen)%nat) as [Hle|Hgt].
  - rewrite take_app_le by done. replace tk with 0%nat by lia. by rewrite take_0, app_nil_r.
  - rewrite take_app_ge by lia. rewrite (take_ge seen) by lia. f_equal.
    destruct (decide (tk = length data)) as [->|]; [|f_equal; lia].
    rewrite (take_ge data (length data)) by lia. apply take_ge. lia.
Qed.

(** A call that stores nothing: nothing is expected, or the capture has failed. *)
Lemma captured_skip n f0 b0 seen b f data tk r :
  captured n f0 b0 seen b f -> take (Z.to_nat n) (seen ++ data) = take (Z.to_nat n) seen ++ take tk data ->
  r = n - Z.min n (Z.of_nat (length (seen ++ data))) -> tk = 0%nat \/ failed b = true ->
  captured n f0 b0 (seen ++ data) (mk_cap (mode b) r (failed b) (fd_open b) (tmp b) (final b) (mem b) (mem_cap b)) f.
Proof.
  intros (H1 & H2 & H3 & H4 & Hr & Hm) Htake -> E. split_and!; try done.
  cbn [mode tmp final mem_cap remaining failed fd_open mem]. destruct E as [->|E].
  { rewrite Htake, take_0, app_nil_r. exact Hm. }
  destruct (mode b0).
  - rewrite E in Hm. by destruct Hm.
  - rewrite E in *. destruct Hm as (? & ? & _). split_and!; done.
  - destruct Hm as (-> & Hmm & Hf). rewrite E in Hf. symmetry in Hf. apply Nat.ltb_lt in Hf.
    rewrite Htake. split_and!; [done| |].
    + rewrite Hmm. by rewrite (take_app_le _ _ (mem_cap b0)) by lia.
    + symmetry. rewrite E. apply Nat.ltb_lt. rewrite length_app. lia.
Qed.

(** A store into memory: what fits. *)
Lemma mem_store cap (old data : bytes) tk : (length old <= cap)%nat -> (tk <= length data)%nat ->
  (if (cap <? length old + tk)%nat then wr cap old (take (cap - length old) data) else wr cap old (take tk data)) =
    Ret (take cap (old ++ take tk data)).
Proof.
  intros Ho Hd. unfold wr. destruct (Nat.ltb_spec cap (length old + tk)) as [Hov|Hfit];
    rewrite (proj2 (Nat.leb_le _ _)) by (rewrite length_take; lia); f_equal.
  - rewrite take_app_ge, take_take by lia. f_equal. f_equal. lia.
  - symmetry. apply take_ge. rewrite length_app, length_take. lia.
Qed.

Lemma bodycap_feed_spec n f0 b0 seen b f data :
  0 <= n -> captured n f0 b0 seen b f ->
  exists tk b' f', bodycap_feed d b data f = Ret (tk, b', f') /\
    captured n f0 b0 (seen ++ data) b' f' /\
    tk = Nat.min (Z.to_nat (remaining b)) (length data).
Proof.
  intros Hn Hc. pose proof Hc as (H1 & H2 & H3 & H4 & Hr & Hm). unfold bodycap_feed.
  set (tk := if (_ <? _)%nat then _ else _).
  assert (tk = Nat.min (Z.to_nat (remaining b)) (length data)) as Ht
    by (unfold tk; destruct (Nat.ltb_spec (Z.to_nat (remaining b)) (length data)); lia).
  clearbody tk. destruct (taken_seen n seen data tk Hn) as [Hr' Htake]; [by rewrite <- Hr|]. rewrite <- Hr in Hr'.
  destruct (negb (tk =? 0)%nat && negb (failed b)) eqn:E.
  2: { eexists tk, _, f. split; [done|]. split; [|done]. apply captured_skip with tk; [done..|].
       apply andb_false_iff in E as [E|E]; apply negb_false_iff in E; [left; by apply Nat.eqb_eq|by right]. }
  apply andb_true_iff in E as [E1 E2]. apply negb_true_iff in E1, E2. apply Nat.eqb_neq in E1.
  rewrite H1. destruct (mode b0) eqn:Em.
  - eexists tk, _, f. split; [done|]. split; [|done]. split_and!; try done. by rewrite Em.
  - destruct Hm as (Hd & Hx & Hok). destruct (Hok E2) as [Hfd Hfc]. rewrite Hfd, H2.
    edestruct (write_loop_spec (S (length (take tk data))) (tmp b0) (take tk data) f)
      as (bad & f' & -> & Hd' & Hx' & Hok'); [lia|exact Hfc|]. cbn [rbind fst snd].
    eexists tk, _, f'. split; [done|]. split; [|done]. split_and!; try done. rewrite Em.
    cbn [failed fd_open]. split_and!; [congruence|done|]. intros ->. split; [done|]. rewrite Htake. auto.
  - destruct Hm as (-> & Hmm & Hf). rewrite E2 in Hf. symmetry in Hf. apply Nat.ltb_ge in Hf.
    rewrite (take_ge (take _ seen)) in Hmm by lia. rewrite H4, Hmm.
    pose proof (mem_store (mem_cap b0) (take (Z.to_nat n) seen) data tk Hf ltac:(lia)) as Hw.
    assert (length (take (Z.to_nat n) seen ++ take tk data) = length (take (Z.to_nat n) seen) + tk)%nat as Hl
      by (rewrite length_app; f_equal; rewrite length_take; lia).
    rewrite <- Htake in Hw, Hl.
    destruct (Nat.ltb_spec (mem_cap b0) (length (take (Z.to_nat n) seen) + tk)) as [Hov|Hfit]; rewrite Hw; cbn [rbind];
      (eexists tk, _, f0; split; [done|]; split; [|done]; split_and!; try done; rewrite Em; cbn [failed mem]; split_and!; [done..|]);
      rewrite Hl, ?E2; symmetry; by first [apply Nat.ltb_lt|apply Nat.ltb_ge].
Qed.

Lemma feed_all_spec n f0 b0 seen b f chunks :
  0 <= n -> captured n f0 b0 seen b f ->
  exists b' f', feed_all d b chunks f = Ret (b', f') /\
    captured n f0 b0 (seen ++ List.concat chunks) b' f'.
Proof.
  intros Hn. revert seen b f. induction chunks as [|c cs IH]; intros seen b f Hc; cbn [feed_all List.concat].
  { exists b, f. by rewrite app_nil_r. }
  destruct (bodycap_feed_spec n f0 b0 seen b f c Hn Hc) as (tk & b1 & f1 & -> & H1 & _).
  cbn [rbind fst snd]. destruct (IH _ _ _ H1) as (b2 & f2 & -> & H2).
  exists b2, f2. split; [done|]. by rewrite <- app_assoc in H2.
Qed.

Lemma begin_captured m n p cap f :
  0 <= n -> (m = BODYCAP_FILE -> exists q, p = Some q) ->
  let '(b, f') := bodycap_begin d m n p cap f in captured n f b [] b f'.
Proof.
  intros Hn Hp. unfold bodycap_begin. rewrite (proj2 (Z.ltb_ge n 0)) by done.
  destruct m; [|destruct (Hp eq_refl) as [q ->]|].
  - unfold captured. cbn. split_and!; try done. lia.
  - unfold sys_open. destruct (d_open d f _); unfold captured; cbn; split_and!; try done; try lia.
    + by rewrite delete_insert_eq.
    + intros _. rewrite lookup_insert_eq. eauto.
    + intros _. split; [done|]. by rewrite lookup_insert_eq, take_nil.
  - unfold captured. cbn. rewrite !take_nil. split_and!; try done. lia.
Qed.
End Spec.

(** ** Properties *)

(** C10: capturing a file is atomic, however the body is split and whatever the
    disk answers.  The capture succeeds exactly when it reports 0, and then the
    final path holds the declared bytes of the body, no more and no less; when it
    fails the final path keeps what it had.  No temporary file is left and no
    other file is touched. *)
Theorem bodycap_file_atomic d `{!DiskOk d} n p cap f0 chunks :
  0 <= n -> (length p <= 251)%nat ->
  let '(b, f1) := bodycap_begin d BODYCAP_FILE n (Some p) cap f0 in
  exists b2 f2, feed_all d b chunks f1 = Ret (b2, f2) /\
    let '(rc, _, f3) := bodycap_finish d b2 f2 in
    (rc = 0 /\ n <= Z.of_nat (length (List.concat chunks)) /\
       files f3 = <[p := take (Z.to_nat n) (List.concat chunks)]>
                    (delete (p ++ str ".tmp") (files f0))) \/
    (rc = -1 /\ files f3 = delete (p ++ str ".tmp") (files f0)).
Proof.
  intros Hn Hp. pose proof (begin_captured d BODYCAP_FILE n (Some p) cap f0 Hn) as Hb.
  assert (tmp (bodycap_begin d BODYCAP_FILE n (Some p) cap f0).1 = p ++ str ".tmp" /\
    final (bodycap_begin d BODYCAP_FILE n (Some p) cap f0).1 = p /\
    mode (bodycap_begin d BODYCAP_FILE n (Some p) cap f0).1 = BODYCAP_FILE) as (T1 & T2 & T3).
  { unfold bodycap_begin. destruct (sys_open _ _ _) as [ok g]. cbn. unfold path256.
    rewrite !take_ge by (rewrite ?length_app; cbn; lia). done. }
  destruct (bodycap_begin d BODYCAP_FILE n (Some p) cap f0) as [b f1]. cbn [fst] in *.
  specialize (Hb ltac:(by eexists)).
  destruct (feed_all_spec d n f0 b [] b f1 chunks Hn Hb) as (b2 & f2 & -> & Hc).
  exists b2, f2. split; [done|]. cbn [app] in Hc. set (seen := List.concat chunks) in *.
  destruct Hc as (H1 & H2 & H3 & H4 & Hr & Hm). rewrite T3 in Hm. destruct Hm as (Hd & Hx & Hok).
  assert (p <> p ++ str ".tmp") as Hne.
  { intros E. apply (f_equal length) in E. rewrite length_app in E. cbn in E. lia. }
  unfold bodycap_finish. rewrite H1, T3. cbn [tmp final].
  destruct (bodycap_done b2 && negb (failed b2)) eqn:E.
  2: { right. split; [done|]. cbn [sys_unlink files tmp]. rewrite H2, T1 in *. done. }
  apply andb_true_iff in E as [E1 E2]. apply negb_true_iff in E2. unfold bodycap_done in E1.
  destruct (Hok E2) as [_ Hc]. rewrite H2, H3, T1, T2 in *. unfold sys_rename.
  destruct (d_rename d f2).
  - rewrite Hc. left. split; [done|]. split; [lia|]. cbn [files]. by rewrite Hd.
  - right. split; [done|]. cbn [sys_unlink files]. exact Hd.
Qed.

(** A disk that writes at most three bytes at a time. *)
Definition slow_disk : disk := mk_disk (fun _ _ => true) (fun _ n => Nat.min n 3) (fun _ => true).

Lemma slow_disk_ok : DiskOk slow_disk.
Proof. intros f n. cbn. lia. Qed.

Lemma bodycap_file_atomic_witness :
  let '(b, f1) := bodycap_begin slow_disk BODYCAP_FILE 7 (Some (str "/art")) 0 (mk_fs {[str "/art" := [9]]} 0) in
  exists b2 f2, feed_all slow_disk b [[1; 2; 3; 4]; []; [5; 6; 7; 8]] f1 = Ret (b2, f2) /\
    let '(rc, _, f3) := bodycap_finish slow_disk b2 f2 in
    (rc = 0 /\ 7 <= Z.of_nat (length (List.concat [[1; 2; 3; 4]; []; [5; 6; 7; 8]])) /\
       files f3 = <[str "/art" := take (Z.to_nat 7) (List.concat [[1; 2; 3; 4]; []; [5; 6; 7; 8]])]>
                    (delete (str "/art" ++ str ".tmp") (files (mk_fs {[str "/art" := [9]]} 0)))) \/
    (rc = -1 /\ files f3 = delete (str "/art" ++ str ".tmp") (files (mk_fs {[str "/art" := [9]]} 0))).
Proof.
  apply (@bodycap_file_atomic slow_disk slow_disk_ok 7 (str "/art") 0 (mk_fs {[str "/art" := [9]]} 0)
    [[1; 2; 3; 4]; []; [5; 6; 7; 8]]); [lia|cbn; lia].
Defined.

(** A body never disturbs the framing of the stream.  In every mode, however
    the body is split and even after a failure, each chunk is consumed up to the
    declared length and no further, and the capture is done exactly when the
    declared bytes have been consumed; in memory it keeps the first bytes that
    fit, and reports success exactly when the whole body arrived and fitted. *)
Theorem bodycap_keeps_framing d `{!DiskOk d} m n p cap f0 chunks last :
  0 <= n -> (m = BODYCAP_FILE -> exists q, p = Some q) ->
  let '(b, f1) := bodycap_begin d m n p cap f0 in
  let seen := List.concat chunks in
  exists b2 f2, feed_all d b chunks f1 = Ret (b2, f2) /\
    remaining b2 = n - Z.min n (Z.of_nat (length seen)) /\
    (bodycap_done b2 = true <-> n <= Z.of_nat (length seen)) /\
    (exists tk b3 f3, bodycap_feed d b2 last f2 = Ret (tk, b3, f3) /\
       tk = Nat.min (Z.to_nat (remaining b2)) (length last)) /\
    (m = BODYCAP_MEM ->
       mem b2 = take cap (take (Z.to_nat n) seen) /\
       ((bodycap_finish d b2 f2).1.1 = 0 <->
          n <= Z.of_nat (length seen) /\ n <= Z.of_nat cap)).
Proof.
  intros Hn Hp. pose proof (begin_captured d m n p cap f0 Hn Hp) as Hb.
  assert (mode (bodycap_begin d m n p cap f0).1 = m /\ mem_cap (bodycap_begin d m n p cap f0).1 = cap)
    as [T1 T2].
  { unfold bodycap_begin. destruct m; [done| |done]. destruct p; [|done]. by destruct (sys_open _ _ _). }
  destruct (bodycap_begin d m n p cap f0) as [b f1]. cbn [fst] in *. cbv zeta.
  destruct (feed_all_spec d n f0 b [] b f1 chunks Hn Hb) as (b2 & f2 & -> & Hc).
  exists b2, f2. cbn [app] in Hc. set (seen := List.concat chunks) in *. split; [done|].
  destruct (bodycap_feed_spec d n f0 b seen b2 f2 last Hn Hc) as (tk & b3 & f3 & E & _ & Htk).
  destruct Hc as (H1 & H2 & H3 & H4 & Hr & Hm). split; [done|].
  assert (bodycap_done b2 = true <-> n <= Z.of_nat (length seen)) as Hdone
    by (unfold bodycap_done; lia).
  split; [done|]. split; [by exists tk, b3, f3|]. intros ->. rewrite T1 in Hm.
  destruct Hm as (-> & Hmem & Hf). split; [by rewrite Hmem, T2|].
  unfold bodycap_finish. rewrite H1, T1. cbn [fst].
  destruct (bodycap_done b2) eqn:E1; cbn [andb].
  - destruct Hdone as [Hdone _]. specialize (Hdone eq_refl). rewrite Hf, T2, length_take.
    destruct (Nat.ltb_spec cap (Nat.min (Z.to_nat n) (length seen))); cbn [negb].
    + split; [done|]. lia.
    + split; [|done]. intros _. lia.
  - split; [done|]. intros [Hle _]. destruct Hdone as [_ Hdone]. by specialize (Hdone Hle).
Qed.

Lemma bodycap_keeps_framing_witness :
  let '(b, f1) := bodycap_begin slow_disk BODYCAP_MEM 5 None 4 (mk_fs ∅ 0) in
  let seen := List.concat [[1; 2; 3]; [4; 5; 6]] in
  exists b2 f2, feed_all slow_disk b [[1; 2; 3]; [4; 5; 6]] f1 = Ret (b2, f2) /\
    remaining b2 = 5 - Z.min 5 (Z.of_nat (length seen)) /\
    (bodycap_done b2 = true <-> 5 <= Z.of_nat (length seen)) /\
    (exists tk b3 f3, bodycap_feed slow_disk b2 [7] f2 = Ret (tk, b3, f3) /\
       tk = Nat.min (Z.to_nat (remaining b2)) (length [7])) /\
    (BODYCAP_MEM = BODYCAP_MEM ->
       mem b2 = take 4 (take (Z.to_nat 5) seen) /\
       ((bodycap_finish slow_disk b2 f2).1.1 = 0 <-> 5 <= Z.of_nat (length seen) /\ 5 <= Z.of_nat 4)).
Proof.
  apply (@bodycap_keeps_framing slow_disk slow_disk_ok BODYCAP_MEM 5 None 4 (mk_fs ∅ 0)
    [[1; 2; 3]; [4; 5; 6]] [7]); [lia|done].
Defined.

(** A path of 255 bytes or more leaves no room for the suffix: the temporary file
    is the final file, and a capture that fails removes it. *)
Lemma bodycap_long_path p : (255 <= length p)%nat -> path256 (p ++ str ".tmp") = path256 p.
Proof. intros H. unfold path256. by rewrite take_app_le. Qed.
