(* ===== verification/Daap.v ===== *)
(** * DMAP metadata ([src/daap.c], [src/daap.h])

    A run of items [\[p, end)] is the list of its bytes; the fields of an item are
    read through checked accesses. *)
From Stdlib Require Import ZArith Lia String.
From stdpp Require Import base numbers list.
From S2P Require Import Prelude Rtp.

Local Open Scope Z_scope.

Definition DAAP_MAX_DEPTH : nat := 8.

(** [daap_meta_t]: the bytes stored in each 256-byte array, without the
    terminator. *)
Record daap_meta_t := mk_meta { title : bytes; artist : bytes; album : bytes }.

(** [take]: at most 255 bytes. *)
Definition take_field (v : bytes) (n : Z) : run bytes :=
  let n := if 255 <? n then 255 else n in
  rd_sub v 0 (Z.to_nat n).

(** [n = p\[4\]<<24 | ... | p\[7\]] *)
Definition item_len (p : bytes) : run Z := rd_be32 p 4.

Definition printable (c : Z) : bool := negb ((c <? 32) || (126 <? c)).

Definition looks_nested (p : bytes) : run bool :=
  if (length p <? 8)%nat then Ret false
  else
    let! c0 := rd p 0 in
    let! c1 := rd p 1 in
    let! c2 := rd p 2 in
    let! c3 := rd p 3 in
    if negb (forallb printable [c0; c1; c2; c3]) then Ret false
    else
      let! n := item_len p in
      Ret (n <=? Z.of_nat (length p - 8)).

Definition MINM : bytes := str "minm".
Definition ASAR : bytes := str "asar".
Definition ASAL : bytes := str "asal".

(** [walk] over the rest [p] of a run. *)
Fixpoint walk (fuel : nat) (p : bytes) (out : daap_meta_t) (depth : nat) : run daap_meta_t :=
  match fuel with
  | O => NoFuel
  | S fuel' =>
      if (DAAP_MAX_DEPTH <? depth)%nat then Ret out
      else if (length p <? 8)%nat then Ret out
      else
        let! n := item_len p in
        let rest := drop 8 p in
        if Z.of_nat (length rest) <? n then Ret out
        else
          let! code := rd_sub p 0 4 in
          let val := take (Z.to_nat n) rest in
          let! out' :=
            (if bytes_eqb code MINM then
               let! v := take_field val n in Ret (mk_meta v (artist out) (album out))
             else if bytes_eqb code ASAR then
               let! v := take_field val n in Ret (mk_meta (title out) v (album out))
             else if bytes_eqb code ASAL then
               let! v := take_field val n in Ret (mk_meta (title out) (artist out) v)
             else if 8 <=? n then
               let! nested := looks_nested val in
               if nested then walk fuel' val out (S depth) else Ret out
             else Ret out) in
          walk fuel' (drop (Z.to_nat n) rest) out' depth
  end.

Definition daap_parse (buf : bytes) : run daap_meta_t :=
  let out := mk_meta [] [] [] in
  if (8 <=? length buf)%nat then walk (S (length buf)) buf out 0 else Ret out.

(** ** Safety and termination *)

Definition meta_ok (m : daap_meta_t) : Prop :=
  (length (title m) <= 255)%nat /\ (length (artist m) <= 255)%nat /\ (length (album m) <= 255)%nat.

Lemma wp_take_field v n (Q : bytes -> Prop) :
  n = Z.of_nat (length v) -> (forall f, (length f <= 255)%nat -> Q f) -> wp (take_field v n) Q.
Proof.
  intros -> HQ. unfold take_field. cbv zeta.
  destruct (Z.ltb_spec 255 (Z.of_nat (length v))); (wp_step; [lia|]); apply HQ;
    rewrite sub_length by lia; lia.
Qed.

Lemma rd_be32_nonneg p i (Q : Z -> Prop) :
  bytes_ok p -> (i + 4 <= length p)%nat -> (forall v, 0 <= v -> Q v) -> wp (rd_be32 p i) Q.
Proof.
  intros Hp Hi HQ.
  destruct (lookup_lt_is_Some_2 p i) as [a Ha]; [lia|].
  destruct (lookup_lt_is_Some_2 p (i + 1)) as [b Hb]; [lia|].
  destruct (lookup_lt_is_Some_2 p (i + 2)) as [c Hc]; [lia|].
  destruct (lookup_lt_is_Some_2 p (i + 3)) as [e He]; [lia|].
  pose proof (bytes_ok_lookup _ _ _ Hp Ha). pose proof (bytes_ok_lookup _ _ _ Hp Hb).
  pose proof (bytes_ok_lookup _ _ _ Hp Hc). pose proof (bytes_ok_lookup _ _ _ Hp He).
  rewrite (rd_be32_spec p i a b c e) by done. apply wp_ret, HQ. unfold byte_ok in *. lia.
Qed.

Lemma wp_looks_nested p (Q : bool -> Prop) :
  bytes_ok p -> (forall b, Q b) -> wp (looks_nested p) Q.
Proof.
  intros Hp HQ. unfold looks_nested. destruct (Nat.ltb_spec (length p) 8); [apply wp_ret, HQ|].
  do 4 (wp_step; wp_step; [lia|]). case_match; [apply wp_ret, HQ|].
  wp_step. apply rd_be32_nonneg; [done|lia|]. intros. apply wp_ret, HQ.
Qed.

Lemma wp_walk fuel p out depth :
  (length p < fuel)%nat -> bytes_ok p -> meta_ok out -> wp (walk fuel p out depth) meta_ok.
Proof.
  revert p out depth. induction fuel as [|fuel IH]; intros p out depth Hf Hp Ho; [lia|].
  cbn [walk]. case_match; [done|]. destruct (Nat.ltb_spec (length p) 8); [done|].
  wp_step. apply rd_be32_nonneg; [done|lia|]. intros n Hn.
  destruct (Z.ltb_spec (Z.of_nat (length (drop 8 p))) n) as [|Hfit]; [done|].
  rewrite length_drop in Hfit. set (val := take (Z.to_nat n) (drop 8 p)).
  assert (n = Z.of_nat (length val)) as Hval
    by (unfold val; rewrite length_take, length_drop; lia).
  assert (bytes_ok val) as Hvb by (unfold val; auto with bytes).
  wp_step. wp_step; [lia|]. wp_step.
  apply wp_mono with (P := meta_ok).
  - destruct Ho as (O1 & O2 & O3).
    repeat case_match; try (wp_step; apply wp_take_field; [done|intros; by apply wp_ret]); try done.
    wp_step. apply wp_looks_nested; [done|]. intros [|]; [|done]. apply IH; [|done|done].
    unfold val. rewrite length_take, length_drop. lia.
  - intros out' Hout'. apply IH; [rewrite !length_drop; lia|auto with bytes|done].
Qed.

Lemma daap_parse_wp buf : bytes_ok buf -> wp (daap_parse buf) meta_ok.
Proof.
  intros Hb. unfold daap_parse. assert (meta_ok (mk_meta [] [] [])) by (split_and!; cbn; lia).
  case_match; [|done]. apply wp_walk; [lia|done|done].
Qed.

(** Parsing metadata is safe and ends on every blob.  Whatever the bytes,
    however deep or inconsistent the lengths, the parser returns without reading
    outside the blob, and each field fits its 256-byte array with its
    terminator. *)
Theorem daap_parse_safe buf : bytes_ok buf -> wp (daap_parse buf) meta_ok.
Proof. apply daap_parse_wp. Qed.

Lemma daap_parse_safe_witness :
  wp (daap_parse (str "mlit" ++ [255; 255; 255; 255] ++ str "minm")) meta_ok.
Proof. apply daap_parse_safe. by apply bytes_okb_ok. Defined.

(** ** The tree a blob encodes *)

Inductive dmap :=
  | Leaf (code v : bytes)
  | Node (code : bytes) (ts : list dmap).

Definition item (code v : bytes) : bytes := code ++ be32 (Z.of_nat (length v)) ++ v.

Fixpoint encode (t : dmap) : bytes :=
  match t with
  | Leaf code v => item code v
  | Node code ts => item code (List.concat (map encode ts))
  end.

Definition encode_all (ts : list dmap) : bytes := List.concat (map encode ts).

Definition store (code v : bytes) (out : daap_meta_t) : daap_meta_t :=
  if bytes_eqb code MINM then mk_meta (take 255 v) (artist out) (album out)
  else if bytes_eqb code ASAR then mk_meta (title out) (take 255 v) (album out)
  else if bytes_eqb code ASAL then mk_meta (title out) (artist out) (take 255 v)
  else out.

(** What the tree says, in document order. *)
Fixpoint meaning (out : daap_meta_t) (t : dmap) : daap_meta_t :=
  match t with
  | Leaf code v => store code v out
  | Node _ ts => fold_left meaning ts out
  end.

Definition known (code : bytes) : bool :=
  bytes_eqb code MINM || bytes_eqb code ASAR || bytes_eqb code ASAL.

(** The code of the first item of a run is printable, which is how a container is
    recognised. *)
Definition code_of (t : dmap) : bytes := match t with Leaf c _ | Node c _ => c end.

(** Trees that can be told apart: a leaf with an unknown code does not look like a
    run of items, and a container has a child with a printable code. *)
Inductive tree_ok : nat -> dmap -> Prop :=
  | leaf_ok d code v :
      length code = 4%nat -> bytes_ok code -> bytes_ok v -> Z.of_nat (length v) < 2 ^ 32 ->
      known code = true \/ (length v < 8)%nat \/ looks_nested v = Ret false ->
      tree_ok d (Leaf code v)
  | node_ok d code t ts :
      length code = 4%nat -> bytes_ok code -> known code = false ->
      forallb printable (code_of t) = true ->
      Z.of_nat (length (encode_all (t :: ts))) < 2 ^ 32 ->
      (d < DAAP_MAX_DEPTH)%nat ->
      (forall t', In t' (t :: ts) -> tree_ok (S d) t') ->
      tree_ok d (Node code (t :: ts)).

Lemma rd_lookup p i c : p !! i = Some c -> rd p i = Ret c.
Proof. intros H. unfold rd. by rewrite H. Qed.

Lemma item_app code v p :
  length code = 4%nat -> Z.of_nat (length v) < 2 ^ 32 ->
  item_len (item code v ++ p) = Ret (Z.of_nat (length v)) /\
  rd_sub (item code v ++ p) 0 4 = Ret code /\
  drop 8 (item code v ++ p) = v ++ p.
Proof.
  intros Hc Hv. destruct code as [|c0 [|c1 [|c2 [|c3 [|]]]]]; try done. split_and!.
  - apply rd_be32_at; [|lia]. unfold item. rewrite <- !app_assoc. done.
  - unfold rd_sub. rewrite (proj2 (Nat.leb_le _ _)) by (unfold item; cbn; lia). done.
  - done.
Qed.

(** One item of a run: its fields, then the rest. *)
Lemma walk_item fuel code v p out depth :
  length code = 4%nat -> Z.of_nat (length v) < 2 ^ 32 -> (depth <= DAAP_MAX_DEPTH)%nat ->
  walk (S fuel) (item code v ++ p) out depth =
  rbind
    (if known code then Ret (store code v out)
     else if 8 <=? Z.of_nat (length v) then
       let! nested := looks_nested v in
       if nested then walk fuel v out (S depth) else Ret out
     else Ret out)
    (fun out' => walk fuel p out' depth).
Proof.
  intros Hc Hv Hd. destruct (item_app code v p Hc Hv) as (E1 & E2 & E3). cbn [walk].
  rewrite (proj2 (Nat.ltb_ge _ _)) by lia.
  rewrite (proj2 (Nat.ltb_ge _ 8)) by (unfold item; rewrite !length_app, Hc; cbn; lia).
  rewrite E1. cbn [rbind]. rewrite E3, E2, length_app.
  rewrite (proj2 (Z.ltb_ge _ _)) by lia. cbn [rbind]. rewrite Nat2Z.id, take_app_length, drop_app_length.
  assert (take_field v (Z.of_nat (length v)) = Ret (take 255 v)) as Ht.
  { unfold take_field. cbv zeta. destruct (Z.ltb_spec 255 (Z.of_nat (length v))); unfold rd_sub.
    - rewrite (proj2 (Nat.leb_le _ _)) by lia. done.
    - rewrite Nat2Z.id, (proj2 (Nat.leb_le _ _)) by lia. unfold sub.
      by rewrite drop_0, !take_ge by lia. }
  rewrite Ht. unfold known, store. cbn [rbind].
  destruct (bytes_eqb code MINM); [done|]. destruct (bytes_eqb code ASAR); [done|].
  by destruct (bytes_eqb code ASAL).
Qed.

(** A run that starts with an item whose code is printable looks like one. *)
Lemma looks_nested_encode code v p :
  length code = 4%nat -> forallb printable code = true -> Z.of_nat (length v) < 2 ^ 32 ->
  looks_nested (item code v ++ p) = Ret true.
Proof.
  intros Hc Hp Hv. destruct (item_app code v p Hc Hv) as (E1 & _ & E3). unfold looks_nested.
  assert (length (item code v ++ p) = 8 + (length v + length p))%nat as Hl
    by (unfold item; rewrite !length_app, Hc; cbn; lia).
  rewrite Hl. cbn [Nat.ltb Nat.leb Nat.add].
  rewrite E1. destruct code as [|c0 [|c1 [|c2 [|c3 [|]]]]]; try done.
  change (rd (item [c0; c1; c2; c3] v ++ p) 0) with (Ret c0).
  change (rd (item [c0; c1; c2; c3] v ++ p) 1) with (Ret c1).
  change (rd (item [c0; c1; c2; c3] v ++ p) 2) with (Ret c2).
  change (rd (item [c0; c1; c2; c3] v ++ p) 3) with (Ret c3).
  cbn [rbind]. rewrite Hp. cbn [negb]. f_equal. apply Z.leb_le. cbn [Nat.sub]. lia.
Qed.

Lemma encode_item t d : tree_ok d t ->
  exists v, encode t = item (code_of t) v /\ length (code_of t) = 4%nat /\ Z.of_nat (length v) < 2 ^ 32.
Proof. intros H. inversion H; subst; eauto. Qed.

Lemma encode_all_cons t ts : encode_all (t :: ts) = encode t ++ encode_all ts.
Proof. done. Qed.

(** Walking the encoding of a forest computes what it says. *)
Lemma walk_encode fuel ts out depth :
  (depth <= DAAP_MAX_DEPTH)%nat -> (forall t, In t ts -> tree_ok depth t) ->
  (length (encode_all ts) < fuel)%nat ->
  walk fuel (encode_all ts) out depth = Ret (fold_left meaning ts out).
Proof.
  revert ts out depth. induction fuel as [|fuel IH]; intros ts out depth Hd Hok Hf; [lia|].
  destruct ts as [|t ts].
  { cbn [walk encode_all]. rewrite (proj2 (Nat.ltb_ge _ _)) by lia. done. }
  rewrite encode_all_cons in *. cbn [fold_left].
  pose proof (Hok t ltac:(by left)) as Ht.
  assert (forall t', In t' ts -> tree_ok depth t') as Hts by (intros; apply Hok; by right).
  destruct (encode_item t depth Ht) as (v & Ev & Hc & Hv). rewrite Ev in *.
  assert (length (item (code_of t) v) = 8 + length v)%nat as Hl
    by (unfold item; rewrite !length_app, Hc; cbn; lia).
  rewrite length_app, Hl in Hf. rewrite walk_item by done.
  assert (forall out', walk fuel (encode_all ts) out' depth = Ret (fold_left meaning ts out')) as Hrest
    by (intros; apply IH; [done|done|lia]).
  inversion Ht as [d code w Hcl Hcb Hvb Hlen Hcase E1 E2|d code u us Hcl Hcb Hk Hpr Hlen Hdl Hus E1 E2]; subst.
  - cbn [encode code_of meaning] in *.
    assert (v = w) as -> by (unfold item in Ev; by simplify_list_eq).
    unfold store. destruct (known code) eqn:Ek.
    { cbn [rbind]. apply Hrest. }
    assert (store code w out = out) as Hst.
    { unfold known in Ek. unfold store. rewrite !orb_false_iff in Ek. by destruct Ek as [[-> ->] ->]. }
    unfold store in Hst. rewrite Hst.
    destruct (Z.leb_spec 8 (Z.of_nat (length w))); [|cbn [rbind]; apply Hrest].
    destruct Hcase as [|[|Hln]]; [congruence|lia|]. rewrite Hln. cbn [rbind]. apply Hrest.
  - cbn [encode code_of meaning] in *. rewrite Hk.
    assert (v = encode_all (u :: us)) as ->
      by (unfold item in Ev; unfold encode_all; by simplify_list_eq).
    destruct (encode_item u (S depth) (Hus u ltac:(by left))) as (w & Eu & Huc & Hw).
    assert (8 <=? Z.of_nat (length (encode_all (u :: us))) = true) as ->.
    { apply Z.leb_le. rewrite encode_all_cons, Eu. unfold item. rewrite !length_app, Huc. cbn. lia. }
    rewrite encode_all_cons, Eu at 1. rewrite looks_nested_encode by done. cbn [rbind].
    rewrite IH by (done || lia). cbn [rbind]. apply Hrest.
Qed.

(** C35: the parser reads the metadata a sender encodes.  For every forest of DMAP
    items that can be told apart, nested up to eight levels, parsing its encoding
    yields the last title, artist and album in document order, each cut to 255
    bytes. *)
Theorem daap_parse_encode ts :
  ts <> [] -> (forall t, In t ts -> tree_ok 0 t) ->
  daap_parse (encode_all ts) = Ret (fold_left meaning ts (mk_meta [] [] [])).
Proof.
  intros Hne Hok. unfold daap_parse.
  assert (8 <= length (encode_all ts))%nat as Hl.
  { destruct ts as [|t ts]; [done|]. rewrite encode_all_cons, length_app.
    destruct (encode_item t 0 (Hok t ltac:(by left))) as (v & -> & Hc & _).
    unfold item. rewrite !length_app, Hc. cbn. lia. }
  rewrite (proj2 (Nat.leb_le _ _)) by done. apply walk_encode; [lia|done|lia].
Qed.

Definition sample_forest : list dmap :=
  [Node (str "mlit") [Leaf (str "mper") [1; 2; 3]; Leaf MINM (str "Song"); Leaf ASAR (str "Band")];
   Leaf ASAL (str "Album")].

Lemma daap_parse_encode_witness :
  daap_parse (encode_all sample_forest) = Ret (mk_meta (str "Song") (str "Band") (str "Album")).
Proof.
  apply (daap_parse_encode sample_forest); [done|].
  assert (forall d c v, length c = 4%nat -> bytes_okb c = true -> bytes_okb v = true ->
    Z.of_nat (length v) < 2 ^ 32 -> known c = true \/ (length v < 8)%nat \/ looks_nested v = Ret false ->
    tree_ok d (Leaf c v)) as Hleaf.
  { intros. apply leaf_ok; try done; by apply bytes_okb_ok. }
  intros t [<-|[<-|[]]].
  - apply node_ok; try done; [by apply bytes_okb_ok|unfold DAAP_MAX_DEPTH; lia|].
    intros t [<-|[<-|[<-|[]]]]; apply Hleaf; try done; cbn; lia || auto.
  - apply Hleaf; try done. by left.
Defined.
