(* ===== verification/Npstate.v ===== *)
(** * The now-playing state ([src/npstate.c], [src/npstate.h])

    Each operation runs under the state's mutex, so it is one step on the shared
    snapshot.  A text field is the C string it holds. *)
From Stdlib Require Import ZArith Lia String.
From stdpp Require Import base numbers list.
From S2P Require Import Prelude Rtp Daap.

Local Open Scope Z_scope.

Section Np.
Context `{DM : DataModel}.

Record np_snapshot_t := mk_np {
  gen : Z;
  art_serial : Z;
  np_title : bytes;
  np_artist : bytes;
  np_album : bytes;
  have_art : bool;
  playing : bool;
}.

Definition np_init : np_snapshot_t := mk_np 0 0 [] [] [] false false.

(** [take]: [strlen] and at most 255 bytes. *)
Definition np_take (src : bytes) : bytes := take 255 (cstr src).

Definition np_publish_meta (m : daap_meta_t) (s : np_snapshot_t) : np_snapshot_t :=
  if negb (bytes_eqb (np_title s) (cstr (title m)))
     || negb (bytes_eqb (np_artist s) (cstr (artist m)))
     || negb (bytes_eqb (np_album s) (cstr (album m)))
  then mk_np (ulong (gen s + 1)) (art_serial s) (np_take (title m)) (np_take (artist m))
         (np_take (album m)) (have_art s) (playing s)
  else s.

Definition np_publish_art (s : np_snapshot_t) : np_snapshot_t :=
  mk_np (gen s) (ulong (art_serial s + 1)) (np_title s) (np_artist s) (np_album s) true (playing s).

Definition np_set_playing (on : Z) (s : np_snapshot_t) : np_snapshot_t :=
  mk_np (gen s) (art_serial s) (np_title s) (np_artist s) (np_album s) (have_art s) (negb (on =? 0)).

Definition np_get (s : np_snapshot_t) : np_snapshot_t := s.

Definition np_reset (s : np_snapshot_t) : np_snapshot_t :=
  mk_np (ulong (gen s + 1)) (art_serial s) [] [] [] false (playing s).

(** ** Runs *)

Inductive np_op :=
  | NpMeta (m : daap_meta_t)
  | NpArt
  | NpPlaying (on : Z)
  | NpReset.

Definition np_do (s : np_snapshot_t) (o : np_op) : np_snapshot_t :=
  match o with
  | NpMeta m => np_publish_meta m s
  | NpArt => np_publish_art s
  | NpPlaying on => np_set_playing on s
  | NpReset => np_reset s
  end.

(** What a viewer should see: the texts last published since the last reset,
  whether art has been published since, and the playing flag; with the number
  of times the texts were replaced by different ones or reset, and the number
  of pictures. *)
Record display := mk_display {
  d_text : bytes * bytes * bytes;
  d_art : bool;
  d_playing : bool;
  d_changes : Z;
  d_pictures : Z;
}.

Definition texts (m : daap_meta_t) : bytes * bytes * bytes :=
  (cstr (title m), cstr (artist m), cstr (album m)).

Definition d_do (d : display) (o : np_op) : display :=
  match o with
  | NpMeta m =>
      if decide (d_text d = texts m) then d
      else mk_display (texts m) (d_art d) (d_playing d) (d_changes d + 1) (d_pictures d)
  | NpArt => mk_display (d_text d) true (d_playing d) (d_changes d) (d_pictures d + 1)
  | NpPlaying on => mk_display (d_text d) (d_art d) (negb (on =? 0)) (d_changes d) (d_pictures d)
  | NpReset => mk_display ([], [], []) false (d_playing d) (d_changes d + 1) (d_pictures d)
  end.

Definition shows (s : np_snapshot_t) (d : display) : Prop :=
  (np_title s, np_artist s, np_album s) = d_text d /\ have_art s = d_art d /\
  playing s = d_playing d /\ gen s = ulong (d_changes d) /\ art_serial s = ulong (d_pictures d).

Definition op_ok (o : np_op) : Prop := match o with NpMeta m => meta_ok m | _ => True end.

Lemma ulong_succ z : ulong (ulong z + 1) = ulong (z + 1).
Proof. unfold ulong. by rewrite Zplus_mod_idemp_l. Qed.

Lemma cstr_length l : (length (cstr l) <= length l)%nat.
Proof. induction l as [|c l IH]; cbn; [lia|]. case_match; cbn; lia. Qed.

Lemma np_take_field f : (length f <= 255)%nat -> np_take f = cstr f.
Proof. intros H. unfold np_take. apply take_ge. pose proof (cstr_length f). lia. Qed.

Lemma np_do_shows s d o : op_ok o -> shows s d -> shows (np_do s o) (d_do d o).
Proof.
  intros Ho (H1 & H2 & H3 & H4 & H5). destruct o as [m| |on|]; cbn [np_do d_do].
  - destruct Ho as (O1 & O2 & O3). unfold np_publish_meta, texts. case_decide as E.
    + rewrite <- H1 in E. injection E as -> -> ->. rewrite !bytes_eqb_refl. by split_and!.
    + assert (negb (bytes_eqb (np_title s) (cstr (title m)))
        || negb (bytes_eqb (np_artist s) (cstr (artist m)))
        || negb (bytes_eqb (np_album s) (cstr (album m))) = true) as ->.
      { rewrite <- H1 in E. destruct (bytes_eqb_spec (np_title s) (cstr (title m))); [|done].
        destruct (bytes_eqb_spec (np_artist s) (cstr (artist m))); [|done].
        destruct (bytes_eqb_spec (np_album s) (cstr (album m))); [|done].
        exfalso. apply E. congruence. }
      rewrite !np_take_field by done. unfold shows. cbn. rewrite H4, ulong_succ. by split_and!.
  - unfold shows. cbn. rewrite H5, ulong_succ. by split_and!.
  - unfold shows. cbn. by split_and!.
  - unfold shows. cbn. rewrite H4, ulong_succ. by split_and!.
Qed.

(** The published state always shows the current track, and its generation
  counts the changes.  After any sequence of operations with parsed metadata,
  the snapshot holds the texts last published since the last reset, tells
  whether art and playback are on, and its two counters advance exactly with
  each genuine change of the texts or reset, and with each picture: metadata
  sent again changes nothing. *)
Theorem np_shows_current_track ops :
  Forall op_ok ops ->
  shows (foldl np_do np_init ops) (foldl d_do (mk_display ([], [], []) false false 0 0) ops).
Proof.
  assert (shows np_init (mk_display ([], [], []) false false 0 0)) as H0.
  { unfold shows, ulong. cbn [np_init np_title np_artist np_album have_art playing gen art_serial
      d_text d_art d_playing d_changes d_pictures]. by rewrite Zmod_0_l. }
  revert H0. generalize np_init, (mk_display ([], [], []) false false 0 0).
  intros s d Hs Hops. revert s d Hs.
  induction Hops as [|o ops Ho Hops IH]; intros s d Hs; cbn [foldl]; [done|].
  apply IH. by apply np_do_shows.
Qed.
End Np.

Lemma np_shows_current_track_witness :
  let ops := [NpPlaying 1; NpArt; NpMeta (mk_meta (str "Song") (str "Band") []);
              NpMeta (mk_meta (str "Song") (str "Band") [])] in
  @shows ilp32 (foldl (@np_do ilp32) np_init ops)
    (foldl d_do (mk_display ([], [], []) false false 0 0) ops).
Proof.
  cbv zeta. apply (@np_shows_current_track ilp32).
  repeat (apply List.Forall_cons;
    [first [exact I | cbn [op_ok]; unfold meta_ok; cbn; split_and!; lia]|]).
  apply List.Forall_nil.
Defined.
