(* ===== verification/RaopName.v ===== *)
(** * The service name and TXT record

    [src/raop_name.c], [src/raop_txt.c] and [src/raop_mdns_wire.c]. *)
From Stdlib Require Import ZArith Lia String.
From stdpp Require Import base numbers list.
From S2P Require Import Prelude.

Local Open Scope Z_scope.

(** ** The name *)

Definition RAOP_NAME_MAX_BYTES : nat := 50.
Definition TMP_CAP : nat := RAOP_NAME_MAX_BYTES * 4.

Definition is_ws (c : Z) : bool := (c =? 32) || (c =? 9).

(** Bytes the loop drops: controls (a tab included, so the [is_ws] test below only
    ever sees the blank), DEL, the dot and the at sign. *)
Definition dropped (c : Z) : bool := (c <? 32) || (c =? 127) || (c =? 46) || (c =? 64).

(** The filter loop on the C string [p]: the scratch filled so far, and the two
    flags. *)
Fixpoint name_loop (p tmp : bytes) (pending_space seen : bool) : bytes :=
  match p with
  | [] => tmp
  | c :: p' =>
      if (TMP_CAP <=? length tmp)%nat then tmp
      else if dropped c then name_loop p' tmp pending_space seen
      else if is_ws c then name_loop p' tmp (if seen then true else pending_space) seen
      else if pending_space then
        let tmp := tmp ++ [32] in
        if (TMP_CAP <=? length tmp)%nat then tmp
        else name_loop p' (tmp ++ [c]) false true
      else name_loop p' (tmp ++ [c]) false true
  end.

Definition is_cont (c : Z) : bool := Z.land c 192 =? 128.

(** [while (n > 0 && (tmp\[n\] & 0xC0) == 0x80) n--] ; [tmp\[length tmp\]] is the
    terminator. *)
Fixpoint back_off (tmp : bytes) (n : nat) : nat :=
  match n with
  | O => O
  | S n' => if is_cont (nth n tmp 0) then back_off tmp n' else n
  end.

Definition DEFAULT : bytes := str "ShairKindle".

(** The bytes written before the terminator, for an output of [out_cap] > 0. *)
Definition raop_name_sanitize (inp : option bytes) (out_cap : nat) : bytes :=
  let tmp := match inp with
             | None => []
             | Some s => name_loop (cstr s) [] false false
             end in
  let n := length tmp in
  if (n =? 0)%nat then take (out_cap - 1) DEFAULT
  else
    let cap := Nat.min RAOP_NAME_MAX_BYTES (out_cap - 1) in
    let n := if (cap <? n)%nat then back_off tmp cap else n in
    take n tmp.

(** *** UTF-8 *)

(** A well-formed character: one ASCII byte, or a lead byte and its continuation
    bytes. *)
Definition utf8_char (l : bytes) : Prop :=
  match l with
  | [] => False
  | c :: t =>
      (0 <= c < 128 /\ t = []) \/
      (192 <= c < 256 /\ (1 <= length t <= 3)%nat /\ Forall (fun x => 128 <= x < 192) t)
  end.

Definition utf8 (l : bytes) : Prop := exists cs, l = List.concat cs /\ Forall utf8_char cs.

Lemma is_cont_spec c : byte_ok c -> is_cont c = (128 <=? c) && (c <? 192).
Proof.
  intros Hc. apply (all_bytes_spec (fun c => Bool.eqb (is_cont c) ((128 <=? c) && (c <? 192)))) in Hc;
    [|by vm_compute]. by apply Bool.eqb_prop.
Qed.

Lemma utf8_app a b : utf8 a -> utf8 b -> utf8 (a ++ b).
Proof.
  intros (ca & -> & Ha) (cb & -> & Hb). exists (ca ++ cb).
  split; [by rewrite concat_app|by apply Forall_app].
Qed.

Lemma utf8_nil : utf8 [].
Proof. by exists []. Qed.

Lemma utf8_one c : utf8_char c -> utf8 c.
Proof. intros H. exists [c]. cbn. rewrite app_nil_r. split; [done|]. by constructor. Qed.

(** The filter without the bound on the scratch. *)
Fixpoint name_filter (p : bytes) (pending_space seen : bool) : bytes :=
  match p with
  | [] => []
  | c :: p' =>
      if dropped c then name_filter p' pending_space seen
      else if is_ws c then name_filter p' (if seen then true else pending_space) seen
      else if pending_space then 32 :: c :: name_filter p' false true
      else c :: name_filter p' false true
  end.

Lemma name_loop_filter p tmp ps seen :
  (length tmp <= TMP_CAP)%nat ->
  name_loop p tmp ps seen = take TMP_CAP (tmp ++ name_filter p ps seen).
Proof.
  revert tmp ps seen. induction p as [|c p IH]; intros tmp ps seen Hl; cbn [name_loop name_filter].
  { rewrite app_nil_r. symmetry. by apply take_ge. }
  destruct (Nat.leb_spec TMP_CAP (length tmp)).
  { rewrite take_app_le by lia. symmetry. apply take_ge. lia. }
  destruct (dropped c); [by apply IH|]. destruct (is_ws c); [by apply IH|].
  destruct ps.
  - rewrite length_app. cbn [length]. destruct (Nat.leb_spec TMP_CAP (length tmp + 1)).
    + change (32 :: c :: name_filter p false true) with ([32] ++ c :: name_filter p false true).
      rewrite app_assoc, take_app_le by (rewrite length_app; cbn [length]; lia).
      symmetry. apply take_ge. rewrite length_app. cbn [length]. lia.
    + rewrite IH by (rewrite !length_app; cbn [length]; lia). by rewrite <- !app_assoc.
  - rewrite IH by (rewrite length_app; cbn [length]; lia). by rewrite <- app_assoc.
Qed.

(** What the filter lets through. *)
Definition name_byte (c : Z) : Prop := 32 <= c /\ c <> 127 /\ c <> 46 /\ c <> 64.

Lemma name_filter_bytes p ps seen : Forall name_byte (name_filter p ps seen).
Proof.
  revert ps seen. induction p as [|c p IH]; intros ps seen; cbn [name_filter]; [done|].
  destruct (dropped c) eqn:Ed; [done|]. destruct (is_ws c); [done|].
  assert (name_byte c) as Hc by (unfold dropped in Ed; rewrite !orb_false_iff in Ed; unfold name_byte; lia).
  assert (name_byte 32) by (unfold name_byte; lia).
  destruct ps; repeat (constructor; [done|]); done.
Qed.

Lemma name_filter_head p : hd 0 (name_filter p false false) <> 32.
Proof.
  induction p as [|c p IH]; cbn [name_filter]; [done|].
  destruct (dropped c); [done|]. destruct (is_ws c) eqn:E; [done|]. cbn.
  unfold is_ws in E. rewrite orb_false_iff in E. lia.
Qed.

Lemma name_filter_multi t p ps seen :
  Forall (fun x => 128 <= x < 192) t -> t <> [] ->
  name_filter (t ++ p) ps seen =
  (if ps then [32] else []) ++ t ++ name_filter p false true.
Proof.
  intros Ht Hne. revert ps seen. induction Ht as [|c t Hc Ht IH]; intros ps seen; [done|].
  cbn [app name_filter]. assert (dropped c = false) as -> by (unfold dropped; lia).
  assert (is_ws c = false) as -> by (unfold is_ws; lia).
  destruct t as [|c' t]; [by destruct ps|]. rewrite IH by done. by destruct ps.
Qed.

(** The filter only removes or replaces ASCII characters. *)
Lemma name_filter_utf8 p ps seen : utf8 p -> utf8 (name_filter p ps seen).
Proof.
  intros (cs & -> & Hcs). revert ps seen. induction Hcs as [|l cs Hl Hcs IH]; intros ps seen; cbn [List.concat].
  { apply utf8_nil. }
  assert (utf8 [32]) as Hsp by (apply utf8_one; left; done).
  destruct l as [|c t]; [done|]. destruct Hl as [[Hc ->]|(Hc & Hlen & Ht)].
  - cbn [app name_filter]. destruct (dropped c); [done|]. destruct (is_ws c); [done|].
    assert (utf8 [c]) as H1 by (apply utf8_one; left; done).
    destruct ps; [apply (utf8_app [32]); [done|]|]; by apply (utf8_app [c]).
  - cbn [app name_filter]. assert (dropped c = false) as -> by (unfold dropped; lia).
    assert (is_ws c = false) as -> by (unfold is_ws; lia).
    assert (t <> []) as Hne by (destruct t; [cbn in Hlen; lia|done]).
    rewrite (name_filter_multi t) by done. cbn [app].
    assert (utf8 (c :: t)) as H1 by (apply utf8_one; by right).
    destruct ps; [apply (utf8_app [32]); [done|]|]; by apply (utf8_app (c :: t)).
Qed.

(** Cutting where a character starts keeps the text well formed. *)
Lemma utf8_cut l k c :
  utf8 l -> l !! k = Some c -> ~ (128 <= c < 192) -> utf8 (take k l).
Proof.
  intros (cs & -> & Hcs). revert k. induction Hcs as [|l cs Hl Hcs IH]; intros k Hk Hc; [done|].
  cbn [List.concat] in *. destruct (decide (k < length l)%nat) as [Hlt|Hge].
  - rewrite lookup_app_l in Hk by done. destruct k as [|k]; [apply utf8_nil|]. exfalso.
    destruct l as [|x t]; [done|]. cbn in Hk. destruct Hl as [[_ ->]|(_ & _ & Ht)]; [done|].
    eapply Forall_lookup_1 in Ht; [|exact Hk]. cbn in Ht. lia.
  - rewrite lookup_app_r in Hk by lia. rewrite take_app_ge by lia.
    apply utf8_app; [by apply utf8_one|]. by apply IH.
Qed.

Lemma cont_at (l : bytes) m c : bytes_ok l -> l !! m = Some c -> is_cont (nth m l 0) = (128 <=? c) && (c <? 192).
Proof.
  intros Hb Hc. rewrite (nth_lookup_Some _ _ _ _ Hc). apply is_cont_spec. by eapply bytes_ok_lookup.
Qed.

(** Inside the first character: back to its first byte. *)
Lemma back_off_first x (t rest : bytes) m : bytes_ok ((x :: t) ++ rest) -> Forall (fun y => 128 <= y < 192) t ->
  (m <= length t)%nat -> back_off ((x :: t) ++ rest) m = 0%nat.
Proof.
  intros Hb Ht. induction m as [|m IH]; intros Hm; [done|]. cbn [back_off].
  destruct (lookup_lt_is_Some_2 t m) as [y Hy]; [lia|].
  rewrite (cont_at _ _ y Hb) by (rewrite lookup_app_l by (cbn; lia); exact Hy).
  eapply Forall_lookup_1 in Ht; [|exact Hy]. cbn in Ht.
  assert ((128 <=? y) && (y <? 192) = true) as -> by lia. apply IH. lia.
Qed.

(** Beyond it: as in what follows, which starts with a first byte. *)
Lemma back_off_rest (l rest : bytes) m : bytes_ok (l ++ rest) -> (0 < length l)%nat ->
  (forall y, rest !! 0%nat = Some y -> ~ (128 <= y < 192)) -> (length l <= m < length l + length rest)%nat ->
  back_off (l ++ rest) m = (length l + back_off rest (m - length l))%nat.
Proof.
  intros Hb Hl Hr. induction m as [|m IH]; intros Hm; [lia|].
  cbn [back_off]. destruct (decide (S m = length l)) as [E|E].
  - replace (S m - length l)%nat with 0%nat by lia. cbn [back_off]. rewrite Nat.add_0_r.
    destruct (lookup_lt_is_Some_2 rest 0) as [y Hy]; [lia|].
    rewrite (cont_at _ _ y Hb) by (rewrite lookup_app_r by lia; by replace (S m - length l)%nat with 0%nat by lia).
    specialize (Hr y Hy). assert ((128 <=? y) && (y <? 192) = false) as -> by lia. done.
  - replace (S m - length l)%nat with (S (m - length l)) by lia. cbn [back_off].
    rewrite app_nth2 by lia. replace (S m - length l)%nat with (S (m - length l)) by lia.
    destruct (is_cont _); [rewrite IH by lia; done|lia].
Qed.

(** The back-off stops at the start of a character, at most three bytes back. *)
Lemma back_off_spec l n :
  bytes_ok l -> utf8 l -> (n < length l)%nat ->
  let j := back_off l n in
  (j <= n)%nat /\ (n <= j + 3)%nat /\ exists c, l !! j = Some c /\ ~ (128 <= c < 192).
Proof.
  intros Hb (cs & -> & Hcs). revert n Hb. induction Hcs as [|l cs Hl Hcs IH]; intros n Hb Hn.
  { cbn in Hn. lia. }
  cbn [List.concat] in *. cbv zeta.
  assert (exists x t, l = x :: t /\ (length t <= 3)%nat /\ ~ (128 <= x < 192) /\
    Forall (fun y => 128 <= y < 192) t) as (x & t & -> & Hlt3 & Hx & Ht).
  { destruct l as [|x t]; [done|]. exists x, t. split; [done|].
    destruct Hl as [[? ->]|(? & ? & ?)]; split_and!; try done; cbn; lia. }
  destruct (decide (n < length (x :: t))%nat) as [Hlt|Hge].
  - rewrite back_off_first by (try done; cbn in Hlt; lia). cbn in Hlt. split; [lia|]. split; [lia|]. by exists x.
  - rewrite length_app in Hn. pose proof Hb as [_ Hbc]%Forall_app.
    destruct (IH (n - length (x :: t))%nat Hbc ltac:(lia)) as (J1 & J2 & c & Jc & Jn).
    rewrite back_off_rest; [|done|cbn; lia| |lia].
    + split; [lia|]. split; [lia|]. exists c. split; [|done].
      rewrite lookup_app_r by lia.
      by replace (_ - _)%nat with (back_off (List.concat cs) (n - length (x :: t))) by lia.
    + intros y Hy. destruct Hcs as [|l' cs Hl' _]; [done|]. destruct l' as [|z t']; [done|]. injection Hy as <-.
      destruct Hl' as [[? _]|[? _]]; lia.
Qed.

Lemma back_off_take l k n : (n < k)%nat -> back_off (take k l) n = back_off l n.
Proof.
  revert k. induction n as [|n IH]; intros k Hk; [done|]. cbn [back_off].
  assert (nth (S n) (take k l) 0 = nth (S n) l 0) as ->.
  { rewrite !nth_lookup. by rewrite lookup_take_lt by lia. }
  rewrite IH by lia. done.
Qed.

Lemma cstr_bytes_ok s : bytes_ok s -> bytes_ok (cstr s).
Proof.
  induction 1 as [|c s Hc Hs IH]; cbn; [constructor|]. destruct (c =? 0); [constructor|].
  by constructor.
Qed.

Lemma name_filter_bytes_ok p ps seen : bytes_ok p -> bytes_ok (name_filter p ps seen).
Proof.
  intros Hp. revert ps seen. induction Hp as [|c p Hc Hp IH]; intros ps seen; cbn [name_filter]; [constructor|].
  destruct (dropped c); [apply IH|]. destruct (is_ws c); [apply IH|].
  assert (byte_ok 32) by (unfold byte_ok; lia).
  destruct ps; repeat (apply List.Forall_cons; [done|]); apply IH.
Qed.

(** What the loop leaves for a C string. *)
Lemma name_tmp s : name_loop (cstr s) [] false false = take TMP_CAP (name_filter (cstr s) false false).
Proof. apply name_loop_filter. cbn. lia. Qed.

Lemma ascii_utf8 l : Forall (fun c => 0 <= c < 128) l -> utf8 l.
Proof.
  induction 1 as [|c l Hc Hl IH]; [apply utf8_nil|]. apply (utf8_app [c]); [|done].
  apply utf8_one. by left.
Qed.

Lemma ascii_utf8b l : forallb (fun c => (0 <=? c) && (c <? 128)) l = true -> utf8 l.
Proof.
  rewrite forallb_forall. intros H. apply ascii_utf8, List.Forall_forall. intros c Hin.
  specialize (H c Hin). lia.
Qed.

(** A sanitized name is a valid service label.  For a name in UTF-8 and an
    output of at least 51 bytes, the result is 1 to 50 bytes of well-formed UTF-8,
    with no control character, DEL, dot or at sign, and no leading blank. *)
Theorem raop_name_sanitize_ok s out_cap :
  bytes_ok s -> utf8 (cstr s) -> (RAOP_NAME_MAX_BYTES < out_cap)%nat ->
  let r := raop_name_sanitize (Some s) out_cap in
  utf8 r /\ (1 <= length r <= RAOP_NAME_MAX_BYTES)%nat /\ Forall name_byte r /\ hd 0 r <> 32.
Proof.
  intros Hb Hu Hc. cbv zeta. unfold raop_name_sanitize. rewrite name_tmp.
  set (F := name_filter (cstr s) false false).
  pose proof (name_filter_utf8 (cstr s) false false Hu) as HFu. fold F in HFu.
  pose proof (name_filter_bytes (cstr s) false false) as HFb. fold F in HFb.
  pose proof (name_filter_head (cstr s)) as HFh. fold F in HFh.
  pose proof (name_filter_bytes_ok _ false false (cstr_bytes_ok s Hb)) as HFo. fold F in HFo.
  assert (forall k, (1 <= k <= length F)%nat -> hd 0 (take k F) <> 32) as Hhd.
  { intros k Hk. destruct F as [|x F']; [cbn in Hk; lia|]. destruct k; [lia|done]. }
  rewrite length_take. replace (RAOP_NAME_MAX_BYTES `min` (out_cap - 1))%nat with 50%nat
    by (unfold RAOP_NAME_MAX_BYTES in *; lia).
  change TMP_CAP with 200%nat. unfold RAOP_NAME_MAX_BYTES in *.
  destruct (Nat.eqb_spec (200 `min` length F) 0) as [E|E].
  - rewrite take_ge by (cbn; lia). split_and!; [|cbn; lia|cbn; lia| |done].
    + by apply ascii_utf8b.
    + apply List.Forall_forall. intros c Hin.
      assert (forallb (fun c => (32 <=? c) && negb (dropped c)) DEFAULT = true) as Hall by done.
      rewrite forallb_forall in Hall. specialize (Hall c Hin). unfold dropped in Hall.
      unfold name_byte. lia.
  - destruct (Nat.ltb_spec 50 (200 `min` length F)) as [Hl|Hl].
    + rewrite back_off_take by lia.
      destruct (back_off_spec F 50 HFo HFu ltac:(lia)) as (J1 & J2 & c & Jc & Jn).
      rewrite take_take. replace (back_off F 50 `min` 200)%nat with (back_off F 50) by lia.
      split_and!; [by eapply utf8_cut|rewrite length_take; lia|rewrite length_take; lia| |].
      * by apply Forall_take.
      * apply Hhd. lia.
    + rewrite take_take. rewrite take_ge by lia. split_and!; [done|lia|lia|done|].
      rewrite <- (take_ge F (length F)) by lia. apply Hhd. lia.
Qed.

Lemma raop_name_sanitize_ok_witness :
  let r := raop_name_sanitize (Some (str " K.3 @" ++ [195; 169] ++ replicate 60 97 ++ [0])) 64 in
  utf8 r /\ (1 <= length r <= RAOP_NAME_MAX_BYTES)%nat /\ Forall name_byte r /\ hd 0 r <> 32.
Proof.
  apply (raop_name_sanitize_ok (str " K.3 @" ++ [195; 169] ++ replicate 60 97 ++ [0]) 64);
    [by apply bytes_okb_ok| |unfold RAOP_NAME_MAX_BYTES; lia].
  replace (cstr (str " K.3 @" ++ [195; 169] ++ replicate 60 97 ++ [0]))
    with (str " K.3 @" ++ [195; 169] ++ replicate 60 97) by (vm_compute; reflexivity).
  apply utf8_app; [by apply ascii_utf8b|].
  apply utf8_app; [|apply ascii_utf8, Forall_replicate; lia].
  apply utf8_one. right. cbn [length]. split; [lia|]. split; [lia|].
  apply List.Forall_cons; [lia|apply List.Forall_nil].
Defined.

(** A name that is not UTF-8 can come out empty, without the fallback, and a
    truncated name can end with a blank. *)
Lemma raop_name_empty : raop_name_sanitize (Some (replicate 60 128 ++ [0])) 64 = [].
Proof. vm_compute. reflexivity. Qed.

Lemma raop_name_trailing_blank :
  last (raop_name_sanitize (Some (replicate 49 97 ++ [32; 98; 0])) 64) = Some 32.
Proof. vm_compute. reflexivity. Qed.

(** ** The TXT record *)

Definition txt_base : list bytes :=
  map str ["txtvers=1"; "ch=2"; "cn=1"; "ek=1"; "et=0,1"; "sm=false";
           "sr=44100"; "ss=16"; "sv=false"; "tp=UDP"; "vn=3"; "pw=false";
           "am=AirPort4,107"; "vs=105.1"; "da=true"; "md=0,1,2"; "fv=76400.10"]%string.

(** The two loops of [raop_build_txt]; the strings are C strings. *)
Fixpoint build_base (cap : nat) (out : bytes) (l : list bytes) : run (option bytes) :=
  match l with
  | [] => Ret (Some out)
  | e :: l' =>
      if (cap <=? length out + length e + 1)%nat then Ret None
      else
        let! out := (if (length out =? 0)%nat then Ret out else wr cap out [10]) in
        let! out := wr cap out e in
        build_base cap out l'
  end.

Fixpoint build_extra (cap : nat) (out : bytes) (l : list bytes) : run (option bytes) :=
  match l with
  | [] => Ret (Some out)
  | e :: l' =>
      if (cap <=? length out + length e + 2)%nat then Ret None
      else
        let! out := wr cap out [10] in
        let! out := wr cap out e in
        build_extra cap out l'
  end.

Definition raop_build_txt (cap : nat) (extra : list bytes) : run (option bytes) :=
  let! b := build_base cap [] txt_base in
  match b with
  | None => Ret None
  | Some out =>
      let! r := build_extra cap out extra in
      match r with
      | None => Ret None
      | Some out => let! _ := wr cap out [0] in Ret (Some out)
      end
  end.

(** [raop_txt_to_wire]: the wire bytes and the offsets of the entries. *)
Fixpoint wire_loop (fuel cap max_entries : nat) (p out : bytes) (offs : list nat) :
    run (option (bytes * list nat)) :=
  match fuel with
  | O => NoFuel
  | S fuel' =>
      match p with
      | [] => Ret (Some (out, offs))
      | _ =>
          let nl := memchr 10 p in
          let len := match nl with Some k => k | None => length p end in
          if (255 <? len)%nat then Ret None
          else if (max_entries <=? length offs)%nat then Ret None
          else if (cap <? length out + 1 + len)%nat then Ret None
          else
            let offs := offs ++ [length out] in
            let! out := wr cap out [u8 (Z.of_nat len)] in
            let! out := wr cap out (take len p) in
            match nl with
            | None => Ret (Some (out, offs))
            | Some k => wire_loop fuel' cap max_entries (drop (k + 1) p) out offs
            end
      end
  end.

Definition raop_txt_to_wire (txt : option bytes) (cap max_entries : nat) : run (option (bytes * list nat)) :=
  match txt with
  | None => Ret None
  | Some t => wire_loop (S (length t)) cap max_entries t [] []
  end.

(** *** The list a record states *)

Fixpoint join (es : list bytes) : bytes :=
  match es with
  | [] => []
  | [e] => e
  | e :: es' => e ++ 10 :: join es'
  end.

Definition entry (e : bytes) : bytes := u8 (Z.of_nat (length e)) :: e.
Definition wire (es : list bytes) : bytes := List.concat (map entry es).

(** The offsets of the entries, the first at [o]. *)
Fixpoint offsets (o : nat) (es : list bytes) : list nat :=
  match es with
  | [] => []
  | e :: es' => o :: offsets (o + S (length e)) es'
  end.

Definition entry_ok (e : bytes) : Prop :=
  e <> [] /\ (length e <= 255)%nat /\ Forall (fun c => c <> 10) e.

Lemma join_snoc es e : join (es ++ [e]) = match es with [] => e | _ => join es ++ 10 :: e end.
Proof.
  induction es as [|x es IH]; [done|]. cbn [app join]. destruct es as [|y es]; [done|].
  cbn [app] in *. rewrite IH. by rewrite <- app_assoc.
Qed.

Lemma join_app_le a b : (length (join a) <= length (join (a ++ b)))%nat.
Proof.
  induction b as [|x b IH] using rev_ind; [by rewrite app_nil_r|].
  rewrite app_assoc, join_snoc. destruct (a ++ b) eqn:E.
  - apply app_eq_nil in E as [-> ->]. cbn. lia.
  - rewrite length_app. lia.
Qed.

Lemma join_nonempty es : Forall entry_ok es -> es <> [] -> (1 <= length (join es))%nat.
Proof.
  intros He Hne. destruct es as [|e es]; [done|]. inversion He as [|? ? [He1 _] _]; subst.
  assert (1 <= length e)%nat by (destruct e; [done|cbn; lia]).
  destruct es; cbn [join]; rewrite ?length_app; lia.
Qed.

Lemma build_base_spec cap pre l :
  Forall entry_ok (pre ++ l) ->
  exists r, build_base cap (join pre) l = Ret r /\
    match r with
    | Some o => o = join (pre ++ l) /\ (l <> [] -> (length o < cap)%nat)
    | None => (cap <= length (join (pre ++ l)) + 2)%nat
    end.
Proof.
  revert pre. induction l as [|e l IH]; intros pre Hok; cbn [build_base].
  { eexists. split; [done|]. by rewrite app_nil_r. }
  pose proof (join_snoc pre e) as Hj.
  assert (pre ++ e :: l = (pre ++ [e]) ++ l) as Hsplit by (by rewrite <- app_assoc).
  destruct (Nat.leb_spec cap (length (join pre) + length e + 1)) as [Hc|Hc].
  - exists None. split; [done|]. rewrite Hsplit. pose proof (join_app_le (pre ++ [e]) l) as Hm.
    rewrite Hj in Hm. destruct pre as [|x pre]; [cbn [join length] in *; lia|].
    cbv iota in Hm. rewrite length_app in Hm. cbn [length] in Hm. lia.
  - assert ((let! out := (if (length (join pre) =? 0)%nat then Ret (join pre) else wr cap (join pre) [10]) in
      let! out := wr cap out e in build_base cap out l) = build_base cap (join (pre ++ [e])) l) as ->.
    { rewrite Hj. destruct pre as [|x pre].
      - cbn [join length Nat.eqb rbind]. rewrite wr_fits by (cbn [length join] in *; lia). done.
      - apply Forall_app in Hok as [Hp _].
        pose proof (join_nonempty (x :: pre) Hp ltac:(done)).
        destruct (Nat.eqb_spec (length (join (x :: pre))) 0); [lia|].
        rewrite wr_fits by (cbn [length]; lia). cbn [rbind].
        rewrite wr_fits by (rewrite length_app; cbn [length]; lia). cbn [rbind].
        by rewrite <- app_assoc. }
    rewrite Hsplit. destruct (IH (pre ++ [e])) as (r & -> & Hr); [by rewrite <- Hsplit|].
    exists r. split; [done|]. destruct r as [o|]; [|done]. destruct Hr as [-> Hr].
    split; [done|]. intros _. destruct l as [|e' l]; [|by apply Hr]. rewrite app_nil_r, Hj.
    destruct pre as [|x pre]; [cbn [join length] in *; lia|]. cbv iota. rewrite length_app. cbn [length]. lia.
Qed.

Lemma build_extra_spec cap pre l :
  pre <> [] -> (length (join pre) < cap)%nat ->
  exists r, build_extra cap (join pre) l = Ret r /\
    match r with
    | Some o => o = join (pre ++ l) /\ (length o < cap)%nat
    | None => (cap <= length (join (pre ++ l)) + 2)%nat
    end.
Proof.
  revert pre. induction l as [|e l IH]; intros pre Hne Hl; cbn [build_extra].
  { eexists. split; [done|]. by rewrite app_nil_r. }
  pose proof (join_snoc pre e) as Hj.
  assert (pre ++ e :: l = (pre ++ [e]) ++ l) as Hsplit by (by rewrite <- app_assoc).
  assert (join (pre ++ [e]) = join pre ++ 10 :: e) as Hj' by (rewrite Hj; by destruct pre).
  destruct (Nat.leb_spec cap (length (join pre) + length e + 2)) as [Hc|Hc].
  - exists None. split; [done|]. rewrite Hsplit. pose proof (join_app_le (pre ++ [e]) l) as Hm.
    rewrite Hj', length_app in Hm. cbn [length] in Hm. lia.
  - rewrite wr_fits by (cbn [length]; lia). cbn [rbind].
    rewrite wr_fits by (rewrite length_app; cbn [length]; lia). cbn [rbind].
    rewrite <- app_assoc. cbn [app]. rewrite <- Hj', Hsplit. apply IH.
    + by destruct pre.
    + rewrite Hj', length_app. cbn [length]. lia.
Qed.

Lemma join_cons e es : es <> [] -> join (e :: es) = e ++ 10 :: join es.
Proof. by destruct es. Qed.

Lemma wire_loop_spec fuel cap mx es out offs :
  Forall entry_ok es -> es <> [] -> (length (join es) < fuel)%nat ->
  (length out + length (wire es) <= cap)%nat -> (length offs + length es <= mx)%nat ->
  wire_loop fuel cap mx (join es) out offs = Ret (Some (out ++ wire es, offs ++ offsets (length out) es)).
Proof.
  intros Hok. revert fuel out offs. induction Hok as [|e es (Hne & Hle & Hnl) Hok IH]; [done|].
  intros fuel out offs _ Hf Hc Hm. destruct fuel as [|fuel]; [lia|].
  unfold wire in *. cbn [map List.concat] in *. rewrite length_app in Hc. unfold entry at 1 in Hc.
  cbn [length] in Hc, Hm. cbn [wire_loop].
  destruct (decide (es = [])) as [->|Hes].
  - cbn [join map List.concat] in *. rewrite app_nil_r in *.
    assert (memchr 10 e = None) as -> by (by apply memchr_None).
    destruct e as [|c e'] eqn:Ee; [done|]. rewrite <- Ee in *.
    rewrite (proj2 (Nat.ltb_ge _ _)) by lia. rewrite (proj2 (Nat.leb_gt _ _)) by lia.
    rewrite (proj2 (Nat.ltb_ge cap _)) by (rewrite Ee in *; cbn [length] in *; lia).
    rewrite wr_fits by (rewrite Ee in *; cbn [length] in *; lia). cbn [rbind].
    rewrite take_ge by lia.
    rewrite wr_fits by (rewrite length_app; rewrite Ee in *; cbn [length] in *; lia). cbn [rbind].
    unfold entry. cbn [offsets]. by rewrite <- app_assoc.
  - rewrite join_cons by done. rewrite join_cons, length_app in Hf by done. cbn [length] in Hf.
    rewrite memchr_skip by done. rewrite take_app_length, drop_app_add. cbn [drop]. rewrite drop_0.
    destruct (e ++ 10 :: join es) as [|c r] eqn:Ee; [by apply app_eq_nil in Ee as [_ ?]|].
    rewrite (proj2 (Nat.ltb_ge _ _)) by lia. rewrite (proj2 (Nat.leb_gt _ _)) by lia.
    rewrite (proj2 (Nat.ltb_ge cap _)) by lia.
    rewrite wr_fits by (cbn [length]; lia). cbn [rbind].
    rewrite wr_fits by (rewrite length_app; cbn [length]; lia). cbn [rbind].
    rewrite IH; [|done|lia| |].
    + replace (length ((out ++ [u8 (Z.of_nat (length e))]) ++ e)) with (length out + S (length e))%nat
        by (rewrite !length_app; cbn [length]; lia).
      by rewrite <- !app_assoc.
    + rewrite !length_app. cbn [length]. lia.
    + rewrite length_app. cbn [length]. lia.
Qed.

(** Reading a TXT record: each length byte and the entry it announces. *)
Fixpoint unwire (fuel : nat) (w : bytes) : option (list bytes) :=
  match fuel, w with
  | _, [] => Some []
  | O, _ => None
  | S fuel', n :: w' =>
      if Z.of_nat (length w') <? n then None
      else cons (take (Z.to_nat n) w') <$> unwire fuel' (drop (Z.to_nat n) w')
  end.

Lemma unwire_wire es : Forall entry_ok es -> unwire (length es) (wire es) = Some es.
Proof.
  induction 1 as [|e es (Hne & Hle & Hnl) Hok IH]; [done|]. unfold wire. cbn [length map List.concat].
  unfold entry at 1. cbn [app unwire]. rewrite u8_small by lia.
  rewrite length_app, (proj2 (Z.ltb_ge _ _)) by lia. rewrite Nat2Z.id, take_app_length, drop_app_length.
  fold (wire es). by rewrite IH.
Qed.

Lemma txt_base_ok : Forall entry_ok txt_base.
Proof.
  apply List.Forall_forall. intros e He.
  assert (forallb (fun e => negb (length e =? 0)%nat && (length e <=? 255)%nat &&
    forallb (fun c => negb (c =? 10)) e) txt_base = true) as Hall by (by vm_compute).
  rewrite forallb_forall in Hall. specialize (Hall e He).
  apply andb_true_iff in Hall as [[H1 H2]%andb_true_iff H3]. split_and!.
  - by destruct e.
  - by apply Nat.leb_le.
  - apply List.Forall_forall. intros c Hin. rewrite forallb_forall in H3. specialize (H3 c Hin). lia.
Qed.

(** A record that fits is its attributes, one per line. *)
Lemma build_txt_join cap extra :
  (length (join (txt_base ++ extra)) + 2 < cap)%nat ->
  raop_build_txt cap extra = Ret (Some (join (txt_base ++ extra))).
Proof.
  intros Hc. unfold raop_build_txt.
  destruct (build_base_spec cap [] txt_base txt_base_ok) as (r & E & Hr). cbn [join app] in E, Hr.
  rewrite E. cbn [rbind]. pose proof (join_app_le txt_base extra) as Hle.
  destruct r as [o|]; [|lia]. destruct Hr as [-> Hr].
  destruct (build_extra_spec cap txt_base extra ltac:(done) ltac:(lia)) as (r & -> & Hr').
  cbn [rbind]. destruct r as [o|]; [|lia]. destruct Hr' as [-> Hr'].
  rewrite wr_fits by (cbn [length]; lia). done.
Qed.

(** The service record carries exactly the attributes.  Building the record
    from any extra attributes never leaves its buffer; when the text fits, its
    wire form is the length-prefixed list of the built-in attributes followed by
    the extra ones, in order, with the offset of each, and reads back as that
    list. *)
Theorem raop_txt_round_trip cap extra wcap mx :
  Forall entry_ok extra ->
  let es := txt_base ++ extra in
  (length (join es) + 2 < cap)%nat -> (length (wire es) <= wcap)%nat -> (length es <= mx)%nat ->
  exists t, raop_build_txt cap extra = Ret (Some t) /\
    raop_txt_to_wire (Some t) wcap mx = Ret (Some (wire es, offsets 0 es)) /\
    unwire (length es) (wire es) = Some es.
Proof.
  intros Hx es Hc Hw Hm.
  assert (Forall entry_ok es) as Hes by (apply Forall_app; split; [apply txt_base_ok|done]).
  exists (join es). split; [by apply build_txt_join|]. split.
  - unfold raop_txt_to_wire. rewrite wire_loop_spec; [done|done|done|lia|cbn [length]; lia|cbn [length]; lia].
  - by apply unwire_wire.
Qed.

Lemma raop_txt_round_trip_witness :
  let es := txt_base ++ [str "pk=00ff"] in
  exists t, raop_build_txt 512 [str "pk=00ff"] = Ret (Some t) /\
    raop_txt_to_wire (Some t) 512 32 = Ret (Some (wire es, offsets 0 es)) /\
    unwire (length es) (wire es) = Some es.
Proof.
  apply (raop_txt_round_trip 512 [str "pk=00ff"] 512 32);
    [|apply Nat.ltb_lt; reflexivity|apply Nat.leb_le; reflexivity|apply Nat.leb_le; reflexivity].
  apply List.Forall_cons; [|apply List.Forall_nil]. unfold entry_ok. split_and!; [done|apply Nat.leb_le; reflexivity|].
  apply List.Forall_forall. cbn. intuition lia.
Defined.
