(* ===== verification/DacpState.v ===== *)
(** * DACP credentials and endpoint ([src/dacp_state.c], [src/dacp_state.h])

    Every operation on the shared state runs under its mutex and is one step. *)
From Stdlib Require Import ZArith Lia String.
From stdpp Require Import base numbers list.
From S2P Require Import Prelude.

Local Open Scope Z_scope.

(** ** Validators *)

(** [hexval]: the upper-case digit. *)
Definition hexval (c : Z) : option Z :=
  if (48 <=? c) && (c <=? 57) then Some c
  else if (97 <=? c) && (c <=? 102) then Some (c - 97 + 65)
  else if (65 <=? c) && (c <=? 70) then Some c
  else None.

Fixpoint hex_upper (inp : bytes) : option bytes :=
  match inp with
  | [] => Some []
  | c :: t =>
      match hexval c with
      | None => None
      | Some u => cons u <$> hex_upper t
      end
  end.

(** The C string written, or [None] for -1; the input is [None] for NULL. *)
Definition dacp_normalize_id (inp : option bytes) : option bytes :=
  match inp with
  | None => None
  | Some s => if (length s =? 0)%nat || (16 <? length s)%nat then None else hex_upper s
  end.

(** The digit loop, with the room left before the terminator. *)
Fixpoint token_loop (outcap : nat) (inp out : bytes) : option bytes :=
  match inp with
  | c :: t =>
      if is_digit c then
        if (outcap <=? length out + 1)%nat then None else token_loop outcap t (out ++ [c])
      else Some out
  | [] => Some out
  end.

Definition dacp_sanitize_token (outcap : nat) (inp : option bytes) : option bytes :=
  match inp with
  | None => None
  | Some s =>
      if (outcap =? 0)%nat then None
      else
        match token_loop outcap s [] with
        | Some [] | None => None
        | r => r
        end
  end.

(** ** The state *)

Record dacp_snapshot_t := mk_dacp {
  generation : Z;
  have_creds : bool;
  dacp_id : bytes;
  active_remote : bytes;
  resolved_port : Z;
  resolved_gen : Z;
  peer_ip_be : Z;
}.

Definition dacp_state_init : dacp_snapshot_t := mk_dacp 0 false [] [] 0 0 0.

Definition dacp_state_new_session (g : dacp_snapshot_t) : dacp_snapshot_t :=
  mk_dacp (u32 (generation g + 1)) false [] [] 0 0 0.

Definition dacp_state_capture (id token : option bytes) (peer : Z) (g : dacp_snapshot_t) :
    dacp_snapshot_t :=
  match dacp_normalize_id id, dacp_sanitize_token 32 token with
  | Some nid, Some ntok =>
      let changed := negb (have_creds g) || negb (bytes_eqb (dacp_id g) nid)
                     || negb (bytes_eqb (active_remote g) ntok) in
      mk_dacp (generation g) true nid ntok
        (if changed then 0 else resolved_port g) (if changed then 0 else resolved_gen g) peer
  | _, _ =>
      mk_dacp (generation g) (have_creds g) (dacp_id g) (active_remote g) (resolved_port g)
        (resolved_gen g) peer
  end.

Definition dacp_state_snapshot (g : dacp_snapshot_t) : dacp_snapshot_t := g.

Definition dacp_state_publish_port (gen port : Z) (g : dacp_snapshot_t) : dacp_snapshot_t :=
  if gen =? generation g then
    mk_dacp (generation g) (have_creds g) (dacp_id g) (active_remote g) port gen (peer_ip_be g)
  else g.

(** ** Runs *)

Inductive dacp_op :=
  | DNewSession
  | DCapture (id token : option bytes) (peer : Z)
  | DPublish (gen port : Z).

Definition dacp_do (g : dacp_snapshot_t) (o : dacp_op) : dacp_snapshot_t :=
  match o with
  | DNewSession => dacp_state_new_session g
  | DCapture id token peer => dacp_state_capture id token peer g
  | DPublish gen port => dacp_state_publish_port gen port g
  end.

(** *** What the validators let through *)

Definition hex_byte (c : Z) : Prop := 48 <= c <= 57 \/ 65 <= c <= 70.

Definition id_ok (l : bytes) : Prop := (1 <= length l <= 16)%nat /\ Forall hex_byte l.
Definition token_ok (l : bytes) : Prop :=
  (1 <= length l <= 31)%nat /\ Forall (fun c => is_digit c = true) l.

Lemma hex_upper_spec s l :
  hex_upper s = Some l -> length l = length s /\ Forall hex_byte l.
Proof.
  revert l. induction s as [|c s IH]; intros l; cbn [hex_upper]; [by intros [= <-]|].
  destruct (hexval c) as [u|] eqn:E; [|done]. intros (l' & Hl & ->)%fmap_Some.
  destruct (IH l' Hl) as [H1 H2]. split; [cbn; congruence|]. constructor; [|done].
  unfold hexval in E. unfold hex_byte. repeat case_match; simplify_eq; lia.
Qed.

Lemma dacp_normalize_id_ok inp l : dacp_normalize_id inp = Some l -> id_ok l.
Proof.
  unfold dacp_normalize_id. destruct inp as [s|]; [|done].
  destruct (Nat.eqb_spec (length s) 0); [done|]. destruct (Nat.ltb_spec 16 (length s)); [done|].
  cbn [orb]. intros [H1 H2]%hex_upper_spec. split; [lia|done].
Qed.

Lemma token_loop_spec outcap s out r :
  token_loop outcap s out = Some r ->
  exists t, r = out ++ t /\ Forall (fun c => is_digit c = true) t /\ prefixb t s = true /\
    (t <> [] -> (length r < outcap)%nat) /\
    match drop (length t) s with c :: _ => is_digit c = false | [] => True end.
Proof.
  revert out. induction s as [|c s IH]; intros out; cbn [token_loop].
  { intros [= <-]. exists []. rewrite app_nil_r. by split_and!. }
  destruct (is_digit c) eqn:Ed.
  - destruct (Nat.leb_spec outcap (length out + 1)); [done|].
    intros (t & -> & Ht & Hp & Hl & Hn)%IH. exists (c :: t). rewrite <- app_assoc.
    split_and!; [done|by constructor| | |done].
    + cbn. by rewrite Z.eqb_refl.
    + intros _. destruct t as [|x t]; [rewrite !length_app; cbn; lia|].
      specialize (Hl ltac:(done)). rewrite !length_app in *. cbn in *. lia.
  - intros [= <-]. exists []. rewrite app_nil_r. by split_and!.
Qed.

Lemma dacp_sanitize_token_ok inp l : dacp_sanitize_token 32 inp = Some l -> token_ok l.
Proof.
  unfold dacp_sanitize_token. destruct inp as [s|]; [|done]. cbn [Nat.eqb].
  destruct (token_loop 32 s []) as [r|] eqn:E; [|done].
  apply token_loop_spec in E as (t & -> & Ht & _ & Hl & _). cbn [app] in *.
  destruct t as [|c t]; [done|]. intros [= <-]. specialize (Hl ltac:(done)).
  split; [cbn in *; lia|done].
Qed.

(** *** The invariant: published credentials are validated ones, and a port is
    cached only under the current generation. *)
Definition dacp_ok (g : dacp_snapshot_t) : Prop :=
  0 <= generation g < 4294967296 /\
  (have_creds g = true -> id_ok (dacp_id g) /\ token_ok (active_remote g)) /\
  (have_creds g = false -> dacp_id g = [] /\ active_remote g = []) /\
  (resolved_port g <> 0 -> resolved_gen g = generation g).

Lemma dacp_do_ok g o : dacp_ok g -> dacp_ok (dacp_do g o).
Proof.
  intros (Hg & Hc & Hn & Hr). destruct o as [|id token peer|gen port]; cbn [dacp_do].
  - unfold dacp_ok, dacp_state_new_session. cbn [generation have_creds dacp_id active_remote resolved_port resolved_gen].
    pose proof (u32_range (generation g + 1)). split_and!; done || lia.
  - unfold dacp_state_capture.
    destruct (dacp_normalize_id id) as [nid|] eqn:E1;
      [destruct (dacp_sanitize_token 32 token) as [ntok|] eqn:E2|];
      try (unfold dacp_ok; cbn; split_and!; done || lia).
    apply dacp_normalize_id_ok in E1. apply dacp_sanitize_token_ok in E2.
    unfold dacp_ok. cbn. split_and!; try done; [lia..|by case_match].
  - unfold dacp_state_publish_port. destruct (Z.eqb_spec gen (generation g)) as [->|]; [|done].
    unfold dacp_ok. cbn. split_and!; done || lia.
Qed.

Lemma dacp_run_ok g ops : dacp_ok g -> dacp_ok (foldl dacp_do g ops).
Proof.
  revert g. induction ops as [|o ops IH]; intros g Hg; [done|]. cbn [foldl]. by apply IH, dacp_do_ok.
Qed.

Lemma dacp_init_ok : dacp_ok dacp_state_init.
Proof. unfold dacp_ok. cbn. by split_and!. Qed.

(** The sessions started by a run. *)
Definition sessions (ops : list dacp_op) : nat :=
  length (List.filter (fun o => match o with DNewSession => true | _ => false end) ops).

Lemma generation_run g ops :
  0 <= generation g < 4294967296 ->
  generation (foldl dacp_do g ops) = u32 (generation g + Z.of_nat (sessions ops)).
Proof.
  revert g. induction ops as [|o ops IH]; intros g Hg; cbn [foldl].
  { unfold sessions. cbn. by rewrite Z.add_0_r, u32_small. }
  destruct o as [|id token peer|gen port]; cbn [dacp_do].
  - rewrite IH by apply u32_range. unfold dacp_state_new_session, sessions. cbn [generation List.filter length].
    unfold u32. rewrite Zplus_mod_idemp_l. f_equal. lia.
  - rewrite IH; unfold dacp_state_capture; repeat case_match; done.
  - rewrite IH; unfold dacp_state_publish_port; repeat case_match; done.
Qed.

(** What the control path reads is always validated and never stale across
    sessions.  After any sequence of new sessions, captured headers and resolved
    ports, published credentials are an identifier of 1 to 16 upper-case
    hexadecimal digits and a token of 1 to 31 digits, so neither can inject
    anything into a request; and a port that counts as resolved was published in
    the session the state is in. *)
Theorem dacp_state_valid ops :
  let g := foldl dacp_do dacp_state_init ops in
  (have_creds g = true -> id_ok (dacp_id g) /\ token_ok (active_remote g)) /\
  (resolved_port g <> 0 -> resolved_gen g = generation g /\
     exists before after port, ops = before ++ DPublish (resolved_gen g) port :: after /\
       port = resolved_port g /\ sessions after = 0%nat /\
       generation (foldl dacp_do dacp_state_init before) = generation g).
Proof.
  cbv zeta. pose proof (dacp_run_ok _ ops dacp_init_ok) as (Hg & Hc & _ & Hr).
  split; [done|]. intros Hp. split; [by apply Hr|].
  clear Hc Hr Hg. induction ops as [|o ops IH] using rev_ind; [done|].
  rewrite foldl_app in *. cbn [foldl] in *. set (g := foldl dacp_do dacp_state_init ops) in *.
  destruct o as [|id token peer|gen port]; cbn [dacp_do] in *.
  - by destruct Hp.
  - assert (resolved_port g <> 0 /\ resolved_port (dacp_state_capture id token peer g) = resolved_port g /\
      resolved_gen (dacp_state_capture id token peer g) = resolved_gen g /\
      generation (dacp_state_capture id token peer g) = generation g) as (Hp0 & -> & -> & ->).
    { unfold dacp_state_capture in *. destruct (dacp_normalize_id id), (dacp_sanitize_token 32 token);
        cbn in *; try done. revert Hp. by case_match. }
    destruct (IH Hp0) as (b & a & port & E0 & E1 & E2 & E3).
    exists b, (a ++ [DCapture id token peer]), port.
    split_and!; try done; [by rewrite E0 at 1; rewrite <- app_assoc|]. unfold sessions in *. rewrite List.filter_app, length_app. cbn. lia.
  - unfold dacp_state_publish_port in *. destruct (Z.eqb_spec gen (generation g)) as [->|].
    + exists ops, [], port. cbn in *. by split_and!.
    + destruct (IH Hp) as (b & a & port' & E0 & E1 & E2 & E3).
      exists b, (a ++ [DPublish gen port]), port'.
      split_and!; try done; [by rewrite E0 at 1; rewrite <- app_assoc|].
      unfold sessions in *. rewrite List.filter_app, length_app. cbn. lia.
Qed.

(** Within one session the port is not so guarded: a port resolved for one
    identifier and published after a second identifier was captured stays cached
    for the second. *)
Lemma stale_port_after_identity_change :
  let g := foldl dacp_do dacp_state_init
    [DNewSession; DCapture (Some (str "AA")) (Some (str "1")) 7;
     DCapture (Some (str "BB")) (Some (str "2")) 7; DPublish 1 3689] in
  dacp_id g = str "BB" /\ resolved_gen g = generation g /\ resolved_port g = 3689.
Proof. vm_compute. split_and!; reflexivity. Qed.
