(* ===== verification/DacpResolve.v ===== *)
(** * The DACP port resolver ([src/dacp_resolve.c], [src/dacp_resolve.h])

    The mDNS query builder and the reader of responses, against a relational
    description of the DNS wire format, and the one-shot resolver loop.  The reader
    compares names with [strcmp], so its exactness is for packets of plain names. *)
From Stdlib Require Import ZArith Lia String.
From stdpp Require Import base numbers list.
From S2P Require Import Prelude DacpState.

Local Open Scope Z_scope.

Definition DNS_TYPE_SRV : Z := 33.
Definition DNS_MAX_NAME : nat := 256.

(** ** The query *)

(** [encode_name]: [out] holds the bytes written so far; [None] is -1. *)
Fixpoint encode_loop (fuel cap : nat) (s out : bytes) : run (option bytes) :=
  match fuel with
  | O => NoFuel
  | S fuel' =>
      let finish o :=
        if (cap <? length o + 1)%nat then Ret None
        else let! o := wr cap o [0] in Ret (Some o) in
      match s with
      | [] => finish out
      | _ =>
          let dot := memchr 46 s in
          let l := default (length s) dot in
          if (l =? 0)%nat || (63 <? l)%nat then Ret None
          else if (cap <=? length out + 1 + l)%nat then Ret None
          else
            let! out := wr cap out [u8 (Z.of_nat l)] in
            let! lab := rd_sub s 0 l in
            let! out := wr cap out lab in
            match dot with
            | None => finish out
            | Some d => encode_loop fuel' cap (drop (S d) s) out
            end
      end
  end.

Definition encode_name (cap : nat) (dotted : bytes) : run (option bytes) :=
  encode_loop (S (length dotted)) cap dotted [].

(** The packet, of length the C result. *)
Definition dacp_srv_build_query (cap : nat) (owner : bytes) (dnsid : Z) : run (option bytes) :=
  if (cap <? 12)%nat then Ret None
  else
    let! head := wr cap [] [u8 (Z.shiftr dnsid 8); u8 dnsid; 0; 0; 0; 1; 0; 0; 0; 0; 0; 0] in
    let! name := encode_name (cap - 12) owner in
    match name with
    | None => Ret None
    | Some n =>
        let! buf := wr cap head n in
        if (cap <? length buf + 4)%nat then Ret None
        else
          let! buf := wr cap buf [0; DNS_TYPE_SRV] in
          let! buf := wr cap buf [128; 1] in
          Ret (Some buf)
    end.

(** ** The response *)

(** [read_name]: the name without its terminator and the offset past it. *)
Fixpoint read_name_loop (fuel : nat) (p : bytes) (outcap : nat) (out : bytes) (hops : nat)
    (next : option nat) (cur : nat) : run (option (bytes * nat)) :=
  match fuel with
  | O => NoFuel
  | S fuel' =>
      let len := length p in
      if (len <=? cur)%nat then Ret None
      else
        let! b := rd p cur in
        if Z.land b 192 =? 192 then
          if (len <=? cur + 1)%nat then Ret None
          else
            let! b1 := rd p (cur + 1) in
            let ptr := Z.to_nat (Z.lor (Z.shiftl (Z.land b 63) 8) b1) in
            let next := Some (default (cur + 2)%nat next) in
            if (cur <=? ptr)%nat then Ret None
            else if (8 <? S hops)%nat then Ret None
            else read_name_loop fuel' p outcap out (S hops) next ptr
        else if negb (Z.land b 192 =? 0) then Ret None
        else
          let l := Z.to_nat b in
          if (l =? 0)%nat then
            if (outcap <=? length out)%nat then Ret None
            else
              let! _ := wr outcap out [0] in
              Ret (Some (out, default (cur + 1)%nat next))
          else if (63 <? l)%nat then Ret None
          else if (len <? cur + 1 + l)%nat then Ret None
          else if (outcap <=? length out + l + 1)%nat then Ret None
          else
            let! out := (match out with [] => Ret [] | _ => wr outcap out [46] end) in
            let! lab := rd_sub p (cur + 1) l in
            let! out := wr outcap out (map tolower lab) in
            read_name_loop fuel' p outcap out hops next (cur + 1 + l)
  end.

(** At most nine runs of labels, each shorter than the packet. *)
Definition read_name (p : bytes) (off outcap : nat) : run (option (bytes * nat)) :=
  read_name_loop (9 * S (length p)) p outcap [] 0 None off.

Definition rd16 (p : bytes) (i : nat) : run Z :=
  let! a := rd p i in
  let! b := rd p (i + 1) in
  Ret (Z.lor (Z.shiftl a 8) b).

Definition rd_ttl (p : bytes) (i : nat) : run Z :=
  let! a := rd p i in
  let! b := rd p (i + 1) in
  let! c := rd p (i + 2) in
  let! d := rd p (i + 3) in
  Ret (Z.lor (Z.lor (Z.lor (Z.shiftl a 24) (Z.shiftl b 16)) (Z.shiftl c 8)) d).

(** The question loop: the offset past the questions. *)
Fixpoint skip_questions (n : nat) (p : bytes) (off : nat) : run (option nat) :=
  match n with
  | O => Ret (Some off)
  | S n' =>
      let! r := read_name p off DNS_MAX_NAME in
      match r with
      | None => Ret None
      | Some (_, next) =>
          let off := (next + 4)%nat in
          if (length p <? off)%nat then Ret None else skip_questions n' p off
      end
  end.

(** The record loop. *)
Fixpoint scan_records (n : nat) (p want : bytes) (off : nat) : run (option Z) :=
  match n with
  | O => Ret None
  | S n' =>
      let! r := read_name p off DNS_MAX_NAME in
      match r with
      | None => Ret None
      | Some (nm, off) =>
          if (length p <? off + 10)%nat then Ret None
          else
            let! type := rd16 p off in
            let! ttl := rd_ttl p (off + 4) in
            let! rdlen := rd16 p (off + 8) in
            let rdata := (off + 10)%nat in
            if Z.of_nat (length p) <? Z.of_nat rdata + rdlen then Ret None
            else
              let! found :=
                (if (type =? DNS_TYPE_SRV) && (6 <=? rdlen) && negb (ttl =? 0) && bytes_eqb (cstr nm) want
                 then
                   let! port := rd16 p (rdata + 4) in
                   Ret (if port =? 0 then None else Some port)
                 else Ret None) in
              match found with
              | Some port => Ret (Some port)
              | None => scan_records n' p want (rdata + Z.to_nat rdlen)
              end
      end
  end.

Definition dacp_srv_parse_response (pkt owner : bytes) (dnsid : Z) : run (option Z) :=
  if (length pkt <? 12)%nat then Ret None
  else
    let! id := rd16 pkt 0 in
    if negb (dnsid =? 0) && negb (id =? dnsid) then Ret None
    else
      let! flags := rd pkt 2 in
      if Z.land flags 128 =? 0 then Ret None
      else
        let! qd := rd16 pkt 4 in
        let! an := rd16 pkt 6 in
        let! ns := rd16 pkt 8 in
        let! ar := rd16 pkt 10 in
        if (DNS_MAX_NAME <=? length owner)%nat then Ret None
        else
          let want := map tolower owner in
          let! off := skip_questions (Z.to_nat qd) pkt 12 in
          match off with
          | None => Ret None
          | Some off => scan_records (Z.to_nat (an + ns + ar)) pkt want off
          end.

(** ** The resolver loop

    One pass of the loop sees the clock and at most one datagram ([None] when
    [poll] or [recvfrom] gives nothing). *)
Record pass := mk_pass { p_now : Z; p_reply : option bytes }.

Inductive net_op := NSend (pkt : bytes) | NClose.

Fixpoint resolve_loop (passes : list pass) (q owner : bytes) (start deadline : Z) (half : bool)
    (tr : list net_op) : run (Z * list net_op) :=
  match passes with
  | [] => NoFuel
  | ps :: rest =>
      let now := p_now ps in
      if deadline - now <=? 0 then Ret (0, tr ++ [NClose])
      else
        let again := negb half && (Z.quot (deadline - start) 2 <=? now - start) in
        let tr := if again then tr ++ [NSend q] else tr in
        (* half_sent_at = now, which counts as unset when the clock reads 0 *)
        let half := if again then negb (now =? 0) else half in
        match p_reply ps with
        | None => resolve_loop rest q owner start deadline half tr
        | Some rb =>
            let! r := dacp_srv_parse_response rb owner 0 in
            match r with
            | Some port => Ret (port, tr ++ [NClose])
            | None => resolve_loop rest q owner start deadline half tr
            end
        end
  end.

(** [clk_id] and [start] are the clock readings taken before the loop; [sock] and
    [bound] tell whether the socket could be opened and bound. *)
Definition dacp_resolve_port (sock bound : bool) (clk_id start deadline : Z) (owner : bytes)
    (passes : list pass) : run (Z * list net_op) :=
  if negb sock then Ret (0, [])
  else if negb bound then Ret (0, [NClose])
  else
    let dnsid := Z.land clk_id 65535 in
    let dnsid := if dnsid =? 0 then 1 else dnsid in
    let! q := dacp_srv_build_query 512 owner dnsid in
    match q with
    | None => Ret (0, [NClose])
    | Some q => resolve_loop passes q owner start deadline false [NSend q]
    end.

(** ** Names on the wire *)

(** [name_at p off h ls next]: the labels [ls] are written at [off], through [h]
    compression pointers, each pointing backwards; [next] is the offset past the
    name. *)
Inductive name_at (p : bytes) : nat -> nat -> list bytes -> nat -> Prop :=
  | name_root off :
      p !! off = Some 0 -> name_at p off 0 [] (off + 1)
  | name_label off b h ls next :
      p !! off = Some b -> 1 <= b <= 63 -> (off + 1 + Z.to_nat b <= length p)%nat ->
      name_at p (off + 1 + Z.to_nat b) h ls next ->
      name_at p off h (sub p (off + 1) (Z.to_nat b) :: ls) next
  | name_ptr off b b1 h ls next :
      p !! off = Some b -> p !! (off + 1)%nat = Some b1 -> 192 <= b ->
      (Z.to_nat ((b - 192) * 256 + b1) < off)%nat ->
      name_at p (Z.to_nat ((b - 192) * 256 + b1)) h ls next ->
      name_at p off (S h) ls (off + 2).

(** The dotted, lower-cased text of labels, after the text [out]. *)
Definition dotted_from (out : bytes) (ls : list bytes) : bytes :=
  foldl (fun o l => (match o with [] => [] | _ => o ++ [46] end) ++ map tolower l) out ls.

Lemma dotted_from_length out ls : (length out <= length (dotted_from out ls))%nat.
Proof.
  revert out. induction ls as [|l ls IH]; intros out; [done|]. cbn [dotted_from foldl].
  etransitivity; [|apply IH]. destruct out; rewrite !length_app; cbn; lia.
Qed.

Lemma top_bits b :
  byte_ok b -> (Z.land b 192 =? 192) = (192 <=? b) /\ (Z.land b 192 =? 0) = (b <? 64).
Proof.
  intros Hb.
  pose proof (all_bytes_spec (fun b => Bool.eqb (Z.land b 192 =? 192) (192 <=? b) &&
    Bool.eqb (Z.land b 192 =? 0) (b <? 64)) b eq_refl Hb) as [H1 H2]%andb_true_iff.
  by apply eqb_prop in H1, H2.
Qed.

Lemma ptr_value b b1 :
  byte_ok b -> byte_ok b1 -> 192 <= b ->
  Z.lor (Z.shiftl (Z.land b 63) 8) b1 = (b - 192) * 256 + b1.
Proof.
  intros Hb Hb1 H. rewrite lor_shiftl_add by (unfold byte_ok in *; lia).
  change 63 with (Z.ones 6). rewrite Z.land_ones by lia. unfold byte_ok in *.
  f_equal. f_equal. rewrite (Z.mod_eq b) by lia.
  assert (b / 2 ^ 6 = 3) as -> by (symmetry; apply (Z.div_unique _ _ _ (b - 192)); lia). lia.
Qed.

Lemma dotted_longer out l ls :
  (length out + length l + (if (length out =? 0)%nat then 0 else 1) <= length (dotted_from out (l :: ls)))%nat.
Proof.
  change (dotted_from out (l :: ls)) with
    (dotted_from ((match out with [] => [] | _ => out ++ [46] end) ++ map tolower l) ls).
  pose proof (dotted_from_length ((match out with [] => [] | _ => out ++ [46] end) ++ map tolower l) ls) as Hd.
  destruct out; rewrite ?length_app, ?length_map in Hd; cbn [length Nat.eqb] in *; lia.
Qed.

(** The bytes at hand begin no name. *)
Local Ltac no_name :=
  intros nm nx'; split; [done|]; intros (h & ls & nx & Hn & ? & _); inversion Hn; simplify_eq;
  repeat match goal with E : _ !! _ = Some _ |- _ => apply lookup_lt_Some in E end; lia.

(** Reading a name is total and reads exactly the names of the relation, through
    at most eight pointers and with room for the terminator. *)
Lemma read_name_loop_spec fuel p outcap out hops next cur :
  bytes_ok p -> (65 <= outcap)%nat -> (length out < outcap)%nat -> (hops <= 8)%nat ->
  ((8 - hops) * S (length p) + (length p - cur) < fuel)%nat ->
  wp (read_name_loop fuel p outcap out hops next cur) (fun r =>
    forall nm nx', r = Some (nm, nx') <->
      exists h ls nx, name_at p cur h ls nx /\ (hops + h <= 8)%nat /\
        nm = dotted_from out ls /\ (length nm < outcap)%nat /\ nx' = default nx next).
Proof.
  intros Hp Hcap. revert out hops next cur.
  induction fuel as [|fuel IH]; intros out hops next cur Ho Hh Hf; [by apply Nat.nlt_0_r in Hf|].
  cbn [read_name_loop]. destruct (Nat.leb_spec (length p) cur) as [Hlen|Hlen]; [no_name|].
  wp_step. wp_step; [lia|]. rename v into b. rename H into Eb.
  pose proof (bytes_ok_lookup _ _ _ Hp Eb) as Hb. destruct (top_bits b Hb) as [-> ->].
  destruct (Z.leb_spec 192 b) as [H192|H192].
  { destruct (Nat.leb_spec (length p) (cur + 1)); [no_name|].
    wp_step. wp_step; [lia|]. rename v into b1. rename H0 into Eb1.
    pose proof (bytes_ok_lookup _ _ _ Hp Eb1) as Hb1.
    rewrite ptr_value by done. cbv zeta. set (ptr := Z.to_nat ((b - 192) * 256 + b1)).
    destruct (Nat.leb_spec cur ptr); [no_name|].
    destruct (Nat.ltb_spec 8 (S hops)); [no_name|].
    eapply wp_mono; [apply (IH out (S hops) _ ptr); [done|lia|]|].
    { assert (8 - hops = S (8 - S hops))%nat as E by lia. rewrite E in Hf. lia. }
    intros r Hr nm nx'. cbv beta in Hr. rewrite Hr. cbn [from_option default]. split.
    - intros (h & ls & nx & Hn & ? & ? & ? & ->). exists (S h), ls, (cur + 2)%nat.
      split_and!; try done; [|lia]. by eapply name_ptr.
    - intros (h & ls & nx & Hn & ? & ? & ? & ->). inversion Hn; simplify_eq; try lia.
      do 3 eexists. split_and!; try done; lia. }
  destruct (Z.ltb_spec b 64) as [H64|H64]; cbn [negb]; [|no_name].
  cbv zeta. unfold byte_ok in Hb. destruct (Nat.eqb_spec (Z.to_nat b) 0) as [H0|H0].
  { assert (b = 0) as -> by lia. rewrite (proj2 (Nat.leb_gt _ _)) by lia.
    wp_step. wp_step; [cbn [length]; lia|]. wp_step. intros nm nx'. split.
    - intros [= <- <-]. exists 0%nat, [], (cur + 1)%nat. split_and!; try done; [|lia]. by apply name_root.
    - intros (h & ls & nx & Hn & ? & -> & ? & ->). inversion Hn; simplify_eq; try lia. done. }
  rewrite (proj2 (Nat.ltb_ge _ _)) by lia.
  destruct (Nat.ltb_spec (length p) (cur + 1 + Z.to_nat b)); [no_name|].
  assert (length (sub p (cur + 1) (Z.to_nat b)) = Z.to_nat b) as Hl by (apply sub_length; lia).
  destruct (Nat.leb_spec outcap (length out + Z.to_nat b + 1)).
  { intros nm nx'. split; [done|]. intros (h & ls & nx & Hn & ? & -> & Hlen' & _).
    inversion Hn; simplify_eq; try lia. pose proof (dotted_longer out (sub p (cur + 1) (Z.to_nat b)) ls0) as Hd.
    rewrite Hl in Hd. destruct (Nat.eqb_spec (length out) 0); lia. }
  wp_step. apply wp_mono with (P := fun o => o = match out with [] => [] | _ => out ++ [46] end).
  { destruct out; [done|]. wp_step; [cbn [length] in *; lia|done]. }
  intros o ->. wp_step. wp_step; [lia|]. wp_step.
  assert (length (match out with [] => [] | _ => out ++ [46%Z] end) <= length out + 1)%nat
    by (destruct out; rewrite ?length_app; cbn; lia).
  wp_step; [rewrite length_map; lia|].
  eapply wp_mono; [apply IH; [rewrite length_app, length_map; lia|lia|lia]|].
  intros r Hr nm nx'. cbv beta in Hr. rewrite Hr. split.
  - intros (h & ls & nx & Hn & ? & ? & ? & ->). exists h, (sub p (cur + 1) (Z.to_nat b) :: ls), nx.
    split_and!; try done. apply name_label; [done|lia|lia|done].
  - intros (h & ls & nx & Hn & ? & ? & ? & ->). inversion Hn; simplify_eq; try lia.
    do 3 eexists. by split_and!.
Qed.

Definition dotted (ls : list bytes) : bytes := dotted_from [] ls.

(** A name the reader accepts. *)
Definition name_ok (p : bytes) (off : nat) (ls : list bytes) (next : nat) : Prop :=
  exists h, name_at p off h ls next /\ (h <= 8)%nat /\ (length (dotted ls) < DNS_MAX_NAME)%nat.

Lemma read_name_spec p off :
  bytes_ok p ->
  wp (read_name p off DNS_MAX_NAME) (fun r =>
    forall nm nx, r = Some (nm, nx) <-> exists ls, name_ok p off ls nx /\ nm = dotted ls).
Proof.
  intros Hp. unfold read_name.
  eapply wp_mono; [apply read_name_loop_spec; try done; unfold DNS_MAX_NAME; cbn [length]; lia|].
  intros r Hr nm nx. cbv beta in Hr. rewrite Hr. cbn [default from_option id]. unfold name_ok, dotted. split.
  - intros (h & ls & nx' & ? & ? & -> & ? & ->). exists ls. split; [|done]. exists h. by split_and!.
  - intros (ls & (h & ? & ? & ?) & ->). exists h, ls, nx. by split_and!.
Qed.

(** ** Responses on the wire *)

Definition be16_at (p : bytes) (i : nat) : Z :=
  default 0 (p !! i) * 256 + default 0 (p !! (i + 1)%nat).
Definition be32_at (p : bytes) (i : nat) : Z := be16_at p i * 65536 + be16_at p (i + 2).

Inductive questions_at (p : bytes) : nat -> nat -> nat -> Prop :=
  | questions_nil off : questions_at p 0 off off
  | questions_cons n off ls next off' :
      name_ok p off ls next -> (next + 4 <= length p)%nat ->
      questions_at p n (next + 4) off' -> questions_at p (S n) off off'.

Record rr := mk_rr { r_name : list bytes; r_type : Z; r_ttl : Z; r_data : bytes }.

Inductive record_at (p : bytes) (off : nat) : rr -> nat -> Prop :=
  | record_intro ls next :
      name_ok p off ls next -> (next + 10 <= length p)%nat ->
      (next + 10 + Z.to_nat (be16_at p (next + 8)) <= length p)%nat ->
      record_at p off
        (mk_rr ls (be16_at p next) (be32_at p (next + 4))
           (sub p (next + 10) (Z.to_nat (be16_at p (next + 8)))))
        (next + 10 + Z.to_nat (be16_at p (next + 8))).

Inductive records_at (p : bytes) : nat -> list rr -> nat -> Prop :=
  | records_nil off : records_at p off [] off
  | records_cons off r off1 rs off2 :
      record_at p off r off1 -> records_at p off1 rs off2 -> records_at p off (r :: rs) off2.

(** What a live SRV record announces whose name passes [is_owner]. *)
Definition announces (is_owner : list bytes -> bool) (r : rr) : option Z :=
  if (r_type r =? 33) && (6 <=? length (r_data r))%nat && negb (r_ttl r =? 0) &&
     is_owner (r_name r) && negb (be16_at (r_data r) 4 =? 0)
  then Some (be16_at (r_data r) 4) else None.

(** The wanted name: the decoded name is equal to it. *)
Definition srv_port (want : bytes) : rr -> option Z := announces (fun ls => bytes_eqb (dotted ls) want).

(** The name the code takes for it: [strcmp] compares up to a NUL byte. *)
Definition srv_seen (want : bytes) : rr -> option Z := announces (fun ls => bytes_eqb (cstr (dotted ls)) want).

Lemma be16_at_range p i : bytes_ok p -> 0 <= be16_at p i < 65536.
Proof.
  intros Hp. unfold be16_at.
  assert (forall j, 0 <= default 0 (p !! j) < 256) as H.
  { intros j. destruct (p !! j) as [v|] eqn:E; [|cbn; lia]. by apply (bytes_ok_lookup _ _ _ Hp E). }
  pose proof (H i). pose proof (H (i + 1)%nat). lia.
Qed.

Lemma wp_rd16 p i (Q : Z -> Prop) :
  bytes_ok p -> (i + 2 <= length p)%nat -> Q (be16_at p i) -> wp (rd16 p i) Q.
Proof.
  intros Hp Hi HQ. unfold rd16. wp_step. wp_step; [lia|]. wp_step. wp_step; [lia|].
  unfold be16_at in HQ. rewrite H, H0 in HQ. cbn in HQ.
  pose proof (bytes_ok_lookup _ _ _ Hp H0) as Hv. unfold byte_ok in Hv.
  rewrite lor_shiftl_add by lia. apply HQ.
Qed.

Lemma wp_rd_ttl p i (Q : Z -> Prop) :
  bytes_ok p -> (i + 4 <= length p)%nat -> Q (be32_at p i) -> wp (rd_ttl p i) Q.
Proof.
  intros Hp Hi HQ. unfold rd_ttl. do 4 (wp_step; wp_step; [lia|]).
  unfold be32_at, be16_at in HQ. rewrite <- !Nat.add_assoc in HQ. cbn [Nat.add] in HQ.
  rewrite H, H0, H1, H2 in HQ. cbn [default from_option id] in HQ.
  pose proof (bytes_ok_lookup _ _ _ Hp H0) as ?. pose proof (bytes_ok_lookup _ _ _ Hp H1) as ?.
  pose proof (bytes_ok_lookup _ _ _ Hp H2) as ?. unfold byte_ok in *.
  replace (Z.shiftl v 24) with (Z.shiftl (Z.shiftl v 8) 16) by (by rewrite Z.shiftl_shiftl by lia).
  rewrite <- Z.shiftl_lor, (lor_shiftl_add v) by lia.
  replace (Z.shiftl (v * 2 ^ 8 + v0) 16) with (Z.shiftl (Z.shiftl (v * 2 ^ 8 + v0) 8) 8)
    by (by rewrite Z.shiftl_shiftl by lia).
  rewrite <- Z.shiftl_lor, (lor_shiftl_add _ v1), lor_shiftl_add by lia.
  apply wp_ret. replace ((_ * 2 ^ 8 + v1) * 2 ^ 8 + v2) with ((v * 256 + v0) * 65536 + (v1 * 256 + v2)) by lia.
  apply HQ.
Qed.

Lemma sub_lookup b i n j : (j < n)%nat -> sub b i n !! j = b !! (i + j)%nat.
Proof. intros H. unfold sub. by rewrite lookup_take_lt, lookup_drop. Qed.

Lemma skip_questions_spec n p off :
  bytes_ok p ->
  wp (skip_questions n p off) (fun r => forall off', r = Some off' <-> questions_at p n off off').
Proof.
  intros Hp. revert off. induction n as [|n IH]; intros off; cbn [skip_questions].
  { intros off'. split; [intros [= <-]; constructor|]. intros H. by inversion H. }
  wp_step. eapply wp_mono; [by apply read_name_spec|]. intros [[nm nx]|] Hr; cbv beta in Hr.
  - destruct (proj1 (Hr nm nx) eq_refl) as (ls & Hls & ->).
    destruct (Nat.ltb_spec (length p) (nx + 4)).
    + intros off'. split; [done|]. intros Hq. inversion Hq; subst.
      assert (Some (dotted ls, nx) = Some (dotted ls0, next)) by (apply Hr; eauto). simplify_eq. lia.
    + eapply wp_mono; [apply IH|]. intros r Hr' off'. cbv beta in Hr'. rewrite Hr'. split.
      * intros. by eapply questions_cons.
      * intros Hq. inversion Hq; subst.
        assert (Some (dotted ls, nx) = Some (dotted ls0, next)) by (apply Hr; eauto). by simplify_eq.
  - intros off'. split; [done|]. intros Hq. inversion Hq; subst.
    assert (None = Some (dotted ls, next)) by (apply Hr; eauto). done.
Qed.

(** The record that matches, after records that do not. *)
Definition first_match (sp : rr -> option Z) (p : bytes) (n off : nat) (port : Z) : Prop :=
  exists rs r off1 off2,
    records_at p off rs off1 /\ record_at p off1 r off2 /\ (length rs < n)%nat /\
    Forall (fun r => sp r = None) rs /\ sp r = Some port.

(** A name is read in one way only. *)
Lemma name_ok_inj p off ls next ls' next' :
  bytes_ok p -> name_ok p off ls next -> name_ok p off ls' next' ->
  dotted ls = dotted ls' /\ next = next'.
Proof.
  intros Hp H H'. pose proof (read_name_spec p off Hp) as Hw.
  apply wp_elim in Hw as (r & _ & Hr).
  assert (r = Some (dotted ls, next)) as E by (apply Hr; eauto).
  assert (r = Some (dotted ls', next')) as E' by (apply Hr; eauto). split; congruence.
Qed.

Lemma record_at_inj p off r off1 r' off1' want :
  bytes_ok p -> record_at p off r off1 -> record_at p off r' off1' ->
  srv_seen want r = srv_seen want r' /\ off1 = off1'.
Proof.
  intros Hp H H'. inversion H; inversion H'; subst.
  destruct (name_ok_inj p off ls next ls0 next0) as [E ->]; try done. split; [|done].
  unfold srv_seen, announces. cbn [r_name r_type r_ttl r_data]. by rewrite E.
Qed.

(** The first match is at the next record or after it. *)
Lemma first_match_split n p want off port r o1 : bytes_ok p ->
  first_match (srv_seen want) p (S n) off port -> record_at p off r o1 ->
  srv_seen want r = Some port \/ (srv_seen want r = None /\ first_match (srv_seen want) p n o1 port).
Proof.
  intros Hp (rs & r' & o2 & o3 & Hrs & Hr' & Hlen & HF & Hport) Hr.
  destruct Hrs as [o|o r1 o4 rs o5 H1 H2].
  - destruct (record_at_inj p o r' o3 r o1 want Hp Hr' Hr) as [E ->]. left. congruence.
  - destruct (record_at_inj p o r1 o4 r o1 want Hp H1 Hr) as [E ->].
    inversion HF as [|?? HN HF']; subst. right. split; [congruence|].
    exists rs, r', o5, o3. split_and!; try done. cbn in Hlen. lia.
Qed.

Lemma first_match_record n p want off port : first_match (srv_seen want) p n off port -> exists r o1, record_at p off r o1.
Proof. intros (rs & r' & o2 & o3 & Hrs & Hr' & _). destruct Hrs; eauto. Qed.

Lemma scan_records_spec n p want off :
  bytes_ok p ->
  wp (scan_records n p want off) (fun r =>
    forall port, r = Some port <-> first_match (srv_seen want) p n off port).
Proof.
  intros Hp. revert off. induction n as [|n IH]; intros off; cbn [scan_records].
  { intros port. split; [done|]. intros (rs & r & o1 & o2 & _ & _ & ? & _). lia. }
  wp_step. eapply wp_mono; [by apply read_name_spec|]. intros [[nm nx]|] Hr; cbv beta in Hr.
  2:{ intros port. split; [done|]. intros (r & o1 & H)%first_match_record. inversion H; subst.
      assert (None = Some (dotted ls, next)) by (apply Hr; eauto). done. }
  destruct (proj1 (Hr nm nx) eq_refl) as (ls & Hls & ->). clear Hr.
  destruct (Nat.ltb_spec (length p) (nx + 10)) as [Hb|Hb].
  { intros port. split; [done|]. intros (r & o1 & H)%first_match_record. inversion H; subst.
    destruct (name_ok_inj p off ls nx ls0 next) as [_ ->]; try done. lia. }
  wp_step. apply wp_rd16; [done|lia|]. wp_step. apply wp_rd_ttl; [done|lia|].
  wp_step. apply wp_rd16; [done|lia|]. cbv zeta.
  pose proof (be16_at_range p (nx + 8) Hp) as Hrl.
  destruct (Z.ltb_spec (Z.of_nat (length p)) (Z.of_nat (nx + 10) + be16_at p (nx + 8))) as [Hd|Hd].
  { intros port. split; [done|]. intros (r & o1 & H)%first_match_record. inversion H; subst.
    destruct (name_ok_inj p off ls nx ls0 next) as [_ ->]; try done. lia. }
  pose proof (record_intro p off ls nx Hls Hb ltac:(lia)) as Hrec.
  set (r := mk_rr _ _ _ _) in Hrec. set (o1 := (nx + 10 + _)%nat) in Hrec.
  wp_step. apply wp_mono with (P := fun found => found = srv_seen want r).
  { unfold srv_seen, announces, r. cbn [r_name r_type r_ttl r_data]. unfold DNS_TYPE_SRV.
    rewrite sub_length by lia.
    assert ((6 <=? Z.to_nat (be16_at p (nx + 8)))%nat = (6 <=? be16_at p (nx + 8))) as ->
      by (destruct (Nat.leb_spec 6 (Z.to_nat (be16_at p (nx + 8)))),
            (Z.leb_spec 6 (be16_at p (nx + 8))); lia).
    destruct (_ && _) eqn:E; [|done]. cbn [andb].
    assert (6 <= be16_at p (nx + 8)) as H6 by (apply andb_true_iff in E as [[[_ E]%andb_true_iff _]%andb_true_iff _]; lia).
    wp_step. apply wp_rd16; [done|lia|].
    assert (be16_at (sub p (nx + 10) (Z.to_nat (be16_at p (nx + 8)))) 4 = be16_at p (nx + 10 + 4)) as ->.
    { unfold be16_at at 1 3. rewrite !sub_lookup by lia. by rewrite !Nat.add_assoc. }
    apply wp_ret. by destruct (be16_at p (nx + 10 + 4) =? 0). }
  intros found ->. destruct (srv_seen want r) as [port|] eqn:Eport.
  - intros port'. split.
    + intros [= <-]. exists [], r, off, o1. split_and!; try done; [constructor|cbn; lia].
    + intros H. destruct (first_match_split _ _ _ _ _ _ _ Hp H Hrec) as [?|[? _]]; congruence.
  - eapply wp_mono; [apply IH|]. intros res Hres port. cbv beta in Hres. rewrite Hres. split.
    + intros (rs & r' & o2 & o3 & Hrs & Hr' & Hlen & HF & Hport).
      exists (r :: rs), r', o2, o3. split_and!; try done; [by econstructor|cbn; lia|by constructor].
    + intros H. destruct (first_match_split _ _ _ _ _ _ _ Hp H Hrec) as [?|[_ ?]]; [congruence|done].
Qed.

Lemma dacp_srv_parse_spec pkt owner dnsid :
  bytes_ok pkt ->
  wp (dacp_srv_parse_response pkt owner dnsid) (fun r =>
    forall port, r = Some port <->
      (12 <= length pkt)%nat /\ (dnsid = 0 \/ be16_at pkt 0 = dnsid) /\
      Z.testbit (default 0 (pkt !! 2%nat)) 7 = true /\ (length owner < DNS_MAX_NAME)%nat /\
      exists off, questions_at pkt (Z.to_nat (be16_at pkt 4)) 12 off /\
        first_match (srv_seen (map tolower owner)) pkt
          (Z.to_nat (be16_at pkt 6 + be16_at pkt 8 + be16_at pkt 10)) off port).
Proof.
  intros Hp. unfold dacp_srv_parse_response.
  destruct (Nat.ltb_spec (length pkt) 12); [intros port; split; [done|lia]|].
  wp_step. apply wp_rd16; [done|lia|].
  destruct (Z.eqb_spec dnsid 0) as [Hd|Hd]; [|destruct (Z.eqb_spec (be16_at pkt 0) dnsid) as [Hi|Hi]];
    cbn [negb andb]; [| |intros port; split; [done|]; intros (_ & [|] & _); done].
  all: wp_step; wp_step; [lia|].
  all: assert ((Z.land v 128 =? 0) = negb (Z.testbit v 7)) as ->
    by (pose proof (all_bytes_spec (fun v => Bool.eqb (Z.land v 128 =? 0) (negb (Z.testbit v 7))) v
          eq_refl (bytes_ok_lookup _ _ _ Hp H0)) as E; by apply eqb_prop in E).
  all: rewrite H0; cbn [default from_option id].
  all: destruct (Z.testbit v 7) eqn:Et; cbn [negb]; [|intros port; split; [done|]; by intros (_ & _ & ? & _)].
  all: do 4 (wp_step; apply wp_rd16; [done|lia|]).
  all: destruct (Nat.leb_spec DNS_MAX_NAME (length owner));
    [intros port; split; [done|]; intros (_ & _ & _ & ? & _); lia|].
  all: cbv zeta; wp_step; eapply wp_mono; [by apply skip_questions_spec|]; intros [off|] Hq; cbv beta in Hq.
  all: try (intros port; split; [done|]; intros (_ & _ & _ & _ & off & Ho & _);
    by assert (None = Some off) by by apply Hq).
  all: eapply wp_mono; [by apply scan_records_spec|]; intros r Hr port; cbv beta in Hr; rewrite Hr.
  all: split;
    [ intros; split_and!; try done; [by auto|]; exists off; split; [by apply Hq|done]
    | intros (_ & _ & _ & _ & off' & Ho & Hf);
      by assert (Some off = Some off') as [= ->] by by apply Hq ].
Qed.

Lemma parse_port_range pkt owner dnsid port :
  bytes_ok pkt -> dacp_srv_parse_response pkt owner dnsid = Ret (Some port) -> 1 <= port <= 65535.
Proof.
  intros Hp E. pose proof (dacp_srv_parse_spec pkt owner dnsid Hp) as H. rewrite E in H.
  destruct (proj1 (H port) eq_refl) as (_ & _ & _ & _ & off & _ & rs & r & o1 & o2 & _ & Hr & _ & _ & Hport).
  unfold srv_seen, announces in Hport. destruct (_ && _) eqn:Eb; simplify_eq.
  apply andb_true_iff in Eb as [_ Hz]. inversion Hr; subst. cbn [r_data] in *.
  pose proof (be16_at_range (sub pkt (next + 10) (Z.to_nat (be16_at pkt (next + 8)))) 4
    ltac:(auto with bytes)). lia.
Qed.

(** The records the code walks over: those after the questions, as many as the header
    counts. *)
Definition walked (pkt : bytes) (r : rr) : Prop :=
  exists off rs o1 o2, questions_at pkt (Z.to_nat (be16_at pkt 4)) 12 off /\ records_at pkt off rs o1 /\
    record_at pkt o1 r o2 /\ (length rs < Z.to_nat (be16_at pkt 6 + be16_at pkt 8 + be16_at pkt 10))%nat.

(** No record has an owner name with a NUL byte in a label. *)
Definition plain_names (pkt : bytes) : Prop := forall r, walked pkt r -> Forall (fun c => c <> 0) (dotted (r_name r)).

Lemma cstr_plain s : Forall (fun c => c <> 0) s -> cstr s = s.
Proof. induction 1 as [|c s Hc _ IH]; [done|]. cbn [cstr]. by rewrite (proj2 (Z.eqb_neq _ _) Hc), IH. Qed.

Lemma announces_plain want r : Forall (fun c => c <> 0) (dotted (r_name r)) -> srv_seen want r = srv_port want r.
Proof. intros Hp. unfold srv_seen, srv_port, announces. by rewrite cstr_plain. Qed.

Lemma records_walked p off rs o1 : records_at p off rs o1 -> forall r, r ∈ rs ->
  exists rs1 o2 o3, records_at p off rs1 o2 /\ record_at p o2 r o3 /\ (length rs1 < length rs)%nat.
Proof.
  induction 1 as [off|off r0 off1 rs off2 H1 H2 IH]; intros r Hr; [by apply elem_of_nil in Hr|].
  apply elem_of_cons in Hr as [->|Hr].
  - exists [], off, off1. split; [constructor|]. split; [done|cbn; lia].
  - destruct (IH r Hr) as (rs1 & o2 & o3 & A & B & C). exists (r0 :: rs1), o2, o3.
    split; [by econstructor|]. split; [done|cbn; lia].
Qed.

(** Then the code's first match is the first match. *)
Lemma first_match_plain want pkt off port : plain_names pkt ->
  questions_at pkt (Z.to_nat (be16_at pkt 4)) 12 off ->
  let n := Z.to_nat (be16_at pkt 6 + be16_at pkt 8 + be16_at pkt 10) in
  first_match (srv_seen want) pkt n off port <-> first_match (srv_port want) pkt n off port.
Proof.
  intros Hp Hq n.
  assert (forall rs r o1 o2, records_at pkt off rs o1 -> record_at pkt o1 r o2 -> (length rs < n)%nat ->
    srv_seen want r = srv_port want r /\ forall r', r' ∈ rs -> srv_seen want r' = srv_port want r') as Heq.
  { intros rs r o1 o2 Hrs Hr Hl. split; [apply announces_plain, Hp; by exists off, rs, o1, o2|].
    intros r' Hr'. destruct (records_walked _ _ _ _ Hrs r' Hr') as (rs1 & o3 & o4 & A & B & C).
    apply announces_plain, Hp. exists off, rs1, o3, o4. split_and!; try done. fold n. lia. }
  split; intros (rs & r & o1 & o2 & H1 & H2 & H3 & H4 & H5); exists rs, r, o1, o2;
    destruct (Heq rs r o1 o2 H1 H2 H3) as [Er Ers]; split_and!; try done; try congruence;
    rewrite Forall_forall in H4 |- *; intros r' Hr'; specialize (H4 r' Hr'); specialize (Ers r' Hr'); congruence.
Qed.

(** C36: the response reader is safe and exact.  On every packet it ends without
    reading outside the packet or overflowing the name buffer.  And on every packet
    in which no record's owner name has a NUL byte in a label, it reports a port
    exactly when the packet is a response with the expected identifier whose sections
    are well formed up to an SRV record whose decoded name is the wanted one but for
    the case of letters, with a nonzero lifetime and port, and no earlier record
    announces one. *)
Theorem dacp_srv_parse_iff pkt owner dnsid :
  bytes_ok pkt ->
  exists r, dacp_srv_parse_response pkt owner dnsid = Ret r /\
    (plain_names pkt -> forall port, r = Some port <->
      (12 <= length pkt)%nat /\ (dnsid = 0 \/ be16_at pkt 0 = dnsid) /\
      Z.testbit (default 0 (pkt !! 2%nat)) 7 = true /\ (length owner < DNS_MAX_NAME)%nat /\
      exists off, questions_at pkt (Z.to_nat (be16_at pkt 4)) 12 off /\
        first_match (srv_port (map tolower owner)) pkt
          (Z.to_nat (be16_at pkt 6 + be16_at pkt 8 + be16_at pkt 10)) off port).
Proof.
  intros Hb. pose proof (dacp_srv_parse_spec pkt owner dnsid Hb) as (r & E & Hr)%wp_elim. exists r. split; [done|].
  intros Hp port. rewrite Hr. split; intros (H1 & H2 & H3 & H4 & off & Hq & Hm).
  all: do 4 (split; [done|]); exists off; split; [done|]; revert Hm; by apply (first_match_plain (map tolower owner)).
Qed.

(** A walk over the records that checks their names. *)
Fixpoint plain_check (n : nat) (p : bytes) (off : nat) : bool :=
  match n with
  | O => true
  | S n =>
      match read_name p off DNS_MAX_NAME with
      | Ret (Some (nm, next)) =>
          forallb (fun c => negb (c =? 0)) nm && plain_check n p (next + 10 + Z.to_nat (be16_at p (next + 8)))
      | _ => true
      end
  end.

Lemma plain_check_ok n p off rs o1 r o2 : bytes_ok p -> plain_check n p off = true ->
  records_at p off rs o1 -> record_at p o1 r o2 -> (length rs < n)%nat -> Forall (fun c => c <> 0) (dotted (r_name r)).
Proof.
  intros Hp. revert off rs. induction n as [|n IH]; intros off rs Hc Hrs Hr Hl; [lia|]. cbn [plain_check] in Hc.
  assert (forall r1 o3, record_at p off r1 o3 -> Forall (fun c => c <> 0) (dotted (r_name r1)) /\ plain_check n p o3 = true) as Hone.
  { intros r1 o3 H1. inversion H1 as [ls next Hn]; subst. pose proof (read_name_spec p off Hp) as (res & E & Hres)%wp_elim. rewrite E in Hc.
    assert (res = Some (dotted ls, next)) as -> by (apply Hres; eauto). apply andb_true_iff in Hc as [Hz Hc].
    split; [|done]. cbn [r_name]. apply Forall_forall. intros c Hin. rewrite forallb_forall in Hz.
    specialize (Hz c (proj1 (list_elem_of_In _ _) Hin)). by apply negb_true_iff, Z.eqb_neq in Hz. }
  inversion Hrs; subst; [by apply (Hone r o2)|].
  destruct (Hone r0 off1) as [_ Hc']; [done|]. apply (IH off1 rs0); try done. cbn in Hl. lia.
Qed.

(** A reply with the owner name compressed in its second record. *)
Definition sample_reply : bytes :=
  [0; 0; 132; 0; 0; 0; 0; 2; 0; 0; 0; 0] ++
  [2; 65; 98; 5] ++ str "local" ++ [0] ++ [0; 1; 0; 1; 0; 0; 0; 120; 0; 4; 192; 168; 0; 7] ++
  [192; 12] ++ [0; 33; 128; 1; 0; 0; 0; 120; 0; 8; 0; 0; 0; 0; 14; 105; 192; 15].

Lemma sample_reply_plain : plain_names sample_reply.
Proof.
  intros r (off & rs & o1 & o2 & Hq & Hrs & Hr & Hl). change (Z.to_nat (be16_at sample_reply 4)) with 0%nat in Hq.
  inversion Hq; subst.
  apply (plain_check_ok 2 sample_reply 12 rs o1 r o2); [by apply bytes_okb_ok|by vm_compute|done|done|exact Hl].
Qed.

Lemma dacp_srv_parse_iff_witness :
  exists off, questions_at sample_reply (Z.to_nat (be16_at sample_reply 4)) 12 off /\
    first_match (srv_port (map tolower (str "AB.local"))) sample_reply 2 off 3689.
Proof.
  destruct (dacp_srv_parse_iff sample_reply (str "AB.local") 0 ltac:(by apply bytes_okb_ok)) as (r & E & H).
  assert (dacp_srv_parse_response sample_reply (str "AB.local") 0 = Ret (Some 3689)) as E'
    by (vm_compute; reflexivity).
  assert (r = Some 3689) as Er by congruence.
  destruct (proj1 (H sample_reply_plain 3689) Er) as (_ & _ & _ & _ & Hs). exact Hs.
Defined.

(** Otherwise it may report a port for a name that is not the wanted one: the name is
    compared as a C string, and a NUL byte in a label hides what follows it. *)
Lemma srv_name_after_nul :
  dacp_srv_parse_response
    ([0; 0; 132; 0; 0; 0; 0; 1; 0; 0; 0; 0] ++ [5; 97; 98; 0; 120; 121; 3] ++ str "net" ++ [0] ++
     [0; 33; 128; 1; 0; 0; 0; 120; 0; 6; 0; 0; 0; 0; 14; 105]) (str "ab") 0 = Ret (Some 3689).
Proof. vm_compute. reflexivity. Qed.

(** ** The query reads back *)

Fixpoint join (ls : list bytes) : bytes :=
  match ls with
  | [] => []
  | [l] => l
  | l :: ls' => l ++ 46 :: join ls'
  end.

(** The wire form without the root. *)
Definition labels (ls : list bytes) : bytes :=
  List.concat (map (fun l => Z.of_nat (length l) :: l) ls).

Definition label_ok (l : bytes) : Prop :=
  (1 <= length l <= 63)%nat /\ Forall (fun c => c <> 46) l.

Lemma encode_loop_labels fuel cap l ls out :
  Forall label_ok (l :: ls) -> (length (join (l :: ls)) < fuel)%nat ->
  (length out + length (labels (l :: ls)) < cap)%nat ->
  encode_loop fuel cap (join (l :: ls)) out = Ret (Some (out ++ labels (l :: ls) ++ [0])).
Proof.
  revert l ls out. induction fuel as [|fuel IH]; intros l ls out Hls Hf Hc; [lia|].
  inversion Hls as [|?? [Hl Hd] Hrest]; subst.
  assert (forall r, (memchr 46 (l ++ r) = (fun n => (length l + n)%nat) <$> memchr 46 r)) as Hm.
  { intros r. clear -Hd. induction Hd as [|x l Hx Hd IH]; [by cbn; destruct (memchr 46 r)|].
    cbn [memchr app]. destruct (Z.eqb_spec x 46); [done|]. rewrite IH.
    by destruct (memchr 46 r). }
  assert (forall r, rd_sub (l ++ r) 0 (length l) = Ret l) as Hr.
  { intros r. unfold rd_sub. rewrite (proj2 (Nat.leb_le _ _)) by (rewrite length_app; lia).
    unfold sub. by rewrite drop_0, take_app_length. }
  assert (forall o v, (length o + length v <= cap)%nat -> wr cap o v = Ret (o ++ v)) as Hw.
  { intros o v H. unfold wr. by rewrite (proj2 (Nat.leb_le _ _)) by lia. }
  unfold labels in Hc. cbn [map List.concat] in Hc. fold (labels ls) in Hc.
  cbn [app] in Hc. rewrite length_cons, length_app in Hc.
  destruct ls as [|l' ls].
  - cbn [join] in *. pose proof (Hm []) as Hm'. pose proof (Hr []) as Hr'. rewrite app_nil_r in *.
    destruct l as [|c l]; [cbn in Hl; lia|]. cbn [encode_loop]. rewrite Hm'. cbn [memchr fmap option_fmap option_map default from_option].
    rewrite (proj2 (Nat.eqb_neq _ 0)) by lia. rewrite (proj2 (Nat.ltb_ge 63 _)) by lia. cbn [orb].
    rewrite (proj2 (Nat.leb_gt _ _)) by lia. rewrite Hw by (cbn [length] in *; lia). cbn [rbind].
    rewrite Hr'. cbn [rbind]. rewrite Hw by (rewrite length_app; cbn [length] in *; lia). cbn [rbind].
    rewrite (proj2 (Nat.ltb_ge _ _)) by (rewrite !length_app; cbn [length] in *; lia).
    rewrite Hw by (rewrite !length_app; cbn [length] in *; lia). cbn [rbind].
    rewrite u8_small by lia. unfold labels. cbn [map List.concat]. rewrite app_nil_r.
    by rewrite <- !app_assoc.
  - change (join (l :: l' :: ls)) with (l ++ 46 :: join (l' :: ls)) in *.
    rewrite length_app, length_cons in Hf.
    pose proof (Hm (46 :: join (l' :: ls))) as Hm'. pose proof (Hr (46 :: join (l' :: ls))) as Hr'.
    remember (l ++ 46 :: join (l' :: ls)) as s eqn:Es.
    assert (drop (S (length l)) s = join (l' :: ls)) as Hdrop.
    { rewrite Es. change (46 :: ?x) with ([46] ++ x). rewrite app_assoc, drop_app_length'; [done|rewrite length_app; cbn; lia]. }
    cbn [encode_loop]. destruct s as [|c s]; [by destruct l|]. rewrite Hm'.
    cbn [memchr Z.eqb Pos.eqb fmap option_fmap option_map default from_option id]. rewrite Nat.add_0_r.
    rewrite (proj2 (Nat.eqb_neq _ 0)) by lia. rewrite (proj2 (Nat.ltb_ge 63 _)) by lia. cbn [orb].
    rewrite (proj2 (Nat.leb_gt _ _)) by lia. rewrite Hw by (cbn [length]; lia). cbn [rbind].
    rewrite Hr'. cbn [rbind]. rewrite Hw by (rewrite length_app; cbn [length]; lia). cbn [rbind].
    rewrite Hdrop, IH; [|done|lia|rewrite !length_app; cbn [length]; lia].
    rewrite u8_small by lia. unfold labels. cbn [map List.concat]. by rewrite <- !app_assoc.
Qed.

Lemma labels_name_at pre ls post :
  Forall label_ok ls ->
  name_at (pre ++ labels ls ++ [0] ++ post) (length pre) 0 ls (length pre + length (labels ls) + 1).
Proof.
  intros Hls. revert pre. induction Hls as [|l ls [Hl Hd] Hrest IH]; intros pre.
  - unfold labels. cbn [map List.concat app length]. rewrite Nat.add_0_r. apply name_root.
    by rewrite lookup_app_r, Nat.sub_diag by lia.
  - set (p := pre ++ _). unfold labels in p. cbn [map List.concat] in p. fold (labels ls) in p.
    assert (p = (pre ++ Z.of_nat (length l) :: l) ++ labels ls ++ [0] ++ post) as Hp
      by (unfold p; by rewrite <- !app_assoc).
    assert (l = sub p (length pre + 1) (Z.to_nat (Z.of_nat (length l)))) as El.
    { rewrite Nat2Z.id. unfold sub. rewrite Hp, <- app_assoc. cbn [app].
      change (Z.of_nat (length l) :: ?x) with ([Z.of_nat (length l)] ++ x).
      rewrite app_assoc, drop_app_length' by (rewrite length_app; cbn; lia).
      by rewrite take_app_length. }
    rewrite El at 1. eapply (name_label _ _ (Z.of_nat (length l))).
    + rewrite Hp, <- app_assoc. by rewrite lookup_app_r, Nat.sub_diag by lia.
    + lia.
    + rewrite Hp, !length_app. cbn [length]. lia.
    + rewrite Hp. specialize (IH (pre ++ Z.of_nat (length l) :: l)).
      rewrite !length_app in IH. cbn [length] in IH. rewrite Nat2Z.id.
      unfold labels. cbn [map List.concat]. fold (labels ls). cbn [app]. rewrite length_cons, length_app.
      replace (length pre + 1 + length l)%nat with (length pre + S (length l))%nat by lia.
      replace (length pre + S (length l + length (labels ls)) + 1)%nat
        with (length pre + S (length l) + length (labels ls) + 1)%nat by lia. exact IH.
Qed.

(** The service instance a DACP identifier names. *)
Definition dacp_labels (id : bytes) : list bytes :=
  [str "iTunes_Ctrl_" ++ id; str "_dacp"; str "_tcp"; str "local"].

Lemma dacp_labels_ok id : id_ok id -> Forall label_ok (dacp_labels id).
Proof.
  intros [Hl Hh]. repeat apply List.Forall_cons; [| | | |apply List.Forall_nil];
    (split; [rewrite ?length_app; cbn; lia|]); try (by repeat constructor).
  apply Forall_app. split; [by repeat constructor|]. eapply Forall_impl; [exact Hh|].
  intros c Hc. unfold hex_byte in Hc. lia.
Qed.

Lemma dacp_labels_length id : length (labels (dacp_labels id)) = (30 + length id)%nat.
Proof. unfold labels, dacp_labels. simpl. rewrite !length_app. simpl. lia. Qed.

Lemma dotted_from_upper out ls :
  (length (dotted_from out ls) <= length out + length (labels ls))%nat.
Proof.
  revert out. induction ls as [|l ls IH]; intros out; [cbn; lia|]. cbn [dotted_from foldl].
  etransitivity; [apply IH|]. unfold labels. cbn [map List.concat app]. fold (labels ls).
  rewrite length_cons, !length_app, length_map. destruct out; rewrite ?length_app; cbn [length]; lia.
Qed.

Lemma dacp_query_built id dnsid :
  id_ok id ->
  dacp_srv_build_query 512 (join (dacp_labels id)) dnsid =
  Ret (Some ([u8 (Z.shiftr dnsid 8); u8 dnsid; 0; 0; 0; 1; 0; 0; 0; 0; 0; 0] ++
             labels (dacp_labels id) ++ [0] ++ [0; 33; 128; 1])).
Proof.
  intros Hid. pose proof (dacp_labels_ok id Hid) as Hok. destruct Hid as [Hl _].
  pose proof (dacp_labels_length id) as Hlen.
  unfold dacp_srv_build_query. change (512 <? 12)%nat with false. change (512 - 12)%nat with 500%nat.
  cbv iota.
  change (wr 512 [] ?v) with (Ret v). cbn [rbind].
  unfold encode_name, dacp_labels. rewrite encode_loop_labels; [|done|lia|fold (dacp_labels id); rewrite Hlen; cbn [length]; lia].
  fold (dacp_labels id). cbn [rbind app]. set (n := labels (dacp_labels id)) in *.
  set (h := [_; _; _; _; _; _; _; _; _; _; _; _]).
  unfold wr at 1. rewrite (proj2 (Nat.leb_le _ _)) by (unfold h; rewrite length_app; cbn [length]; lia).
  cbn [rbind].
  assert (length (h ++ n ++ [0%Z]) = 43 + length id)%nat as Hb
    by (unfold h; rewrite !length_app, Hlen; cbn [length]; lia).
  rewrite Hb, (proj2 (Nat.ltb_ge _ _)) by lia.
  unfold wr. rewrite Hb. rewrite (proj2 (Nat.leb_le _ _)) by (cbn [length]; lia). cbn [rbind].
  rewrite length_app, Hb, (proj2 (Nat.leb_le _ _)) by (cbn [length]; lia). cbn [rbind].
  unfold DNS_TYPE_SRV. by rewrite <- !app_assoc.
Qed.

(** The query asks for the instance of the captured identifier.  For every
    validated identifier the 512-byte buffer suffices, and the packet is a
    standard query under the given identifier with one question, whose name is
    read back as the owner, for the SRV record in class IN with the
    unicast-response bit. *)
Theorem dacp_srv_query_ok id dnsid :
  id_ok id -> 0 <= dnsid < 65536 ->
  exists q next,
    dacp_srv_build_query 512 (join (dacp_labels id)) dnsid = Ret (Some q) /\
    be16_at q 0 = dnsid /\ be16_at q 2 = 0 /\ be16_at q 4 = 1 /\
    be16_at q 6 = 0 /\ be16_at q 8 = 0 /\ be16_at q 10 = 0 /\
    name_ok q 12 (dacp_labels id) next /\ length q = (next + 4)%nat /\
    be16_at q next = DNS_TYPE_SRV /\ be16_at q (next + 2) = 32769.
Proof.
  intros Hid Hd. rewrite dacp_query_built by done.
  set (h := [u8 _; _; _; _; _; _; _; _; _; _; _; _]).
  exists (h ++ labels (dacp_labels id) ++ [0] ++ [0; 33; 128; 1]),
    (12 + length (labels (dacp_labels id)) + 1)%nat.
  set (q := h ++ _). split; [done|].
  assert (forall i, be16_at q (12 + length (labels (dacp_labels id)) + 1 + i) = be16_at [0; 33; 128; 1] i) as Htl.
  { intros i. unfold be16_at, q. rewrite (app_assoc h), (app_assoc (h ++ _)).
    rewrite !(lookup_app_r ((h ++ _) ++ _)) by (rewrite !length_app; cbn [length]; unfold h; cbn [length]; lia).
    rewrite !length_app. unfold h; cbn [length].
    f_equal; [f_equal|]; do 2 f_equal; lia. }
  split_and!.
  - change (be16_at q 0) with (u8 (Z.shiftr dnsid 8) * 256 + u8 dnsid).
    rewrite Z.shiftr_div_pow2 by lia. unfold u8 at 1. rewrite Z.mod_small.
    2:{ split; [apply Z.div_pos; lia|]. apply Z.div_lt_upper_bound; lia. }
    unfold u8. change 256 with (2 ^ 8). pose proof (Z.div_mod dnsid (2 ^ 8)). lia.
  - done.
  - done.
  - done.
  - done.
  - done.
  - exists 0%nat. split_and!; [|lia|].
    + apply (labels_name_at h). by apply dacp_labels_ok.
    + pose proof (dotted_from_upper [] (dacp_labels id)) as Hu. rewrite dacp_labels_length in Hu.
      destruct Hid as [Hl _]. unfold dotted, DNS_MAX_NAME. cbn [length] in Hu. lia.
  - unfold q, h. rewrite !length_app. cbn [length]. lia.
  - specialize (Htl 0%nat). rewrite Nat.add_0_r in Htl. rewrite Htl. done.
  - rewrite Htl. done.
Qed.

Lemma dacp_srv_query_ok_witness :
  exists q next,
    dacp_srv_build_query 512 (join (dacp_labels (str "56B2A4D4"))) 4660 = Ret (Some q) /\
    be16_at q 0 = 4660 /\ be16_at q 2 = 0 /\ be16_at q 4 = 1 /\
    be16_at q 6 = 0 /\ be16_at q 8 = 0 /\ be16_at q 10 = 0 /\
    name_ok q 12 (dacp_labels (str "56B2A4D4")) next /\ length q = (next + 4)%nat /\
    be16_at q next = DNS_TYPE_SRV /\ be16_at q (next + 2) = 32769.
Proof.
  apply dacp_srv_query_ok; [|lia]. split; [cbn; lia|].
  repeat apply List.Forall_cons; try apply List.Forall_nil; unfold hex_byte; cbn; lia.
Defined.

(** ** The loop *)

Definition sends (tr : list net_op) : list bytes :=
  omap (fun o => match o with NSend p => Some p | NClose => None end) tr.
Definition closes (tr : list net_op) : nat :=
  length (List.filter (fun o => match o with NClose => true | _ => false end) tr).

(** The port a pass yields. *)
Definition answer (owner : bytes) (ps : pass) : option Z :=
  match p_reply ps with
  | Some rb => match dacp_srv_parse_response rb owner 0 with Ret r => r | _ => None end
  | None => None
  end.

Definition pass_ok (ps : pass) : Prop :=
  0 < p_now ps /\ match p_reply ps with Some rb => bytes_ok rb | None => True end.

(** The passes up to the one that ends the loop, and its outcome. *)
Definition outcome (owner : bytes) (deadline : Z) (passes : list pass) (port : Z) : Prop :=
  exists pre ps post, passes = pre ++ ps :: post /\
    Forall (fun ps => p_now ps < deadline /\ answer owner ps = None) pre /\
    ((deadline <= p_now ps /\ port = 0) \/
     (p_now ps < deadline /\ answer owner ps = Some port /\ 1 <= port <= 65535)).

Lemma outcome_cons owner deadline ps passes port :
  p_now ps < deadline -> answer owner ps = None -> outcome owner deadline passes port ->
  outcome owner deadline (ps :: passes) port.
Proof.
  intros H1 H2 (pre & ps' & post & -> & HF & Ho). exists (ps :: pre), ps', post.
  split_and!; [done|by constructor|done].
Qed.

Lemma resolve_loop_spec passes q owner start deadline half tr :
  Exists (fun ps => deadline <= p_now ps) passes -> Forall pass_ok passes ->
  exists port more, resolve_loop passes q owner start deadline half tr = Ret (port, tr ++ more) /\
    outcome owner deadline passes port /\ closes more = 1%nat /\
    (sends more = [] \/ (half = false /\ sends more = [q])).
Proof.
  intros Hex. revert half tr. induction passes as [|ps passes IH]; intros half tr Hok; [by inversion Hex|].
  inversion Hok as [|?? [Hnow Hrb] Hok']; subst. cbn [resolve_loop].
  destruct (Z.leb_spec (deadline - p_now ps) 0) as [Hd|Hd].
  { exists 0, [NClose]. split_and!; [done| |done|by left].
    exists [], ps, passes. split_and!; [done|done|]. left. split; [lia|done]. }
  assert (Exists (fun ps => deadline <= p_now ps) passes) as Hex'
    by (inversion Hex; subst; [lia|done]).
  cbv zeta. set (again := negb half && _). set (tr1 := if again then tr ++ [NSend q] else tr).
  assert (exists pfx, tr1 = tr ++ pfx /\ closes pfx = 0%nat /\
    ((again = false /\ sends pfx = []) \/ (again = true /\ sends pfx = [q]))) as (pfx & Ht & Hc & Hs).
  { unfold tr1. destruct again; [exists [NSend q]|exists []]; rewrite ?app_nil_r; split_and!; auto. }
  rewrite (proj2 (Z.eqb_neq _ 0)) by lia. cbn [negb]. set (half' := if again then true else half).
  assert (forall more, closes (pfx ++ more) = (closes pfx + closes more)%nat /\
    sends (pfx ++ more) = sends pfx ++ sends more) as Happ.
  { intros more. unfold closes, sends. by rewrite List.filter_app, length_app, omap_app. }
  assert (again = true -> half = false) as Hag by (unfold again; by destruct half).
  assert (answer owner ps = None ->
    exists port more, resolve_loop passes q owner start deadline half' tr1 = Ret (port, tr ++ more) /\
      outcome owner deadline (ps :: passes) port /\ closes more = 1%nat /\
      (sends more = [] \/ (half = false /\ sends more = [q]))) as Hnext.
  { intros Ha. destruct (IH Hex' half' tr1 Hok') as (port & more & E & Ho & Hc' & Hs').
    destruct (Happ more) as [A1 A2]. exists port, (pfx ++ more).
    rewrite E, Ht, <- app_assoc, A1, A2, Hc, Hc'. split_and!; try done; [by apply outcome_cons; [lia|..]|].
    destruct Hs as [[Ea ->]|[Ea ->]]; unfold half' in Hs'; rewrite Ea in Hs'; [done|].
    destruct Hs' as [->|[? _]]; [right; split; auto|done]. }
  destruct (p_reply ps) as [rb|] eqn:Er; [|apply Hnext; unfold answer; by rewrite Er].
  pose proof (dacp_srv_parse_spec rb owner 0 Hrb) as (r & E & _)%wp_elim.
  rewrite E. cbn [rbind]. assert (answer owner ps = r) as Ha by (unfold answer; by rewrite Er, E).
  destruct r as [port|]; [|by apply Hnext]. exists port, (pfx ++ [NClose]).
  destruct (Happ [NClose]) as [A1 A2]. rewrite Ht, <- app_assoc, A1, A2, Hc. split_and!; try done.
  - exists [], ps, passes. split_and!; [done|done|]. right. split_and!; [lia|done|..];
      by apply (parse_port_range rb owner 0).
  - rewrite app_nil_r. destruct Hs as [[_ ->]|[? ->]]; [by left|right; auto].
Qed.

(** C37: resolving ends at the deadline with the first answer, and leaks nothing.
    For every validated identifier, whatever arrives and however the passes are
    spaced, once the clock has passed the deadline the resolver has returned; it
    reports the port of the first datagram received before the deadline that
    answers for this identifier, or 0 if there was none; it sends the same query
    at most twice and closes the socket exactly once. *)
Theorem dacp_resolve_port_ok sock bound clk_id start deadline id passes :
  id_ok id -> Exists (fun ps => deadline <= p_now ps) passes -> Forall pass_ok passes ->
  exists port tr,
    dacp_resolve_port sock bound clk_id start deadline (join (dacp_labels id)) passes = Ret (port, tr) /\
    closes tr = (if sock then 1 else 0)%nat /\
    (if sock && bound then
       outcome (join (dacp_labels id)) deadline passes port /\
       exists q, (sends tr = [q] \/ sends tr = [q; q]) /\
         exists dnsid, 1 <= dnsid < 65536 /\
           dacp_srv_build_query 512 (join (dacp_labels id)) dnsid = Ret (Some q)
     else port = 0 /\ sends tr = []).
Proof.
  intros Hid Hex Hok. unfold dacp_resolve_port.
  destruct sock; cbn [negb andb]; [|by exists 0, []].
  destruct bound; cbn [negb]; [|by exists 0, [NClose]]. cbv zeta.
  set (dnsid := if Z.land clk_id 65535 =? 0 then 1 else Z.land clk_id 65535).
  assert (1 <= dnsid < 65536) as Hd.
  { unfold dnsid. change 65535 with (Z.ones 16). rewrite Z.land_ones by lia.
    pose proof (Z.mod_pos_bound clk_id (2 ^ 16) ltac:(lia)).
    destruct (Z.eqb_spec (clk_id mod 2 ^ 16) 0); lia. }
  pose proof (dacp_query_built id dnsid Hid) as Eq. rewrite Eq. cbn [rbind].
  set (q := _ ++ labels _ ++ _) in *.
  destruct (resolve_loop_spec passes q (join (dacp_labels id)) start deadline false [NSend q] Hex Hok)
    as (port & more & E & Ho & Hc & Hs).
  exists port, ([NSend q] ++ more). rewrite E. split_and!; try done.
  exists q. split; [|by exists dnsid].
  change (sends ([NSend q] ++ more)) with (q :: sends more).
  destruct Hs as [->|[_ ->]]; auto.
Qed.

Lemma dacp_resolve_port_ok_witness :
  exists port tr,
    dacp_resolve_port true true 65536 100 2100 (join (dacp_labels (str "AB")))
      [mk_pass 110 None; mk_pass 1200 (Some sample_reply); mk_pass 2200 None] = Ret (port, tr) /\
    closes tr = 1%nat /\
    outcome (join (dacp_labels (str "AB"))) 2100
      [mk_pass 110 None; mk_pass 1200 (Some sample_reply); mk_pass 2200 None] port.
Proof.
  destruct (dacp_resolve_port_ok true true 65536 100 2100 (str "AB")
    [mk_pass 110 None; mk_pass 1200 (Some sample_reply); mk_pass 2200 None])
    as (port & tr & E & Hc & Ho & _).
  - split; [cbn; lia|]. repeat apply List.Forall_cons; try apply List.Forall_nil; unfold hex_byte; cbn; lia.
  - do 2 apply Exists_cons_tl. apply Exists_cons_hd. cbn. lia.
  - repeat apply List.Forall_cons; try apply List.Forall_nil; (split; [cbn; lia|]); cbn; try done.
    by apply bytes_okb_ok.
  - exists port, tr. split_and!; [exact E|exact Hc|exact Ho].
Defined.
