(* ===== verification/Dacp.v ===== *)
(** * Outbound player control ([src/dacp.c], [src/dacp.h])

    The command sender runs on the control thread while the audio side keeps
    changing the shared state: the operations of the other threads are lists of
    [dacp_op] performed between the sender's own steps, the one between the final
    guard and the connection ([e_window]) included. *)
From Stdlib Require Import ZArith Lia String.
From stdpp Require Import base numbers list.
From S2P Require Import Prelude DacpState DacpResolve.

Local Open Scope Z_scope.

(** [dacp_cmd_t] is an integer in C: values outside the enumeration are handled. *)
Definition dacp_cmd_t : Type := Z.
Definition DACP_PLAYPAUSE : dacp_cmd_t := 0.
Definition DACP_NEXTITEM : dacp_cmd_t := 1.
Definition DACP_PREVITEM : dacp_cmd_t := 2.

Definition cmd_path (c : dacp_cmd_t) : option bytes :=
  if c =? DACP_PLAYPAUSE then Some (str "playpause")
  else if c =? DACP_NEXTITEM then Some (str "nextitem")
  else if c =? DACP_PREVITEM then Some (str "previtem")
  else None.

Definition CRLF : bytes := [13; 10].

(** What the format string renders. *)
Definition request_text (path host : bytes) (port : Z) (token : bytes) : bytes :=
  str "GET /ctrl-int/1/" ++ path ++ str " HTTP/1.0" ++ CRLF ++
  str "Host: " ++ host ++ str ":" ++ print_u port ++ CRLF ++
  str "Active-Remote: " ++ token ++ CRLF ++
  str "Connection: close" ++ CRLF ++ CRLF.

(** The C result, and the string left in [buf] if [snprintf] ran. *)
Definition dacp_format_request (cap : nat) (cmd : dacp_cmd_t) (host : option bytes) (port : Z)
    (token : option bytes) : Z * option bytes :=
  match cmd_path cmd, host, token with
  | Some path, Some host, Some token =>
      if (port <? 1) || (65535 <? port) then (-1, None)
      else if (45 <? length host)%nat || (31 <? length token)%nat then (-1, None)
      else
        let s := request_text path host port token in
        let n := length s in
        if (cap <=? n)%nat then (-1, Some (take (cap - 1) s)) else (Z.of_nat n, Some s)
  | _, _, _ => (-1, None)
  end.

Section Clock.
Context `{DataModel}.

(** [sysconf] is read once; [t] is the result of [times()]. *)
Definition mono_ms (sysconf t : Z) : Z :=
  let hz := if sysconf <=? 0 then 100 else sysconf in
  slong (Z.quot (t * 1000) hz).
End Clock.

(** ** Debouncing: the static table [last] *)

Definition NEVER : Z := -1000000.
Definition debounce_init : list Z := [NEVER; NEVER; NEVER].

Definition dacp_debounce_ok (cmd : dacp_cmd_t) (now_ms window_ms : Z) (last : list Z) :
    run (bool * list Z) :=
  let i := cmd in
  if (i <? 0) || (2 <? i) then Ret (false, last)
  else
    let! l := rd last (Z.to_nat i) in
    if negb (l =? NEVER) && (now_ms - l <? window_ms) then Ret (false, last)
    else
      let! last := put last (Z.to_nat i) now_ms in
      Ret (true, last).

(** ** The TCP exchange *)

(** The kernel's answers: whether [socket] succeeds; whether [connect] returns 0,
    [EINPROGRESS] or another error; [poll]; [SO_ERROR]. *)
Inductive connect_t := CONNECTED | INPROGRESS | REFUSED.
Record tcp_answers := mk_tcp {
  a_socket : bool;
  a_connect : connect_t;
  a_poll : Z;
  a_soerr : Z;
}.

(** [TWrite data n]: [write] was offered [data] and returned [n]: it took the first [n]
    bytes, or none. *)
Inductive tcp_op := TSocket | TConnect (ip port : Z) | TWrite (data : bytes) (n : Z) | TClose.

(** What reached the peer. *)
Definition wire (tr : list tcp_op) : bytes :=
  List.concat (map (fun o => match o with TWrite data n => take (Z.to_nat n) data | _ => [] end) tr).

(** The connected descriptor is the [bool]. *)
Definition tcp_connect_timeout (a : tcp_answers) (ip_be port : Z) : bool * list tcp_op :=
  if negb (a_socket a) then (false, [])
  else
    let tr := [TSocket; TConnect ip_be (u16 port)] in
    match a_connect a with
    | CONNECTED => (true, tr)
    | REFUSED => (false, tr ++ [TClose])
    | INPROGRESS =>
        if a_poll a <=? 0 then (false, tr ++ [TClose])
        else if negb (a_soerr a =? 0) then (false, tr ++ [TClose])
        else (true, tr)
    end.

(** The three-digit loop. *)
Fixpoint status_digits (k : nat) (buf : bytes) (i : nat) (code : Z) : run Z :=
  match k with
  | O => Ret code
  | S k' =>
      if (i <? length buf)%nat then
        let! c := rd buf i in
        if is_digit c then status_digits k' buf (S i) (code * 10 + (c - 48)) else Ret code
      else Ret code
  end.

Definition parse_http_status (buf : bytes) : run Z :=
  let n := length buf in
  let i := default n (memchr 32 buf) in
  if (n <? i + 4)%nat then Ret (-1)
  else
    let i := S i in
    let! c := rd buf i in
    if negb (is_digit c) then Ret (-1) else status_digits 3 buf i 0.

(** [inet_ntoa] on a little-endian machine. *)
Definition inet_ntoa (s_addr : Z) : bytes :=
  print_u (Z.land s_addr 255) ++ str "." ++ print_u (Z.land (Z.shiftr s_addr 8) 255) ++ str "." ++
  print_u (Z.land (Z.shiftr s_addr 16) 255) ++ str "." ++ print_u (Z.land (Z.shiftr s_addr 24) 255).

(** ** The sender *)

(** What the sender meets: the resolver's environment, the operations of other
    threads while it resolves ([e_during]), before it looks again ([e_before]) and
    after that, while it connects, writes and reads ([e_window]), and the network. *)
Record send_env := mk_env {
  e_sock : bool;
  e_bound : bool;
  e_clk : Z;
  e_start : Z;
  e_now : Z;
  e_passes : list pass;
  e_during : list dacp_op;
  e_before : list dacp_op;
  e_window : list dacp_op;
  e_tcp : tcp_answers;
  e_write : bytes -> Z;
  e_poll : Z;
  e_read : option bytes;
}.

Definition owner_of (id : bytes) : bytes :=
  take 127 (str "iTunes_Ctrl_" ++ id ++ str "._dacp._tcp.local").

(** The exchange after the guard; [req] is the request of length [rn]. *)
Definition dacp_exchange (e : send_env) (ip port : Z) (req : bytes) : run (Z * list tcp_op) :=
  let '(fd, tr) := tcp_connect_timeout (e_tcp e) ip port in
  if negb fd then Ret (-1, tr)
  else
    let w := e_write e req in
    let! code :=
      (if (w =? Z.of_nat (length req)) && (0 <? e_poll e) then
         match e_read e with
         | Some ((_ :: _) as r) => parse_http_status (take 127 r)
         | _ => Ret (-1)
         end
       else Ret (-1)) in
    Ret (code, tr ++ [TWrite req w; TClose]).

(** The result, the shared state when it returns, and the TCP operations. *)
Definition dacp_send_command (cmd : dacp_cmd_t) (e : send_env) (g : dacp_snapshot_t) :
    run (Z * dacp_snapshot_t * list tcp_op) :=
  let snap := dacp_state_snapshot g in
  if negb (have_creds snap) then Ret (-1, g, [])
  else
    let owner := owner_of (dacp_id snap) in
    let port := if resolved_gen snap =? generation snap then resolved_port snap else 0 in
    let! r :=
      (if port =? 0 then
         let! x := dacp_resolve_port (e_sock e) (e_bound e) (e_clk e) (e_start e) (e_now e + 2000)
                     owner (e_passes e) in
         let g := foldl dacp_do g (e_during e) in
         if x.1 =? 0 then Ret (0, g) else Ret (x.1, dacp_state_publish_port (generation snap) x.1 g)
       else Ret (port, g)) in
    let '(port, g) := r in
    if port =? 0 then Ret (-1, g, [])
    else
      let g := foldl dacp_do g (e_before e) in
      let cur := dacp_state_snapshot g in
      if negb (have_creds cur) || negb (generation cur =? generation snap) ||
         negb (peer_ip_be cur =? peer_ip_be snap) ||
         negb (bytes_eqb (dacp_id cur) (dacp_id snap)) ||
         negb (bytes_eqb (active_remote cur) (active_remote snap))
      then Ret (-1, g, [])
      else
        let host := take 15 (inet_ntoa (peer_ip_be cur)) in
        match dacp_format_request 256 cmd (Some host) port (Some (active_remote cur)) with
        | (rn, Some req) =>
            if rn <? 0 then Ret (-1, g, [])
            else
              let! x := dacp_exchange e (peer_ip_be cur) port req in
              Ret (x.1, foldl dacp_do g (e_window e), x.2)
        | (_, None) => Ret (-1, g, [])
        end.

(** ** The control thread *)

Definition DEBOUNCE_MS : Z := 300.

(** The command a datagram asks for; [buf] is 64 bytes with its terminator. *)
Definition control_command (data : bytes) : option dacp_cmd_t :=
  let s := cstr (take 63 data) in
  let s := match memchr 10 s with Some i => take i s | None => s end in
  if bytes_eqb s (str "NEXT") then Some DACP_NEXTITEM
  else if bytes_eqb s (str "PREV") then Some DACP_PREVITEM
  else if bytes_eqb s (str "PLAYPAUSE") then Some DACP_PLAYPAUSE
  else None.

(** One turn of the loop: [t_ops] are the operations of the other threads since
    the last turn, [t_data] the datagram if [poll] reports one and it is not
    empty. *)
Record turn := mk_turn {
  t_ops : list dacp_op;
  t_data : option bytes;
  t_now : Z;
  t_env : send_env;
}.

(** The commands sent, each with the time it fired and its exchange. *)
Definition fired : Type := dacp_cmd_t * Z * list tcp_op.

Fixpoint control_loop (turns : list turn) (last : list Z) (g : dacp_snapshot_t) :
    run (list fired * list Z * dacp_snapshot_t) :=
  match turns with
  | [] => Ret ([], last, g)
  | t :: rest =>
      let g := foldl dacp_do g (t_ops t) in
      match t_data t with
      | None | Some [] => control_loop rest last g
      | Some data =>
          match control_command data with
          | None => control_loop rest last g
          | Some cmd =>
              let! d := dacp_debounce_ok cmd (t_now t) DEBOUNCE_MS last in
              if d.1 then
                let! s := dacp_send_command cmd (t_env t) g in
                let! r := control_loop rest d.2 s.1.2 in
                Ret ((cmd, t_now t, s.2) :: r.1.1, r.1.2, r.2)
              else control_loop rest d.2 g
          end
      end
  end.

(** The life of the control socket. *)
Inductive ctl_op := CSocket | CUnlink (path : bytes) | CBind (path : bytes) | CChmod | CLoop | CClose.

Definition control_path (prefix : bytes) : bytes := take 299 (prefix ++ str "/control.sock").

Definition dacp_control_thread (prefix : bytes) (sock bound : bool) (turns : list turn)
    (last : list Z) (g : dacp_snapshot_t) : run (list ctl_op * list fired) :=
  if negb sock then Ret ([], [])
  else
    let path := control_path prefix in
    if (108 <=? length path)%nat then Ret ([CSocket; CClose], [])
    else if negb bound then Ret ([CSocket; CUnlink path; CClose], [])
    else
      let! r := control_loop turns last g in
      Ret ([CSocket; CUnlink path; CBind path; CChmod; CLoop; CUnlink path; CClose], r.1.1).

(** ** Debouncing, against the whole history *)

(** A command may fire when no firing of it lies less than the window back. *)
Definition may_fire (hist : list (dacp_cmd_t * Z)) (window : Z) (cmd : dacp_cmd_t) (now : Z) : bool :=
  (0 <=? cmd) && (cmd <=? 2) &&
  forallb (fun f => negb (f.1 =? cmd) || (window <=? now - f.2)) hist.

(** The table holds the latest firing of each command. *)
Definition table_ok (last : list Z) (hist : list (dacp_cmd_t * Z)) : Prop :=
  length last = 3%nat /\
  forall cmd l, 0 <= cmd <= 2 -> last !! Z.to_nat cmd = Some l ->
    (l = NEVER -> forall t, ~ In (cmd, t) hist) /\
    (l <> NEVER -> In (cmd, l) hist /\ forall t, In (cmd, t) hist -> t <= l).

Lemma table_ok_init : table_ok debounce_init [].
Proof.
  split; [done|]. intros cmd l Hc H. split; [intros _ t []|]. intros Hn. destruct Hn.
  unfold debounce_init in H. destruct (Z.to_nat cmd) as [|[|[|[|n]]]]; cbn in H; congruence.
Qed.

Lemma debounce_step cmd now w last hist :
  table_ok last hist -> Forall (fun f => f.2 <= now) hist -> 0 <= now ->
  exists last', dacp_debounce_ok cmd now w last = Ret (may_fire hist w cmd now, last') /\
    table_ok last' (if may_fire hist w cmd now then (cmd, now) :: hist else hist).
Proof.
  intros [Hl Ht] Hh Hn. unfold dacp_debounce_ok, may_fire. cbv zeta.
  destruct (Z.ltb_spec cmd 0); cbn [orb].
  { rewrite (proj2 (Z.leb_gt _ _)) by lia. cbn [andb]. by exists last. }
  destruct (Z.ltb_spec 2 cmd); cbn [orb].
  { rewrite (proj2 (Z.leb_gt cmd 2)) by lia. rewrite andb_false_r. cbn [andb]. by exists last. }
  rewrite (proj2 (Z.leb_le 0 cmd)), (proj2 (Z.leb_le cmd 2)) by lia. cbn [andb].
  destruct (lookup_lt_is_Some_2 last (Z.to_nat cmd)) as [l El]; [lia|].
  unfold rd. rewrite El. cbn [rbind]. destruct (Ht cmd l ltac:(lia) El) as [H1 H2].
  assert ((negb (l =? NEVER) && (now - l <? w)) =
    negb (forallb (fun f => negb (f.1 =? cmd) || (w <=? now - f.2)) hist)) as ->.
  { destruct (Z.eqb_spec l NEVER) as [->|Hne]; cbn [negb andb].
    - symmetry. apply negb_false_iff, forallb_forall. intros [c t] Hin. cbn [fst snd].
      destruct (Z.eqb_spec c cmd) as [->|]; [|done]. by destruct (H1 eq_refl t).
    - destruct (H2 Hne) as [Hin Hmax]. destruct (Z.ltb_spec (now - l) w).
      + symmetry. apply negb_true_iff, not_true_iff_false. rewrite forallb_forall.
        intros Hf. specialize (Hf _ Hin). cbn [fst snd] in Hf. rewrite Z.eqb_refl in Hf. cbn in Hf. lia.
      + symmetry. apply negb_false_iff, forallb_forall. intros [c t] Hc. cbn [fst snd].
        destruct (Z.eqb_spec c cmd) as [->|]; [|done]. cbn [negb orb]. specialize (Hmax t Hc). lia. }
  destruct (forallb _ _); cbn [negb]; [|by exists last].
  rewrite put_lt by lia. cbn [rbind]. eexists. split; [done|].
  split; [by rewrite length_insert|]. intros c l' Hc E.
  destruct (decide (c = cmd)) as [->|Hne].
  - rewrite list_lookup_insert_eq in E by lia. simplify_eq.
    split; [intros ->; unfold NEVER in *; lia|]. intros _. split; [by left|].
    intros t [[= <-]|Hin]; [lia|]. rewrite List.Forall_forall in Hh. by apply (Hh (cmd, t)).
  - rewrite list_lookup_insert_ne in E by lia. destruct (Ht c l' Hc E) as [A B]. split.
    + intros Hl' t [[=]|Hin]; [done|]. by apply (A Hl' t).
    + intros Hl'. destruct (B Hl') as [B1 B2]. split; [by right|].
      intros t [[=]|Hin]; [done|]. by apply B2.
Qed.

(** A run of requests to fire. *)
Fixpoint debounce_run (calls : list (dacp_cmd_t * Z)) (w : Z) (last : list Z) : run (list bool) :=
  match calls with
  | [] => Ret []
  | (cmd, now) :: rest =>
      let! r := dacp_debounce_ok cmd now w last in
      let! bs := debounce_run rest w r.2 in
      Ret (r.1 :: bs)
  end.

Fixpoint may_fire_run (calls : list (dacp_cmd_t * Z)) (w : Z) (hist : list (dacp_cmd_t * Z)) : list bool :=
  match calls with
  | [] => []
  | (cmd, now) :: rest =>
      let b := may_fire hist w cmd now in
      b :: may_fire_run rest w (if b then (cmd, now) :: hist else hist)
  end.

(** Times never go back. *)
Fixpoint clock_from (t : Z) (calls : list (dacp_cmd_t * Z)) : Prop :=
  match calls with
  | [] => True
  | c :: rest => t <= c.2 /\ clock_from c.2 rest
  end.

Lemma hist_mono now now' (hist : list (dacp_cmd_t * Z)) (b : bool) cmd :
  Forall (fun f => f.2 <= now) hist -> now <= now' ->
  Forall (fun f => f.2 <= now') (if b then (cmd, now') :: hist else hist).
Proof.
  intros H Hle. assert (Forall (fun f => f.2 <= now') hist) by (eapply Forall_impl; [done|]; cbn; lia).
  destruct b; [|done]. constructor; [cbn; lia|done].
Qed.

(** The debounce table forgets nothing that matters.  As long as the clock
    does not go back, the answers of the three-entry table are those of the rule
    "a command fires unless the same command fired less than the window ago",
    applied to the whole history. *)
Theorem dacp_debounce_exact calls window :
  clock_from 0 calls -> debounce_run calls window debounce_init = Ret (may_fire_run calls window []).
Proof.
  assert (forall last hist t, table_ok last hist -> Forall (fun f => f.2 <= t) hist -> 0 <= t ->
    clock_from t calls -> debounce_run calls window last = Ret (may_fire_run calls window hist)) as H.
  { induction calls as [|[cmd now] calls IH]; intros last hist t Ht Hh H0 Hc; [done|].
    destruct Hc as [Hle Hc]. cbn [debounce_run may_fire_run fst snd] in *.
    assert (Forall (fun f => f.2 <= now) hist) as Hh'
      by apply (hist_mono t now hist false cmd Hh Hle).
    destruct (debounce_step cmd now window last hist Ht Hh' ltac:(lia)) as (last' & -> & Ht').
    cbn [rbind fst snd]. rewrite (IH last' _ now Ht'); [done| |lia|done].
    by apply hist_mono with t. }
  intros Hc. by apply (H _ [] 0 table_ok_init).
Qed.

Lemma dacp_debounce_exact_witness :
  debounce_run [(DACP_NEXTITEM, 100); (DACP_NEXTITEM, 350); (DACP_PREVITEM, 360); (DACP_NEXTITEM, 400)]
    300 debounce_init = Ret [true; false; true; true].
Proof.
  apply (dacp_debounce_exact
    [(DACP_NEXTITEM, 100); (DACP_NEXTITEM, 350); (DACP_PREVITEM, 360); (DACP_NEXTITEM, 400)] 300).
  cbn. lia.
Defined.

(** ** The request and its answer *)

Lemma inet_ntoa_length a : (length (inet_ntoa a) <= 15)%nat.
Proof.
  unfold inet_ntoa. change 255 with (Z.ones 8). rewrite !Z.land_ones by lia. rewrite !length_app.
  assert (forall z, (length (print_u (z mod 2 ^ 8)) <= 3)%nat) as H.
  { intros z. apply print_u_length; [|lia]. pose proof (Z.mod_pos_bound z (2 ^ 8) ltac:(lia)). cbn. lia. }
  pose proof (H a). pose proof (H (Z.shiftr a 8)). pose proof (H (Z.shiftr a 16)).
  pose proof (H (Z.shiftr a 24)). cbn [length str list_ascii_of_string map]. lia.
Qed.

Lemma cmd_path_length cmd path : cmd_path cmd = Some path -> (length path <= 9)%nat.
Proof. unfold cmd_path. repeat case_match; intros [= <-]; cbn; lia. Qed.

Lemma request_text_length path host port token :
  (length path <= 9)%nat -> (length host <= 45)%nat -> 1 <= port <= 65535 -> (length token <= 31)%nat ->
  (length (request_text path host port token) < 256)%nat.
Proof.
  intros Hp Hh Hport Ht. unfold request_text. rewrite !length_app.
  pose proof (print_u_length 5 port ltac:(cbn; lia) ltac:(lia)).
  unfold CRLF, str. rewrite !length_map. cbn [length list_ascii_of_string]. lia.
Qed.

(** The formatter succeeds on what the sender gives it, and only then writes a
    whole request. *)
Lemma format_request_spec cmd host port token :
  (length host <= 45)%nat -> (length token <= 31)%nat ->
  dacp_format_request 256 cmd (Some host) port (Some token) =
  match cmd_path cmd with
  | Some path =>
      if (1 <=? port) && (port <=? 65535) then
        (Z.of_nat (length (request_text path host port token)), Some (request_text path host port token))
      else (-1, None)
  | None => (-1, None)
  end.
Proof.
  intros Hh Ht. unfold dacp_format_request. destruct (cmd_path cmd) as [path|] eqn:Ep; [|done].
  destruct (Z.leb_spec 1 port); destruct (Z.leb_spec port 65535); cbn [andb].
  2,3,4: rewrite ?(proj2 (Z.ltb_lt port 1)), ?(proj2 (Z.ltb_lt 65535 port)), ?orb_true_r by lia; done.
  rewrite (proj2 (Z.ltb_ge port 1)), (proj2 (Z.ltb_ge 65535 port)) by lia. cbn [orb].
  rewrite (proj2 (Nat.ltb_ge _ _)) by lia. rewrite (proj2 (Nat.ltb_ge 31 _)) by lia. cbn [orb].
  pose proof (request_text_length path host port token (cmd_path_length _ _ Ep) Hh ltac:(lia) Ht).
  by rewrite (proj2 (Nat.leb_gt _ _)) by lia.
Qed.

Lemma status_digits_wp k buf i code :
  0 <= code -> wp (status_digits k buf i code) (fun c => 0 <= c < (code + 1) * 10 ^ Z.of_nat k).
Proof.
  revert i code. induction k as [|k IH]; intros i code Hc; cbn [status_digits]; [cbn; lia|].
  assert (1 <= 10 ^ Z.of_nat (S k)) by (pose proof (Z.pow_pos_nonneg 10 (Z.of_nat (S k))); lia).
  destruct (Nat.ltb_spec i (length buf)); [|cbn -[Z.pow Z.of_nat]; nia].
  wp_step. wp_step; [done|]. destruct (is_digit_spec v); [|cbn -[Z.pow Z.of_nat]; nia].
  eapply wp_mono; [apply IH; lia|]. intros c Hr. cbv beta in Hr.
  rewrite Nat2Z.inj_succ, Z.pow_succ_r by lia.
  assert (1 <= 10 ^ Z.of_nat k) by (pose proof (Z.pow_pos_nonneg 10 (Z.of_nat k)); lia). nia.
Qed.

Lemma parse_http_status_wp buf : wp (parse_http_status buf) (fun c => -1 <= c <= 999).
Proof.
  unfold parse_http_status. cbv zeta. destruct (Nat.ltb_spec (length buf) (default (length buf) (memchr 32 buf) + 4));
    [cbn; lia|].
  wp_step. wp_step; [lia|]. destruct (is_digit v); cbn [negb]; [|cbn; lia].
  eapply wp_mono; [by apply status_digits_wp|]. intros c Hc. cbn in Hc. lia.
Qed.

(** The status line of a reply. *)
Lemma parse_http_status_line v a b c rest :
  Forall (fun x => x <> 32) v -> is_digit a = true -> is_digit b = true -> is_digit c = true ->
  parse_http_status (v ++ [32; a; b; c] ++ rest) = Ret (dec_val [a; b; c]).
Proof.
  intros Hv Ha Hb Hc. unfold parse_http_status. cbn [app]. rewrite memchr_skip by done.
  cbn [default from_option id]. rewrite length_app. cbn [length].
  rewrite (proj2 (Nat.ltb_ge _ _)) by lia. unfold rd.
  assert (forall k, (v ++ 32 :: a :: b :: c :: rest) !! (k + length v)%nat = (32 :: a :: b :: c :: rest) !! k) as Hl
    by (intros k; rewrite lookup_app_r by lia; f_equal; lia).
  pose proof (Hl 1%nat) as E1. pose proof (Hl 2%nat) as E2. pose proof (Hl 3%nat) as E3. cbn in E1, E2, E3.
  rewrite E1. cbn [rbind]. rewrite Ha. cbn [negb status_digits].
  rewrite length_app. cbn [length]. rewrite !(proj2 (Nat.ltb_lt _ _)) by lia. unfold rd.
  rewrite E1. cbn [rbind]. rewrite Ha, E2. cbn [rbind]. rewrite Hb, E3. cbn [rbind]. by rewrite Hc.
Qed.

(** ** Sending *)

Definition env_ok (e : send_env) : Prop :=
  Exists (fun ps => e_now e + 2000 <= p_now ps) (e_passes e) /\ Forall pass_ok (e_passes e).

Lemma owner_of_labels id : id_ok id -> owner_of id = join (dacp_labels id).
Proof.
  intros [Hl _]. unfold owner_of, dacp_labels. rewrite take_ge by (rewrite !length_app; cbn; lia).
  cbn [join]. rewrite <- app_assoc. done.
Qed.

(** The exchange is total; whatever it does, it does on one connection to the
    given address, which it closes. *)
Lemma dacp_exchange_spec e ip port req :
  0 <= port < 65536 ->
  exists code tr, dacp_exchange e ip port req = Ret (code, tr) /\
    (tr = [] \/ tr = [TSocket; TConnect ip port; TClose] \/
     tr = [TSocket; TConnect ip port; TWrite req (e_write e req); TClose]) /\
    (code <> -1 -> tr = [TSocket; TConnect ip port; TWrite req (Z.of_nat (length req)); TClose]) /\
    (a_socket (e_tcp e) = true -> a_connect (e_tcp e) = CONNECTED ->
       tr = [TSocket; TConnect ip port; TWrite req (e_write e req); TClose]).
Proof.
  intros Hp. unfold dacp_exchange, tcp_connect_timeout. rewrite u16_small by lia.
  destruct (a_socket (e_tcp e)); cbn [negb]; [|exists (-1), []; split_and!; [done|by left|done|done]].
  assert (exists code, (if (e_write e req =? Z.of_nat (length req)) && (0 <? e_poll e) then
      match e_read e with Some ((_ :: _) as r) => parse_http_status (take 127 r) | _ => Ret (-1) end
    else Ret (-1)) = Ret code /\ (code <> -1 -> e_write e req = Z.of_nat (length req))) as (code & Ecode & Hwhole).
  { destruct (Z.eqb_spec (e_write e req) (Z.of_nat (length req))); [|by eexists]. cbn [andb].
    destruct (0 <? e_poll e); [|by eexists]. destruct (e_read e) as [[|x r]|]; [by eexists| |by eexists].
    pose proof (parse_http_status_wp (take 127 (x :: r))) as (c & E & _)%wp_elim. by exists c. }
  assert (forall tr, (let! code := (if (e_write e req =? Z.of_nat (length req)) && (0 <? e_poll e) then
      match e_read e with Some ((_ :: _) as r) => parse_http_status (take 127 r) | _ => Ret (-1) end
    else Ret (-1)) in Ret (code, tr ++ [TWrite req (e_write e req); TClose])) =
    Ret (code, tr ++ [TWrite req (e_write e req); TClose])) as Hx
    by (intros tr; by rewrite Ecode).
  destruct (a_connect (e_tcp e)).
  - cbn [negb]. rewrite Hx. eexists _, _. split_and!; [done|by auto|intros Hc; by rewrite <- Hwhole|done].
  - destruct (a_poll (e_tcp e) <=? 0); cbn [negb];
      [|destruct (a_soerr (e_tcp e) =? 0); cbn [negb]]; rewrite ?Hx; eexists _, _;
      (split_and!; [done|by auto|intros Hc; by rewrite <- ?Hwhole|done]).
  - cbn [negb]. eexists _, _. split_and!; [done|auto|done|done].
Qed.

(** The fields a request is made from. *)
Definition same_target (a b : dacp_snapshot_t) : Prop :=
  have_creds a = true /\ generation a = generation b /\ peer_ip_be a = peer_ip_be b /\
  dacp_id a = dacp_id b /\ active_remote a = active_remote b.

(** The guard before the network is touched. *)
Lemma guard_spec (cur snap : dacp_snapshot_t) :
  negb (have_creds cur) || negb (generation cur =? generation snap) ||
    negb (peer_ip_be cur =? peer_ip_be snap) || negb (bytes_eqb (dacp_id cur) (dacp_id snap)) ||
    negb (bytes_eqb (active_remote cur) (active_remote snap)) = false <-> same_target cur snap.
Proof.
  unfold same_target. rewrite !orb_false_iff, !negb_false_iff, !Z.eqb_eq.
  destruct (bytes_eqb_spec (dacp_id cur) (dacp_id snap)), (bytes_eqb_spec (active_remote cur) (active_remote snap));
    intuition congruence.
Qed.

Definition cached (g : dacp_snapshot_t) : bool :=
  (resolved_gen g =? generation g) && negb (resolved_port g =? 0).

(** Where the port comes from. *)
Definition port_source (e : send_env) (g : dacp_snapshot_t) (port : Z) : Prop :=
  if cached g then port = resolved_port g
  else e_sock e && e_bound e = true /\
       outcome (join (dacp_labels (dacp_id g))) (e_now e + 2000) (e_passes e) port.

(** The operations of other threads a command lives through. *)
Definition interference (e : send_env) (g : dacp_snapshot_t) : list dacp_op :=
  if cached g then e_before e else e_during e ++ e_before e.

Lemma publish_gen gen port g : generation (dacp_state_publish_port gen port g) = generation g.
Proof. unfold dacp_state_publish_port. by case_match. Qed.

Lemma sessions_app a b : sessions (a ++ b) = (sessions a + sessions b)%nat.
Proof. unfold sessions. by rewrite List.filter_app, length_app. Qed.

(** The port the command will use, with the state before the second look. *)
Lemma send_port e g :
  dacp_ok g -> have_creds g = true -> env_ok e ->
  exists port g1,
    (let port := if resolved_gen g =? generation g then resolved_port g else 0 in
     if port =? 0 then
       let! x := dacp_resolve_port (e_sock e) (e_bound e) (e_clk e) (e_start e) (e_now e + 2000)
                   (owner_of (dacp_id g)) (e_passes e) in
       let g' := foldl dacp_do g (e_during e) in
       if x.1 =? 0 then Ret (0, g') else Ret (x.1, dacp_state_publish_port (generation g) x.1 g')
     else Ret (port, g)) = Ret (port, g1) /\
    dacp_ok g1 /\ (port <> 0 -> port_source e g port) /\ (cached g = true -> port = resolved_port g /\ g1 = g) /\
    generation g1 = u32 (generation g + Z.of_nat (if cached g then 0 else sessions (e_during e))).
Proof.
  intros Hok Hc [Hex Hps]. cbv zeta. unfold port_source, cached.
  destruct (Z.eqb_spec (resolved_gen g) (generation g)) as [Eg|Eg]; cbn [andb];
    [destruct (Z.eqb_spec (resolved_port g) 0) as [Ep|Ep]; cbn [negb]|].
  2:{ exists (resolved_port g), g. split_and!; auto. rewrite Z.add_0_r, u32_small; [done|apply Hok]. }
  all: destruct Hok as (Hg & Hcr & Hrest); destruct (Hcr Hc) as [Hid _].
  all: rewrite owner_of_labels by done; change (0 =? 0) with true; cbv iota.
  all: pose proof (dacp_run_ok g (e_during e) (conj Hg (conj Hcr Hrest))) as Hok1;
    pose proof (generation_run g (e_during e) Hg) as Hgen.
  all: unfold dacp_resolve_port.
  all: destruct (e_sock e); cbn [negb andb];
    [|by exists 0, (foldl dacp_do g (e_during e))].
  all: destruct (e_bound e); cbn [negb andb];
    [|by exists 0, (foldl dacp_do g (e_during e))].
  all: rewrite dacp_query_built by done; cbn [rbind].
  all: match goal with |- context [resolve_loop ?ps ?q ?o ?st ?d ?h ?tr] =>
    destruct (resolve_loop_spec ps q o st d h tr Hex Hps) as (port & more & E & Ho & _); rewrite E end.
  all: cbn [rbind fst].
  all: destruct (Z.eqb_spec port 0) as [->|Hp0];
    [by exists 0, (foldl dacp_do g (e_during e))
    |exists port, (dacp_state_publish_port (generation g) port (foldl dacp_do g (e_during e)))].
  all: split_and!; try done; [by apply (dacp_do_ok _ (DPublish (generation g) port))|].
  all: by rewrite publish_gen.
Qed.

(** The state the final guard looked at. *)
Definition looked (e : send_env) (g' cur : dacp_snapshot_t) : Prop := g' = foldl dacp_do cur (e_window e).

(** The whole behaviour of one command; used for single commands and for the
    control thread. *)
Lemma dacp_send_spec cmd e g :
  dacp_ok g -> env_ok e ->
  exists code g' tr, dacp_send_command cmd e g = Ret (code, g', tr) /\ dacp_ok g' /\
    (tr <> [] -> exists path port,
       cmd_path cmd = Some path /\ 1 <= port <= 65535 /\ port_source e g port /\
       (exists cur, same_target cur g /\ dacp_ok cur /\ looked e g' cur) /\
       u32 (generation g + Z.of_nat (sessions (interference e g))) = generation g /\
       let req := request_text path (inet_ntoa (peer_ip_be g)) port (active_remote g) in
       (length req < 256)%nat /\
       (tr = [TSocket; TConnect (peer_ip_be g) port; TClose] \/
        tr = [TSocket; TConnect (peer_ip_be g) port; TWrite req (e_write e req); TClose]) /\
       (code <> -1 -> wire tr = req)) /\
    (forall path, have_creds g = true -> cached g = true -> 1 <= resolved_port g <= 65535 ->
       same_target (foldl dacp_do g (e_before e)) g -> cmd_path cmd = Some path ->
       a_socket (e_tcp e) = true -> a_connect (e_tcp e) = CONNECTED ->
       let req := request_text path (inet_ntoa (peer_ip_be g)) (resolved_port g) (active_remote g) in
       In (TWrite req (e_write e req)) tr).
Proof.
  intros Hok He. unfold dacp_send_command, dacp_state_snapshot.
  destruct (have_creds g) eqn:Hc; cbn [negb]; [|by exists (-1), g, []].
  destruct (send_port e g Hok Hc He) as (port & g1 & E & Hok1 & Hsrc & Hcache & Hgen). cbv zeta in E |- *.
  rewrite E. cbn [rbind]. clear E. destruct (Z.eqb_spec port 0) as [->|Hp0].
  { exists (-1), g1, []. split_and!; try done. intros path _ Hca Hr. destruct (Hcache Hca). lia. }
  pose proof (dacp_run_ok g1 (e_before e) Hok1) as Hok2.
  set (cur := foldl dacp_do g1 (e_before e)) in *.
  destruct (_ || _) eqn:Eguard.
  { exists (-1), cur, []. split_and!; try done. intros path _ Hca _ Hsame.
    destruct (Hcache Hca) as [_ ->]. apply guard_spec in Hsame. fold cur in Hsame. congruence. }
  apply guard_spec in Eguard as Hsame. pose proof Hsame as (Hcc & Hcg & Hcp & Hci & Hct).
  destruct Hok2 as (Hg2 & Hcr2 & Hrest2). destruct (Hcr2 Hcc) as [_ [Htok _]].
  rewrite take_ge by apply inet_ntoa_length.
  rewrite format_request_spec by (pose proof (inet_ntoa_length (peer_ip_be cur)); lia).
  destruct (cmd_path cmd) as [path|] eqn:Epath.
  2:{ exists (-1), cur, []. by split_and!. }
  destruct (Z.leb_spec 1 port); [destruct (Z.leb_spec port 65535)|]; cbn [andb].
  2,3: exists (-1), cur, []; split_and!; try done; intros p _ Hca Hr; destruct (Hcache Hca); lia.
  rewrite (proj2 (Z.ltb_ge _ _)) by lia.
  destruct (dacp_exchange_spec e (peer_ip_be cur) port
    (request_text path (inet_ntoa (peer_ip_be cur)) port (active_remote cur)) ltac:(lia))
    as (code & tr & Ex & Htr & Hwhole & Hlive).
  pose proof (dacp_run_ok cur (e_window e) (conj Hg2 (conj Hcr2 Hrest2))) as Hok3.
  rewrite Ex. cbn [rbind fst snd]. exists code, (foldl dacp_do cur (e_window e)), tr. split; [done|]. split; [done|]. split.
  - intros Hne. exists path, port. split_and!; [done|done|done|by apply Hsrc|by exists cur| | | |].
    + unfold interference. rewrite <- Hcg at 2. unfold cur.
      rewrite generation_run by apply Hok1. rewrite Hgen. unfold u32. rewrite Zplus_mod_idemp_l.
      f_equal. destruct (cached g); rewrite ?sessions_app; lia.
    + rewrite <- Hcp, <- Hct. apply request_text_length; [by eapply cmd_path_length| |lia|lia].
      pose proof (inet_ntoa_length (peer_ip_be cur)). lia.
    + rewrite <- Hcp, <- Hct. by destruct Htr as [|[|]]; auto.
    + intros Hcode. rewrite (Hwhole Hcode), Hcp, Hct. unfold wire. cbn. by rewrite Nat2Z.id, take_ge, !app_nil_r by done.
  - intros p _ Hca Hr Hs [= <-] A1 A2. rewrite (Hlive A1 A2). destruct (Hcache Hca) as [-> _].
    rewrite Hcp, Hct. cbn. auto.
Qed.

(** C16: a command goes to the sender that was current when it last looked, or nowhere.
    Whatever the other threads do meanwhile, a command that reaches the network is, on
    one connection that is closed, one request of fewer than 256 bytes, made of the path
    of the command and of the validated token of the session the command was issued
    in, offered to one [write] to the address of that session's sender; the port is the
    one cached for the session or the one resolved for its identifier; at the final
    guard the credentials and the address still held, and no session had begun since
    the command was issued.  What the others do after the guard, while it connects and
    writes, the code does not see, and nothing is said of it.  A status is reported
    only for a request that was written whole.  Conversely, while the credentials hold,
    a valid command with a cached port is offered to the connection as soon as it is
    accepted. *)
Theorem dacp_send_current cmd e g :
  dacp_ok g -> env_ok e -> Z.of_nat (sessions (interference e g)) < 2 ^ 32 ->
  exists code g' tr, dacp_send_command cmd e g = Ret (code, g', tr) /\
    (tr <> [] -> exists path port,
       cmd_path cmd = Some path /\ 1 <= port <= 65535 /\ port_source e g port /\
       token_ok (active_remote g) /\ sessions (interference e g) = 0%nat /\
       (exists cur, same_target cur g /\ dacp_ok cur /\ looked e g' cur) /\
       let req := request_text path (inet_ntoa (peer_ip_be g)) port (active_remote g) in
       (length req < 256)%nat /\
       (tr = [TSocket; TConnect (peer_ip_be g) port; TClose] \/
        tr = [TSocket; TConnect (peer_ip_be g) port; TWrite req (e_write e req); TClose]) /\
       (code <> -1 -> wire tr = req)) /\
    (forall path, have_creds g = true -> cached g = true -> 1 <= resolved_port g <= 65535 ->
       same_target (foldl dacp_do g (e_before e)) g -> cmd_path cmd = Some path ->
       a_socket (e_tcp e) = true -> a_connect (e_tcp e) = CONNECTED ->
       let req := request_text path (inet_ntoa (peer_ip_be g)) (resolved_port g) (active_remote g) in
       In (TWrite req (e_write e req)) tr).
Proof.
  intros Hok He Hs. destruct (dacp_send_spec cmd e g Hok He) as (code & g' & tr & E & Hok' & Hsafe & Hlive).
  exists code, g', tr. split; [done|]. split; [|done]. intros Hne.
  destruct (Hsafe Hne) as (path & port & A1 & A2 & A3 & A4 & A5 & A6). exists path, port.
  destruct A4 as (cur & Hsame & Hcur & Hl). pose proof Hsame as (Hc & _ & _ & _ & Ht).
  split; [done|]. split; [done|]. split; [done|]. split; [rewrite <- Ht; by apply Hcur|].
  split; [|split; [by exists cur|exact A6]].
  destruct Hok as (Hg & _). unfold u32 in A5. set (k := Z.of_nat (sessions _)) in *.
  destruct (decide (generation g + k < 2 ^ 32)).
  - rewrite Z.mod_small in A5 by lia. lia.
  - assert ((generation g + k) mod 2 ^ 32 = generation g + k - 2 ^ 32)
      by (symmetry; apply (Z.mod_unique _ _ 1); lia). lia.
Qed.

Definition sample_state : dacp_snapshot_t :=
  mk_dacp 1 true (str "AB") (str "42") 3689 1 117483712.
Definition sample_env : send_env :=
  mk_env true true 5 10 20 [mk_pass 3000 None] [] [] [] (mk_tcp true CONNECTED 0 0)
    (fun r => Z.of_nat (length r)) 1 (Some (str "HTTP/1.1 204 No Content")).

Lemma sample_state_ok : dacp_ok sample_state.
Proof.
  split_and!; try done; [cbn; lia..|]. intros _.
  split; (split; [cbn; lia|]); repeat apply List.Forall_cons; try apply List.Forall_nil; try done;
    unfold hex_byte; cbn; lia.
Qed.

Lemma sample_env_ok : env_ok sample_env.
Proof.
  split; [by apply Exists_cons_hd; cbn; lia|]. apply List.Forall_cons; [split; [cbn; lia|done]|apply List.Forall_nil].
Qed.

Lemma dacp_send_current_witness :
  exists code g' tr, dacp_send_command DACP_NEXTITEM sample_env sample_state = Ret (code, g', tr) /\
    let req := request_text (str "nextitem") (inet_ntoa 117483712) 3689 (str "42") in
    In (TWrite req (Z.of_nat (length req))) tr.
Proof.
  destruct (dacp_send_current DACP_NEXTITEM sample_env sample_state sample_state_ok sample_env_ok
    ltac:(vm_compute; reflexivity)) as (code & g' & tr & E & _ & Hl).
  exists code, g', tr. split; [exact E|].
  apply (Hl (str "nextitem")); try reflexivity; [cbn; lia|]. split_and!; reflexivity.
Defined.

(** The window the comment at the guard leaves open: a session that begins between the
    guard and the connection does not stop the request of the old one. *)
Lemma window_open :
  exists g' tr, dacp_send_command DACP_NEXTITEM
      (mk_env true true 5 10 20 [mk_pass 3000 None] [] [] [DNewSession] (mk_tcp true CONNECTED 0 0)
         (fun r => Z.of_nat (length r)) 1 None) sample_state = Ret (-1, g', tr) /\
    have_creds g' = false /\ wire tr <> [].
Proof. eexists _, _. split; [by vm_compute|]. split; [done|]. by vm_compute. Qed.

(** ** The control thread *)

(** The commands asked for, with the time of each. *)
Definition requests (turns : list turn) : list (dacp_cmd_t * Z) :=
  omap (fun t =>
    match t_data t with
    | None | Some [] => None
    | Some data => (fun c => (c, t_now t)) <$> control_command data
    end) turns.

(** The ones that fire under the rule on the whole history. *)
Fixpoint firings (calls : list (dacp_cmd_t * Z)) (w : Z) (hist : list (dacp_cmd_t * Z)) : list (dacp_cmd_t * Z) :=
  match calls with
  | [] => []
  | (cmd, now) :: rest =>
      if may_fire hist w cmd now then (cmd, now) :: firings rest w ((cmd, now) :: hist)
      else firings rest w hist
  end.

Lemma control_loop_spec turns last hist t g :
  table_ok last hist -> Forall (fun f => f.2 <= t) hist -> 0 <= t -> clock_from t (requests turns) ->
  dacp_ok g -> Forall (fun t => env_ok (t_env t)) turns ->
  exists fs last' g', control_loop turns last g = Ret (fs, last', g') /\
    map fst fs = firings (requests turns) DEBOUNCE_MS hist.
Proof.
  revert last hist t g. induction turns as [|tn turns IH]; intros last hist t g Ht Hh H0 Hc Hg He.
  { by exists [], last, g. }
  apply Forall_cons in He as [He He']. pose proof (dacp_run_ok g (t_ops tn) Hg) as Hg1.
  unfold requests in *. cbn [control_loop omap list_omap] in *. cbv zeta.
  set (g1 := foldl dacp_do g (t_ops tn)) in *. clearbody g1.
  destruct (t_data tn) as [[|x data]|]; [by apply (IH last hist t)| |by apply (IH last hist t)].
  destruct (control_command (x :: data)) as [cmd|]; [|by apply (IH last hist t)].
  cbn [fmap option_fmap option_map clock_from firings fst snd] in *. destruct Hc as [Hle Hc].
  pose proof (hist_mono t (t_now tn) hist false cmd Hh Hle) as Hh'.
  destruct (debounce_step cmd (t_now tn) DEBOUNCE_MS last hist Ht Hh' ltac:(lia)) as (last' & -> & Ht').
  cbn [rbind fst snd]. destruct (may_fire hist DEBOUNCE_MS cmd (t_now tn)).
  - destruct (dacp_send_spec cmd (t_env tn) g1 Hg1 He) as (code & g' & tr & -> & Hg' & _).
    cbn [rbind fst snd].
    destruct (IH last' _ (t_now tn) g' Ht' (hist_mono t (t_now tn) hist true cmd Hh Hle) ltac:(lia) Hc Hg' He')
      as (fs & l2 & g2 & -> & Hfs).
    cbn [rbind fst snd]. eexists _, _, _. split; [done|]. cbn [map fst]. by rewrite Hfs.
  - apply (IH last' hist (t_now tn)); done || lia.
Qed.

(** Firings of one command are at least the window apart. *)
Lemma firings_spaced calls w hist :
  forall j cmd t, firings calls w hist !! j = Some (cmd, t) ->
    (forall t', In (cmd, t') hist -> w <= t - t') /\
    (forall i t', (i < j)%nat -> firings calls w hist !! i = Some (cmd, t') -> w <= t - t').
Proof.
  revert hist. induction calls as [|[c now] calls IH]; intros hist j cmd t; [done|].
  cbn [firings]. destruct (may_fire hist w c now) eqn:Ef; [|apply IH].
  destruct j as [|j]; cbn [lookup list_lookup].
  - intros [= -> ->]. split; [|intros; lia]. intros t' Hin. unfold may_fire in Ef.
    apply andb_true_iff in Ef as [_ Ef]. rewrite forallb_forall in Ef. specialize (Ef _ Hin).
    cbn [fst snd] in Ef. rewrite Z.eqb_refl in Ef. cbn in Ef. lia.
  - intros H. destruct (IH _ _ _ _ H) as [H1 H2]. split.
    + intros t' Hin. apply H1. by right.
    + intros [|i] t' Hi Ht'; cbn [lookup list_lookup] in Ht'.
      * simplify_eq. apply H1. by left.
      * by apply (H2 i); [lia|].
Qed.

Definition opened (ops : list ctl_op) : nat :=
  length (List.filter (fun o => match o with CSocket => true | _ => false end) ops).
Definition closed (ops : list ctl_op) : nat :=
  length (List.filter (fun o => match o with CClose => true | _ => false end) ops).

(** The control thread executes exactly the commands the debounce rule
    allows, in order, and releases its socket.  The commands sent are those asked
    for by the datagrams, less the repetitions within 300 ms of a firing of the
    same command; any two firings of one command are at least that far apart; the
    socket is closed exactly once if it was opened, and nothing is sent when the
    path does not fit the socket address or cannot be bound. *)
Theorem dacp_control_thread_ok prefix sock bound turns g :
  dacp_ok g -> Forall (fun t => env_ok (t_env t)) turns -> clock_from 0 (requests turns) ->
  exists ops fs,
    dacp_control_thread prefix sock bound turns debounce_init g = Ret (ops, fs) /\
    opened ops = (if sock then 1 else 0)%nat /\ closed ops = opened ops /\
    map fst fs = (if sock && bound && (length prefix <? 95)%nat
                  then firings (requests turns) DEBOUNCE_MS [] else []) /\
    (forall i j cmd t t', (i < j)%nat -> map fst fs !! i = Some (cmd, t) ->
       map fst fs !! j = Some (cmd, t') -> 300 <= t' - t).
Proof.
  intros Hg He Hc. unfold dacp_control_thread. destruct sock; cbn [negb andb]; [|by exists [], []].
  cbv zeta. assert ((108 <=? length (control_path prefix))%nat = negb (length prefix <? 95)%nat) as ->.
  { unfold control_path. rewrite length_take, length_app. cbn [length str list_ascii_of_string map].
    destruct (Nat.ltb_spec (length prefix) 95); cbn [negb];
      [apply Nat.leb_gt|apply Nat.leb_le]; lia. }
  destruct (length prefix <? 95)%nat; cbn [negb]; rewrite ?andb_false_r, ?andb_true_r;
    [|eexists _, []; split_and!; [done..|intros i j cmd t t' _ Hi; by destruct i]].
  destruct bound; cbn [negb andb];
    [|eexists _, []; split_and!; [done..|intros i j cmd t t' _ Hi; by destruct i]].
  destruct (control_loop_spec turns debounce_init [] 0 g table_ok_init (List.Forall_nil _) ltac:(lia) Hc Hg He)
    as (fs & l & g' & -> & Hfs).
  cbn [rbind fst]. eexists _, fs. split_and!; try done.
  intros i j cmd t t' Hij Hi Hj. rewrite Hfs in Hi, Hj.
  by apply (proj2 (firings_spaced _ _ _ j cmd t' Hj) i).
Qed.

Lemma dacp_control_thread_ok_witness :
  exists ops fs,
    dacp_control_thread (str "/tmp/raop") true true
      [mk_turn [] (Some (str "NEXT")) 100 sample_env; mk_turn [] (Some (str "NEXT")) 200 sample_env;
       mk_turn [] None 300 sample_env; mk_turn [] (Some (str "NEXT")) 500 sample_env]
      debounce_init sample_state = Ret (ops, fs) /\
    map fst fs = [(DACP_NEXTITEM, 100); (DACP_NEXTITEM, 500)].
Proof.
  destruct (dacp_control_thread_ok (str "/tmp/raop") true true
      [mk_turn [] (Some (str "NEXT")) 100 sample_env; mk_turn [] (Some (str "NEXT")) 200 sample_env;
       mk_turn [] None 300 sample_env; mk_turn [] (Some (str "NEXT")) 500 sample_env] sample_state sample_state_ok)
    as (ops & fs & E & _ & _ & Hfs & _).
  - repeat apply List.Forall_cons; try apply List.Forall_nil; exact sample_env_ok.
  - vm_compute. repeat split; discriminate.
  - exists ops, fs. split; [exact E|exact Hfs].
Defined.

(** ** The clock on the device *)

(** On a machine with 32-bit [long] the milliseconds turn negative after 24.8 days
    of uptime. *)
Lemma mono_ms_wraps :
  @mono_ms ilp32 100 214748364 = 2147483640 /\ @mono_ms ilp32 100 214748365 = -2147483646.
Proof. split; reflexivity. Qed.

(** A request too long for the buffer leaves its beginning there. *)
Lemma partial_request :
  dacp_format_request 16 DACP_NEXTITEM (Some (str "1.2.3.4")) 80 (Some (str "7")) =
  (-1, Some (str "GET /ctrl-int/1")).
Proof. reflexivity. Qed.
