(* ===== verification/Supervisor.v ===== *)
(** * The supervisor's pure parts ([src/supervisor.c], [src/supervisor.h])

    The lease state machine, the reassembly of control lines and the pidfile
    token. *)
From Stdlib Require Import ZArith Lia String.
From stdpp Require Import base numbers list.
From S2P Require Import Prelude.

Local Open Scope Z_scope.

(** ** Pidfile contents *)

(** The C result and, when it is not -1, the string. *)
Definition sup_pidfile_format (cap : nat) (pid start : Z) : option bytes :=
  let s := print_d pid ++ [32] ++ print_u start ++ [10] in
  if (cap <=? length s)%nat then None else Some s.

Definition ULLONG_MAX : Z := 18446744073709551615.

(** [sscanf(p, "%llu", out)]: white space, an optional sign, digits; a value out
    of range saturates, a minus sign negates modulo 2^64. *)
Definition scan_llu (p : bytes) : option Z :=
  let '(neg, s) := sign_of (skip_space p) in
  match digits s with
  | [] => None
  | ds =>
      let v := dec_val ds in
      if ULLONG_MAX <? v then Some ULLONG_MAX
      else Some (if neg then u64 (- v) else v)
  end.

(** [strrchr]: what follows the last [c]. *)
Fixpoint after_last (c : Z) (s : bytes) : option bytes :=
  match s with
  | [] => None
  | x :: t =>
      match after_last c t with
      | Some r => Some r
      | None => if x =? c then Some t else None
      end
  end.

Fixpoint skip_blanks (p : bytes) : bytes :=
  match p with
  | c :: t => if c =? 32 then skip_blanks t else p
  | [] => []
  end.

Fixpoint skip_token (p : bytes) : bytes :=
  match p with
  | c :: t => if c =? 32 then p else skip_token t
  | [] => []
  end.

(** The token loop; [tok] counts the tokens seen. *)
Fixpoint token_at (fuel : nat) (tok : nat) (p : bytes) : run (option Z) :=
  match fuel with
  | O => NoFuel
  | S fuel' =>
      match p with
      | [] => Ret None
      | _ =>
          match skip_blanks p with
          | [] => Ret None
          | p' =>
              if (S tok =? 20)%nat then Ret (scan_llu p')
              else token_at fuel' (S tok) (skip_token p')
          end
      end
  end.

Definition sup_stat_starttime (stat : bytes) : run (option Z) :=
  match after_last 41 stat with
  | None => Ret None
  | Some p => token_at (S (length p)) 0 p
  end.

(** ** The lease *)

Definition SUP_HEARTBEAT_TIMEOUT_MS : Z := 30000.

Inductive sup_phase_t := SUP_IDLE | SUP_ACTIVE.
Inductive sup_event_t :=
  | SUP_EV_ACCEPT | SUP_EV_HEARTBEAT | SUP_EV_STOP | SUP_EV_EOF | SUP_EV_TICK
  | SUP_EV_NEXT | SUP_EV_PREV | SUP_EV_PLAYPAUSE | SUP_EV_NONE.
Inductive sup_action_t := SUP_ACT_NONE | SUP_ACT_START | SUP_ACT_STOP.

Record sup_state_t := mk_sup { phase : sup_phase_t; session_id : Z; last_hb_ms : Z }.

Definition sup_state_init : sup_state_t := mk_sup SUP_IDLE 0 0.

Definition sup_step (s : sup_state_t) (ev : sup_event_t) (now_ms : Z) : sup_state_t * sup_action_t :=
  match ev with
  | SUP_EV_ACCEPT => (mk_sup SUP_ACTIVE (u32 (session_id s + 1)) now_ms, SUP_ACT_START)
  | SUP_EV_HEARTBEAT | SUP_EV_NEXT | SUP_EV_PREV | SUP_EV_PLAYPAUSE =>
      (match phase s with
       | SUP_ACTIVE => mk_sup (phase s) (session_id s) now_ms
       | SUP_IDLE => s
       end, SUP_ACT_NONE)
  | SUP_EV_STOP | SUP_EV_EOF =>
      match phase s with
      | SUP_ACTIVE => (mk_sup SUP_IDLE (session_id s) (last_hb_ms s), SUP_ACT_STOP)
      | SUP_IDLE => (s, SUP_ACT_NONE)
      end
  | SUP_EV_TICK =>
      match phase s with
      | SUP_ACTIVE =>
          if SUP_HEARTBEAT_TIMEOUT_MS <? now_ms - last_hb_ms s
          then (mk_sup SUP_IDLE (session_id s) (last_hb_ms s), SUP_ACT_STOP)
          else (s, SUP_ACT_NONE)
      | SUP_IDLE => (s, SUP_ACT_NONE)
      end
  | SUP_EV_NONE => (s, SUP_ACT_NONE)
  end.

(** ** Control lines *)

Definition is_eol (c : Z) : bool := (c =? 10) || (c =? 13).

(** The length without trailing line ends. *)
Fixpoint chomp_len (line : bytes) : nat :=
  match line with
  | [] => 0
  | c :: t => match chomp_len t with O => if is_eol c then 0 else 1 | S n => S (S n) end
  end.

Definition sup_classify_line (line : bytes) : sup_event_t :=
  let n := chomp_len line in
  if (n =? 4)%nat && prefixb (str "STOP") line then SUP_EV_STOP
  else if (n =? 4)%nat && prefixb (str "PING") line then SUP_EV_HEARTBEAT
  else if (5 <=? n)%nat && prefixb (str "HELLO") line then SUP_EV_HEARTBEAT
  else if (n =? 4)%nat && prefixb (str "NEXT") line then SUP_EV_NEXT
  else if (n =? 4)%nat && prefixb (str "PREV") line then SUP_EV_PREV
  else if (n =? 9)%nat && prefixb (str "PLAYPAUSE") line then SUP_EV_PLAYPAUSE
  else SUP_EV_NONE.

Definition SUP_LB_MAX : nat := 512.

(** [buf] holds the [used] bytes stored so far. *)
Record sup_lb_t := mk_lb { buf : bytes; discarding : bool }.

Definition sup_lb_init : sup_lb_t := mk_lb [] false.

(** The events are those already emitted, then the new ones, at most [max]. *)
Fixpoint push_loop (lb : sup_lb_t) (data : bytes) (evs : list sup_event_t) (max : nat) :
    run (sup_lb_t * list sup_event_t) :=
  match data with
  | [] => Ret (lb, evs)
  | c :: rest =>
      if discarding lb then
        push_loop (if c =? 10 then mk_lb (buf lb) false else lb) rest evs max
      else if c =? 10 then
        let! line := wr SUP_LB_MAX (buf lb) [0] in
        push_loop (mk_lb [] false) rest
          (if (length evs <? max)%nat then evs ++ [sup_classify_line (cstr line)] else evs) max
      else if (length (buf lb) <? SUP_LB_MAX - 1)%nat then
        let! b := wr SUP_LB_MAX (buf lb) [c] in
        push_loop (mk_lb b false) rest evs max
      else push_loop (mk_lb [] true) rest evs max
  end.

Definition sup_lb_push (lb : sup_lb_t) (data : bytes) (max : nat) :
    run (sup_lb_t * list sup_event_t) := push_loop lb data [] max.

(** ** Lines, as a function of the stream *)

Fixpoint lines_from (cur : bytes) (s : bytes) : list bytes :=
  match s with
  | [] => []
  | c :: t => if c =? 10 then cur :: lines_from [] t else lines_from (cur ++ [c]) t
  end.

(** The events of a stream: its complete lines, without the overlong ones. *)
Definition line_events (ls : list bytes) : list sup_event_t :=
  map (fun l => sup_classify_line (cstr l)) (List.filter (fun l => (length l <? SUP_LB_MAX)%nat) ls).

(** What the buffer knows of the current line. *)
Definition lb_ok (lb : sup_lb_t) (cur : bytes) : Prop :=
  if discarding lb then buf lb = [] /\ (SUP_LB_MAX <= length cur)%nat
  else buf lb = cur /\ (length cur < SUP_LB_MAX)%nat.

(** The current line after more of the stream. *)
Fixpoint cur_after (cur : bytes) (s : bytes) : bytes :=
  match s with
  | [] => cur
  | c :: t => if c =? 10 then cur_after [] t else cur_after (cur ++ [c]) t
  end.

Lemma lines_from_app cur a b :
  lines_from cur (a ++ b) = lines_from cur a ++ lines_from (cur_after cur a) b.
Proof.
  revert cur. induction a as [|c a IH]; intros cur; [done|]. cbn [app lines_from cur_after].
  destruct (c =? 10); by rewrite IH.
Qed.

Lemma line_events_app a b : line_events (a ++ b) = line_events a ++ line_events b.
Proof. unfold line_events. by rewrite List.filter_app, map_app. Qed.

Lemma line_events_cons l ls :
  line_events (l :: ls) =
  (if (length l <? SUP_LB_MAX)%nat then [sup_classify_line (cstr l)] else []) ++ line_events ls.
Proof. unfold line_events. cbn [List.filter]. by destruct (length l <? SUP_LB_MAX)%nat. Qed.

Lemma cstr_snoc_nul l : cstr (l ++ [0]) = cstr l.
Proof. induction l as [|c l IH]; cbn [app cstr]; [done|]. by rewrite IH. Qed.

Lemma wr_snoc b c : (length b < SUP_LB_MAX)%nat -> wr SUP_LB_MAX b [c] = Ret (b ++ [c]).
Proof. intros H. unfold wr. by rewrite (proj2 (Nat.leb_le _ _)) by (cbn [length]; lia). Qed.

Lemma push_loop_spec lb cur data evs max :
  lb_ok lb cur -> (length evs + length data <= max)%nat ->
  exists lb', push_loop lb data evs max = Ret (lb', evs ++ line_events (lines_from cur data)) /\
    lb_ok lb' (cur_after cur data).
Proof.
  assert (lb_ok sup_lb_init []) as Hinit by (split; [done|unfold SUP_LB_MAX; cbn; lia]).
  revert lb cur evs. induction data as [|c data IH]; intros lb cur evs Hlb Hm.
  { exists lb. cbn. by rewrite app_nil_r. }
  destruct lb as [b d]. cbn [push_loop lines_from cur_after length discarding buf] in *.
  unfold lb_ok in Hlb. cbn [discarding buf] in Hlb. destruct d.
  - destruct Hlb as [-> Hlen]. destruct (Z.eqb_spec c 10) as [->|Hc].
    + rewrite line_events_cons, (proj2 (Nat.ltb_ge _ _)) by lia. apply IH; [done|lia].
    + apply IH; [|lia]. split; [done|]. rewrite length_app. cbn. lia.
  - destruct Hlb as [-> Hlen]. destruct (Z.eqb_spec c 10) as [->|Hc].
    + rewrite wr_snoc by done. cbn [rbind]. rewrite (proj2 (Nat.ltb_lt _ _)) by lia.
      rewrite line_events_cons, (proj2 (Nat.ltb_lt _ _)), cstr_snoc_nul by lia.
      destruct (IH (mk_lb [] false) [] (evs ++ [sup_classify_line (cstr cur)])) as (lb' & -> & Hlb');
        [done|rewrite length_app; cbn [length]; lia|].
      exists lb'. by rewrite <- app_assoc.
    + destruct (Nat.ltb_spec (length cur) (SUP_LB_MAX - 1)).
      * rewrite wr_snoc by done. cbn [rbind]. apply IH; [|lia].
        split; [done|]. rewrite length_app. cbn [length]. lia.
      * apply IH; [|lia]. split; [done|]. rewrite length_app. cbn [length]. lia.
Qed.

(** The events of a sequence of reads, each into room for [max] events. *)
Fixpoint push_all (lb : sup_lb_t) (reads : list bytes) (max : nat) : run (sup_lb_t * list sup_event_t) :=
  match reads with
  | [] => Ret (lb, [])
  | d :: rest =>
      let! r := sup_lb_push lb d max in
      let! q := push_all r.1 rest max in
      Ret (q.1, r.2 ++ q.2)
  end.

(** Control lines are framed and classified whatever the reads.  However the
    byte stream is cut into reads of at most [max] bytes, the events are those of
    the stream's complete lines in order, each classified up to its first NUL,
    with every line of 512 bytes or more dropped whole; no store leaves the
    buffer and no event is lost. *)
Theorem sup_lb_push_stream reads max :
  Forall (fun d => (length d <= max)%nat) reads ->
  exists lb, push_all sup_lb_init reads max = Ret (lb, line_events (lines_from [] (List.concat reads))).
Proof.
  assert (forall lb cur, lb_ok lb cur -> Forall (fun d => (length d <= max)%nat) reads ->
    exists lb', push_all lb reads max = Ret (lb', line_events (lines_from cur (List.concat reads)))) as H.
  { induction reads as [|d reads IH]; intros lb cur Hlb Hr; [by exists lb|].
    apply Forall_cons in Hr as [Hd Hr]. cbn [push_all List.concat]. unfold sup_lb_push.
    destruct (push_loop_spec lb cur d [] max Hlb ltac:(cbn; lia)) as (lb1 & -> & Hlb1). cbn [rbind fst snd app].
    destruct (IH lb1 _ Hlb1 Hr) as (lb2 & ->). exists lb2. cbn [rbind fst snd].
    by rewrite lines_from_app, line_events_app. }
  apply H. split; [done|]. unfold SUP_LB_MAX. cbn. lia.
Qed.

Lemma sup_lb_push_stream_witness :
  exists lb, push_all sup_lb_init [str "HEL"; str "LO x" ++ [10] ++ str "NE"; str "XT" ++ [13; 10]] 256 =
    Ret (lb, [SUP_EV_HEARTBEAT; SUP_EV_NEXT]).
Proof.
  apply (sup_lb_push_stream [str "HEL"; str "LO x" ++ [10] ++ str "NE"; str "XT" ++ [13; 10]] 256).
  repeat apply List.Forall_cons; try apply List.Forall_nil; cbn; lia.
Defined.

(** ** The lease, as a function of the history *)

Definition history : Type := list (sup_event_t * Z).

Fixpoint sup_run (s : sup_state_t) (h : history) : sup_state_t * list sup_action_t :=
  match h with
  | [] => (s, [])
  | (ev, now) :: rest =>
      let '(s', a) := sup_step s ev now in
      let '(s'', acts) := sup_run s' rest in
      (s'', a :: acts)
  end.

Definition is_life (ev : sup_event_t) : bool :=
  match ev with
  | SUP_EV_ACCEPT | SUP_EV_HEARTBEAT | SUP_EV_NEXT | SUP_EV_PREV | SUP_EV_PLAYPAUSE => true
  | _ => false
  end.

(** The time of the last sign of life. *)
Definition last_life (h : history) : option Z :=
  foldl (fun r e => if is_life e.1 then Some e.2 else r) None h.

Definition is_active (s : sup_state_t) : bool := match phase s with SUP_ACTIVE => true | SUP_IDLE => false end.

(** The caller accepts a connection only while no lease is held. *)
Fixpoint accepts_idle (s : sup_state_t) (h : history) : bool :=
  match h with
  | [] => true
  | (ev, now) :: rest =>
      (match ev with SUP_EV_ACCEPT => negb (is_active s) | _ => true end) &&
      accepts_idle (sup_step s ev now).1 rest
  end.

Definition count_act (a : sup_action_t -> bool) (l : list sup_action_t) : nat := length (List.filter a l).
Definition is_start (a : sup_action_t) : bool := match a with SUP_ACT_START => true | _ => false end.
Definition is_stop (a : sup_action_t) : bool := match a with SUP_ACT_STOP => true | _ => false end.

Definition b2n (b : bool) : nat := if b then 1 else 0.

Lemma sup_step_balance s ev now :
  (match ev with SUP_EV_ACCEPT => negb (is_active s) | _ => true end) = true ->
  let '(s', a) := sup_step s ev now in
  (b2n (is_start a) + b2n (is_active s) = b2n (is_stop a) + b2n (is_active s'))%nat.
Proof. destruct s as [[|] i l], ev; cbn; try done. by destruct (SUP_HEARTBEAT_TIMEOUT_MS <? now - l). Qed.

Lemma sup_step_life s ev now t :
  (is_active s = true -> t = Some (last_hb_ms s)) ->
  is_active (sup_step s ev now).1 = true ->
  (if is_life ev then Some now else t) = Some (last_hb_ms (sup_step s ev now).1).
Proof.
  intros H. destruct s as [[|] i l], ev; cbn in *; try done; try (intros; by apply H).
  destruct (SUP_HEARTBEAT_TIMEOUT_MS <? now - l); cbn; [done|]. intros _. by apply H.
Qed.

(** C14: the lease lasts exactly as long as there are signs of life.  For every
    history in which connections are accepted only while no lease is held, the
    receiver is started once per accepted connection and stopped once per lease
    that ended; while a lease is held, a timer tick ends it if and only if more
    than 30 seconds have passed since the last connection, keepalive or command,
    and a stop line or a closed connection ends it at once. *)
Theorem sup_lease_exact h :
  accepts_idle sup_state_init h = true ->
  let '(s, acts) := sup_run sup_state_init h in
  count_act is_start acts = (count_act is_stop acts + b2n (is_active s))%nat /\
  (is_active s = true ->
     (exists t, last_life h = Some t /\
       forall now, (sup_step s SUP_EV_TICK now).2 = SUP_ACT_STOP <-> 30000 < now - t) /\
     forall now, (sup_step s SUP_EV_STOP now).2 = SUP_ACT_STOP /\ (sup_step s SUP_EV_EOF now).2 = SUP_ACT_STOP).
Proof.
  assert (forall s r, accepts_idle s h = true -> (is_active s = true -> r = Some (last_hb_ms s)) ->
    let '(s', acts) := sup_run s h in
    (count_act is_start acts + b2n (is_active s) = count_act is_stop acts + b2n (is_active s'))%nat /\
    (is_active s' = true ->
       foldl (fun r e => if is_life e.1 then Some e.2 else r) r h = Some (last_hb_ms s'))) as H.
  { induction h as [|[ev now] h IH]; intros s r Ha Hr; [done|].
    cbn [accepts_idle sup_run foldl fst snd] in *. apply andb_true_iff in Ha as [Hev Ha].
    pose proof (sup_step_balance s ev now Hev) as Hb. pose proof (sup_step_life s ev now r Hr) as Hl.
    destruct (sup_step s ev now) as [s1 a]. cbn [fst] in *. specialize (IH s1 _ Ha Hl).
    destruct (sup_run s1 h) as [s2 acts]. destruct IH as [I1 I2]. split; [|done].
    unfold count_act in *. cbn [List.filter]. destruct a; cbn [is_start is_stop b2n length] in *; lia. }
  intros Ha. specialize (H sup_state_init None Ha ltac:(done)). destruct (sup_run _ h) as [s acts].
  destruct H as [H1 H2]. split; [cbn in H1; lia|]. intros Hs. split.
  - exists (last_hb_ms s). split; [by apply H2|]. intros now. destruct s as [[|] i l]; [done|].
    cbn. unfold SUP_HEARTBEAT_TIMEOUT_MS. destruct (Z.ltb_spec 30000 (now - l)); cbn; split; intros; done || lia.
  - intros now. by destruct s as [[|] i l].
Qed.

Definition sample_history : history :=
  [(SUP_EV_TICK, 0); (SUP_EV_ACCEPT, 1000); (SUP_EV_TICK, 31000); (SUP_EV_PLAYPAUSE, 31500);
   (SUP_EV_NONE, 60000)].

Lemma sup_lease_exact_witness :
  count_act is_start (sup_run sup_state_init sample_history).2 = 1%nat /\
  (sup_step (sup_run sup_state_init sample_history).1 SUP_EV_TICK 61501).2 = SUP_ACT_STOP /\
  (sup_step (sup_run sup_state_init sample_history).1 SUP_EV_TICK 61500).2 = SUP_ACT_NONE.
Proof.
  pose proof (sup_lease_exact sample_history eq_refl) as [H1 H2].
  destruct (H2 eq_refl) as [(t & Ht & Htick) _]. split; [exact H1|].
  injection Ht as <-. split; [|reflexivity]. apply Htick. cbn. lia.
Defined.

(** ** The start time of a process *)

Lemma after_last_app c a b : Forall (fun x => x <> c) b -> after_last c (a ++ c :: b) = Some b.
Proof.
  intros Hb. assert (after_last c b = None) as Hn.
  { clear a. induction Hb as [|x b Hx Hb IH]; [done|]. cbn. rewrite IH. by destruct (Z.eqb_spec x c). }
  induction a as [|x a IH]; cbn [app after_last]; [|by rewrite IH]. by rewrite Hn, Z.eqb_refl.
Qed.

(** Tokens as the kernel separates them. *)
Definition token_ok (t : bytes) : Prop := t <> [] /\ Forall (fun c => c <> 32 /\ c <> 41) t.

Definition spaced (ts : list bytes) : bytes := List.concat (map (fun t => 32 :: t) ts).

Lemma skip_token_app t r : Forall (fun c => c <> 32 /\ c <> 41) t ->
  match r with [] => True | c :: _ => c = 32 end -> skip_token (t ++ r) = r.
Proof.
  intros Ht Hr. induction Ht as [|c t [Hc _] Ht IH]; cbn [app skip_token].
  - destruct r as [|c r]; [done|]. subst c. done.
  - by destruct (Z.eqb_spec c 32).
Qed.

Lemma skip_blanks_token t r : token_ok t -> skip_blanks (32 :: t ++ r) = t ++ r.
Proof.
  intros [Hne Ht]. cbn [skip_blanks]. rewrite Z.eqb_refl. destruct t as [|c t]; [done|].
  inversion Ht as [|?? [Hc _]]; subst. cbn [app skip_blanks]. by destruct (Z.eqb_spec c 32).
Qed.

Lemma token_at_spec fuel tok ts t r :
  (tok + length ts = 19)%nat -> Forall token_ok ts -> token_ok t ->
  (length (spaced ts ++ 32%Z :: t ++ r) < fuel)%nat ->
  token_at fuel tok (spaced ts ++ 32 :: t ++ r) = Ret (scan_llu (t ++ r)).
Proof.
  revert tok ts. induction fuel as [|fuel IH]; intros tok ts Htok Hts Ht Hf; [lia|].
  destruct Hts as [|u ts Hu Hts].
  - cbn [spaced map List.concat app length] in *. cbn [token_at].
    rewrite (skip_blanks_token t r Ht). destruct (t ++ r) eqn:E; [by destruct Ht; destruct t|].
    rewrite (proj2 (Nat.eqb_eq _ _)) by lia. by rewrite <- E.
  - assert (spaced (u :: ts) ++ 32 :: t ++ r = 32 :: u ++ (spaced ts ++ 32 :: t ++ r)) as E
      by (unfold spaced; cbn; by rewrite <- app_assoc).
    rewrite E in *. set (rest := spaced ts ++ 32 :: t ++ r) in *. cbn [token_at].
    rewrite (skip_blanks_token u rest Hu). cbn [length] in Htok.
    destruct (u ++ rest) eqn:E'; [by destruct Hu; destruct u|].
    rewrite (proj2 (Nat.eqb_neq _ _)) by lia. rewrite <- E'.
    rewrite skip_token_app; [|apply Hu|].
    + unfold rest. apply IH; [lia|done|done|]. fold rest.
      apply (f_equal length) in E'. rewrite length_app in E'. cbn [length] in Hf, E'. lia.
    + unfold rest. by destruct Hts.
Qed.

Lemma scan_llu_print v r :
  0 <= v <= ULLONG_MAX -> digits r = [] -> scan_llu (print_u v ++ r) = Some v.
Proof.
  intros Hv Hr. destruct (print_u_spec v ltac:(lia)) as (Hval & Hne & Hd). unfold scan_llu.
  destruct (print_u v) as [|c ds] eqn:E; [done|]. inversion Hd as [|?? Hc Hds]; subst.
  assert (48 <= c <= 57) as Hrange by (by destruct (is_digit_spec c)).
  cbn [app skip_space]. unfold is_space.
  rewrite (proj2 (Z.eqb_neq c 32)), (proj2 (Z.leb_gt c 13)), andb_false_r by lia. cbn [orb].
  rewrite sign_of_digit by done. change (c :: ds ++ r) with ((c :: ds) ++ r).
  rewrite digits_app by done. by rewrite (proj2 (Z.ltb_ge _ _)) by lia.
Qed.

(** The identity token of a process survives hostile names.  For every line
    the kernel writes for a process, whatever bytes its name holds (blanks and
    parentheses included), the start time read is the 22nd field. *)
Theorem sup_stat_starttime_ok pid comm fields start rest :
  length fields = 19%nat -> Forall token_ok fields -> 0 <= start <= ULLONG_MAX ->
  Forall (fun c => c <> 41) rest -> digits rest = [] ->
  sup_stat_starttime (print_d pid ++ str " (" ++ comm ++ str ")" ++ spaced fields ++ [32] ++
                      print_u start ++ rest) = Ret (Some start).
Proof.
  intros Hl Hf Hs Hr Hd. unfold sup_stat_starttime.
  destruct (print_u_spec start ltac:(lia)) as (_ & Hne & Hdig).
  assert (token_ok (print_u start)) as Htok.
  { split; [done|]. eapply Forall_impl; [exact Hdig|]. intros c Hc. cbv beta in Hc.
    destruct (is_digit_spec c); [lia|done]. }
  set (tail := spaced fields ++ 32 :: print_u start ++ rest).
  assert (Forall (fun x => x <> 41) tail) as Htail.
  { unfold tail. apply Forall_app. split.
    - unfold spaced. clear -Hf. induction Hf as [|t ts [_ Ht] Hf IH]; [done|]. cbn [map List.concat].
      apply Forall_app. split; [|done]. constructor; [done|]. eapply Forall_impl; [exact Ht|]. cbn. tauto.
    - constructor; [done|]. apply Forall_app. split; [|done].
      eapply Forall_impl; [apply Htok|]. cbn. tauto. }
  replace (print_d pid ++ str " (" ++ comm ++ str ")" ++ spaced fields ++ [32] ++ print_u start ++ rest)
    with ((print_d pid ++ str " (" ++ comm) ++ 41 :: tail) by (unfold tail; by rewrite <- !app_assoc).
  rewrite after_last_app by done. unfold tail.
  rewrite (token_at_spec _ 0 fields (print_u start) rest) by (done || lia).
  by rewrite scan_llu_print.
Qed.

Lemma sup_stat_starttime_ok_witness :
  sup_stat_starttime (print_d 412 ++ str " (" ++ str "a) S 1 (b" ++ str ")" ++
    spaced (replicate 19 (str "0")) ++ [32] ++ print_u 70355 ++ str " 1" ++ [10]) = Ret (Some 70355).
Proof.
  apply (sup_stat_starttime_ok 412 (str "a) S 1 (b") (replicate 19 (str "0")) 70355 (str " 1" ++ [10]));
    try reflexivity; try (unfold ULLONG_MAX; lia).
  - apply Forall_replicate. split; [done|]. repeat apply List.Forall_cons; try apply List.Forall_nil; cbn; lia.
  - repeat apply List.Forall_cons; try apply List.Forall_nil; cbn; lia.
Defined.

Lemma sup_pidfile_format_fits pid start :
  - 10 ^ 20 < pid < 10 ^ 20 -> 0 <= start <= ULLONG_MAX ->
  sup_pidfile_format 64 pid start = Some (print_d pid ++ [32] ++ print_u start ++ [10]).
Proof.
  intros Hp Hs. unfold sup_pidfile_format. cbv zeta.
  pose proof (print_d_length 20 pid ltac:(cbn; lia) ltac:(lia)).
  pose proof (print_u_length 20 start ltac:(unfold ULLONG_MAX in *; cbn; lia) ltac:(lia)).
  rewrite (proj2 (Nat.leb_gt _ _)); [done|]. rewrite !length_app. cbn [length]. lia.
Qed.
