(* ===== verification/SupervisorMain.v ===== *)
(** * The supervisor process ([src/supervisor_main.c])

    One run of [main]: the answers of the system and the readings of the clock are
    inputs, what it does to the outside is a trace of [sup_ev].  The file system
    is that of [Bodycap]; the scripts' own effects are outside the model. *)
From Stdlib Require Import ZArith Lia String.
From stdpp Require Import base numbers list gmap.
From S2P Require Import Prelude Bodycap DacpState Dacp Supervisor.

Local Open Scope Z_scope.

Definition PREFIX_DEFAULT : bytes := str "/var/local/shairkindle".

(** [atoi]; out of the range of [int], where C leaves it undefined, it wraps. *)
Definition atoi (s : bytes) : Z :=
  let '(neg, s) := sign_of (skip_space s) in
  s32 (if neg then - dec_val (digits s) else dec_val (digits s)).

(** [getenv] results are [None] when unset. *)
Definition prelease_ms (e : option bytes) : Z :=
  match e with
  | Some ((_ :: _) as s) => if 0 <? atoi s then atoi s else 60000
  | _ => 60000
  end.

Definition sup_prefix (e : option bytes) : bytes := default PREFIX_DEFAULT e.

(** [EScript] is a call of [run_script] with its result and the kills it sent: one
    that could not run the script, for a path too long or a failed fork, returns
    -1 and is an event too. *)
Inductive sup_ev :=
  | EScript (name : bytes) (rc : Z) (kills : nat)
  | ERelay (path line : bytes)
  | ERemovePid
  | ECloseClient
  | ECloseListen.

(** ** Relaying a command *)

Definition relay_line (cmd : bytes) : bytes := take 31 (cmd ++ [10]).

(** The socket is opened once and kept. *)
Definition relay_cmd (fd_open sock : bool) (prefix cmd : bytes) : bool * list sup_ev :=
  if negb fd_open && negb sock then (false, [])
  else
    let path := prefix ++ str "/control.sock" in
    if (108 <=? length path)%nat then (true, []) else (true, [ERelay path (relay_line cmd)]).

(** ** Scripts *)

Inductive wait_t := WReaped (status : Z) | WEintr | WErr | WRunning.

(** One turn of the wait loop: [waitpid], then [g_stop] and the clock. *)
Record wait_turn := mk_wait { w_wait : wait_t; w_stop : bool; w_now : Z }.

Fixpoint script_wait (turns : list wait_turn) (deadline_ms : Z) (honor_stop : bool) (start : Z)
    (killed : bool) : run (Z * nat) :=
  match turns with
  | [] => NoFuel
  | t :: rest =>
      match w_wait t with
      | WReaped st => Ret (if killed then -1 else st, b2n killed)
      | WEintr => script_wait rest deadline_ms honor_stop start killed
      | WErr => Ret (-1, b2n killed)
      | WRunning =>
          script_wait rest deadline_ms honor_stop start
            (killed || ((honor_stop && w_stop t) || (deadline_ms <? w_now t - start)))
      end
  end.

(** What a script run meets: [fork], the first clock reading, the wait loop; the
    exit status is -1 for a script that died of a signal. *)
Record script_env := mk_script { x_fork : bool; x_start : Z; x_turns : list wait_turn }.

Definition run_script (bindir : option bytes) (name : bytes) (deadline_ms : Z) (honor_stop : bool)
    (x : script_env) : run (Z * list sup_ev) :=
  let path := default PREFIX_DEFAULT bindir ++ [47] ++ name in
  if (512 <=? length path)%nat then Ret (-1, [EScript name (-1) 0])
  else if negb (x_fork x) then Ret (-1, [EScript name (-1) 0])
  else
    let! r := script_wait (x_turns x) deadline_ms honor_stop (x_start x) false in
    Ret (r.1, [EScript name r.1 r.2]).

(** ** The pidfile *)

Definition pid_path (prefix : bytes) : bytes := prefix ++ str "/supervisor.pid".
Definition pid_tmp (prefix : bytes) (pid : Z) : bytes :=
  prefix ++ str "/supervisor.pid.tmp." ++ print_d pid.

Section Pidfile.
Context (d : disk).

(** [st] is the start time read for this process, 0 when unknown; [close_ok] the
  result of [close]. *)
Definition write_pidfile (prefix : bytes) (pid st : Z) (close_ok : bool) (f : fs) : run (Z * fs) :=
  if st =? 0 then Ret (-1, f)
  else if (512 <=? length (pid_path prefix))%nat then Ret (-1, f)
  else if (512 <=? length (pid_tmp prefix pid))%nat then Ret (-1, f)
  else
    match sup_pidfile_format 64 pid st with
    | None => Ret (-1, f)
    | Some buf =>
        let '(ok, f) := sys_open d (pid_tmp prefix pid) f in
        if negb ok then Ret (-1, f)
        else
          let! w := write_loop d (S (length buf)) (pid_tmp prefix pid) buf f in
          if w.1 then Ret (-1, sys_unlink (pid_tmp prefix pid) w.2)
          else if negb close_ok then Ret (-1, sys_unlink (pid_tmp prefix pid) w.2)
          else
            let '(r, f) := sys_rename d (pid_tmp prefix pid) (pid_path prefix) w.2 in
            if r then Ret (0, f) else Ret (-1, sys_unlink (pid_tmp prefix pid) f)
    end.
End Pidfile.

(** [self_starttime] from the line read of [/proc/self/stat], if any. *)
Definition self_starttime (line : option bytes) : run Z :=
  match line with
  | None => Ret 0
  | Some l => let! r := sup_stat_starttime l in Ret (default 0 r)
  end.

Definition remove_pidfile (prefix : bytes) (f : fs) : fs :=
  if (length (pid_path prefix) <? 512)%nat then sys_unlink (pid_path prefix) f else f.

(** ** The process *)

Inductive poll_t := PollEintr | PollErr | PollTimeout | PollReady.
Inductive read_t := ReadEintr | ReadErr | ReadEof | ReadData (data : bytes).

(** One turn of the session loop; [i_clk] are the successive readings of the
    clock in it. *)
Record iter := mk_iter {
  i_stop : bool;
  i_clk : nat -> Z;
  i_poll : poll_t;
  i_bad : bool;
  i_read : read_t;
}.

(** The system as the process finds it. *)
Record main_env := mk_main {
  m_bin : option bytes;
  m_pre : option bytes;
  m_stat : option bytes;
  m_pid : Z;
  m_close : bool;
  m_setsid : bool;
  m_socket : bool;
  m_bind : bool;
  m_listen : bool;
  m_relay_sock : bool;
  m_reconcile : script_env;
  m_stop0 : bool;
  m_prepoll : Z;
  m_stop1 : bool;
  m_accept : bool;
  m_accept_ms : Z;
  m_on : script_env;
  m_iters : list iter;
  m_off : script_env;
}.

Record mstate := mk_mst {
  m_s : sup_state_t;
  m_torn : bool;
  m_fd : bool;
  m_fs : fs;
  m_tr : list sup_ev;
}.

Section Main.
Context (d : disk) (e : main_env).

Definition ev (m : mstate) (l : list sup_ev) : mstate :=
  mk_mst (m_s m) (m_torn m) (m_fd m) (m_fs m) (m_tr m ++ l).
Definition set_s (m : mstate) (s : sup_state_t) : mstate :=
  mk_mst s (m_torn m) (m_fd m) (m_fs m) (m_tr m).

Definition supervisor_teardown (m : mstate) : run mstate :=
  if m_torn m then Ret m
  else
    let! r := run_script (m_bin e) (str "airplay-off") 12000 false (m_off e) in
    Ret (mk_mst (m_s m) true (m_fd m) (remove_pidfile (sup_prefix (m_pre e)) (m_fs m))
           (m_tr m ++ r.2 ++ [ERemovePid])).

(** The result of [do_action] and the state. *)
Definition do_action (a : sup_action_t) (m : mstate) : run (Z * mstate) :=
  match a with
  | SUP_ACT_START =>
      let! r := run_script (m_bin e) (str "airplay-on") 20000 true (m_on e) in
      Ret (r.1, ev m r.2)
  | SUP_ACT_STOP => let! m := supervisor_teardown m in Ret (0, m)
  | SUP_ACT_NONE => Ret (0, m)
  end.

Definition relay_of (ev : sup_event_t) : option bytes :=
  match ev with
  | SUP_EV_NEXT => Some (str "NEXT")
  | SUP_EV_PREV => Some (str "PREV")
  | SUP_EV_PLAYPAUSE => Some (str "PLAYPAUSE")
  | _ => None
  end.

Definition relay (x : sup_event_t) (m : mstate) : mstate :=
  match relay_of x with
  | Some cmd =>
      let '(fd, l) := relay_cmd (m_fd m) (m_relay_sock e) (sup_prefix (m_pre e)) cmd in
      mk_mst (m_s m) (m_torn m) fd (m_fs m) (m_tr m ++ l)
  | None => m
  end.

(** The events of one read; [true] while the session is active. *)
Fixpoint serve_events (evs : list sup_event_t) (clk : nat -> Z) (k : nat) (m : mstate) :
  run (bool * mstate) :=
  match evs with
  | [] => Ret (true, m)
  | x :: rest =>
    let m := relay x m in
    let '(s, a) := sup_step (m_s m) x (clk k) in
    let m := set_s m s in
    match a with
    | SUP_ACT_STOP => let! r := do_action SUP_ACT_STOP m in Ret (false, r.2)
    | _ => serve_events rest clk (S k) m
    end
  end.

(** The peer is gone. *)
Definition serve_eof (clk : nat -> Z) (m : mstate) : run mstate :=
  let '(s, a) := sup_step (m_s m) SUP_EV_EOF (clk 1%nat) in
  let m := set_s m s in
  match a with
  | SUP_ACT_STOP => let! r := do_action SUP_ACT_STOP m in Ret r.2
  | _ => Ret m
  end.

Fixpoint serve (iters : list iter) (lb : sup_lb_t) (m : mstate) : run mstate :=
  match iters with
  | [] => NoFuel
  | it :: rest =>
    if i_stop it then Ret m
    else
      let '(s, a) := sup_step (m_s m) SUP_EV_TICK (i_clk it 0) in
      let m := set_s m s in
      match a with
      | SUP_ACT_STOP => let! r := do_action SUP_ACT_STOP m in Ret r.2
      | _ =>
          match i_poll it with
          | PollEintr | PollTimeout => serve rest lb m
          | PollErr => Ret m
          | PollReady =>
              if i_bad it then serve_eof (i_clk it) m
              else
                match i_read it with
                | ReadEintr => serve rest lb m
                | ReadErr | ReadEof => serve_eof (i_clk it) m
                | ReadData data =>
                    let! r := sup_lb_push lb data 256 in
                    let! q := serve_events r.2 (i_clk it) 1 m in
                    if q.1 then serve rest r.1 q.2 else Ret q.2
                end
          end
      end
  end.

(** The session of an accepted connection. *)
Definition session (m : mstate) : run mstate :=
  let '(s, a) := sup_step (m_s m) SUP_EV_ACCEPT (m_accept_ms e) in
  let! r := do_action a (set_s m s) in
  let m := r.2 in
  if negb (r.1 =? 0) then
    let '(s, _) := sup_step (m_s m) SUP_EV_STOP (m_accept_ms e) in
    let! r := do_action SUP_ACT_STOP (set_s m s) in
    Ret (ev r.2 [ECloseClient])
  else
    let! m := serve (m_iters e) sup_lb_init m in
    let m := ev m [ECloseClient] in
    match phase (m_s m) with
    | SUP_ACTIVE =>
        let '(s, _) := sup_step (m_s m) SUP_EV_STOP 0 in
        let! r := do_action SUP_ACT_STOP (set_s m s) in
        Ret r.2
    | SUP_IDLE => Ret m
    end.

(** The exit status. *)
Definition supervisor_main (f : fs) : run (Z * mstate) :=
  let m0 := mk_mst sup_state_init false false f [] in
  if negb (m_setsid e && m_socket e && m_bind e && m_listen e) then Ret (1, m0)
  else
    let! st := self_starttime (m_stat e) in
    let! w := write_pidfile d (sup_prefix (m_pre e)) (m_pid e) st (m_close e) f in
    let m := mk_mst sup_state_init false false w.2 [] in
    if negb (w.1 =? 0) then Ret (1, ev m [ECloseListen])
    else
      let! r := run_script (m_bin e) (str "airplay-off") 12000 false (m_reconcile e) in
      let m := ev m r.2 in
      let stop := m_stop0 e || (m_prepoll e <=? 0) || m_stop1 e in
      let! m := (if negb stop && m_accept e then session m else Ret m) in
      let! m := supervisor_teardown m in
      Ret (0, ev m [ECloseListen]).
End Main.

(** ** Scripts are bounded *)

Definition wait_ends (t : wait_turn) : bool :=
  match w_wait t with WReaped _ | WErr => true | WEintr | WRunning => false end.

Definition overdue (deadline_ms : Z) (honor_stop : bool) (start : Z) (t : wait_turn) : bool :=
  match w_wait t with
  | WRunning => (honor_stop && w_stop t) || (deadline_ms <? w_now t - start)
  | _ => false
  end.

(** The turns before the one that ends the wait. *)
Definition script_outcome (deadline_ms : Z) (honor_stop : bool) (start : Z) (turns : list wait_turn)
    (rc : Z) (kills : nat) : Prop :=
  exists pre t post, turns = pre ++ t :: post /\ Forall (fun t => wait_ends t = false) pre /\
    let late := existsb (overdue deadline_ms honor_stop start) pre in
    kills = b2n late /\ rc = match w_wait t with WReaped st => if late then -1 else st | _ => -1 end /\
    wait_ends t = true.

Lemma script_wait_step t rest deadline honor start killed :
  wait_ends t = false ->
  script_wait (t :: rest) deadline honor start killed =
  script_wait rest deadline honor start (killed || overdue deadline honor start t).
Proof.
  unfold wait_ends, overdue. cbn [script_wait]. destruct (w_wait t); try done. by rewrite orb_false_r.
Qed.

Lemma script_wait_spec turns deadline honor start killed :
  Exists (fun t => wait_ends t = true) turns ->
  exists pre t post, turns = pre ++ t :: post /\ Forall (fun t => wait_ends t = false) pre /\
    wait_ends t = true /\
    let late := killed || existsb (overdue deadline honor start) pre in
    script_wait turns deadline honor start killed =
      Ret (match w_wait t with WReaped st => if late then -1 else st | _ => -1 end, b2n late).
Proof.
  intros Hex. revert killed. induction turns as [|t turns IH]; intros killed; [by inversion Hex|].
  destruct (wait_ends t) eqn:Et.
  { exists [], t, turns. split_and!; [done|done|done|]. cbn [script_wait existsb]. rewrite orb_false_r.
    unfold wait_ends in Et. by destruct (w_wait t). }
  assert (Exists (fun t => wait_ends t = true) turns) as Hex' by (inversion Hex; subst; [congruence|done]).
  destruct (IH Hex' (killed || overdue deadline honor start t)) as (pre & u & post & -> & Hpre & Hu & E).
  exists (t :: pre), u, post. split_and!; [done|by constructor|done|].
  rewrite script_wait_step by done. cbv zeta in E |- *. cbn [existsb]. rewrite orb_assoc. exact E.
Qed.

Definition script_fits (bin : option bytes) (name : bytes) : bool :=
  (length (default PREFIX_DEFAULT bin ++ [47%Z] ++ name) <? 512)%nat.

Lemma run_script_spec bin name deadline honor x :
  Exists (fun t => wait_ends t = true) (x_turns x) ->
  exists rc k, run_script bin name deadline honor x = Ret (rc, [EScript name rc k]) /\ (k <= 1)%nat /\
    (script_fits bin name && x_fork x = true ->
       script_outcome deadline honor (x_start x) (x_turns x) rc k).
Proof.
  intros Hex. unfold run_script, script_fits. cbv zeta. rewrite Nat.leb_antisym.
  destruct (_ <? 512)%nat; cbn [negb andb]; [|exists (-1), 0%nat; split_and!; [done|lia|done]].
  destruct (x_fork x); cbn [negb]; [|exists (-1), 0%nat; split_and!; [done|lia|done]].
  destruct (script_wait_spec (x_turns x) deadline honor (x_start x) false Hex)
    as (pre & t & post & Et & Hpre & Hend & E). cbn [orb] in E. cbv zeta in E. rewrite E. cbn [rbind fst snd].
  eexists _, _. split_and!; [done|by destruct (existsb _ pre); cbn; lia|]. intros _.
  exists pre, t, post. by split_and!.
Qed.

(** A script run ends with its process, and is cut only when it must be.
    Once the process is reaped (or can no longer be waited for) the run returns;
    the process is killed at most once, exactly when it was seen running past the
    deadline or, for a cancellable script, after a stop was requested; the result
    is then -1, and otherwise the exit status of the script. *)
Theorem run_script_bounded bin name deadline honor x :
  Exists (fun t => wait_ends t = true) (x_turns x) ->
  exists rc k, run_script bin name deadline honor x = Ret (rc, [EScript name rc k]) /\ (k <= 1)%nat /\
    (script_fits bin name && x_fork x = true ->
       script_outcome deadline honor (x_start x) (x_turns x) rc k).
Proof. apply run_script_spec. Qed.

Definition sample_script (turns : list wait_turn) : script_env := mk_script true 1000 turns.

Lemma run_script_bounded_witness :
  exists rc k, run_script None (str "airplay-off") 12000 false
      (sample_script [mk_wait WRunning true 9000; mk_wait WRunning true 13001; mk_wait (WReaped 0) true 13050]) =
      Ret (rc, [EScript (str "airplay-off") rc k]) /\ k = 1%nat /\ rc = -1.
Proof.
  destruct (run_script_bounded None (str "airplay-off") 12000 false
    (sample_script [mk_wait WRunning true 9000; mk_wait WRunning true 13001; mk_wait (WReaped 0) true 13050]))
    as (rc & k & E & _ & _).
  - apply Exists_cons_tl, Exists_cons_tl, Exists_cons_hd. reflexivity.
  - exists rc, k. split; [exact E|]. vm_compute in E. inversion E. split; reflexivity.
Defined.

(** ** The pidfile is all or nothing *)

Lemma pid_tmp_ne prefix pid : pid_tmp prefix pid <> pid_path prefix.
Proof.
  unfold pid_tmp, pid_path. intros H%(app_inv_head prefix).
  apply (f_equal length) in H. rewrite length_app in H. cbn in H. lia.
Qed.

Lemma write_pidfile_spec d `{!DiskOk d} prefix pid st close_ok f :
  - 10 ^ 20 < pid < 10 ^ 20 -> 0 <= st <= ULLONG_MAX -> files f !! pid_tmp prefix pid = None ->
  exists rc f', write_pidfile d prefix pid st close_ok f = Ret (rc, f') /\
    (rc = 0 \/ rc = -1) /\
    files f' = if rc =? 0
               then <[pid_path prefix := print_d pid ++ [32] ++ print_u st ++ [10]]> (files f)
               else files f.
Proof.
  intros Hp Hst Hnone. unfold write_pidfile. rewrite sup_pidfile_format_fits by done.
  set (buf := print_d pid ++ _). set (tmp := pid_tmp prefix pid). fold tmp in Hnone.
  assert (forall f', files f' = files f -> exists rc f'', Ret (A := Z * fs) (-1, f') = Ret (rc, f'') /\
    (rc = 0 \/ rc = -1) /\
    files f'' = if rc =? 0 then <[pid_path prefix := buf]> (files f) else files f) as Hfail
    by (intros f' H; exists (-1), f'; split_and!; auto).
  destruct (st =? 0); [by apply Hfail|]. destruct (512 <=? length (pid_path prefix))%nat; [by apply Hfail|].
  destruct (512 <=? length tmp)%nat; [by apply Hfail|]. unfold sys_open.
  destruct (d_open d f tmp); cbn [negb]; [|by apply Hfail].
  destruct (write_loop_spec d (S (length buf)) tmp buf (mk_fs (<[tmp := []]> (files f)) (S (calls f))) [])
    as (bad & f1 & -> & Hd & (c & Hc) & Hok); [lia|cbn; apply lookup_insert_eq|]. cbn [rbind fst snd].
  cbn [files] in Hd. rewrite delete_insert_eq, (delete_id (files f)) in Hd by done.
  destruct bad; [apply Hfail; cbn; done|]. specialize (Hok eq_refl). cbn [app] in Hok.
  destruct close_ok; cbn [negb]; [|apply Hfail; cbn; done].
  unfold sys_rename. destruct (d_rename d f1); [|apply Hfail; cbn; done]. rewrite Hok.
  exists 0, (mk_fs (<[pid_path prefix := buf]> (delete tmp (files f1))) (S (calls f1))).
  split_and!; [done|auto|]. cbn [files]. by rewrite Hd.
Qed.

(** The process token is published whole or not at all.  Publishing succeeds
    exactly when the path then holds the decimal process number and start time on
    one line; any failure leaves every file as it was, so a reader never sees a
    partial or stale token of this process. *)
Theorem write_pidfile_atomic d `{!DiskOk d} prefix pid st close_ok f :
  - 10 ^ 20 < pid < 10 ^ 20 -> 0 <= st <= ULLONG_MAX -> files f !! pid_tmp prefix pid = None ->
  exists rc f', write_pidfile d prefix pid st close_ok f = Ret (rc, f') /\
    (rc = 0 \/ rc = -1) /\
    files f' = if rc =? 0
               then <[pid_path prefix := print_d pid ++ [32] ++ print_u st ++ [10]]> (files f)
               else files f.
Proof. by apply write_pidfile_spec. Qed.

Lemma write_pidfile_atomic_witness :
  exists rc f', write_pidfile slow_disk (str "/p") 412 70355 true (mk_fs ∅ 0) = Ret (rc, f') /\
    (rc = 0 \/ rc = -1) /\
    files f' = if rc =? 0
               then <[pid_path (str "/p") := print_d 412 ++ [32] ++ print_u 70355 ++ [10]]> ∅
               else ∅.
Proof.
  apply (@write_pidfile_atomic slow_disk slow_disk_ok (str "/p") 412 70355 true (mk_fs ∅ 0));
    [cbn; lia|unfold ULLONG_MAX; lia|reflexivity].
Defined.

(** ** The whole run *)

Definition is_off (x : sup_ev) : bool := match x with EScript n _ _ => bytes_eqb n (str "airplay-off") | _ => false end.

(** A relayed command reaches the control thread of the receiver, which binds the
    same path, and is understood there. *)
Definition relay_ok (prefix : bytes) (x : sup_ev) : Prop :=
  exists path line cmd, x = ERelay path line /\ path = control_path prefix /\ (length path < 108)%nat /\
    control_command line = Some cmd.

(** The inputs of a run that ends: every script ends, reads fit the buffer, and
    the session loop is stopped at some point if nothing else ends it. *)
Record main_ok (e : main_env) : Prop := {
  ok_reconcile : Exists (fun t => wait_ends t = true) (x_turns (m_reconcile e));
  ok_on : Exists (fun t => wait_ends t = true) (x_turns (m_on e));
  ok_off : Exists (fun t => wait_ends t = true) (x_turns (m_off e));
  ok_stop : Exists (fun it => i_stop it = true) (m_iters e);
  ok_reads : Forall (fun it => match i_read it with ReadData b => (length b <= 256)%nat | _ => True end) (m_iters e);
}.

Section Run.
Context (e : main_env) (He : main_ok e).

Abbreviation prefix := (sup_prefix (m_pre e)).

(** The lease is held, or the teardown has run once and the lease is over. *)
Definition running (f1 : fs) (tr0 : list sup_ev) (m : mstate) : Prop :=
  m_torn m = false /\ m_fs m = f1 /\
  exists relays, m_tr m = tr0 ++ relays /\ Forall (relay_ok prefix) relays.
Definition torn (f1 : fs) (tr0 : list sup_ev) (m : mstate) : Prop :=
  m_torn m = true /\ m_fs m = remove_pidfile prefix f1 /\ phase (m_s m) = SUP_IDLE /\
  exists relays rc k, m_tr m = tr0 ++ relays ++ [EScript (str "airplay-off") rc k; ERemovePid] /\
    Forall (relay_ok prefix) relays.

(** The state after a teardown that runs. *)
Definition after_teardown (m : mstate) (rc : Z) (k : nat) : mstate :=
  mk_mst (m_s m) true (m_fd m) (remove_pidfile prefix (m_fs m))
    (m_tr m ++ [EScript (str "airplay-off") rc k; ERemovePid]).

Lemma teardown_runs m :
  m_torn m = false -> exists rc k, supervisor_teardown e m = Ret (after_teardown m rc k).
Proof.
  intros Ht. unfold supervisor_teardown. rewrite Ht.
  destruct (run_script_spec (m_bin e) (str "airplay-off") 12000 false (m_off e) (ok_off e He))
    as (rc & k & -> & _). by exists rc, k.
Qed.

Lemma do_stop_runs m :
  m_torn m = false -> exists rc k, do_action e SUP_ACT_STOP m = Ret (0, after_teardown m rc k).
Proof.
  intros Ht. destruct (teardown_runs m Ht) as (rc & k & E). exists rc, k. cbn [do_action]. by rewrite E.
Qed.

Lemma do_start_runs m :
  exists rc k, do_action e SUP_ACT_START m = Ret (rc, ev m [EScript (str "airplay-on") rc k]).
Proof.
  destruct (run_script_spec (m_bin e) (str "airplay-on") 20000 true (m_on e) (ok_on e He))
    as (rc & k & E & _). exists rc, k. cbn [do_action]. by rewrite E.
Qed.

Lemma do_stop_spec f1 tr0 m :
  running f1 tr0 m -> phase (m_s m) = SUP_IDLE ->
  exists m', do_action e SUP_ACT_STOP m = Ret (0, m') /\ torn f1 tr0 m'.
Proof.
  intros (Ht & Hf & relays & Htr & Hr) Hph. destruct (do_stop_runs m Ht) as (rc & k & E).
  eexists. split; [exact E|]. split_and!; [done|cbn; by rewrite Hf|done|].
  exists relays, rc, k. cbn [after_teardown m_tr]. by rewrite Htr, <- !app_assoc.
Qed.

Lemma step_phase s x now s' : sup_step s x now = (s', SUP_ACT_STOP) -> phase s' = SUP_IDLE.
Proof. destruct s as [[|] i l], x; cbn; intros; simplify_eq; try done. case_match; by simplify_eq. Qed.

Lemma relay_spec f1 tr0 x m : running f1 tr0 m -> running f1 tr0 (relay e x m) /\ m_s (relay e x m) = m_s m.
Proof.
  intros (Ht & Hf & relays & Htr & Hr). unfold relay.
  destruct (relay_of x) as [cmd|] eqn:Ex; [|split; [|done]; split_and!; eauto].
  unfold relay_cmd. destruct (_ && _); [split; [|done]; split_and!; eauto|].
  { exists relays. cbn. by rewrite app_nil_r. }
  destruct (Nat.leb_spec 108 (length (prefix ++ str "/control.sock"))); (split; [|done]); split_and!; try done.
  { exists relays. cbn. by rewrite app_nil_r. }
  exists (relays ++ [ERelay (prefix ++ str "/control.sock") (relay_line cmd)]). cbn [m_tr].
  rewrite Htr, <- app_assoc. split; [done|]. apply Forall_app. split; [done|]. apply List.Forall_cons; [|by apply List.Forall_nil].
  destruct x; cbn in Ex; simplify_eq; eexists _, _, _; (split_and!; [done| |done|]).
  all: try (unfold control_path; by rewrite take_ge by lia).
  all: vm_compute; reflexivity.
Qed.

Definition served (f1 : fs) (tr0 : list sup_ev) (m : mstate) : Prop := running f1 tr0 m \/ torn f1 tr0 m.

Lemma running_set f1 tr0 m s : running f1 tr0 m -> running f1 tr0 (set_s m s).
Proof. done. Qed.

Lemma serve_events_spec f1 tr0 evs clk k m :
  running f1 tr0 m ->
  exists b m', serve_events e evs clk k m = Ret (b, m') /\
    (if b then running f1 tr0 m' else torn f1 tr0 m').
Proof.
  revert k m. induction evs as [|x evs IH]; intros k m Hm; [by exists true, m|].
  cbn [serve_events]. cbv zeta. destruct (relay_spec f1 tr0 x m Hm) as [Hm1 Hs]. rewrite Hs.
  set (m1 := relay e x m) in *. destruct (sup_step (m_s m) x (clk k)) as [s a] eqn:Es.
  destruct a; [by apply IH|by apply IH|].
  destruct (do_stop_spec f1 tr0 (set_s m1 s) Hm1 (step_phase _ _ _ _ Es)) as (m' & -> & Hm').
  by exists false, m'.
Qed.

Lemma serve_eof_spec f1 tr0 clk m :
  running f1 tr0 m -> exists m', serve_eof e clk m = Ret m' /\ served f1 tr0 m'.
Proof.
  intros Hm. unfold serve_eof. destruct (sup_step _ _ _) as [s a] eqn:Es.
  destruct a; [eexists; split; [done|by left]..|].
  destruct (do_stop_spec f1 tr0 (set_s m s) Hm (step_phase _ _ _ _ Es)) as (m' & -> & Hm').
  exists m'. split; [done|by right].
Qed.

Lemma serve_spec f1 tr0 iters lb cur m :
  Exists (fun it => i_stop it = true) iters ->
  Forall (fun it => match i_read it with ReadData b => (length b <= 256)%nat | _ => True end) iters ->
  lb_ok lb cur -> running f1 tr0 m ->
  exists m', serve e iters lb m = Ret m' /\ served f1 tr0 m'.
Proof.
  intros Hex Hall. revert lb cur m. induction iters as [|it iters IH]; intros lb cur m Hlb Hm; [by inversion Hex|].
  inversion Hall as [|?? Hrd Hall']; subst. cbn [serve]. destruct (i_stop it) eqn:Est.
  { exists m. split; [done|by left]. }
  assert (Exists (fun it => i_stop it = true) iters) as Hex' by (inversion Hex; subst; [congruence|done]).
  specialize (IH Hex' Hall'). destruct (sup_step _ _ _) as [s a] eqn:Es. cbv zeta.
  destruct a.
  3:{ destruct (do_stop_spec f1 tr0 (set_s m s) Hm (step_phase _ _ _ _ Es)) as (m' & -> & Hm').
      exists m'. split; [done|by right]. }
  all: destruct (i_poll it); [by eapply IH|by eexists; split; [done|left]|by eapply IH|].
  all: destruct (i_bad it); [by apply serve_eof_spec|].
  all: destruct (i_read it) as [| | |b]; [by eapply IH|by apply serve_eof_spec|by apply serve_eof_spec|].
  all: destruct (push_loop_spec lb cur b [] 256 Hlb ltac:(cbn; lia)) as (lb' & E & Hlb'); unfold sup_lb_push.
  all: rewrite E; cbn [rbind fst snd].
  all: destruct (serve_events_spec f1 tr0 ([] ++ line_events (lines_from cur b)) (i_clk it) 1 (set_s m s) Hm)
    as ([|] & m' & -> & Hm'); cbn [rbind fst snd].
  all: try by eapply IH.
  all: exists m'; split; [done|by right].
Qed.
(** What a session leaves: torn down, or idle with only its descriptor closed. *)
Definition ended (f1 : fs) (tr0 : list sup_ev) (m : mstate) : Prop :=
  phase (m_s m) = SUP_IDLE /\
  exists rc1 k1 relays, Forall (relay_ok prefix) relays /\ (rc1 <> 0 -> relays = []) /\
    let tr1 := tr0 ++ [EScript (str "airplay-on") rc1 k1] ++ relays in
    ((m_torn m = false /\ m_fs m = f1 /\ m_tr m = tr1 ++ [ECloseClient]) \/
     (m_torn m = true /\ m_fs m = remove_pidfile prefix f1 /\
      exists rc k, m_tr m = tr1 ++ [EScript (str "airplay-off") rc k; ERemovePid; ECloseClient] \/
                   m_tr m = tr1 ++ [ECloseClient; EScript (str "airplay-off") rc k; ERemovePid])).

Lemma session_spec f1 tr0 m :
  m_torn m = false -> m_fs m = f1 -> m_tr m = tr0 -> exists m', session e m = Ret m' /\ ended f1 tr0 m'.
Proof.
  intros Ht Hf Htr. unfold session. destruct (sup_step (m_s m) SUP_EV_ACCEPT (m_accept_ms e)) as [s0 a0] eqn:E0.
  injection E0 as <- <-. destruct (do_start_runs (set_s m (mk_sup SUP_ACTIVE (u32 (session_id (m_s m) + 1)) (m_accept_ms e))))
    as (rc1 & k1 & ->). cbn [rbind fst snd].
  set (m1 := ev (set_s m _) _). set (tr1 := tr0 ++ [EScript (str "airplay-on") rc1 k1]).
  assert (running f1 tr1 m1) as Hm1 by (split_and!; [done|done|]; exists []; split; [by rewrite app_nil_r; unfold tr1; rewrite <- Htr|done]).
  destruct (Z.eqb_spec rc1 0) as [->|Hrc]; cbn [negb].
  - destruct (serve_spec f1 tr1 (m_iters e) sup_lb_init [] m1 (ok_stop e He) (ok_reads e He)
      ltac:(split; [done|unfold SUP_LB_MAX; cbn; lia]) Hm1) as (m2 & -> & [Hm2|Hm2]); cbn [rbind].
    + destruct Hm2 as (Ht2 & Hf2 & relays & Htr2 & Hr). change (phase (m_s (ev m2 [ECloseClient]))) with (phase (m_s m2)).
      destruct (phase (m_s m2)) eqn:Eph.
      * eexists. split; [done|]. split; [done|]. exists 0, k1, relays. split_and!; [done|done|].
        left. split_and!; try done. cbn [ev m_tr]. rewrite Htr2. unfold tr1. by rewrite <- !app_assoc.
      * assert (exists s', sup_step (m_s (ev m2 [ECloseClient])) SUP_EV_STOP 0 = (s', SUP_ACT_STOP)) as [s' Es].
        { cbn [ev m_s sup_step]. rewrite Eph. eauto. }
        rewrite Es. destruct (do_stop_runs (set_s (ev m2 [ECloseClient]) s') Ht2) as (rc & k & ->).
        cbn [rbind snd]. eexists. split; [done|]. split; [cbn; by apply step_phase in Es|].
        exists 0, k1, relays. split_and!; [done|done|]. right. split_and!; [done|cbn; by rewrite Hf2|].
        exists rc, k. right. cbn [after_teardown set_s ev m_tr]. rewrite Htr2. unfold tr1. by rewrite <- !app_assoc.
    + destruct Hm2 as (Ht2 & Hf2 & Hp2 & relays & rc & k & Htr2 & Hr).
      change (phase (m_s (ev m2 [ECloseClient]))) with (phase (m_s m2)). rewrite Hp2.
      eexists. split; [done|]. split; [done|]. exists 0, k1, relays. split_and!; [done|done|].
      right. split_and!; [done|done|]. exists rc, k. left. cbn [ev m_tr]. rewrite Htr2. unfold tr1.
      by rewrite <- !app_assoc.
  - assert (exists s', sup_step (m_s m1) SUP_EV_STOP (m_accept_ms e) = (s', SUP_ACT_STOP) /\ phase s' = SUP_IDLE)
      as (s' & Es & Hp) by (cbn; eauto).
    rewrite Es. destruct (do_stop_runs (set_s m1 s')) as (rc & k & ->); [done|]. cbn [rbind snd].
    eexists. split; [done|]. split; [done|]. exists rc1, k1, []. split_and!; [done|done|].
    right. split_and!; [done|cbn; by rewrite Hf|]. exists rc, k. left. cbn. rewrite Htr.
    by rewrite <- !app_assoc.
Qed.
End Run.

(** Reading the start time is total and in range. *)
Lemma skip_token_length p : (length (skip_token p) <= length p)%nat.
Proof. induction p as [|c p IH]; cbn; [done|]. destruct (c =? 32); cbn; lia. Qed.

Lemma skip_blanks_length p : (length (skip_blanks p) <= length p)%nat.
Proof. induction p as [|c p IH]; cbn; [done|]. destruct (c =? 32); cbn; lia. Qed.

Lemma skip_token_shorter p c t :
  skip_blanks p = c :: t -> (length (skip_token (c :: t)) < length p)%nat.
Proof.
  intros E. pose proof (skip_blanks_length p) as H. rewrite E in H. cbn [length] in H.
  assert (c <> 32) as Hc.
  { clear H. induction p as [|x p IH]; [done|]. cbn in E. destruct (Z.eqb_spec x 32); [by apply IH|congruence]. }
  cbn [skip_token]. destruct (Z.eqb_spec c 32); [done|]. pose proof (skip_token_length t). lia.
Qed.

Lemma scan_llu_range p v : scan_llu p = Some v -> 0 <= v <= ULLONG_MAX.
Proof.
  unfold scan_llu. destruct (sign_of _) as [neg s]. destruct (digits s) as [|c ds] eqn:E; [done|].
  pose proof (dec_val_nonneg (c :: ds)) as H. rewrite <- E in H. specialize (H (digits_all s)). rewrite E in H.
  destruct (Z.ltb_spec ULLONG_MAX (dec_val (c :: ds))); intros [= <-]; [unfold ULLONG_MAX; lia|].
  destruct neg; [|lia]. pose proof (u64_range (- dec_val (c :: ds))). unfold ULLONG_MAX. lia.
Qed.

Lemma token_at_wp fuel tok p :
  (length p < fuel)%nat ->
  wp (token_at fuel tok p) (fun r => match r with Some v => 0 <= v <= ULLONG_MAX | None => True end).
Proof.
  revert tok p. induction fuel as [|fuel IH]; intros tok p Hf; [lia|]. cbn [token_at].
  destruct p as [|x p]; [done|]. destruct (skip_blanks (x :: p)) as [|c t] eqn:E; [done|].
  destruct (S tok =? 20)%nat.
  - cbn. destruct (scan_llu (c :: t)) as [v|] eqn:Ev; [|done]. by apply scan_llu_range in Ev.
  - apply IH. pose proof (skip_token_shorter _ _ _ E). lia.
Qed.

Lemma self_starttime_wp line : wp (self_starttime line) (fun v => 0 <= v <= ULLONG_MAX).
Proof.
  destruct line as [l|]; cbn [self_starttime]; [|cbn; unfold ULLONG_MAX; lia]. wp_step.
  unfold sup_stat_starttime. destruct (after_last 41 l) as [p|]; [|cbn; unfold ULLONG_MAX; lia].
  eapply wp_mono; [apply token_at_wp; lia|]. intros [v|]; cbn; [done|]. intros _. unfold ULLONG_MAX. lia.
Qed.

(** The trace of a run that got as far as listening. *)
Definition run_trace (prefix : bytes) (accepted : bool) (tr : list sup_ev) : Prop :=
  exists rc0 k0 rc k,
    let off0 := EScript (str "airplay-off") rc0 k0 in
    let off := EScript (str "airplay-off") rc k in
    if accepted then
      exists rc1 k1 relays, Forall (relay_ok prefix) relays /\ (rc1 <> 0 -> relays = []) /\
        let on := EScript (str "airplay-on") rc1 k1 in
        (tr = [off0; on] ++ relays ++ [off; ERemovePid; ECloseClient; ECloseListen] \/
         tr = [off0; on] ++ relays ++ [ECloseClient; off; ERemovePid; ECloseListen])
    else tr = [off0; off; ERemovePid; ECloseListen].

Definition accepted (e : main_env) : bool :=
  negb (m_stop0 e || (m_prepoll e <=? 0) || m_stop1 e) && m_accept e.

(** C20: every run of the supervisor ends torn down.  Whatever the clients,
    scripts and signals do, the process ends; if it could not publish its token
    it has run nothing and left the files alone; otherwise it has run the
    reconciling teardown script first, the start script once if it accepted a
    connection, and the teardown script exactly once more after everything else,
    it has removed its token, closed the connection once, and relayed commands
    only in between, each of them to the socket of the receiver in a form the
    receiver understands, and none if the start script failed. *)
Theorem supervisor_main_ok d `{!DiskOk d} e f :
  main_ok e -> - 10 ^ 20 < m_pid e < 10 ^ 20 ->
  files f !! pid_tmp (sup_prefix (m_pre e)) (m_pid e) = None ->
  exists code m, supervisor_main d e f = Ret (code, m) /\
    ((code = 1 /\ files (m_fs m) = files f /\ (m_tr m = [] \/ m_tr m = [ECloseListen])) \/
     (code = 0 /\ m_torn m = true /\
      files (m_fs m) = delete (pid_path (sup_prefix (m_pre e))) (files f) /\
      run_trace (sup_prefix (m_pre e)) (accepted e) (m_tr m))).
Proof.
  intros He Hpid Hnone. unfold supervisor_main.
  destruct (_ && _); cbn [negb]; [|eexists 1, _; split; [done|]; left; cbn; auto].
  pose proof (self_starttime_wp (m_stat e)) as (st & -> & Hst)%wp_elim. cbn [rbind].
  destruct (write_pidfile_spec d (sup_prefix (m_pre e)) (m_pid e) st (m_close e) f Hpid Hst Hnone)
    as (rc & f1 & Ew & Hrc & Hf1). rewrite Ew. cbn [rbind fst snd].
  destruct (Z.eqb_spec rc 0) as [->|Hne]; cbn [negb]; [|eexists 1, _; split; [done|]; left; cbn; auto].
  destruct (run_script_spec (m_bin e) (str "airplay-off") 12000 false (m_reconcile e) (ok_reconcile e He))
    as (rc0 & k0 & -> & _). cbn [rbind snd].
  set (m1 := ev _ _). set (prefix := sup_prefix (m_pre e)) in *.
  assert (files (remove_pidfile prefix f1) = delete (pid_path prefix) (files f)) as Hfiles.
  { unfold remove_pidfile. unfold write_pidfile in Ew. destruct (st =? 0); [done|].
    destruct (Nat.leb_spec 512 (length (pid_path prefix))); [done|].
    rewrite (proj2 (Nat.ltb_lt _ _)) by lia. cbn. rewrite Hf1. apply delete_insert_eq. }
  fold (accepted e). destruct (accepted e) eqn:Eacc.
  - destruct (session_spec e He f1 (m_tr m1) m1) as (m2 & -> & Hph & rc1 & k1 & relays & Hr & Hrc1 & Hend);
      [done..|]. cbn [rbind]. destruct Hend as [(Ht & Hf & Htr)|(Ht & Hf & rc & k & Htr)].
    + destruct (teardown_runs e He m2 Ht) as (rc & k & ->). cbn [rbind].
      eexists 0, _. split; [done|]. right. split_and!; [done|done|cbn; by rewrite Hf|].
      exists rc0, k0, rc, k. exists rc1, k1, relays. split_and!; [done|done|]. right.
      cbn [ev after_teardown m_tr]. rewrite Htr. cbn. by rewrite <- !app_assoc.
    + unfold supervisor_teardown. rewrite Ht. cbn [rbind].
      eexists 0, _. split; [done|]. right. split_and!; [done|done|cbn; by rewrite Hf|].
      exists rc0, k0, rc, k. exists rc1, k1, relays. split_and!; [done|done|].
      destruct Htr as [Htr|Htr]; [left|right]; cbn [ev m_tr]; rewrite Htr; cbn; by rewrite <- !app_assoc.
  - cbn [rbind]. destruct (teardown_runs e He m1 eq_refl) as (rc & k & ->). cbn [rbind].
    eexists 0, _. split; [done|]. right. split_and!; [done|done|done|]. by exists rc0, k0, rc, k.
Qed.

(** A session: two keepalives, a button, then the connection is closed. *)
Definition quick : script_env := mk_script true 0 [mk_wait WRunning false 20; mk_wait (WReaped 0) false 60].
Definition sample_main : main_env :=
  mk_main None None
    (Some (print_d 7 ++ str " (s) S 0 0 0 0 0 0 0 0 0 0 0 0 0 0 0 0 0 0 4242 0" ++ [10])) 7 true
    true true true true true quick false 1 false true 100 quick
    [mk_iter false (fun _ => 200) PollReady false (ReadData (str "HELLO" ++ [10] ++ str "PI"));
     mk_iter false (fun _ => 300) PollReady false (ReadData (str "NG" ++ [10] ++ str "NEXT" ++ [10]));
     mk_iter false (fun _ => 400) PollReady false ReadEof;
     mk_iter true (fun _ => 500) PollReady false ReadEof] quick.

Lemma supervisor_main_ok_witness :
  exists code m, supervisor_main slow_disk sample_main (mk_fs ∅ 0) = Ret (code, m) /\
    code = 0 /\ files (m_fs m) = delete (pid_path PREFIX_DEFAULT) ∅ /\
    run_trace PREFIX_DEFAULT true (m_tr m) /\ In (ERelay (PREFIX_DEFAULT ++ str "/control.sock") (str "NEXT" ++ [10])) (m_tr m).
Proof.
  destruct (@supervisor_main_ok slow_disk slow_disk_ok sample_main (mk_fs ∅ 0)) as (code & m & E & H).
  - split.
    + apply Exists_cons_tl, Exists_cons_hd. reflexivity.
    + apply Exists_cons_tl, Exists_cons_hd. reflexivity.
    + apply Exists_cons_tl, Exists_cons_hd. reflexivity.
    + apply Exists_cons_tl, Exists_cons_tl, Exists_cons_tl, Exists_cons_hd. reflexivity.
    + repeat apply List.Forall_cons; try apply List.Forall_nil; cbn; lia || exact I.
  - cbn. lia.
  - reflexivity.
  - assert (supervisor_main slow_disk sample_main (mk_fs ∅ 0) = Ret (0, m) /\
      In (ERelay (PREFIX_DEFAULT ++ str "/control.sock") (str "NEXT" ++ [10])) (m_tr m)) as [E' Hin].
    { rewrite E. vm_compute in E. inversion E. split; [reflexivity|]. vm_compute. tauto. }
    rewrite E in E'. injection E' as ->. destruct H as [(H & _)|(_ & _ & Hf & Htr)]; [discriminate H|].
    exists 0, m. split; [exact E|]. split; [reflexivity|]. split; [exact Hf|]. split; [exact Htr|exact Hin].
Defined.
