(* ===== verification/Remote.v ===== *)
(** * The reader's buttons, from the supervisor to the sender

    [supervisor_main.c] reads lines from the kindlet and relays commands as
    datagrams; [dacp.c] receives them and sends requests.  This file composes the
    two: what the sender receives as a function of what the kindlet wrote. *)
From Stdlib Require Import ZArith Lia String.
From stdpp Require Import base numbers list gmap.
From S2P Require Import Prelude Bodycap Supervisor DacpState DacpResolve Dacp SupervisorMain.

Local Open Scope Z_scope.

(** The command a line of the kindlet asks for. *)
Definition button (x : sup_event_t) : option dacp_cmd_t :=
  match x with
  | SUP_EV_NEXT => Some DACP_NEXTITEM
  | SUP_EV_PREV => Some DACP_PREVITEM
  | SUP_EV_PLAYPAUSE => Some DACP_PLAYPAUSE
  | _ => None
  end.

(** The datagrams sent to a socket. *)
Definition datagrams (sock : bytes) (tr : list sup_ev) : list bytes :=
  omap (fun x => match x with ERelay path line => if bool_decide (path = sock) then Some line else None | _ => None end) tr.

Definition relayed (evs : list sup_event_t) : list bytes := relay_line <$> omap relay_of evs.

(** A relayed line is understood as the button it stands for. *)
Lemma relay_understood x cmd :
  relay_of x = Some cmd -> relay_line cmd <> [] /\ control_command (relay_line cmd) = button x.
Proof. destruct x; intros [= <-]; (split; [done|by vm_compute]). Qed.

Lemma relay_button x : relay_of x = None -> button x = None.
Proof. by destruct x. Qed.

Lemma relayed_understood evs : omap control_command (relayed evs) = omap button evs.
Proof.
  unfold relayed. induction evs as [|x evs IH]; [done|]. cbn [omap list_omap].
  destruct (relay_of x) as [cmd|] eqn:E.
  - cbn [fmap list_fmap map omap list_omap]. destruct (relay_understood x cmd E) as [_ ->]. by rewrite IH.
  - rewrite (relay_button x E). exact IH.
Qed.

Lemma relayed_app a b : relayed (a ++ b) = relayed a ++ relayed b.
Proof. unfold relayed. by rewrite omap_app, fmap_app. Qed.

Lemma relayed_nonempty evs : Forall (fun l => l <> []) (relayed evs).
Proof.
  unfold relayed. apply Forall_fmap, Forall_forall. intros cmd Hc. apply list_elem_of_omap in Hc as (x & _ & Hx).
  by apply relay_understood in Hx as [Hx _].
Qed.

(** ** The supervisor's side *)

(** The reads of a session loop, until it is told to stop or loses its peer. *)
Fixpoint heard (iters : list iter) : list bytes :=
  match iters with
  | [] => []
  | it :: rest =>
      if i_stop it then []
      else
        match i_poll it with
        | PollEintr | PollTimeout => heard rest
        | PollErr => []
        | PollReady =>
            if i_bad it then []
            else
              match i_read it with
              | ReadEintr => heard rest
              | ReadErr | ReadEof => []
              | ReadData data => data :: heard rest
              end
        end
  end.

Section Supervisor.
Context (e : main_env) (He : main_ok e) (Hsock : m_relay_sock e = true).
Context (Hpre : (length (sup_prefix (m_pre e)) < 95)%nat).

Abbreviation socket := (control_path (sup_prefix (m_pre e))).
Abbreviation sent m := (datagrams socket (m_tr m)).

Lemma socket_path : sup_prefix (m_pre e) ++ str "/control.sock" = socket /\
  (length (sup_prefix (m_pre e) ++ str "/control.sock") < 108)%nat.
Proof.
  assert (length (sup_prefix (m_pre e) ++ str "/control.sock") = length (sup_prefix (m_pre e)) + 13)%nat as Hl
    by (rewrite length_app; done).
  split; [|lia]. unfold control_path. by rewrite take_ge by lia.
Qed.

Lemma relay_sent x m : sent (relay e x m) = sent m ++ relayed [x] /\ m_torn (relay e x m) = m_torn m.
Proof.
  unfold relay, relayed. cbn [omap list_omap]. destruct (relay_of x) as [cmd|]; [|by rewrite app_nil_r].
  destruct socket_path as [Hs Hl]. unfold relay_cmd. rewrite Hsock, andb_false_r, (proj2 (Nat.leb_gt _ _)) by done.
  split; [|done]. cbn [m_tr]. unfold datagrams. rewrite omap_app. cbn [omap list_omap fmap list_fmap map].
  by rewrite Hs, bool_decide_true.
Qed.

(** Stopping sends nothing. *)
Lemma stop_sends m : m_torn m = false ->
  exists m', do_action e SUP_ACT_STOP m = Ret (0, m') /\ sent m' = sent m /\ m_torn m' = true.
Proof.
  intros Ht. destruct (do_stop_runs e He m Ht) as (rc & k & ->). eexists. split; [done|]. split; [|done].
  unfold datagrams. cbn [after_teardown m_tr]. rewrite omap_app. cbn. by rewrite app_nil_r.
Qed.

Lemma eof_sends clk m : m_torn m = false -> exists m', serve_eof e clk m = Ret m' /\ sent m' = sent m.
Proof.
  intros Ht. unfold serve_eof. destruct (sup_step _ _ _) as [s a]. destruct a; [by eexists..|].
  destruct (stop_sends (set_s m s) Ht) as (m' & -> & Hs & _). by exists m'.
Qed.

Lemma events_sent evs clk k m : m_torn m = false ->
  exists b m' n, serve_events e evs clk k m = Ret (b, m') /\ sent m' = sent m ++ relayed (take n evs) /\
    m_torn m' = negb b /\ (b = true -> n = length evs).
Proof.
  revert k m. induction evs as [|x evs IH]; intros k m Ht.
  { exists true, m, 0%nat. split_and!; try done. by rewrite app_nil_r. }
  cbn [serve_events]. cbv zeta. destruct (relay_sent x m) as [Hr Hrt]. set (m1 := relay e x m) in *.
  destruct (sup_step (m_s m1) x (clk k)) as [s a]. rewrite Ht in Hrt.
  assert (forall m2, sent m2 = sent (set_s m1 s) -> sent m2 = sent m ++ relayed (take 1 (x :: evs))) as H1
    by (intros m2 ->; exact Hr).
  assert (exists b m' n, serve_events e evs clk (S k) (set_s m1 s) = Ret (b, m') /\
    sent m' = sent m ++ relayed (take n (x :: evs)) /\ m_torn m' = negb b /\ (b = true -> n = length (x :: evs))) as Hgo.
  { destruct (IH (S k) (set_s m1 s) Hrt) as (b & m' & n & -> & Hs & Hb & Hn). exists b, m', (S n).
    split; [done|]. split; [|split; [done|]; intros Hb'; cbn; by rewrite Hn].
    rewrite Hs. change (sent (set_s m1 s)) with (sent m1). rewrite Hr, <- app_assoc, <- relayed_app. done. }
  destruct a; [exact Hgo|exact Hgo|].
  destruct (stop_sends (set_s m1 s) Hrt) as (m' & -> & Hs & Hb). exists false, m', 1%nat.
  split; [done|]. split; [by apply H1|]. by split.
Qed.

Lemma take_all_app {A} n (a b : list A) : (n = length a)%nat -> take n a = take n (a ++ b).
Proof. intros ->. by rewrite take_app_le. Qed.

(** The datagrams are the buttons of the lines read, in order, until the session
    ends. *)
Lemma serve_sent iters lb cur m :
  Exists (fun it => i_stop it = true) iters ->
  Forall (fun it => match i_read it with ReadData b => (length b <= 256)%nat | _ => True end) iters ->
  lb_ok lb cur -> m_torn m = false ->
  exists m' n, serve e iters lb m = Ret m' /\
    let evs := line_events (lines_from cur (List.concat (heard iters))) in
    sent m' = sent m ++ relayed (take n evs) /\ (m_torn m' = false -> (length evs <= n)%nat).
Proof.
  intros Hex Hall. cbv zeta. revert lb cur m. induction iters as [|it iters IH]; intros lb cur m Hlb Ht; [by inversion Hex|].
  inversion Hall as [|?? Hrd Hall']; subst. cbn [serve heard]. destruct (i_stop it) eqn:Est.
  { exists m, 0%nat. split; [done|]. cbn. rewrite app_nil_r. split; [done|]. lia. }
  assert (Exists (fun it => i_stop it = true) iters) as Hex' by (inversion Hex; subst; [congruence|done]).
  specialize (IH Hex' Hall'). destruct (sup_step _ _ _) as [s a]. cbv zeta.
  destruct a.
  3:{ destruct (stop_sends (set_s m s) Ht) as (m' & -> & Hs & Hb). exists m', 0%nat. split; [done|].
      rewrite take_0, app_nil_r. split; [exact Hs|congruence]. }
  all: assert (exists m' n, Ret (A := mstate) (set_s m s) = Ret m' /\
      sent m' = sent m ++ relayed (take n (line_events (lines_from cur (List.concat [])))) /\
      (m_torn m' = false -> (length (line_events (lines_from cur (List.concat []))) <= n)%nat)) as Hnone
    by (exists (set_s m s), 0%nat; cbn; rewrite app_nil_r; split; [done|]; split; [done|lia]).
  all: assert (exists m' n, serve_eof e (i_clk it) (set_s m s) = Ret m' /\
      sent m' = sent m ++ relayed (take n (line_events (lines_from cur (List.concat [])))) /\
      (m_torn m' = false -> (length (line_events (lines_from cur (List.concat []))) <= n)%nat)) as Heof
    by (destruct (eof_sends (i_clk it) (set_s m s) Ht) as (m' & -> & Hs); exists m', 0%nat; cbn; rewrite app_nil_r;
        split; [done|]; split; [exact Hs|lia]).
  all: destruct (i_poll it); [exact (IH lb cur (set_s m s) Hlb Ht)|exact Hnone|exact (IH lb cur (set_s m s) Hlb Ht)|].
  all: destruct (i_bad it); [exact Heof|].
  all: destruct (i_read it) as [| | |b]; [exact (IH lb cur (set_s m s) Hlb Ht)|exact Heof|exact Heof|].
  all: destruct (push_loop_spec lb cur b [] 256 Hlb ltac:(cbn; lia)) as (lb' & E & Hlb'); unfold sup_lb_push.
  all: rewrite E; cbn [rbind fst snd app List.concat]; rewrite lines_from_app, line_events_app.
  all: set (l1 := line_events (lines_from cur b)); set (l2 := line_events _).
  all: destruct (events_sent l1 (i_clk it) 1 (set_s m s) Ht) as ([|] & m1 & n1 & -> & Hs1 & Ht1 & Hn1); cbn [rbind fst snd].
  2,4: exists m1, (Nat.min n1 (length l1)); split; [done|]; rewrite Hs1, take_app_le by lia;
    split; [by rewrite <- firstn_firstn, firstn_all|by rewrite Ht1].
  all: destruct (IH lb' (cur_after cur b) m1 Hlb' Ht1) as (m2 & n2 & -> & Hs2 & Hn2).
  all: exists m2, (length l1 + n2)%nat; split; [done|]; rewrite Hs2, Hs1, (Hn1 eq_refl), firstn_all, take_app_add.
  all: split; [by rewrite relayed_app, app_assoc|]; intros Hm2; rewrite length_app; specialize (Hn2 Hm2).
  all: fold l2 in Hn2; lia.
Qed.
End Supervisor.

(** ** The receiver's side *)

(** What a fired command does on the network: nothing, or one connection, closed,
    with at most one request, which asks for that command and of which [write] took the
    first [n] bytes. *)
Definition carries (f : fired) : Prop :=
  f.2 = [] \/ exists path ip port token n, cmd_path f.1.1 = Some path /\
    (f.2 = [TSocket; TConnect ip port; TClose] \/
     f.2 = [TSocket; TConnect ip port; TWrite (request_text path (inet_ntoa ip) port token) n; TClose]).

Lemma control_loop_carries turns last g fs last' g' :
  control_loop turns last g = Ret (fs, last', g') -> dacp_ok g -> Forall (fun t => env_ok (t_env t)) turns ->
  Forall carries fs.
Proof.
  revert last g fs. induction turns as [|t turns IH]; intros last g fs; cbn [control_loop].
  { intros [= <- _ _] _ _. constructor. }
  intros Hr Hg He. apply Forall_cons in He as [He He']. pose proof (dacp_run_ok g (t_ops t) Hg) as Hg1.
  set (g1 := foldl dacp_do g (t_ops t)) in *. clearbody g1.
  destruct (t_data t) as [[|x data]|]; [by apply (IH last g1 fs Hr Hg1)| |by apply (IH last g1 fs Hr Hg1)].
  destruct (control_command (x :: data)) as [cmd|]; [|by apply (IH last g1 fs Hr Hg1)].
  destruct (dacp_debounce_ok cmd (t_now t) DEBOUNCE_MS last) as [[b l]| |]; cbn [rbind fst snd] in Hr; [|done|done].
  destruct b; [|by apply (IH l g1 fs Hr Hg1)].
  destruct (dacp_send_spec cmd (t_env t) g1 Hg1 He) as (code & g2 & tr & E & Hg2 & Hs & _). rewrite E in Hr.
  cbn [rbind fst snd] in Hr. destruct (control_loop turns l g2) as [[[fs2 l2] g3]| |] eqn:Er; cbn [rbind fst snd] in Hr; [|done|done].
  injection Hr as <- <- <-. apply List.Forall_cons; [|by apply (IH l g2 fs2 Er Hg2)]. unfold carries. cbn [fst snd].
  destruct tr as [|op tr]; [by left|]. destruct (Hs ltac:(done)) as (path & port & Hp & _ & _ & _ & _ & Htr).
  cbv zeta in Htr. destruct Htr as (_ & Htr & _).
  right. eexists path, (peer_ip_be g1), port, (active_remote g1), _. split; [done|exact Htr].
Qed.

(** The commands asked for are those of the datagrams, empty ones aside. *)
Lemma requests_commands turns (l : list bytes) :
  omap t_data turns = l -> Forall (fun d => d <> []) l -> map fst (requests turns) = omap control_command l.
Proof.
  intros <-. unfold requests. induction turns as [|t turns IH]; [done|]. cbn [omap list_omap].
  destruct (t_data t) as [[|x data]|]; [by intros [? _]%Forall_cons| |exact IH].
  intros [_ Hl]%Forall_cons. cbn [omap list_omap]. destruct (control_command (x :: data)); cbn [fmap option_fmap option_map map fst].
  - by rewrite (IH Hl).
  - exact (IH Hl).
Qed.

(** C12: what the reader presses is what the sender is told, and nothing else.
    Whatever the reads into which the kindlet's lines are cut, the session loop
    sends the control thread exactly one datagram for each button line, in order,
    from the first line on, and of all lines if the session was not torn down.
    When the control thread has received them, at whatever times and with whatever
    happens in between, the commands it executes are those of the buttons, less
    the repetitions the debounce rule drops; and whatever it offers the network
    is, on a connection of its own, the request of the command executed. *)
Theorem buttons_reach_sender e m turns g :
  main_ok e -> m_relay_sock e = true -> (length (sup_prefix (m_pre e)) < 95)%nat -> m_torn m = false -> m_tr m = [] ->
  dacp_ok g -> Forall (fun t => env_ok (t_env t)) turns -> clock_from 0 (requests turns) ->
  let lines := line_events (lines_from [] (List.concat (heard (m_iters e)))) in
  exists m' n, serve e (m_iters e) sup_lb_init m = Ret m' /\ (m_torn m' = false -> (length lines <= n)%nat) /\
    let sent := datagrams (control_path (sup_prefix (m_pre e))) (m_tr m') in
    omap control_command sent = omap button (take n lines) /\ length sent = length (omap button (take n lines)) /\
    (omap t_data turns = sent ->
     map fst (requests turns) = omap button (take n lines) /\
     exists fs last' g', control_loop turns debounce_init g = Ret (fs, last', g') /\
       map fst fs = firings (requests turns) DEBOUNCE_MS [] /\ Forall carries fs).
Proof.
  intros He Hsock Hpre Ht Htr Hg Hte Hc. cbv zeta.
  destruct (serve_sent e He Hsock Hpre (m_iters e) sup_lb_init [] m (ok_stop e He) (ok_reads e He)
    ltac:(split; [done|unfold SUP_LB_MAX; cbn; lia]) Ht) as (m' & n & E & Hs & Hn).
  exists m', n. split; [exact E|]. split; [exact Hn|]. cbv zeta in Hs. rewrite Htr in Hs. cbn [datagrams omap list_omap app] in Hs.
  rewrite Hs. set (lines := line_events _). split; [apply relayed_understood|]. split.
  - rewrite <- (relayed_understood (take n lines)). unfold relayed. rewrite length_fmap.
    induction (take n lines) as [|x evs IH]; [done|]. cbn [omap list_omap]. destruct (relay_of x) as [cmd|] eqn:Ex; [|exact IH].
    cbn [fmap list_fmap map omap list_omap length]. destruct (relay_understood x cmd Ex) as [_ ->].
    destruct x; try done; cbn [button length]; by rewrite IH.
  - intros Hd. split.
    + rewrite (requests_commands turns _ Hd (relayed_nonempty _)). apply relayed_understood.
    + destruct (control_loop_spec turns debounce_init [] 0 g table_ok_init (List.Forall_nil _) ltac:(lia) Hc Hg Hte)
        as (fs & l & g' & Ec & Hfs).
      exists fs, l, g'. split; [exact Ec|]. split; [exact Hfs|]. by eapply control_loop_carries.
Qed.

(** ** A session of three lines *)

Definition sample_session : mstate := mk_mst (mk_sup SUP_ACTIVE 1 100) false false (mk_fs ∅ 0) [].
Definition sample_turns : list turn :=
  [mk_turn [] None 50 Dacp.sample_env; mk_turn [] (Some (str "NEXT" ++ [10])) 100 Dacp.sample_env].

Lemma sample_main_is_ok : main_ok sample_main.
Proof.
  split.
  - apply Exists_cons_tl, Exists_cons_hd. reflexivity.
  - apply Exists_cons_tl, Exists_cons_hd. reflexivity.
  - apply Exists_cons_tl, Exists_cons_hd. reflexivity.
  - apply Exists_cons_tl, Exists_cons_tl, Exists_cons_tl, Exists_cons_hd. reflexivity.
  - repeat apply List.Forall_cons; try apply List.Forall_nil; cbn; lia || exact I.
Qed.

Lemma buttons_reach_sender_witness :
  exists m' fs last' g', serve sample_main (m_iters sample_main) sup_lb_init sample_session = Ret m' /\
    control_loop sample_turns debounce_init sample_state = Ret (fs, last', g') /\
    map fst fs = [(DACP_NEXTITEM, 100)] /\ Forall carries fs.
Proof.
  destruct (buttons_reach_sender sample_main sample_session sample_turns sample_state sample_main_is_ok eq_refl
    ltac:(cbn; lia) eq_refl eq_refl sample_state_ok) as (m' & n & E & _ & _ & _ & H).
  - repeat apply List.Forall_cons; try apply List.Forall_nil; exact sample_env_ok.
  - vm_compute. repeat split; discriminate.
  - assert (serve sample_main (m_iters sample_main) sup_lb_init sample_session = Ret m') as E' by exact E.
    destruct H as (_ & fs & l & g' & Ec & Hf & Hc).
    + rewrite <- (f_equal (fun r => match r with Ret m => datagrams (control_path (sup_prefix (m_pre sample_main))) (m_tr m) | _ => [] end) E').
      vm_compute. reflexivity.
    + exists m', fs, l, g'. split; [exact E'|]. split; [exact Ec|]. split; [exact Hf|exact Hc].
Defined.
