(* ===== verification/Nprender.v ===== *)
(** * The now-playing display worker ([src/nprender.c], [src/nprender.h])

    The render of one snapshot, and the worker thread interleaved with the threads
    that publish changes: every critical section, the debounce and the render are
    one action each. *)
From Stdlib Require Import ZArith Lia String.
From stdpp Require Import base numbers list gmap.
From S2P Require Import Prelude Rtp Daap Npstate Bodycap SupervisorMain.

Local Open Scope Z_scope.

(** ** One render *)

Section Render.
Context `{DM : DataModel} (d : disk).

(** [g_prefix] holds at most 399 bytes; a path at most [cap - 1]. *)
Definition g_prefix_of (prefix : option bytes) : bytes := take 399 (default [] prefix).
Definition path_for (g_prefix : bytes) (cap : nat) (name : bytes) : bytes :=
  take (cap - 1) (g_prefix ++ [47] ++ name).

Definition clean_byte (c : Z) : Z := if (c <? 32) || (c =? 127) then 32 else c.

(** The C string written, of a buffer of [cap] bytes. *)
Fixpoint sanitize_loop (n : nat) (src : bytes) : bytes :=
  match n, src with
  | S n', c :: t => if c =? 0 then [] else clean_byte c :: sanitize_loop n' t
  | _, _ => []
  end.
Definition sanitize_copy (cap : nat) (src : bytes) : bytes := sanitize_loop (cap - 1) src.

(** [fputs] and [fputc] write to a buffer that [fclose] empties: [stdio] is
  their result, which need not be that of the disk. *)
Definition write_state_file (stdio : bool) (path line : bytes) (f : fs) : bool * fs :=
  let '(ok, f) := sys_open d path f in
  if negb ok then (false, f)
  else let '(_, f) := sys_write d path (line ++ [10]) f in (stdio, f).

Inductive reap_op := RTerm | RKill.

(** A wait loop of [n] turns: [wait k] answers the [k]-th [waitpid] ([Some true]
  when the child is reaped, [None] for [EINTR]).  The next call, the number of
  naps, and whether the child was reaped. *)
Fixpoint reap_loop (n : nat) (wait : nat -> option bool) (k naps : nat) : nat * nat * bool :=
  match n with
  | O => (k, naps, false)
  | S n' =>
      match wait k with
      | Some true => (S k, naps, true)
      | None => reap_loop n' wait (S k) naps
      | Some false => reap_loop n' wait (S k) (S naps)
      end
  end.

Definition reap_bounded (wait : nat -> option bool) : nat * nat * list reap_op :=
  let '(k, naps, reaped) := reap_loop 250 wait 0 0 in
  if reaped then (k, naps, [])
  else
    let '(k, naps, reaped) := reap_loop 50 wait k naps in
    if reaped then (k, naps, [RTerm]) else (S k, naps, [RTerm; RKill]).

(** What a render meets. *)
Record render_env := mk_render {
  v_bin : option bytes;
  v_stdio : nat -> bool;
  v_spawn : bool;
  v_wait : nat -> option bool;
}.

Definition renderer_of (e : option bytes) : bytes :=
  match e with Some ((_ :: _) as r) => r | _ => str "/var/local/shairkindle/airplay-nowplaying" end.

Definition render_argv (v : render_env) (g_prefix mode : bytes) (snap : np_snapshot_t) : list bytes :=
  [renderer_of (v_bin v); mode; (if have_art snap then path_for g_prefix 512 (str "np-art.jpg") else []);
   path_for g_prefix 512 (str "np-title.txt"); path_for g_prefix 512 (str "np-artist.txt");
   path_for g_prefix 512 (str "np-album.txt")].

(** The C result, the command spawned, the signals sent to it, the files. *)
Definition do_render (v : render_env) (g_prefix mode : bytes) (snap : np_snapshot_t) (f : fs) :
    Z * option (list bytes) * list reap_op * fs :=
  let '(ok1, f) := write_state_file (v_stdio v 0) (path_for g_prefix 512 (str "np-title.txt"))
                     (sanitize_copy 129 (np_title snap)) f in
  if negb ok1 then (-1, None, [], f)
  else
    let '(ok2, f) := write_state_file (v_stdio v 1) (path_for g_prefix 512 (str "np-artist.txt"))
                       (sanitize_copy 129 (np_artist snap)) f in
    if negb ok2 then (-1, None, [], f)
    else
      let '(ok3, f) := write_state_file (v_stdio v 2) (path_for g_prefix 512 (str "np-album.txt"))
                         (sanitize_copy 129 (np_album snap)) f in
      if negb ok3 then (-1, None, [], f)
      else if negb (v_spawn v) then (-1, None, [], f)
      else
        let '(_, _, sig) := reap_bounded (v_wait v) in
        (0, Some (render_argv v g_prefix mode snap), sig, f).
End Render.

(** ** The worker *)

Inductive mode_t := SPLASH | FLASH | DRAW.

Section Worker.
Context `{DM : DataModel}.

Record worker_t := mk_worker {
  last_drawn_gen : Z;
  seen_gen : Z;
  seen_art_serial : Z;
  seen_playing : Z;
  last_layout : Z;
  last_have_art : Z;
}.

Definition worker_init : worker_t := mk_worker 0 ULONG_MAX 0 (-1) (-1) (-1).

Definition b2z (b : bool) : Z := if b then 1 else 0.

(** The render a snapshot calls for, if any. *)
Definition worker_mode (w : worker_t) (snap : np_snapshot_t) : option mode_t :=
  if (gen snap =? seen_gen w) && (art_serial snap =? seen_art_serial w) &&
     (b2z (playing snap) =? seen_playing w)
  then None
  else if negb (playing snap) then Some SPLASH
  else if negb (last_layout w =? 1) || negb (gen snap =? last_drawn_gen w) ||
          negb (b2z (have_art snap) =? last_have_art w)
       then Some FLASH else Some DRAW.

(** The worker's variables after a dispatched render. *)
Definition worker_commit (w : worker_t) (snap : np_snapshot_t) : worker_t :=
  if negb (playing snap) then
    mk_worker (last_drawn_gen w) (gen snap) (art_serial snap) (b2z (playing snap)) 0 (last_have_art w)
  else
    mk_worker (gen snap) (gen snap) (art_serial snap) (b2z (playing snap)) 1 (b2z (have_art snap)).

(** Where the worker is: waiting, in the debounce, about to take the snapshot,
  with a snapshot in hand, or gone. *)
Inductive pc_t := PWait | PSleep | PSnap | PDraw (snap : np_snapshot_t) | PDone.

(** The shared state and the worker; [r_unwoken] tells that a change has been
  published and its publisher has not called [nprender_wake] yet; [r_shown] is
  the snapshot last given to the renderer and [r_failed] whether the render
  called for last failed. *)
Record rstate := mk_rst {
  r_np : np_snapshot_t;
  r_unwoken : bool;
  r_dirty : bool;
  r_running : bool;
  r_pc : pc_t;
  r_w : worker_t;
  r_shown : option np_snapshot_t;
  r_failed : bool;
  r_ops : nat;
}.

Inductive raction :=
  | APublish (o : np_op)
  | AWake
  | AStop
  | ABegin
  | AClear
  | AGet
  | ARender (ok : bool)
  | AExit.

Definition r_init (paint_on_start : bool) : rstate :=
  mk_rst np_init false paint_on_start true PWait worker_init None false 0.

Definition set_pc (st : rstate) (pc : pc_t) : rstate :=
  mk_rst (r_np st) (r_unwoken st) (r_dirty st) (r_running st) pc (r_w st) (r_shown st) (r_failed st) (r_ops st).

Definition nprender_wake (st : rstate) : rstate :=
  mk_rst (r_np st) false true (r_running st) (r_pc st) (r_w st) (r_shown st) (r_failed st) (r_ops st).

Definition nprender_stop (st : rstate) : rstate :=
  mk_rst (r_np st) (r_unwoken st) true false (r_pc st) (r_w st) (r_shown st) (r_failed st) (r_ops st).

(** One action, when it is enabled. *)
Definition rstep (st : rstate) (a : raction) : option rstate :=
  match a with
  | APublish o =>
      Some (mk_rst (np_do (r_np st) o) true (r_dirty st) (r_running st) (r_pc st) (r_w st) (r_shown st)
              (r_failed st) (S (r_ops st)))
  | AWake => Some (nprender_wake st)
  | AStop => Some (nprender_stop st)
  | ABegin =>
      match r_pc st with
      | PWait => if r_dirty st && r_running st then Some (set_pc st PSleep) else None
      | _ => None
      end
  | AExit =>
      match r_pc st with
      | PWait => if negb (r_running st) then Some (set_pc st PDone) else None
      | _ => None
      end
  | AClear =>
      match r_pc st with
      | PSleep =>
          Some (mk_rst (r_np st) (r_unwoken st) false (r_running st) PSnap (r_w st) (r_shown st) (r_failed st) (r_ops st))
      | _ => None
      end
  | AGet => match r_pc st with PSnap => Some (set_pc st (PDraw (np_get (r_np st)))) | _ => None end
  | ARender ok =>
      match r_pc st with
      | PDraw snap =>
          match worker_mode (r_w st) snap with
          | None =>
              Some (mk_rst (r_np st) (r_unwoken st) (r_dirty st) (r_running st) PWait
                      (r_w st) (r_shown st) false (r_ops st))
          | Some _ =>
              if ok then
                Some (mk_rst (r_np st) (r_unwoken st) (r_dirty st) (r_running st) PWait
                        (worker_commit (r_w st) snap) (Some snap) false (r_ops st))
              else
                Some (mk_rst (r_np st) (r_unwoken st) (r_dirty st) (r_running st) PWait
                        (r_w st) (r_shown st) true (r_ops st))
          end
      | _ => None
      end
  end.

Fixpoint rrun (st : rstate) (l : list raction) : option rstate :=
  match l with
  | [] => Some st
  | a :: rest => match rstep st a with Some st' => rrun st' rest | None => None end
  end.
End Worker.

(** The environment override of the debounce. *)
Definition debounce_of (e : option bytes) : Z :=
  match e with
  | Some ((_ :: _) as s) => let v := atoi s in let v := if v <? 0 then 0 else v in if 10000 <? v then 10000 else v
  | _ => 300
  end.

(** [nprender_start]: the C result, and the worker's state if it is started.
    [dir] tells whether the prefix is a directory, [thread] whether the thread
    could be created. *)
Definition nprender_start `{DataModel} (prefix : option bytes) (dir thread paint_on_start : bool) : Z * option rstate :=
  match g_prefix_of prefix with
  | [] => (0, None)
  | _ => if negb dir then (0, None) else if negb thread then (-1, None) else (0, Some (r_init paint_on_start))
  end.

(** ** One render, bounded and clean *)

Lemma sanitize_loop_spec n src :
  (length (sanitize_loop n src) <= n)%nat /\
  Forall (fun c => c <> 0 /\ (c < 32 -> False) /\ c <> 127) (sanitize_loop n src).
Proof.
  revert src. induction n as [|n IH]; intros src; [by split; [cbn; lia|]|].
  destruct src as [|c src]; cbn [sanitize_loop]; [split; [cbn; lia|done]|].
  destruct (Z.eqb_spec c 0); [split; [cbn; lia|done]|]. destruct (IH src) as [H1 H2].
  split; [cbn; lia|]. constructor; [|done]. unfold clean_byte.
  destruct (Z.ltb_spec c 32), (Z.eqb_spec c 127); cbn [orb]; lia.
Qed.

(** A clean text of at most 128 bytes is kept as it is. *)
Lemma sanitize_copy_clean s :
  (length s <= 128)%nat -> Forall (fun c => 32 <= c /\ c <> 127) s -> sanitize_copy 129 s = s.
Proof.
  unfold sanitize_copy. change (129 - 1)%nat with 128%nat. generalize 128%nat. intros n Hl Hs.
  revert n Hl. induction Hs as [|c s [Hc1 Hc2] Hs IH]; intros [|n] Hl; cbn in *; try done; [lia|].
  destruct (Z.eqb_spec c 0); [lia|]. unfold clean_byte.
  rewrite (proj2 (Z.ltb_ge c 32)), (proj2 (Z.eqb_neq c 127)) by lia. cbn [orb]. by rewrite IH by lia.
Qed.

Lemma reap_loop_bound n wait k naps :
  let '(k', naps', _) := reap_loop n wait k naps in (k' <= k + n)%nat /\ (naps' <= naps + n)%nat.
Proof.
  revert k naps. induction n as [|n IH]; intros k naps; cbn [reap_loop]; [lia|].
  destruct (wait k) as [[|]|]; [lia| |].
  - specialize (IH (S k) (S naps)). destruct (reap_loop _ _ _ _) as [[k' n'] b]. lia.
  - specialize (IH (S k) naps). destruct (reap_loop _ _ _ _) as [[k' n'] b]. lia.
Qed.

(** The reap never takes more than 301 looks and 300 naps of 20 ms, and the
    signals it sends are SIGTERM, then SIGKILL. *)
Lemma reap_bounded_spec wait :
  let '(k, naps, sig) := reap_bounded wait in
  (k <= 301)%nat /\ (naps <= 300)%nat /\ (sig = [] \/ sig = [RTerm] \/ sig = [RTerm; RKill]).
Proof.
  unfold reap_bounded. pose proof (reap_loop_bound 250 wait 0 0) as H1.
  destruct (reap_loop 250 wait 0 0) as [[k naps] [|]]; [split_and!; auto; lia|].
  pose proof (reap_loop_bound 50 wait k naps) as H2.
  destruct (reap_loop 50 wait k naps) as [[k' naps'] [|]]; split_and!; auto; lia.
Qed.

(** One line of display text. *)
Definition display_line (s : bytes) : bytes := sanitize_copy 129 s ++ [10].

(** The disk takes whole lines. *)
Definition takes_all (d : disk) : Prop := forall f n, d_write d f n = n.

Lemma write_state_file_ok d stdio path line f f' :
  takes_all d -> write_state_file d stdio path line f = (true, f') ->
  files f' = <[path := line ++ [10]]> (files f).
Proof.
  intros Hd. unfold write_state_file, sys_open. destruct (d_open d f path); cbn [negb]; [|done].
  unfold sys_write. rewrite Hd. intros [= _ <-]. cbn [files]. rewrite lookup_insert_eq. cbn [default from_option id app].
  rewrite insert_insert_eq. by rewrite take_ge by lia.
Qed.

(** What a dispatched render has done. *)
Lemma do_render_files `{DataModel} d v g_prefix mode snap f argv sig f' :
  takes_all d -> (length g_prefix <= 399)%nat ->
  do_render d v g_prefix mode snap f = (0, Some argv, sig, f') ->
  let path name := g_prefix ++ [47] ++ str name in
  argv = [renderer_of (v_bin v); mode; (if have_art snap then path "np-art.jpg"%string else []);
          path "np-title.txt"%string; path "np-artist.txt"%string; path "np-album.txt"%string] /\
  files f' = <[path "np-album.txt"%string := display_line (np_album snap)]>
              (<[path "np-artist.txt"%string := display_line (np_artist snap)]>
                (<[path "np-title.txt"%string := display_line (np_title snap)]> (files f))) /\
  (sig = [] \/ sig = [RTerm] \/ sig = [RTerm; RKill]).
Proof.
  intros Hd Hp. cbv zeta.
  assert (forall name, (length (str name) <= 20)%nat -> path_for g_prefix 512 (str name) = g_prefix ++ [47] ++ str name) as Hpath.
  { intros name Hn. unfold path_for. rewrite take_ge; [done|]. rewrite !length_app. cbn [length]. lia. }
  unfold do_render, render_argv. rewrite !Hpath by (cbn; lia).
  destruct (write_state_file _ _ _ (sanitize_copy 129 (np_title snap)) f) as [[|] f1] eqn:E1; cbn [negb]; [|done].
  destruct (write_state_file _ _ _ (sanitize_copy 129 (np_artist snap)) f1) as [[|] f2] eqn:E2; cbn [negb]; [|done].
  destruct (write_state_file _ _ _ (sanitize_copy 129 (np_album snap)) f2) as [[|] f3] eqn:E3; cbn [negb]; [|done].
  destruct (v_spawn v); cbn [negb]; [|done]. pose proof (reap_bounded_spec (v_wait v)) as Hr.
  destruct (reap_bounded (v_wait v)) as [[k naps] sg]. intros [= <- <- <-].
  apply write_state_file_ok in E1, E2, E3; [|done..]. split_and!.
  - by destruct (have_art snap).
  - rewrite E3, E2, E1. done.
  - apply Hr.
Qed.

(** A line is short and holds no control character. *)
Lemma display_line_clean s :
  (length (display_line s) <= 129)%nat /\ Forall (fun c => (c < 32 -> False) /\ c <> 127) (sanitize_copy 129 s).
Proof.
  unfold display_line, sanitize_copy. destruct (sanitize_loop_spec (129 - 1) s) as [H1 H2]. split.
  - rewrite length_app. cbn [length]. lia.
  - eapply Forall_impl; [exact H2|]. cbn. tauto.
Qed.

(** Text from the network reaches the display only as data.  When a render is
    dispatched, the command spawned is the same fixed list of paths for every
    title, artist and album; each text is in its own file, as one line of at most
    128 bytes without control characters; and if the command hangs it is signalled
    within bounded time. *)
Theorem do_render_clean `{DataModel} d v g_prefix mode snap f argv sig f' :
  takes_all d -> (length g_prefix <= 399)%nat ->
  do_render d v g_prefix mode snap f = (0, Some argv, sig, f') ->
  let path name := g_prefix ++ [47] ++ str name in
  argv = [renderer_of (v_bin v); mode; (if have_art snap then path "np-art.jpg"%string else []);
          path "np-title.txt"%string; path "np-artist.txt"%string; path "np-album.txt"%string] /\
  files f' = <[path "np-album.txt"%string := display_line (np_album snap)]>
              (<[path "np-artist.txt"%string := display_line (np_artist snap)]>
                (<[path "np-title.txt"%string := display_line (np_title snap)]> (files f))) /\
  (forall s, (length (display_line s) <= 129)%nat /\
     Forall (fun c => (c < 32 -> False) /\ c <> 127) (sanitize_copy 129 s)) /\
  (sig = [] \/ sig = [RTerm] \/ sig = [RTerm; RKill]).
Proof.
  intros Hd Hp Hr. apply do_render_files in Hr as (H1 & H2 & H3); [|done..]. split; [exact H1|]. split; [exact H2|].
  split; [exact display_line_clean|exact H3].
Qed.

Definition whole_disk : disk := mk_disk (fun _ _ => true) (fun _ n => n) (fun _ => true).
Definition sample_snap : np_snapshot_t := mk_np 3 1 (str "A$(x)" ++ [10]) (str "B") (str "C") false true.
Definition sample_render : render_env := mk_render None (fun _ => true) true (fun k => if (k =? 2)%nat then Some true else None).

Lemma do_render_clean_witness :
  exists argv sig f', do_render whole_disk sample_render (str "/p") (str "flash") sample_snap (mk_fs ∅ 0) = (0, Some argv, sig, f') /\
    argv = [str "/var/local/shairkindle/airplay-nowplaying"; str "flash"; []; str "/p/np-title.txt";
            str "/p/np-artist.txt"; str "/p/np-album.txt"] /\
    files f' = <[str "/p/np-album.txt" := display_line (str "C")]>
                (<[str "/p/np-artist.txt" := display_line (str "B")]>
                  (<[str "/p/np-title.txt" := display_line (str "A$(x)" ++ [10])]> ∅)).
Proof.
  destruct (do_render whole_disk sample_render (str "/p") (str "flash") sample_snap (mk_fs ∅ 0))
    as [[[rc argv] sig] f'] eqn:E.
  assert (rc = 0 /\ exists a, argv = Some a) as [-> [a ->]].
  { split; [change rc with (rc, argv, sig, f').1.1.1|change argv with (rc, argv, sig, f').1.1.2]; rewrite <- E;
      [reflexivity|eexists; reflexivity]. }
  destruct (@do_render_clean ilp32 whole_disk sample_render (str "/p") (str "flash") sample_snap (mk_fs ∅ 0) a sig f')
    as (H1 & H2 & _ & _); [done|cbn; lia|exact E|].
  exists a, sig, f'. split; [reflexivity|]. split; [exact H1|exact H2].
Defined.

(** ** Nothing published is lost *)

Section WorkerSpec.
Context `{DM : DataModel}.

Definition snap_ok (s : np_snapshot_t) : Prop :=
  0 <= gen s < 2 ^ long_bits /\ 0 <= art_serial s < 2 ^ long_bits.

Definition key (s : np_snapshot_t) : Z * Z * bool := (gen s, art_serial s, playing s).
Definition texts (s : np_snapshot_t) : bytes * bytes * bytes := (np_title s, np_artist s, np_album s).

Lemma ulong_range z : 0 <= ulong z < 2 ^ long_bits.
Proof. unfold ulong. apply Z.mod_pos_bound. destruct long_bits_ok as [-> | ->]; done. Qed.

Lemma ulong_add z a b : ulong (ulong (z + a) + b) = ulong (z + (a + b)).
Proof. unfold ulong. rewrite Zplus_mod_idemp_l. f_equal. lia. Qed.

Lemma ulong_small z : 0 <= z < 2 ^ long_bits -> ulong z = z.
Proof. intros. by apply Z.mod_small. Qed.

Lemma np_do_ok s o : snap_ok s -> snap_ok (np_do s o).
Proof.
  intros [H1 H2]. unfold snap_ok. destruct o; cbn; unfold np_publish_meta; try case_match; cbn;
    repeat split; try apply ulong_range; try apply H1; apply H2.
Qed.

(** What some operations do: the counters advance by the number of changes. *)
Lemma np_ops_effect s ops :
  snap_ok s ->
  exists a b, 0 <= a <= Z.of_nat (length ops) /\ 0 <= b <= Z.of_nat (length ops) /\
    let s' := foldl np_do s ops in
    gen s' = ulong (gen s + a) /\ art_serial s' = ulong (art_serial s + b) /\
    (a = 0 -> texts s' = texts s) /\ (a = 0 -> b = 0 -> have_art s' = have_art s).
Proof.
  intros [Hg Ha]. induction ops as [|o ops IH] using rev_ind.
  { exists 0, 0. cbn. rewrite !Z.add_0_r, !ulong_small by done. by split_and!. }
  destruct IH as (a & b & A & B & E1 & E2 & E3 & E4). cbv zeta in *. rewrite foldl_app. cbn [foldl].
  set (s' := foldl np_do s ops) in *. rewrite length_app. cbn [length].
  assert (exists a' b', 0 <= a' <= 1 /\ 0 <= b' <= 1 /\ gen (np_do s' o) = ulong (gen s' + a') /\
    art_serial (np_do s' o) = ulong (art_serial s' + b') /\
    (a' = 0 -> texts (np_do s' o) = texts s') /\
    (a' = 0 -> b' = 0 -> have_art (np_do s' o) = have_art s')) as (a' & b' & A' & B' & F1 & F2 & F3 & F4).
  { assert (ulong (gen s' + 0) = gen s' /\ ulong (art_serial s' + 0) = art_serial s') as [Z1 Z2].
    { rewrite !Z.add_0_r, E1, E2. split; apply ulong_small, ulong_range. }
    destruct o; cbn [np_do].
    - unfold np_publish_meta. case_match; [exists 1, 0|exists 0, 0]; cbn; split_and!; done || lia.
    - exists 0, 1. cbn. split_and!; done || lia.
    - exists 0, 0. cbn. split_and!; done || lia.
    - exists 1, 0. cbn. split_and!; done || lia. }
  exists (a + a'), (b + b'). split; [lia|]. split; [lia|].
  rewrite F1, F2, E1, E2, !ulong_add. split_and!; try done.
  - intros H. rewrite F3, E3 by lia. done.
  - intros H1 H2. rewrite F4, E4 by lia. done.
Qed.

Lemma ulong_inj z a : 0 <= z < 2 ^ long_bits -> 0 <= a < 2 ^ long_bits -> ulong (z + a) = z -> a = 0.
Proof.
  intros Hz Ha H. unfold ulong in H. set (M := 2 ^ long_bits) in *.
  destruct (Z.lt_ge_cases (z + a) M).
  - rewrite Z.mod_small in H by lia. lia.
  - assert ((z + a) mod M = z + a - M) by (symmetry; apply (Z.mod_unique _ _ 1); lia). lia.
Qed.

(** Fewer operations than the counters hold that leave the key alone leave the
    whole snapshot alone. *)
Lemma np_same s ops :
  snap_ok s -> Z.of_nat (length ops) < 2 ^ long_bits -> gen (foldl np_do s ops) = gen s ->
  texts (foldl np_do s ops) = texts s /\
  (art_serial (foldl np_do s ops) = art_serial s -> have_art (foldl np_do s ops) = have_art s).
Proof.
  intros Hs Hl Hg. destruct (np_ops_effect s ops Hs) as (a & b & A & B & E1 & E2 & E3 & E4). cbv zeta in *.
  assert (a = 0) as -> by (apply (ulong_inj (gen s)); [apply Hs|lia|congruence]).
  split; [by apply E3|]. intros Ha. apply E4; [done|].
  apply (ulong_inj (art_serial s)); [apply Hs|lia|congruence].
Qed.

Lemma np_same_key s ops :
  snap_ok s -> Z.of_nat (length ops) < 2 ^ long_bits -> key (foldl np_do s ops) = key s ->
  foldl np_do s ops = s.
Proof.
  intros Hs Hl [= H1 H2 H3]. destruct (np_same s ops Hs Hl H1) as [Ht Ha]. specialize (Ha H2).
  destruct (foldl np_do s ops), s. unfold texts in Ht. cbn in *. congruence.
Qed.

(** [after n a b]: [b] comes from [a] by at most [n] operations. *)
Definition after (n : nat) (a b : np_snapshot_t) : Prop :=
  snap_ok a /\ exists ops, b = foldl np_do a ops /\ (length ops <= n)%nat.

Lemma after_refl n a : snap_ok a -> after n a a.
Proof. intros H. split; [done|]. exists []. split; [done|cbn; lia]. Qed.

Lemma after_step n a b o : after n a b -> after (S n) a (np_do b o).
Proof.
  intros [H (ops & -> & Hl)]. split; [done|]. exists (ops ++ [o]). rewrite foldl_app, length_app. cbn. split; [done|lia].
Qed.

Lemma after_mono n a b : after n a b -> after (S n) a b.
Proof. intros [H (ops & -> & Hl)]. split; [done|]. exists ops. split; [done|lia]. Qed.

Lemma foldl_ok s ops : snap_ok s -> snap_ok (foldl np_do s ops).
Proof. revert s. induction ops as [|o ops IH]; intros s Hs; [done|]. by apply IH, np_do_ok. Qed.

(** The worker's variables describe what is shown. *)
Definition describes (w : worker_t) (shown : option np_snapshot_t) : Prop :=
  match shown with
  | None => seen_playing w = -1 /\ last_layout w = -1
  | Some s =>
      seen_gen w = gen s /\ seen_art_serial w = art_serial s /\ seen_playing w = b2z (playing s) /\
      if playing s then last_layout w = 1 /\ last_drawn_gen w = gen s /\ last_have_art w = b2z (have_art s)
      else last_layout w = 0
  end.

Definition linked (n : nat) (shown : option np_snapshot_t) (s : np_snapshot_t) : Prop :=
  match shown with Some s0 => after n s0 s | None => True end.

Definition rinv (paint : bool) (st : rstate) : Prop :=
  snap_ok (r_np st) /\ describes (r_w st) (r_shown st) /\ linked (r_ops st) (r_shown st) (r_np st) /\
  match r_pc st with
  | PDraw s =>
      after (r_ops st) s (r_np st) /\ linked (r_ops st) (r_shown st) s /\
      (r_unwoken st = true \/ r_dirty st = true \/ s = r_np st)
  | PWait =>
      r_unwoken st = true \/ r_dirty st = true \/ r_failed st = true \/ r_shown st = Some (r_np st) \/
      (paint = false /\ r_ops st = 0%nat)
  | _ => True
  end.

Lemma linked_step n shown s o : linked n shown s -> linked (S n) shown (np_do s o).
Proof. destruct shown; [apply after_step|done]. Qed.

Lemma linked_mono n shown s : linked n shown s -> linked (S n) shown s.
Proof. destruct shown; [apply after_mono|done]. Qed.

Lemma commit_describes w s : describes (worker_commit w s) (Some s).
Proof. unfold worker_commit. destruct (playing s) eqn:E; cbn; rewrite ?E; by split_and!. Qed.

(** A snapshot that calls for no render is the one shown. *)
Lemma no_render_shown n w shown s :
  describes w shown -> linked n shown s -> Z.of_nat n < 2 ^ long_bits -> worker_mode w s = None ->
  shown = Some s.
Proof.
  intros Hd Hl Hn. unfold worker_mode. destruct (_ && _) eqn:E; [|by repeat case_match]. intros _.
  apply andb_true_iff in E as [[E1 E2]%andb_true_iff E3]. apply Z.eqb_eq in E1, E2, E3.
  destruct shown as [s0|]; cbn in Hd.
  - destruct Hd as (D1 & D2 & D3 & _). destruct Hl as [Hok (ops & -> & Hlen)]. f_equal. symmetry.
    apply np_same_key; [done|lia|]. unfold key.
    assert (playing (foldl np_do s0 ops) = playing s0) as ->
      by (rewrite D3 in E3; by destruct (playing (foldl np_do s0 ops)), (playing s0)).
    congruence.
  - destruct Hd as [D1 _]. rewrite D1 in E3. by destruct (playing s).
Qed.

Lemma rstep_inv paint st a st' :
  rinv paint st -> rstep st a = Some st' -> Z.of_nat (r_ops st') < 2 ^ long_bits -> rinv paint st'.
Proof.
  intros (Hok & Hd & Hl & Hpc) Hs Hn. destruct a; cbn [rstep] in Hs.
  - injection Hs as <-. split_and!; cbn; [by apply np_do_ok|done|by apply linked_step|].
    destruct (r_pc st); try done; [by left|]. destruct Hpc as (P1 & P2 & _).
    split_and!; [by apply after_step|by apply linked_mono|by left].
  - injection Hs as <-. split_and!; cbn; try done. destruct (r_pc st); try done; [by right; left|].
    destruct Hpc as (P1 & P2 & _). split_and!; try done. by right; left.
  - injection Hs as <-. split_and!; cbn; try done. destruct (r_pc st); try done; [by right; left|].
    destruct Hpc as (P1 & P2 & _). split_and!; try done. by right; left.
  - destruct (r_pc st); try done. destruct (_ && _); [|done]. by injection Hs as <-.
  - destruct (r_pc st); try done. by injection Hs as <-.
  - destruct (r_pc st); try done. injection Hs as <-. split_and!; cbn; try done; by auto using after_refl.
  - destruct (r_pc st) as [| | |s|] eqn:Epc; try done. destruct Hpc as (P1 & P2 & P3).
    destruct (worker_mode (r_w st) s) as [m|] eqn:Em.
    + destruct ok; injection Hs as <-; split_and!; cbn; try done.
      * apply commit_describes.
      * destruct P3 as [|[|P3]]; [by left|by right; left|]. right; right; right; left. by rewrite P3.
      * right; right; by left.
    + injection Hs as <-. split_and!; cbn; try done. cbn in Hn.
      pose proof (no_render_shown _ _ _ _ Hd P2 Hn Em) as Hsh.
      destruct P3 as [|[|P3]]; [by left|by right; left|]. right; right; right; left. congruence.
  - destruct (r_pc st); try done. destruct (negb _); [|done]. by injection Hs as <-.
Qed.

Lemma rstep_ops st a st' : rstep st a = Some st' -> (r_ops st <= r_ops st')%nat.
Proof. destruct a; cbn [rstep]; repeat case_match; intros [= <-]; cbn; lia. Qed.

Lemma rrun_inv paint st l st' :
  rinv paint st -> rrun st l = Some st' -> Z.of_nat (r_ops st') < 2 ^ long_bits -> rinv paint st'.
Proof.
  revert st. induction l as [|a l IH]; intros st Hi Hr Hn; [by injection Hr as <-|]. cbn [rrun] in Hr.
  destruct (rstep st a) as [st1|] eqn:E; [|done]. apply (IH st1); [|done|done].
  eapply rstep_inv; [done|done|].
  assert (forall st1 l, rrun st1 l = Some st' -> (r_ops st1 <= r_ops st')%nat) as Hmono.
  { clear. intros st1 l. revert st1. induction l as [|a l IH]; intros st1; [by intros [= <-]|]. cbn [rrun].
    destruct (rstep st1 a) eqn:E; [|done]. intros H. apply rstep_ops in E. etransitivity; [exact E|by apply IH]. }
  pose proof (Hmono _ _ Hr). lia.
Qed.

Lemma r_init_inv paint : rinv paint (r_init paint).
Proof.
  assert (0 < 2 ^ long_bits) by (destruct long_bits_ok as [-> | ->]; done).
  split_and!; cbn; try done; try lia. destruct paint; [by right; left|]. do 4 right. done.
Qed.

(** A worker that waits with nothing to do has shown the state. *)
Lemma waits_shown paint l st : rrun (r_init paint) l = Some st -> Z.of_nat (r_ops st) < 2 ^ long_bits ->
  r_pc st = PWait -> r_unwoken st = false -> r_dirty st = false -> r_failed st = false ->
  paint = true \/ (0 < r_ops st)%nat -> r_shown st = Some (r_np st).
Proof.
  intros Hr Hn Hw Hu Hdi Hf Hp. destruct (rrun_inv paint _ _ _ (r_init_inv paint) Hr Hn) as (_ & _ & _ & Hpc).
  rewrite Hw, Hu, Hdi, Hf in Hpc. destruct Hpc as [|[|[|[|[-> H0]]]]]; try done. destruct Hp as [|]; [done|lia].
Qed.

(** C21: the display shows the current track.  In every interleaving of the
    publishing threads with the worker (of fewer operations than the counters
    hold), when the worker waits and no change is still to be announced, the
    snapshot last rendered is the current state itself, unless that render
    failed; a render skipped as redundant would have shown what is on the
    screen; and the light redraw that does not flash is used only over a card
    with the same texts and the same cover state. *)
Theorem nprender_shows_current paint l st :
  rrun (r_init paint) l = Some st -> Z.of_nat (r_ops st) < 2 ^ long_bits ->
  (r_pc st = PWait -> r_unwoken st = false -> r_dirty st = false -> r_failed st = false ->
     paint = true \/ (0 < r_ops st)%nat -> r_shown st = Some (r_np st)) /\
  (forall snap, r_pc st = PDraw snap ->
     (worker_mode (r_w st) snap = None -> r_shown st = Some snap) /\
     (worker_mode (r_w st) snap = Some DRAW ->
        exists s0, r_shown st = Some s0 /\ playing s0 = true /\ playing snap = true /\
          texts s0 = texts snap /\ have_art s0 = have_art snap)).
Proof.
  intros Hr Hn. destruct (rrun_inv paint _ _ _ (r_init_inv paint) Hr Hn) as (Hok & Hd & Hl & Hpc). split.
  - by apply (waits_shown paint l).
  - intros snap Epc. rewrite Epc in Hpc. destruct Hpc as (P1 & P2 & _). split.
    + by apply (no_render_shown (r_ops st)).
    + unfold worker_mode. destruct (_ && _); [done|]. destruct (playing snap) eqn:Epl; cbn [negb]; [|done].
      destruct (_ || _) eqn:E; [done|]. intros _.
      apply orb_false_iff in E as [[E1 E2]%orb_false_iff E3]. apply negb_false_iff, Z.eqb_eq in E1, E2, E3.
      destruct (r_shown st) as [s0|]; cbn in Hd; [|destruct Hd; lia].
      destruct Hd as (_ & _ & _ & Hd). destruct (playing s0) eqn:Ep0; [|lia].
      destruct Hd as (_ & D2 & D3). exists s0. destruct P2 as [Hs0 (ops & -> & Hlen)].
      destruct (np_same s0 ops Hs0 ltac:(lia) ltac:(congruence)) as [Ht _].
      split_and!; try done. rewrite D3 in E3. by destruct (have_art s0), (have_art (foldl np_do s0 ops)).
Qed.
End WorkerSpec.

Definition sample_actions : list raction :=
  [ABegin; AClear; AGet; ARender true; APublish (NpPlaying 1); APublish (NpMeta (mk_meta (str "T") (str "A") (str "B")));
   AWake; ABegin; APublish NpArt; AClear; AWake; AGet; ARender true; ABegin; AClear; AGet; ARender true].

Lemma nprender_shows_current_witness :
  exists st, rrun (DM := ilp32) (r_init (DM := ilp32) true) sample_actions = Some st /\ r_shown st = Some (r_np st) /\
    np_title (r_np st) = str "T" /\ have_art (r_np st) = true.
Proof.
  destruct (rrun (DM := ilp32) (r_init (DM := ilp32) true) sample_actions) as [st|] eqn:E; [|vm_compute in E; discriminate E].
  assert (r_ops st = 3%nat /\ r_pc st = PWait /\ r_unwoken st = false /\ r_dirty st = false /\
    r_failed st = false /\ np_title (r_np st) = str "T" /\ have_art (r_np st) = true)
    as (H1 & H2 & H3 & H4 & H5 & H6 & H7) by (vm_compute in E; injection E as <-; repeat split).
  destruct (@nprender_shows_current ilp32 true sample_actions st E) as [H _].
  - rewrite H1. reflexivity.
  - exists st. split; [reflexivity|]. split; [|split; [exact H6|exact H7]].
    apply H; [exact H2|exact H3|exact H4|exact H5|left; reflexivity].
Defined.

(** ** The worker on its own *)

(** What an action of the publishers is: a change, or a wake [None]. *)
Definition published (a : raction) : option (option np_op) :=
  match a with APublish o => Some (Some o) | AWake => Some None | _ => None end.

(** A step the worker takes by itself, its renders succeeding. *)
Definition own_step (a : raction) : Prop :=
  match a with ABegin | AClear | AGet | ARender true => True | _ => False end.

Section WorkerRuns.
Context `{DM : DataModel}.

Lemma rrun_app st l1 l2 st1 : rrun st l1 = Some st1 -> rrun st (l1 ++ l2) = rrun st1 l2.
Proof.
  revert st. induction l1 as [|a l1 IH]; intros st; cbn [rrun app]; [by intros [= ->]|].
  destruct (rstep st a); [apply IH|done].
Qed.

(** The state published is what the changes made of it. *)
Lemma rrun_published st l st' : rrun st l = Some st' ->
  let evs := omap published l in
  r_np st' = foldl np_do (r_np st) (omap id evs) /\ r_ops st' = (r_ops st + length (omap id evs))%nat /\
  r_unwoken st' = match last evs with Some (Some _) => true | Some None => false | None => r_unwoken st end.
Proof.
  cbn zeta. revert st' . induction l as [|a l IH] using rev_ind; intros st'; [intros [= <-]; cbn; split_and!; done || lia|].
  intros Hr. destruct (rrun st l) as [st1|] eqn:E.
  2:{ exfalso. clear IH. revert st E Hr. induction l as [|b l IH]; intros st; cbn [rrun app]; [done|].
      destruct (rstep st b); [apply IH|done]. }
  rewrite (rrun_app _ _ _ _ E) in Hr. cbn [rrun] in Hr. destruct (rstep st1 a) as [st2|] eqn:Es; [|done]. injection Hr as <-.
  destruct (IH st1 eq_refl) as (H1 & H2 & H3). rewrite !omap_app, foldl_app, length_app, last_app.
  assert (published a = None -> r_np st2 = r_np st1 /\ r_ops st2 = r_ops st1 /\ r_unwoken st2 = r_unwoken st1) as Hq.
  { intros Hp. destruct a; try done; cbn [rstep] in Es; repeat case_match; by simplify_eq. }
  destruct a as [o| | | | | |ok|]; try (destruct (Hq eq_refl) as (-> & -> & ->); cbn; split_and!; done || lia).
  - injection Es as <-. cbn. rewrite H1, H2. split_and!; done || lia.
  - injection Es as <-. cbn. rewrite H1, H2. split_and!; done || lia.
Qed.

Lemma changes_length (l : list (option np_op)) : (length (omap id l) <= length l)%nat.
Proof. induction l as [|[o|] l IH]; cbn in *; lia. Qed.

(** The worker leaves its loop only after a stop. *)
Lemma rrun_done st l st' : (r_pc st = PDone -> r_running st = false) -> rrun st l = Some st' ->
  r_pc st' = PDone -> r_running st' = false.
Proof.
  revert st. induction l as [|a l IH]; intros st H0; cbn [rrun]; [by intros [= <-]|].
  destruct (rstep st a) as [st1|] eqn:E; [|done]. apply IH. clear IH.
  destruct a; cbn [rstep] in E; repeat case_match; simplify_eq; cbn; try done; try tauto.
  intros _. by apply negb_true_iff.
Qed.

Lemma own_published l : Forall own_step l -> omap published l = [].
Proof. induction 1 as [|a l Ha _ IH]; [done|]. by destruct a as [| | | | | |[]|]. Qed.

(** A render that succeeds puts the worker back to its wait. *)
Lemma rendered st s : r_pc st = PDraw s ->
  exists st', rstep st (ARender true) = Some st' /\ r_pc st' = PWait /\ r_dirty st' = r_dirty st /\
    r_running st' = r_running st /\ r_failed st' = false.
Proof. intros E. cbn [rstep]. rewrite E. destruct (worker_mode (r_w st) s); by eexists. Qed.

Definition settled (st : rstate) : Prop := r_pc st = PWait /\ r_dirty st = false /\ r_failed st = false.

(** From a wait with something to do. *)
Lemma dirty_settles st : r_pc st = PWait -> r_dirty st = true -> r_running st = true ->
  exists st', rrun st [ABegin; AClear; AGet; ARender true] = Some st' /\ settled st'.
Proof.
  intros E1 E2 E3.
  set (st1 := mk_rst (r_np st) (r_unwoken st) false (r_running st) (PDraw (np_get (r_np st))) (r_w st) (r_shown st)
    (r_failed st) (r_ops st)).
  assert (rrun st [ABegin; AClear; AGet] = Some st1) as Hr by (cbn [rrun rstep]; by rewrite E1, E2, E3).
  destruct (rendered st1 (np_get (r_np st)) eq_refl) as (st' & Hs & H1 & H2 & _ & H4).
  exists st'. split; [|by split]. change [ABegin; AClear; AGet; ARender true] with ([ABegin; AClear; AGet] ++ [ARender true]).
  rewrite (rrun_app _ _ _ _ Hr). cbn [rrun]. by rewrite Hs.
Qed.

Lemma drawn_settles st s : r_pc st = PDraw s -> r_running st = true ->
  exists l st', Forall own_step l /\ (length l <= 5)%nat /\ rrun st l = Some st' /\ settled st'.
Proof.
  intros E1 E2. destruct (rendered st s E1) as (st1 & Hs & H1 & H2 & H3 & H4). destruct (r_dirty st1) eqn:Ed.
  - destruct (dirty_settles st1 H1 Ed) as (st' & Hr & Hst); [congruence|].
    exists (ARender true :: [ABegin; AClear; AGet; ARender true]), st'. split; [by repeat constructor|]. split; [cbn; lia|].
    split; [|done]. cbn [rrun]. rewrite Hs. exact Hr.
  - exists [ARender true], st1. split; [by repeat constructor|]. split; [cbn; lia|]. cbn [rrun]. by rewrite Hs.
Qed.

(** Left to itself the worker settles within seven steps, unless it waits already,
    after a render that failed. *)
Lemma worker_settles st : r_running st = true -> (r_pc st = PDone -> r_running st = false) ->
  (r_pc st = PWait /\ r_dirty st = false /\ r_failed st = true) \/
  exists l st', Forall own_step l /\ (length l <= 7)%nat /\ rrun st l = Some st' /\ settled st'.
Proof.
  intros Hr Hd. destruct (r_pc st) as [| | |s|] eqn:Ep.
  - destruct (r_dirty st) eqn:Ed; [right|destruct (r_failed st) eqn:Ef; [by left|right]].
    + destruct (dirty_settles st Ep Ed Hr) as (st' & H1 & H2). eexists _, st'. split; [|split; [|by split]]; [by repeat constructor|cbn; lia].
    + exists [], st. split; [constructor|]. split; [cbn; lia|]. by split.
  - right. destruct (drawn_settles (mk_rst (r_np st) (r_unwoken st) false (r_running st) (PDraw (np_get (r_np st))) (r_w st)
      (r_shown st) (r_failed st) (r_ops st)) _ eq_refl Hr) as (l & st' & H1 & H2 & H3 & H4).
    exists (AClear :: AGet :: l), st'. split; [by repeat constructor|]. split; [cbn; lia|]. split; [|done].
    cbn [rrun]. unfold rstep at 1. rewrite Ep. exact H3.
  - right. destruct (drawn_settles (set_pc st (PDraw (np_get (r_np st)))) _ eq_refl Hr) as (l & st' & H1 & H2 & H3 & H4).
    exists (AGet :: l), st'. split; [by constructor|]. split; [cbn; lia|]. split; [|done].
    cbn [rrun]. unfold rstep at 1. rewrite Ep. exact H3.
  - right. destruct (drawn_settles st s Ep Hr) as (l & st' & H1 & H2 & H3). exists l, st'. split; [done|]. split; [lia|done].
  - specialize (Hd eq_refl). congruence.
Qed.
End WorkerRuns.
