(* ===== verification/AlacShim.v ===== *)
(** * The decoder shim ([src/alac_shim.c], [src/alac_shim.h])

    The vendored ALAC decoder is a parameter; the buffers around it are modelled
    with their capacities, the scratch buffer with what the previous frames left
    in it. *)
From Stdlib Require Import ZArith Lia.
From stdpp Require Import base numbers list.
From S2P Require Import Prelude.

Local Open Scope Z_scope.

(** The decoder: creation, which may fail, the cookie, and one frame: the new
    state, the bytes written from the start of the output buffer and the size
    reported, which need not agree. *)
Record alac_lib (A : Type) := mk_alac_lib {
  alac_create : Z -> Z -> option A;
  alac_set_info : A -> bytes -> A;
  alac_decode_frame : A -> bytes -> A * bytes * Z;
}.
Arguments alac_create {A}.
Arguments alac_set_info {A}.
Arguments alac_decode_frame {A}.

Section Shim.
Context {A : Type} (lib : alac_lib A).

Record alac_dec := mk_dec {
  d_alac : A;
  d_channels : Z;
  d_frame_samples : Z;
  d_sample_bytes : Z;
  d_expected_tag : Z;
  d_maxframe : Z;
  d_tmp : bytes;          (* what the frames so far have written to [tmp] *)
}.

(** [mem] tells whether the three allocations succeed. *)
Definition alac_open (mem : bool) (frame_samples sample_size channels : Z) (magic_cookie : bytes) :
    option alac_dec :=
  if (negb (channels =? 1) && negb (channels =? 2)) || (length magic_cookie <? 48)%nat then None
  else if negb mem then None
  else
    match alac_create lib sample_size channels with
    | None => None
    | Some al =>
        let bytes_per := Z.quot sample_size 8 in
        Some (mk_dec (alac_set_info lib al magic_cookie) channels frame_samples bytes_per
                (if channels =? 2 then 1 else 0) (frame_samples * channels * bytes_per * 2 + 1024) [])
    end.

(** A buffer after [wrote] was stored at its start: what lies behind is stale. *)
Definition stored_over (wrote buf : bytes) : bytes := wrote ++ drop (length wrote) buf.

(** The scratch buffer: what the frames so far have left, and behind it the zeros of
    [calloc]. *)
Definition scratch (d : alac_dec) : bytes :=
  let n := Z.to_nat (d_maxframe d) in take n (d_tmp d ++ replicate n 0).

Lemma scratch_length d : length (scratch d) = Z.to_nat (d_maxframe d).
Proof. unfold scratch. rewrite length_take, length_app, length_replicate. lia. Qed.

(** The decoder afterwards and the samples stored in [out] as bytes, or [None]
    for -1; [cap] is the room of [out] in samples. *)
Definition alac_decode (d : alac_dec) (inp : bytes) (cap : Z) : run (alac_dec * option bytes) :=
  match inp with
  | [] => Ret (d, None)
  | b0 :: _ =>
      if negb (Z.land (Z.shiftr b0 5) 7 =? d_expected_tag d) then Ret (d, None)
      else if d_maxframe d <? Z.of_nat (length inp) then Ret (d, None)
      else
        let! in_pad := put_sub (replicate (Z.to_nat (d_maxframe d)) 0) 0 inp in
        let '(al, wrote, outsize) := alac_decode_frame lib (d_alac d) in_pad in
        let d := mk_dec al (d_channels d) (d_frame_samples d) (d_sample_bytes d) (d_expected_tag d)
                   (d_maxframe d) (stored_over wrote (d_tmp d)) in
        if outsize <=? 0 then Ret (d, None)
        else
          let nsamples := Z.quot outsize 2 in
          if cap <? nsamples then Ret (d, None)
          else
            (* memcpy(out, d->tmp, outsize) *)
            let! tmp := rd_sub (scratch d) 0 (Z.to_nat outsize) in
            let! out := wr (Z.to_nat (2 * cap)) [] tmp in
            Ret (d, Some out)
  end.

(** What the model relies on: the decoder reports whole 16-bit samples. *)
Definition lib_ok : Prop := forall a inp, Z.even (alac_decode_frame lib a inp).2 = true.

(** A decoder of frames of [n] stereo or mono samples. *)
Definition dec_ok (d : alac_dec) (n : Z) : Prop := 0 <= n /\ d_maxframe d >= 4 * n.

Lemma alac_open_ok mem n channels cookie d :
  0 <= n -> alac_open mem n 16 channels cookie = Some d -> dec_ok d n.
Proof.
  intros Hn. unfold alac_open. destruct (Z.eqb_spec channels 1) as [->|]; cbn [negb andb orb].
  - destruct (_ <? 48)%nat; [done|]. destruct mem; cbn [negb]; [|done].
    destruct (alac_create lib 16 1); [|done]. intros [= <-]. unfold dec_ok. cbn [d_maxframe]. change (Z.quot 16 8) with 2. lia.
  - destruct (Z.eqb_spec channels 2) as [->|]; cbn [negb orb]; [|done].
    destruct (_ <? 48)%nat; [done|]. destruct mem; cbn [negb]; [|done].
    destruct (alac_create lib 16 2); [|done]. intros [= <-]. unfold dec_ok. cbn [d_maxframe]. change (Z.quot 16 8) with 2. lia.
Qed.

(** Decoding never leaves a buffer, whatever the frame: the output buffer of two
    samples per frame sample and the scratch buffer are both large enough for
    what is accepted. *)
Lemma alac_decode_wp d n inp cap :
  lib_ok -> dec_ok d n -> 0 <= cap <= 2 * n ->
  wp (alac_decode d inp cap) (fun r =>
    dec_ok r.1 n /\
    match r.2 with
    | Some out => (0 < length out)%nat /\ Z.of_nat (length out) <= 2 * cap /\ Z.even (Z.of_nat (length out)) = true
    | None => True
    end).
Proof.
  intros Hlib [Hn Hmax] Hcap. unfold alac_decode. destruct inp as [|b0 inp]; [done|].
  destruct (negb _); [done|]. destruct (Z.ltb_spec (d_maxframe d) (Z.of_nat (length (b0 :: inp)))) as [|Hlen]; [done|].
  assert (exists pad, put_sub (replicate (Z.to_nat (d_maxframe d)) 0) 0 (b0 :: inp) = Ret pad) as [pad ->].
  { unfold put_sub. rewrite (proj2 (Nat.leb_le _ _)); [eauto|]. rewrite length_replicate. cbn [length Nat.add] in *. lia. }
  cbn [rbind]. pose proof (Hlib (d_alac d) pad) as He.
  destruct (alac_decode_frame lib (d_alac d) pad) as [[al wrote] outsize]. cbn [snd] in He. cbv zeta.
  set (d' := mk_dec _ _ _ _ _ _ _). assert (dec_ok d' n) as Hd'.
  { split; done. }
  destruct (Z.leb_spec outsize 0); [done|].
  apply Z.even_spec in He as [m ->]. replace (2 * m) with (m * 2) by lia. rewrite Z.quot_mul by lia.
  destruct (Z.ltb_spec cap m); [done|].
  pose proof (scratch_length d') as Ht. set (t := scratch d') in *. cbn [d_maxframe d'] in Ht.
  wp_step. wp_step; [rewrite Ht; lia|].
  assert (length (sub t 0 (Z.to_nat (m * 2))) = Z.to_nat (m * 2)) as Hs by (apply sub_length; lia).
  wp_step. wp_step; [cbn [length]; lia|]. wp_step. cbn [fst snd app]. split; [done|]. rewrite Hs.
  split_and!; [lia|lia|]. rewrite Z2Nat.id by lia. apply Z.even_spec. exists m. lia.
Qed.
End Shim.
