(* ===== verification/Session.v ===== *)
(** * The session: shared state and operations ([src/session.c], [src/session.h])

    The state the receiver, the player and the RTSP thread share, the code they
    run on it, and the loop that pushes samples to the sink.  Each function here is
    the body of one critical section, or code between two of them;
    [SessionRun] interleaves them.  The decoder, the ciphers and the sink are
    parameters. *)
From Stdlib Require Import ZArith Lia.
From stdpp Require Import base numbers list option.
From S2P Require Import Prelude Seqext Jitter Clock Rtp B64 Sdp AlacShim.

Local Open Scope Z_scope.

Definition START_FILL_FRAMES : Z := 22050.
Definition PERIODIC_MS : Z := 200.
Definition TIMING_TIMEOUT_NS : Z := 3000000000.
Definition RX_DRAIN_BUDGET : nat := 64.
Definition MAX_BACKOFF_RETRIES : Z := 200.

(** ** State *)

(** The atomic counters [audio_pkts] and [dbg_*]. *)
Inductive stat :=
  | AUDIO_PKTS | DBG_POPS | DBG_DECODED | DBG_DECFAIL | DBG_SINKLAST | DBG_STARTED
  | DBG_SYNC | DBG_TREQ | DBG_TREP | DBG_TREJ | DBG_RESEND | DBG_OFF_MS.

#[export] Instance stat_eq_dec : EqDecision stat.
Proof. solve_decision. Defined.

Definition stats : Type := stat -> Z.
Definition stat_set (c : stat) (v : Z) (s : stats) : stats := fun c' => if decide (c' = c) then v else s c'.
Definition bump `{DataModel} (c : stat) (s : stats) : stats := stat_set c (ulong (s c + 1)) s.

(** What [session_start] records of the network. *)
Record net_t := mk_net {
  n_audio_fd : Z; n_control_fd : Z; n_timing_fd : Z;
  n_sender_ip : Z; n_sctrl : Z; n_stim : Z;
}.

(** The outstanding timing request. *)
Record timing_t := mk_timing { timing_t1_ns : Z; timing_token_ntp : Z; timing_outstanding : bool }.

(** The flags the threads poll. *)
Record flags_t := mk_flags { running : bool; sink_restart_pending : bool; threads_up : bool }.

(** The fill gate, the last flush boundary and the resync hysteresis. *)
Record play_t := mk_play {
  rx_count : Z; started : bool; boundary_ts : Z; flushed : bool; resync_hold : Z;
}.

(** [session_t]; the mutex and the thread handles are in the interleaving, the
    samples of [pcm] are local to the player. *)
Record session_t (A : Type) := mk_session {
  s_key : bytes;
  s_iv : bytes;
  s_dec : @alac_dec A;
  s_fpp : Z;
  s_gen : Z;
  s_jit : jitter_t;
  s_clk : raop_clock_t;
  s_net : net_t;
  s_flags : flags_t;
  s_stats : stats;
  s_timing : timing_t;
  s_play : play_t;
  s_sync : Z * Z;
  s_pcm_cap : option Z;   (* [None]: [pcm] is NULL *)
}.
Arguments mk_session {A}. Arguments s_key {A}. Arguments s_iv {A}. Arguments s_dec {A}.
Arguments s_fpp {A}. Arguments s_gen {A}. Arguments s_jit {A}. Arguments s_clk {A}.
Arguments s_net {A}. Arguments s_flags {A}. Arguments s_stats {A}. Arguments s_timing {A}.
Arguments s_play {A}. Arguments s_sync {A}. Arguments s_pcm_cap {A}.

(** Field updates. *)
Section Updates.
Context {A : Type} (s : session_t A).

Definition with_dec x : session_t A := mk_session (s_key s) (s_iv s) x (s_fpp s) (s_gen s) (s_jit s) (s_clk s) (s_net s) (s_flags s) (s_stats s) (s_timing s) (s_play s) (s_sync s) (s_pcm_cap s).
Definition with_gen x : session_t A := mk_session (s_key s) (s_iv s) (s_dec s) (s_fpp s) x (s_jit s) (s_clk s) (s_net s) (s_flags s) (s_stats s) (s_timing s) (s_play s) (s_sync s) (s_pcm_cap s).
Definition with_jit x : session_t A := mk_session (s_key s) (s_iv s) (s_dec s) (s_fpp s) (s_gen s) x (s_clk s) (s_net s) (s_flags s) (s_stats s) (s_timing s) (s_play s) (s_sync s) (s_pcm_cap s).
Definition with_clk x : session_t A := mk_session (s_key s) (s_iv s) (s_dec s) (s_fpp s) (s_gen s) (s_jit s) x (s_net s) (s_flags s) (s_stats s) (s_timing s) (s_play s) (s_sync s) (s_pcm_cap s).
Definition with_net x : session_t A := mk_session (s_key s) (s_iv s) (s_dec s) (s_fpp s) (s_gen s) (s_jit s) (s_clk s) x (s_flags s) (s_stats s) (s_timing s) (s_play s) (s_sync s) (s_pcm_cap s).
Definition with_flags x : session_t A := mk_session (s_key s) (s_iv s) (s_dec s) (s_fpp s) (s_gen s) (s_jit s) (s_clk s) (s_net s) x (s_stats s) (s_timing s) (s_play s) (s_sync s) (s_pcm_cap s).
Definition with_stats x : session_t A := mk_session (s_key s) (s_iv s) (s_dec s) (s_fpp s) (s_gen s) (s_jit s) (s_clk s) (s_net s) (s_flags s) x (s_timing s) (s_play s) (s_sync s) (s_pcm_cap s).
Definition with_timing x : session_t A := mk_session (s_key s) (s_iv s) (s_dec s) (s_fpp s) (s_gen s) (s_jit s) (s_clk s) (s_net s) (s_flags s) (s_stats s) x (s_play s) (s_sync s) (s_pcm_cap s).
Definition with_play x : session_t A := mk_session (s_key s) (s_iv s) (s_dec s) (s_fpp s) (s_gen s) (s_jit s) (s_clk s) (s_net s) (s_flags s) (s_stats s) (s_timing s) x (s_sync s) (s_pcm_cap s).
Definition with_sync x : session_t A := mk_session (s_key s) (s_iv s) (s_dec s) (s_fpp s) (s_gen s) (s_jit s) (s_clk s) (s_net s) (s_flags s) (s_stats s) (s_timing s) (s_play s) x (s_pcm_cap s).
Definition with_pcm_cap x : session_t A := mk_session (s_key s) (s_iv s) (s_dec s) (s_fpp s) (s_gen s) (s_jit s) (s_clk s) (s_net s) (s_flags s) (s_stats s) (s_timing s) (s_play s) (s_sync s) x.
End Updates.

Definition count `{DataModel} {A} (c : stat) (s : session_t A) : session_t A :=
  with_stats s (bump c (s_stats s)).

Definition set_running (b : bool) (f : flags_t) : flags_t :=
  mk_flags b (sink_restart_pending f) (threads_up f).
Definition set_restart (b : bool) (f : flags_t) : flags_t :=
  mk_flags (running f) b (threads_up f).
Definition set_threads_up (b : bool) (f : flags_t) : flags_t :=
  mk_flags (running f) (sink_restart_pending f) b.
Definition set_started (b : bool) (p : play_t) : play_t :=
  mk_play (rx_count p) b (boundary_ts p) (flushed p) (resync_hold p).
Definition set_hold (h : Z) (p : play_t) : play_t :=
  mk_play (rx_count p) (started p) (boundary_ts p) (flushed p) h.
Definition add_rx `{DataModel} (p : play_t) : play_t :=
  mk_play (slong (rx_count p + 1)) (started p) (boundary_ts p) (flushed p) (resync_hold p).

(** ** Clocks *)

(** [t] is the result of [times], [hz] that of [sysconf]. *)
Definition mono_ns (hz t : Z) : Z :=
  let hz := if hz <=? 0 then 100 else hz in
  u64 (u64 t * 1000000000) / hz.

(** ** The conceal deadline *)

(** At most 511 slots are looked at. *)
Fixpoint deadline_scan (fuel : nat) (j : jitter_t) (e last lim : Z) : bool :=
  match fuel with
  | O => false
  | S fuel' =>
      if (e <=? last) && (e <? lim) then
        if slot_received j e then true else deadline_scan fuel' j (e + 1) last lim
      else false
  end.

(** The conceal window in packets. *)
Definition deadline_pkts (fpp : Z) : Z :=
  let npkts := Z.quot START_FILL_FRAMES (if 0 <? fpp then fpp else 1) in
  if npkts <? 1 then 1 else npkts.

Definition session_deadline (j : jitter_t) (ext_seq : Z) : bool :=
  let last := u64 (ext_seq + deadline_pkts (frames_per_pkt j)) in
  deadline_scan (Z.to_nat JITTER_SLOTS) j (ext_seq + 1) last (u64 (ext_seq + JITTER_SLOTS)).

(** ** The receiver *)

Section Session.
Context `{DataModel} {A : Type} (lib : alac_lib A).
Context (oaep_decrypt : bytes -> option bytes) (aes_cbcdec : bytes -> bytes -> bytes -> bytes).
Context (hz : Z).

Abbreviation session := (session_t A).

(** The time the request leaves, and what [sendto] answers; the datagram sent. *)
Definition send_timing_request (s : session) (t : Z) (sendto : Z) : run (session * option bytes) :=
  let t1 := mono_ns hz t in
  let off := offset_ns (s_clk s) in
  let tok := ntp_from_ns t1 off in
  let! (r, req) := rtp_build_timing_request tok (replicate 32 0) in
  if negb (r =? 32) then Ret (s, None)
  else if rtp_sendto sendto <? 0 then Ret (s, None)
  else Ret (count DBG_TREQ (with_timing s (mk_timing t1 tok true)), Some req).

Definition session_reject_stale_audio (s : session) (rtptime : Z) : bool :=
  flushed (s_play s) && (s32 (rtptime - boundary_ts (s_play s)) <? 0).

(** The state, and whether the packet was taken into the buffer. *)
Definition rx_insert (s : session) (a : rtp_audio_t) (pl : bytes) : session * bool :=
  let s := count AUDIO_PKTS s in
  if session_reject_stale_audio s (rtptime a) then (s, false)
  else
    let '(j, r) := jitter_insert (s_jit s) (seq a) (rtptime a) pl in
    let s := with_jit s j in
    if r =? 0 then (with_play s (add_rx (s_play s)), true) else (s, false).

(** A packet read from [buf], with the payload its view denotes. *)
Definition rx_audio (s : session) (buf : bytes) : run (session * option (Z * bytes)) :=
  let! r := rtp_parse_audio buf in
  match r with
  | None => Ret (s, None)
  | Some a =>
      let! pl := rd_sub buf (payload a) (payload_len a) in
      let '(s, taken) := rx_insert s a pl in
      Ret (s, if taken then Some (rtptime a, pl) else None)
  end.

(** [t]: what [times] answers.  The second component is the packet inserted. *)
Definition rx_dispatch (s : session) (fd : Z) (buf : bytes) (t : Z) :
    run (session * option (Z * bytes)) :=
  if fd =? n_audio_fd (s_net s) then rx_audio s buf
  else if fd =? n_control_fd (s_net s) then
    let! (k, inner) := rtp_classify_control buf in
    match k with
    | CTRL_SYNC =>
        let s := count DBG_SYNC s in
        let! r := rtp_parse_sync buf in
        Ret (match r with Some (rtp_now, ntp_now) => with_sync s (rtp_now, ntp_now) | None => s end, None)
    | CTRL_RESEND_AUDIO =>
        match inner with
        | Some (o, l) => let! p := rd_sub buf o l in rx_audio s p
        | None => Ret (s, None)
        end
    | CTRL_UNKNOWN => Ret (s, None)
    end
  else if fd =? n_timing_fd (s_net s) then
    let '(mk_timing t1 token outstanding) := s_timing s in
    if negb outstanding then Ret (s, None)
    else
      let! r := rtp_parse_timing_reply buf in
      match r with
      | None => Ret (s, None)
      | Some (remote_ntp, origin_echo) =>
          if negb (origin_echo =? token) then Ret (count DBG_TREJ s, None)
          else
            let t4 := mono_ns hz t in
            let clk := clock_timing_reply (s_clk s) t1 remote_ntp t4 in
            let s := with_timing (with_clk s clk) (mk_timing t1 token false) in
            let s := count DBG_TREP s in
            Ret (with_stats s (stat_set DBG_OFF_MS (slong (Z.quot (offset_ns clk) 1000000)) (s_stats s)), None)
      end
  else Ret (s, None).

(** One turn of [rx_drain]: the datagram [rtp_recv] returned ([None]: nothing or
    an error) with its source; false ends the drain. *)
Definition rx_drain_one (s : session) (fd : Z) (got : option (Z * bytes)) (t : Z) :
    run (session * option (Z * bytes) * bool) :=
  match got with
  | None => Ret (s, None, false)
  | Some (from, buf) =>
      if negb (from =? n_sender_ip (s_net s)) then Ret (s, None, true)
      else
        let! (s, e) := rx_dispatch s fd buf t in
        Ret (s, e, true)
  end.

(** The resend scan of [rx_thread]; the datagram sent. *)
Definition rx_resend (s : session) : run (session * option bytes) :=
  match jitter_next_resend (s_jit s) with
  | None => Ret (s, None)
  | Some (from, to) =>
      let first := u16 from in
      let cnt := u16 (to - from + 1) in
      let! (n, r) := rtp_build_resend first cnt (replicate 8 0) in
      if n =? 8 then Ret (count DBG_RESEND s, Some r) else Ret (s, None)
  end.

(** The timeout of an unanswered timing request, and a fresh one if none is
    outstanding. *)
Definition rx_timing (s : session) (now : Z) (t sendto : Z) : run (session * option bytes) :=
  let tm := s_timing s in
  let s :=
    if timing_outstanding tm && (TIMING_TIMEOUT_NS <? u64 (now - timing_t1_ns tm))
    then with_timing s (mk_timing (timing_t1_ns tm) (timing_token_ntp tm) false) else s in
  if negb (timing_outstanding (s_timing s)) then send_timing_request s t sendto else Ret (s, None).

(** ** The player *)

(** The samples of [pcm] are bytes, two per sample.  [None] is -1; the samples
    decoded otherwise. *)
Definition session_decode_slot (s : session) (slot : jitter_slot_t) (cap : Z) :
    run (session * option bytes) :=
  let len := length (js_payload slot) in
  if (len =? 0)%nat || (JITTER_MAX_PAYLOAD <? Z.of_nat len) then Ret (s, None)
  else
    let buf := raop_aes_cbc_decrypt aes_cbcdec (s_key s) (s_iv s) (js_payload slot) in
    let! (d, r) := alac_decode lib (s_dec s) buf cap in
    Ret (with_dec s d, r).

(** What the critical section of [pl_thread] decides. *)
Inductive turn :=
  | TWait                                 (* poll again later *)
  | TSkip (g : Z)                         (* a resync: one period of silence *)
  | TSlot (slot : jitter_slot_t) (g : Z). (* a packet, or its concealment *)

Definition pl_pop (s : session) : session * turn :=
  let '(j, r) := jitter_pop (Some (session_deadline (s_jit s))) (s_jit s) in
  let g := s_gen s in
  match r with
  | Some slot => (with_jit s j, TSlot slot g)
  | None =>
      let s := with_jit s j in
      if resync_hold (s_play s) <=? 0 then
        let '(j, did) := jitter_try_resync (s_jit s) in
        let s := with_jit s j in
        match did with
        | Some _ => (with_play s (set_hold 64 (s_play s)), TSkip g)
        | None => (s, TWait)
        end
      else (s, TWait)
  end.

(** Between [pthread_mutex_lock] and [pthread_mutex_unlock]. *)
Definition pl_turn (s : session) : session * turn :=
  if started (s_play s) then pl_pop s
  else if START_FILL_FRAMES <=? slong (rx_count (s_play s) * s_fpp s) then
    let s := with_play s (set_started true (s_play s)) in
    pl_pop (with_stats s (stat_set DBG_STARTED 1 (s_stats s)))
  else (s, TWait).

(** [if (s->resync_hold > 0) s->resync_hold--]. *)
Definition pl_rearm (s : session) : session :=
  if 0 <? resync_hold (s_play s)
  then with_play s (set_hold (resync_hold (s_play s) - 1) (s_play s)) else s.

(** One period of silence. *)
Definition silence (s : session) : bytes :=
  let n := s_fpp s * 2 in
  let cap := default 0 (s_pcm_cap s) in
  replicate (Z.to_nat (2 * (if cap <? n then cap else n))) 0.

(** What follows the critical section: the samples to write, and whether their
    count goes to [dbg_sinklast]. *)
Definition pl_render (s : session) (t : turn) : run (session * option (bytes * Z * bool)) :=
  match t with
  | TWait => Ret (s, None)
  | TSkip g => Ret (s, Some (silence s, g, false))
  | TSlot slot g =>
      match js_kind slot with
      | POP_CONCEAL => Ret (s, Some (silence s, g, false))
      | POP_DATA =>
          let s := count DBG_POPS s in
          let! (s, r) := session_decode_slot s slot (default 0 (s_pcm_cap s)) in
          match r with
          | Some pcm => Ret (count DBG_DECODED s, Some (pcm, g, true))
          | None => Ret (count DBG_DECFAIL s, None)
          end
      end
  end.

End Session.

(** ** Pushing samples to the sink

    What one iteration of [session_sink_write_all] sees: the generation, whether a
    running session is being stopped, and the samples the sink accepts (negative
    for an error).  A sink accepts at most what it is offered. *)
Record sink_obs := mk_obs { o_gen : Z; o_threads_up : bool; o_running : bool; o_accept : Z }.

(** The tests at the head of the loop. *)
Definition write_check (o : sink_obs) (abort_gen : Z) : bool :=
  (o_gen o =? abort_gen) && negb (o_threads_up o && negb (o_running o)).

(** After [sink_write(pcm + off, n - off)]: where to go on, or [None]. *)
Definition write_put (accept n off retries : Z) : option (Z * Z) :=
  let accepted := Z.min accept (n - off) in
  if accepted <? 0 then None
  else if accepted =? 0 then
    if MAX_BACKOFF_RETRIES <? retries + 1 then None else Some (off, retries + 1)
  else Some (off + accepted, 0).

(** The loop, one observation per iteration: the samples committed and the
    chunks [(offset, accepted)] in order; [None] while it is still running when
    the observations end. *)
Fixpoint write_loop (obs : list sink_obs) (n off retries abort_gen : Z) : option (Z * list (Z * Z)) :=
  if n <=? off then Some (off, [])
  else
    match obs with
    | [] => None
    | o :: obs =>
        if write_check o abort_gen then
          match write_put (o_accept o) n off retries with
          | None => Some (off, [])
          | Some (off', retries') =>
              '(r, chunks) ← write_loop obs n off' retries' abort_gen;
              Some (r, if off' =? off then chunks else (off, off' - off) :: chunks)
          end
        else Some (off, [])
    end.

Definition session_sink_write_all (obs : list sink_obs) (n abort_gen : Z) : option (Z * list (Z * Z)) :=
  if n <=? 0 then Some (0, []) else write_loop obs n 0 0 abort_gen.

(** ** The RTSP thread's operations *)

Definition session_flush {A} (s : session_t A) (seq ts : Z) : session_t A :=
  let s := with_gen s (u32 (s_gen s + 1)) in
  let s := with_jit s (jitter_flush (s_jit s) seq ts) in
  let s := with_play s (mk_play 0 false ts true (resync_hold (s_play s))) in
  with_flags s (set_restart true (s_flags s)).

(** The distance from the cursor to the nearest received slot, -1 if none. *)
Fixpoint gap_scan (fuel : nat) (j : jitter_t) (k : Z) : Z :=
  match fuel with
  | O => -1
  | S fuel' =>
      if k <? JITTER_SLOTS then
        if slot_received j (u64 (play_cursor j + k)) then k else gap_scan fuel' j (k + 1)
      else -1
  end.

Definition gap_ahead (j : jitter_t) : Z := gap_scan (Z.to_nat JITTER_SLOTS) j 1.

Definition session_current_gen {A} (s : option (session_t A)) : Z :=
  match s with Some s => s_gen s | None => 0 end.
Definition session_audio_pkts {A} (s : option (session_t A)) : Z :=
  match s with Some s => s_stats s AUDIO_PKTS | None => 0 end.

(** The diagnostic snapshot: the session's counters, the cursor, the jitter
    buffer's counters, the gap, what the sink reports ([sink_respawns],
    [sink_queued_frames], [sink_driver_delay_frames]) and the time. *)
Record session_stats_t := mk_sstats {
  st_counters : stats; st_play_cursor : Z; st_jitter : list Z; st_gap_ahead : Z;
  st_respawns : Z; st_sw_queued : Z; st_drv_delay : Z; st_mono_ms : Z;
}.

Definition session_get_stats `{DataModel} {A} (hz : Z) (s : option (session_t A))
    (respawns queued delay t : Z) : session_stats_t :=
  match s with
  | None => mk_sstats (fun _ => 0) 0 [0; 0; 0; 0; 0; 0; 0] 0 0 0 0 0
  | Some s =>
      let j := s_jit s in
      mk_sstats (s_stats s) (ulong (play_cursor j))
        [dupes j; late j; lost j; concealed_count j; overwritten j; resync_count j; resync_skipped j]
        (gap_ahead j) respawns queued delay (ulong (mono_ns hz t / 1000000))
  end.

(** ** Lifecycle

    What the process holds outside the session: live decoders, the sink, heap
    blocks, threads, and the kernel's descriptors. *)
Record res_t := mk_res {
  r_dec : Z; r_sink : bool; r_heap : Z; r_threads : Z; r_kernel : kernel;
}.

Definition add_dec d r := mk_res (r_dec r + d) (r_sink r) (r_heap r) (r_threads r) (r_kernel r).
Definition put_sink b r := mk_res (r_dec r) b (r_heap r) (r_threads r) (r_kernel r).
Definition add_heap d r := mk_res (r_dec r) (r_sink r) (r_heap r + d) (r_threads r) (r_kernel r).
Definition add_threads d r := mk_res (r_dec r) (r_sink r) (r_heap r) (r_threads r + d) (r_kernel r).
Definition close_fd fd r := mk_res (r_dec r) (r_sink r) (r_heap r) (r_threads r) (sys_close fd (r_kernel r)).

(** The answers of the system to [session_create] and [session_start]. *)
Record start_env := mk_senv {
  e_alac_mem : bool;    (* the allocations of [alac_open] succeed *)
  e_sink_open : Z;      (* result of [sink_open] *)
  e_calloc : bool;
  e_malloc : bool;      (* the player's scratch buffer *)
  e_time : Z;
  e_sendto : Z;
  e_rx_create : bool;   (* [pthread_create] of the receiver *)
  e_pl_create : bool;
}.

Section Lifecycle.
Context `{DataModel} {A : Type} (lib : alac_lib A).
Context (oaep_decrypt : bytes -> option bytes) (hz : Z).

(** [calloc] zeroes the fields that are not set here. *)
Definition session_create (e : start_env) (sdp : raop_sdp_t) (r : res_t) : option (session_t A) * res_t :=
  match raop_oaep_unwrap_key oaep_decrypt (rsaaeskey sdp) with
  | None => (None, r)
  | Some key =>
      match alac_open lib (e_alac_mem e) (frame_length sdp) 16 (channels sdp) (cookie sdp) with
      | None => (None, r)
      | Some dec =>
          let r := add_dec 1 r in
          if negb (e_sink_open e =? 0) then (None, add_dec (-1) r)
          else
            let r := put_sink true r in
            if negb (e_calloc e) then (None, put_sink false (add_dec (-1) r))
            else
              (Some (mk_session key (aesiv sdp) dec (frame_length sdp) 0
                  (mk_jitter ring_zero (mk_seqext 0 0 false) 0 0 0 0 0 0 0 0 0 0 0)
                  (mk_clock 0 0 false false) (mk_net (-1) (-1) (-1) 0 0 0)
                  (mk_flags false false false) (fun _ => 0) (mk_timing 0 0 false)
                  (mk_play 0 false 0 false 0) (0, 0) None),
               add_heap 1 r)
      end
  end.

(** The result, the session and the first timing request sent. *)
Definition session_start (e : start_env) (s : session_t A) (socks : rtp_sockets_t) (seq ts : Z)
    (sender_ip_be sctrl stim : Z) (r : res_t) : run (Z * session_t A * option bytes * res_t) :=
  let s := with_net s (mk_net (audio_fd socks) (control_fd socks) (timing_fd socks) sender_ip_be sctrl stim) in
  if negb (e_malloc e) then Ret (-1, s, None, r)
  else
    let r := add_heap 1 r in
    let s := with_pcm_cap s (Some (s_fpp s * 2)) in
    let s := with_jit s (jitter_init (s_fpp s) seq ts) in
    let s := with_clk s clock_init in
    let p := s_play s in
    let s := with_play s (mk_play 0 false (boundary_ts p) (flushed p) (resync_hold p)) in
    let s := with_timing s (mk_timing 0 0 false) in
    let s := with_sync s (0, 0) in
    let s := with_flags s (set_running true (s_flags s)) in
    let! (s, req) := send_timing_request hz s (e_time e) (e_sendto e) in
    if negb (e_rx_create e) then
      Ret (-1, with_pcm_cap (with_flags s (set_running false (s_flags s))) None, req, add_heap (-1) r)
    else
      let r := add_threads 1 r in
      if negb (e_pl_create e) then
        Ret (-1, with_pcm_cap (with_flags s (set_running false (s_flags s))) None, req,
             add_heap (-1) (add_threads (-1) r))
      else
        Ret (0, with_flags s (set_threads_up true (s_flags s)), req, add_threads 1 r).

(** Both threads are joined. *)
Definition session_stop (s : session_t A) (r : res_t) : session_t A * res_t :=
  if negb (threads_up (s_flags s)) then (s, r)
  else
    let s := with_flags s (set_running false (s_flags s)) in
    let r := add_threads (-1) (add_threads (-1) r) in
    (with_flags s (set_threads_up false (s_flags s)), r).

Definition session_destroy (s : session_t A) (r : res_t) : res_t :=
  let '(s, r) := session_stop s r in
  let r := if 0 <=? n_audio_fd (s_net s) then close_fd (n_audio_fd (s_net s)) r else r in
  let r := if 0 <=? n_control_fd (s_net s) then close_fd (n_control_fd (s_net s)) r else r in
  let r := if 0 <=? n_timing_fd (s_net s) then close_fd (n_timing_fd (s_net s)) r else r in
  let r := match s_pcm_cap s with Some _ => add_heap (-1) r | None => r end in
  add_heap (-1) (put_sink false (add_dec (-1) r)).
End Lifecycle.

(** ** What the sink loop does *)

(** The chunks cover the samples from [a] to [b] in order, without a gap. *)
Fixpoint tiles (a : Z) (chunks : list (Z * Z)) (b : Z) : Prop :=
  match chunks with
  | [] => a = b
  | (o, k) :: l => o = a /\ 0 < k /\ tiles (a + k) l b
  end.

(** Iteration [i] ends the loop: the generation has changed or the session is
    being torn down, the sink reports an error, or it has accepted nothing in this
    iteration and the 200 before it ([r] of them before the first). *)
Definition stops_at (obs : list sink_obs) (g : Z) (r : Z) (i : nat) : Prop :=
  exists o, obs !! i = Some o /\
    (write_check o g = false \/ o_accept o < 0 \/
     (200 <= Z.of_nat i + r /\
      forall k o', (k <= i)%nat -> (i - k <= 200)%nat -> obs !! k = Some o' -> o_accept o' = 0)).

Lemma sink_write_loop_spec obs n off r g :
  0 <= off <= n -> 0 <= r <= 200 ->
  (n - off) * 201 + (201 - r) <= Z.of_nat (length obs) ->
  exists off' chunks i, write_loop obs n off r g = Some (off', chunks) /\
    off' <= n /\ tiles off chunks off' /\
    Forall (fun o => write_check o g = true) (take i obs) /\
    (off' = n \/ stops_at obs g r i).
Proof.
  revert off r. induction obs as [|o obs IH]; intros off r Hoff Hr Hlen; cbn [write_loop length] in *.
  { destruct (Z.leb_spec n off); [|lia]. exists off, [], 0%nat. cbn [tiles take]. split_and!; auto; lia. }
  destruct (Z.leb_spec n off).
  { exists off, [], 0%nat. cbn [tiles take]. split_and!; auto; lia. }
  destruct (write_check o g) eqn:Ec.
  2:{ exists off, [], 0%nat. cbn [tiles take]. split_and!; auto; try lia. right. exists o. auto. }
  unfold write_put. cbv zeta.
  destruct (Z.ltb_spec (Z.min (o_accept o) (n - off)) 0).
  { exists off, [], 0%nat. cbn [tiles take]. split_and!; auto; try lia. right. exists o.
    split; [done|]. right. left. lia. }
  destruct (Z.eqb_spec (Z.min (o_accept o) (n - off)) 0) as [E0|E0].
  - unfold MAX_BACKOFF_RETRIES. destruct (Z.ltb_spec 200 (r + 1)).
    { exists off, [], 0%nat. cbn [tiles take]. split_and!; auto; try lia. right. exists o.
      split; [done|]. right. right. split; [lia|]. intros [|k] o' Hk _; [|lia]. intros [= <-]. lia. }
    destruct (IH off (r + 1)) as (off' & ch & i & -> & I1 & I2 & I3 & I4); [lia|lia|lia|].
    exists off', ch, (S i). cbn [mbind option_bind]. rewrite Z.eqb_refl. cbn [take].
    split_and!; auto. destruct I4 as [I4|(o2 & Ho2 & I4)]; [by left|right].
    exists o2. split; [done|]. destruct I4 as [I4|[I4|[I4 I5]]]; auto. right. right.
    split; [lia|]. intros [|k] o' Hk Hk2 Hl; [injection Hl as <-; lia|]. apply (I5 k o'); auto; lia.
  - destruct (IH (off + Z.min (o_accept o) (n - off)) 0) as (off' & ch & i & -> & I1 & I2 & I3 & I4);
      [lia|lia|lia|].
    eexists off', _, (S i). cbn [mbind option_bind].
    destruct (Z.eqb_spec (off + Z.min (o_accept o) (n - off)) off); [lia|]. cbn [tiles take].
    split; [done|]. replace (off + Z.min _ _ - off) with (Z.min (o_accept o) (n - off)) by lia.
    cbn [tiles]. split_and!; auto; try lia. destruct I4 as [I4|(o2 & Ho2 & I4)]; [by left|right].
    exists o2. split; [done|]. destruct I4 as [I4|[I4|[I4 I5]]]; auto. right. right.
    split; [lia|]. intros [|k] o' Hk Hk2 Hl; [lia|]. apply (I5 k o'); auto; lia.
Qed.

(** Pushing samples to the sink always ends, in order and without a gap.
    Within 201 iterations per sample the loop returns the number of samples it
    committed: a prefix, in consecutive chunks, each offered only after a check
    found the generation unchanged and no teardown; and a shorter one than asked
    for only when the generation changed, the session was stopped, the sink
    failed, or it accepted nothing in 201 consecutive offers. *)
Theorem session_sink_write_all_ok obs n g :
  n * 201 + 201 <= Z.of_nat (length obs) ->
  exists off chunks i, session_sink_write_all obs n g = Some (off, chunks) /\
    0 <= off <= Z.max 0 n /\ tiles 0 chunks off /\
    Forall (fun o => write_check o g = true) (take i obs) /\
    (off = Z.max 0 n \/ stops_at obs g 0 i).
Proof.
  intros Hlen. unfold session_sink_write_all. destruct (Z.leb_spec n 0).
  { exists 0, [], 0%nat. cbn [tiles take]. split_and!; auto; lia. }
  destruct (sink_write_loop_spec obs n 0 0 g) as (off & ch & i & I1 & I2 & I3 & I4 & I5); [lia|lia|lia|].
  exists off, ch, i. replace (Z.max 0 n) with n by lia. split_and!; auto; try lia.
  assert (forall l a b, tiles a l b -> a <= b) as Ht.
  { clear. intros l. induction l as [|[o k] l IH]; intros a b; cbn [tiles]; [lia|].
    intros (_ & Hk & Hl). apply IH in Hl. lia. }
  by apply Ht in I3.
Qed.

Definition sample_obs (a : Z) : sink_obs := mk_obs 7 true true a.

Lemma session_sink_write_all_ok_witness :
  session_sink_write_all (map sample_obs [2; 0; 5] ++ replicate 1204 (sample_obs 0)) 5 7 =
    Some (5, [(0, 2); (2, 3)]) /\
  exists off chunks i,
    session_sink_write_all (map sample_obs [2; 0; 5] ++ replicate 1204 (sample_obs 0)) 5 7 = Some (off, chunks) /\
    0 <= off <= Z.max 0 5 /\ tiles 0 chunks off /\
    Forall (fun o => write_check o 7 = true)
      (take i (map sample_obs [2; 0; 5] ++ replicate 1204 (sample_obs 0))) /\
    (off = Z.max 0 5 \/ stops_at (map sample_obs [2; 0; 5] ++ replicate 1204 (sample_obs 0)) 7 0 i).
Proof.
  split; [vm_compute; reflexivity|]. apply session_sink_write_all_ok. vm_compute. discriminate.
Defined.

(** ** What a session owns *)

Definition release_fd (fd : Z) (k : kernel) : kernel := if 0 <=? fd then sys_close fd k else k.

(** The kernel after a session with these sockets has been destroyed. *)
Definition release (n : net_t) (k : kernel) : kernel :=
  release_fd (n_timing_fd n) (release_fd (n_control_fd n) (release_fd (n_audio_fd n) k)).

(** Closing the triple directly releases the same. *)
Lemma release_rtp_close socks ip ctl tim k :
  release (mk_net (audio_fd socks) (control_fd socks) (timing_fd socks) ip ctl tim) k =
  (rtp_close socks k).2.
Proof.
  unfold release, release_fd, rtp_close. cbn [n_audio_fd n_control_fd n_timing_fd].
  destruct (0 <=? audio_fd socks); cbn [audio_fd control_fd timing_fd];
    destruct (0 <=? control_fd socks); cbn [audio_fd control_fd timing_fd];
    by destruct (0 <=? timing_fd socks).
Qed.

(** In [r] the session holds its decoder, the sink, its memory and its threads,
    on top of what [r0] holds; its descriptors are still open. *)
Record holds {A} (s : session_t A) (r0 r : res_t) : Prop := {
  h_dec : r_dec r = r_dec r0 + 1;
  h_sink : r_sink r = true;
  h_heap : r_heap r = r_heap r0 + 1 + (if s_pcm_cap s is Some _ then 1 else 0);
  h_threads : r_threads r = r_threads r0 + (if threads_up (s_flags s) then 2 else 0);
  h_kernel : r_kernel r = r_kernel r0;
}.

(** What the threads leave alone. *)
Definition same_holdings {A} (s s' : session_t A) : Prop :=
  s_net s' = s_net s /\ s_pcm_cap s' = s_pcm_cap s /\ threads_up (s_flags s') = threads_up (s_flags s).

Lemma holds_same {A} (s s' : session_t A) r0 r : same_holdings s s' -> holds s r0 r -> holds s' r0 r.
Proof. intros (_ & Hp & Ht) [Hd Hs Hh Hth Hk]. constructor; rewrite ?Hp, ?Ht; done. Qed.

Definition res_with_kernel (k : kernel) (r : res_t) : res_t :=
  mk_res (r_dec r) (r_sink r) (r_heap r) (r_threads r) k.

Section LifecycleProps.
Context `{DataModel} {A : Type} (lib : alac_lib A).
Context (oaep_decrypt : bytes -> option bytes) (hz : Z).

Lemma destroy_holds (s : session_t A) r0 r :
  r_sink r0 = false -> holds s r0 r ->
  session_destroy s r = res_with_kernel (release (s_net s) (r_kernel r0)) r0.
Proof.
  destruct r0 as [d0 b0 h0 t0 k0], r as [d b h t k]. intros Hs [Hd _ Hh Ht Hk].
  cbn [r_dec r_sink r_heap r_threads r_kernel] in *. subst b0 d h t k.
  unfold session_destroy, session_stop, release, release_fd, res_with_kernel.
  destruct (threads_up (s_flags s)) eqn:Et; cbn [negb with_flags s_net s_pcm_cap];
    destruct (s_pcm_cap s);
    destruct (0 <=? n_audio_fd (s_net s)), (0 <=? n_control_fd (s_net s)), (0 <=? n_timing_fd (s_net s));
    unfold close_fd, add_heap, put_sink, add_dec, add_threads;
    cbn [r_dec r_sink r_heap r_threads r_kernel]; f_equal; lia.
Qed.

Lemma create_holds e sdp r0 :
  r_sink r0 = false ->
  match session_create lib oaep_decrypt e sdp r0 with
  | (None, r) => r = r0
  | (Some s, r) =>
      holds s r0 r /\ s_net s = mk_net (-1) (-1) (-1) 0 0 0 /\ s_pcm_cap s = None /\
      threads_up (s_flags s) = false
  end.
Proof.
  destruct r0 as [d b h t k]. cbn [r_sink]. intros ->. unfold session_create.
  destruct (raop_oaep_unwrap_key _ _); [|done]. destruct (alac_open _ _ _ _ _ _); [|done]. cbv zeta.
  unfold add_dec, put_sink, add_heap. cbn [r_dec r_sink r_heap r_threads r_kernel].
  destruct (e_sink_open e =? 0); cbn [negb].
  2:{ f_equal. lia. }
  destruct (e_calloc e); cbn [negb].
  2:{ f_equal. lia. }
  split_and!; try done. constructor; cbn [r_dec r_sink r_heap r_threads r_kernel s_pcm_cap s_flags threads_up]; try done; lia.
Qed.

Lemma send_timing_request_wp (s : session_t A) t sendto :
  wp (send_timing_request hz s t sendto) (fun r =>
    same_holdings s r.1 /\ s_flags r.1 = s_flags s /\ s_gen r.1 = s_gen s /\ s_jit r.1 = s_jit s /\
    s_play r.1 = s_play s /\ s_fpp r.1 = s_fpp s /\ s_dec r.1 = s_dec s).
Proof.
  unfold send_timing_request. cbv zeta.
  rewrite build_timing_request_eq by (rewrite length_replicate; lia). cbn [rbind]. change (negb (32 =? 32)) with false.
  destruct (_ <? 0); by cbn [wp fst].
Qed.

(** [session_start] either leaves both threads running or none, and nothing but
    what the session owns. *)
Lemma start_holds e (s : session_t A) socks seq ts ip ctl tim r0 r :
  holds s r0 r -> s_pcm_cap s = None -> threads_up (s_flags s) = false ->
  wp (session_start hz e s socks seq ts ip ctl tim r) (fun '(rc, s', _, r') =>
    holds s' r0 r' /\
    s_net s' = mk_net (audio_fd socks) (control_fd socks) (timing_fd socks) ip ctl tim /\
    ((rc = 0 /\ threads_up (s_flags s') = true /\ running (s_flags s') = true) \/
     (rc = -1 /\ threads_up (s_flags s') = false /\ s_pcm_cap s' = None))).
Proof.
  intros [Hd Hs Hh Ht Hk] Hp Hu. rewrite Hp in Hh. rewrite Hu in Ht. unfold session_start. cbv zeta.
  destruct (e_malloc e); cbn [negb].
  2:{ cbn [wp]. split_and!; [|done|].
      - constructor; cbn [with_net s_pcm_cap s_flags]; rewrite ?Hp, ?Hu; done.
      - right. by rewrite <- Hu, <- Hp. }
  eapply wp_bind, wp_mono; [apply send_timing_request_wp|]. intros [s1 req]. cbn [fst].
  intros ((Hn & Hc & Htu) & Hf & _).
  cbn [with_net with_pcm_cap with_jit with_clk with_play with_timing with_sync with_flags s_net s_pcm_cap
    s_flags set_running threads_up] in Hn, Hc, Htu, Hf.
  destruct (e_rx_create e); cbn [negb]; [destruct (e_pl_create e); cbn [negb]|]; cbn [wp].
  all: split_and!; [constructor|..].
  all: cbn [with_pcm_cap with_flags s_net s_pcm_cap s_flags set_running set_threads_up threads_up running
    add_heap add_threads r_dec r_sink r_heap r_threads r_kernel].
  all: rewrite ?Hn, ?Hc, ?Hf; unfold set_running; cbn [threads_up running]; rewrite ?Hu; try done; try lia.
  all: first [by left | by right].
Qed.

(** C8: a session owns what it acquires and gives all of it back.  Whichever step
    of [session_create] fails, nothing stays acquired.  A created session, never
    started, is destroyed back to where it began.  [session_start] takes the three
    sockets whatever its result; and whatever the threads have done since, as long
    as they leave the holdings alone, destroying the session stops them and
    releases its decoder, the sink, its memory, and each socket exactly once, as
    [rtp_close] would have. *)
Theorem session_lifecycle e e' sdp socks seq ts ip ctl tim r0 :
  r_sink r0 = false ->
  match session_create lib oaep_decrypt e sdp r0 with
  | (None, r) => r = r0
  | (Some s, r) =>
      session_destroy s r = r0 /\
      wp (session_start hz e' s socks seq ts ip ctl tim r) (fun '(rc, s', _, r') =>
        (rc = 0 /\ r_threads r' = r_threads r0 + 2 \/ rc = -1 /\ r_threads r' = r_threads r0) /\
        forall s'', same_holdings s' s'' ->
          session_destroy s'' r' = res_with_kernel (rtp_close socks (r_kernel r0)).2 r0)
  end.
Proof.
  intros Hs. pose proof (create_holds e sdp r0 Hs) as Hc.
  destruct (session_create lib oaep_decrypt e sdp r0) as [[s|] r]; [|done].
  destruct Hc as (Hh & Hn & Hp & Hu). split.
  - rewrite (destroy_holds s r0 r) by done. rewrite Hn. by destruct r0.
  - eapply wp_mono; [by apply start_holds|]. intros [[[rc s'] req] r']. cbv beta iota.
    intros (Hh' & Hn' & Hrc). split.
    + destruct Hrc as [(-> & Ht & _)|(-> & Ht & _)]; [left|right]; split; try done;
        rewrite (h_threads _ _ _ Hh'), Ht; lia.
    + intros s'' Hsame. rewrite (destroy_holds s'' r0 r') by (done || by eapply holds_same).
      rewrite <- (release_rtp_close socks ip ctl tim). destruct Hsame as (-> & _). by rewrite Hn'.
Qed.
End LifecycleProps.

(** A decoder that returns silence. *)
Definition sample_alac : alac_lib unit :=
  mk_alac_lib unit (fun _ _ => Some tt) (fun a _ => a) (fun a _ => (a, replicate 8 0, 8)).

Definition sample_sdp : raop_sdp_t :=
  mk_sdp (replicate 256 7) (replicate 16 1) 96 352 16 2 44100 (replicate 48 0).
Definition sample_env : start_env := mk_senv true 0 true true 100 32 true true.
Definition sample_net_socks : rtp_sockets_t := mk_sockets 5 6 7 6000 6001 6002.
Definition sample_res : res_t := mk_res 0 false 3 1 (mk_kernel {[3; 5; 6; 7]} ∅ ∅ 9 0).

Lemma session_lifecycle_witness :
  match session_create sample_alac (fun _ => Some (replicate 16 9)) sample_env sample_sdp sample_res with
  | (None, r) => False
  | (Some s, r) =>
      session_destroy s r = sample_res /\
      wp (@session_start ilp32 unit 100 sample_env s sample_net_socks 10 20 30 40 50 r) (fun '(rc, s', _, r') =>
        (rc = 0 /\ r_threads r' = 3 \/ rc = -1 /\ r_threads r' = 1) /\
        forall s'', same_holdings s' s'' ->
          session_destroy s'' r' =
            res_with_kernel (rtp_close sample_net_socks (r_kernel sample_res)).2 sample_res)
  end.
Proof.
  pose proof (@session_lifecycle ilp32 unit sample_alac (fun _ => Some (replicate 16 9)) 100 sample_env sample_env
    sample_sdp sample_net_socks 10 20 30 40 50 sample_res eq_refl) as Hw.
  destruct (session_create _ _ _ _ _) as [[s|] r] eqn:E; [exact Hw|].
  exfalso. assert (fst (session_create sample_alac (fun _ => Some (replicate 16 9)) sample_env sample_sdp sample_res)
    <> None) as Hne by (vm_compute; discriminate).
  apply Hne. by rewrite E.
Defined.
