(* ===== verification/SessionRun.v ===== *)
(** * The session's threads ([src/session.c])

    The receiver, the player and the RTSP thread interleaved.  Each action is one
    critical section or one loop test; code between two of them that touches only
    its own thread's data is part of the action before it.  The events record what
    enters the buffer and what reaches the sink. *)
From Stdlib Require Import ZArith Lia.
From stdpp Require Import base numbers list option.
From S2P Require Import Prelude Seqext Jitter JitterSpec Clock Rtp B64 AlacShim Session.

Local Open Scope Z_scope.

(** ** Events, newest first in a log *)

Inductive event :=
  | EvInsert (from ts : Z) (pl : bytes)                  (* a packet taken into the buffer *)
  | EvFlush (ts : Z)
  | EvTurn (src : option (Z * bytes)) (pcm : bytes)      (* the packet popped, the samples to play *)
  | EvCheck                                              (* the generation is still the turn's *)
  | EvWrite (pcm : bytes)                                (* samples the sink accepted *)
  | EvRestart.                                           (* [sink_flush()] *)

(** ** Threads *)

(** The receiver: at [poll], draining the ready sockets in order, past the drain,
    in the timing part of a periodic pass, or done; with [last_periodic] or
    [now]. *)
Inductive rx_pc :=
  | RX_POLL (last : Z)
  | RX_READ (fds : list Z) (left : nat) (last : Z)
  | RX_TICK (last : Z)
  | RX_TIMING (now : Z)
  | RX_END.

(** The player's [session_sink_write_all]: the samples, their generation, whether
    the result is recorded, and the loop's variables. *)
Record writing := mk_writing {
  wr_pcm : bytes; wr_gen : Z; wr_data : bool; wr_off : Z; wr_retries : Z;
}.

Definition wr_n (w : writing) : Z := Z.quot (Z.of_nat (length (wr_pcm w))) 2.

Inductive pl_pc :=
  | PL_TOP                  (* [while (s->running)] *)
  | PL_SERVICE              (* the pending restart and the hysteresis *)
  | PL_LOCK                 (* the critical section *)
  | PL_CHECK (w : writing)  (* the loop tests of [session_sink_write_all] *)
  | PL_PUT (w : writing)    (* [sink_write] *)
  | PL_END.

Record world (A : Type) := mk_world {
  w_s : session_t A;
  w_rx : rx_pc;
  w_pl : pl_pc;
  w_log : list event;
}.
Arguments mk_world {A}. Arguments w_s {A}. Arguments w_rx {A}. Arguments w_pl {A}. Arguments w_log {A}.

(** What the system answers to the receiver in one action: the sockets [poll]
    reports, the datagram, the clock and [sendto]. *)
Record rx_input := mk_rxin {
  ri_ready : bool * bool * bool; ri_got : option (Z * bytes); ri_time : Z; ri_sendto : Z;
}.

Inductive action :=
  | ARx (i : rx_input)
  | APl (accept : Z)        (* what [sink_write] accepts *)
  | AFlush (seq ts : Z)     (* [session_flush] *)
  | AStop.                  (* [session_stop] clears [running] *)

Section Run.
Context `{DataModel} {A : Type} (lib : alac_lib A).
Context (aes_cbcdec : bytes -> bytes -> bytes -> bytes) (hz : Z).

(** [rx_drain(s, fd)] for each ready descriptor, in order. *)
Definition ready_fds (n : net_t) (r : bool * bool * bool) : list Z :=
  (if r.1.1 then [n_audio_fd n] else []) ++ (if r.1.2 then [n_control_fd n] else []) ++
  (if r.2 then [n_timing_fd n] else []).

Definition rx_step (s : session_t A) (pc : rx_pc) (i : rx_input) :
    run (session_t A * rx_pc * list event) :=
  match pc with
  | RX_POLL last =>
      if running (s_flags s)
      then Ret (s, RX_READ (ready_fds (s_net s) (ri_ready i)) RX_DRAIN_BUDGET last, [])
      else Ret (s, RX_END, [])
  | RX_READ [] _ last => Ret (s, RX_TICK last, [])
  | RX_READ (fd :: fds) n last =>
      match n with
      | O => Ret (s, RX_READ fds RX_DRAIN_BUDGET last, [])
      | S n =>
          if running (s_flags s) then
            let! (s, e, more) := rx_drain_one hz s fd (ri_got i) (ri_time i) in
            Ret (s, if more then RX_READ (fd :: fds) n last else RX_READ fds RX_DRAIN_BUDGET last,
                 match ri_got i, e with
                 | Some (from, _), Some (ts, pl) => [EvInsert from ts pl]
                 | _, _ => []
                 end)
          else Ret (s, RX_READ fds RX_DRAIN_BUDGET last, [])
      end
  | RX_TICK last =>
      let now := mono_ns hz (ri_time i) in
      if u64 (now - last) <? PERIODIC_MS * 1000000 then Ret (s, RX_POLL last, [])
      else
        let! (s, _) := rx_resend s in
        Ret (s, RX_TIMING now, [])
  | RX_TIMING now =>
      let! (s, _) := rx_timing hz s now (ri_time i) (ri_sendto i) in
      Ret (s, RX_POLL now, [])
  | RX_END => Ret (s, RX_END, [])
  end.

(** The return of [session_sink_write_all]. *)
Definition write_done (s : session_t A) (w : writing) : session_t A * pl_pc :=
  (if wr_data w then with_stats s (stat_set DBG_SINKLAST (wr_off w) (s_stats s)) else s, PL_TOP).

Definition turn_src (t : turn) : option (Z * bytes) :=
  match t with
  | TSlot slot _ => match js_kind slot with POP_DATA => Some (js_ts slot, js_payload slot) | POP_CONCEAL => None end
  | _ => None
  end.

Definition pl_step (s : session_t A) (pc : pl_pc) (accept : Z) :
    run (session_t A * pl_pc * list event) :=
  match pc with
  | PL_TOP => Ret (s, if running (s_flags s) then PL_SERVICE else PL_END, [])
  | PL_SERVICE =>
      let pending := sink_restart_pending (s_flags s) in
      let s := with_flags s (set_restart false (s_flags s)) in
      Ret (pl_rearm s, PL_LOCK, if pending then [EvRestart] else [])
  | PL_LOCK =>
      let '(s, t) := pl_turn s in
      let! (s, out) := pl_render lib aes_cbcdec s t in
      match out with
      | None => Ret (s, PL_TOP, match t with TWait => [] | _ => [EvTurn (turn_src t) []] end)
      | Some (pcm, g, data) =>
          Ret (s, PL_CHECK (mk_writing pcm g data 0 0), [EvTurn (turn_src t) pcm])
      end
  | PL_CHECK w =>
      if (wr_off w <? wr_n w) &&
         write_check (mk_obs (s_gen s) (threads_up (s_flags s)) (running (s_flags s)) accept) (wr_gen w)
      then Ret (s, PL_PUT w, [EvCheck])
      else let '(s, pc) := write_done s w in Ret (s, pc, [])
  | PL_PUT w =>
      match write_put accept (wr_n w) (wr_off w) (wr_retries w) with
      | None => let '(s, pc) := write_done s w in Ret (s, pc, [])
      | Some (off, retries) =>
          Ret (s, PL_CHECK (mk_writing (wr_pcm w) (wr_gen w) (wr_data w) off retries),
               if off =? wr_off w then []
               else [EvWrite (sub (wr_pcm w) (Z.to_nat (2 * wr_off w)) (Z.to_nat (2 * (off - wr_off w))))])
      end
  | PL_END => Ret (s, PL_END, [])
  end.

Definition wstep (w : world A) (a : action) : run (world A) :=
  match a with
  | ARx i =>
      let! (s, pc, ev) := rx_step (w_s w) (w_rx w) i in
      Ret (mk_world s pc (w_pl w) (ev ++ w_log w))
  | APl accept =>
      let! (s, pc, ev) := pl_step (w_s w) (w_pl w) accept in
      Ret (mk_world s (w_rx w) pc (ev ++ w_log w))
  | AFlush seq ts =>
      Ret (mk_world (session_flush (w_s w) seq ts) (w_rx w) (w_pl w) (EvFlush ts :: w_log w))
  | AStop =>
      let s := w_s w in
      Ret (mk_world (with_flags s (set_running false (s_flags s))) (w_rx w) (w_pl w) (w_log w))
  end.

Fixpoint wrun (w : world A) (acts : list action) : run (world A) :=
  match acts with
  | [] => Ret w
  | a :: acts => let! w := wstep w a in wrun w acts
  end.
End Run.

(** The threads as [session_start] creates them; [last] is the receiver's first
    clock reading. *)
Definition world_init {A} (s : session_t A) (last : Z) : world A :=
  mk_world s (RX_POLL last) PL_TOP [].

(** ** What a log says *)

Definition not_flush (ev : event) : Prop := match ev with EvFlush _ => False | _ => True end.

(** The boundary of the newest flush. *)
Fixpoint last_flush (log : list event) : option Z :=
  match log with
  | [] => None
  | EvFlush ts :: _ => Some ts
  | _ :: log => last_flush log
  end.

(** The packet came from [ip], entered the buffer since the last flush, and is not
    before that flush's boundary. *)
Definition fresh (ip : Z) (log : list event) (ts : Z) (pl : bytes) : Prop :=
  exists l3 l4, log = l3 ++ EvInsert ip ts pl :: l4 /\ Forall not_flush l3 /\
    match last_flush l4 with Some b => 0 <= s32 (ts - b) | None => True end.

(** The samples of the newest turn, and those of them the sink has accepted. *)
Fixpoint turn_pcm (log : list event) : bytes :=
  match log with
  | [] => []
  | EvTurn _ pcm :: _ => pcm
  | _ :: log => turn_pcm log
  end.

Fixpoint written (log : list event) : bytes :=
  match log with
  | [] => []
  | EvTurn _ _ :: _ => []
  | EvWrite c :: log => written log ++ c
  | _ :: log => written log
  end.

(** No flush since the newest turn. *)
Fixpoint calm (log : list event) : bool :=
  match log with
  | [] => false
  | EvTurn _ _ :: _ => true
  | EvFlush _ :: _ => false
  | _ :: log => calm log
  end.

(** Since the newest write the generation was checked, before any flush that
    followed the turn. *)
Fixpoint armed (log : list event) : Prop :=
  match log with
  | EvCheck :: log => calm log = true
  | (EvInsert _ _ _ | EvFlush _ | EvRestart) :: log => armed log
  | _ => False
  end.

(** The turns since a flush that no restart of the sink has followed yet. *)
Fixpoint unrestarted (log : list event) : option nat :=
  match log with
  | [] => None
  | EvFlush _ :: _ => Some 0%nat
  | EvRestart :: _ => None
  | EvTurn _ _ :: log => S <$> unrestarted log
  | _ :: log => unrestarted log
  end.

(** Every packet played was fresh, every write checked. *)
Fixpoint good (ip : Z) (log : list event) : Prop :=
  match log with
  | [] => True
  | ev :: log => good ip log /\
      match ev with
      | EvTurn (Some (ts, pl)) _ => fresh ip log ts pl
      | EvWrite _ => armed log
      | _ => True
      end
  end.

Lemma good_app ip l1 l2 : good ip (l1 ++ l2) -> good ip l2.
Proof. induction l1; simpl; [done|]. intros [? _]. auto. Qed.

(** What [good] says of each turn and each write of a log. *)
Lemma good_turn ip log : good ip log ->
  forall l1 ts pl pcm l2, log = l1 ++ EvTurn (Some (ts, pl)) pcm :: l2 -> fresh ip l2 ts pl.
Proof. intros Hg l1 ts pl pcm l2 ->. apply good_app in Hg. by destruct Hg. Qed.

Lemma good_write ip log : good ip log -> forall l1 c l2, log = l1 ++ EvWrite c :: l2 -> armed l2.
Proof. intros Hg l1 c l2 ->. apply good_app in Hg. by destruct Hg. Qed.

Lemma fresh_cons ip log ts pl ev : fresh ip log ts pl -> not_flush ev -> fresh ip (ev :: log) ts pl.
Proof.
  intros (l3 & l4 & -> & Hl & Hb) He. exists (ev :: l3), l4. split_and!; [done| |done]. by constructor.
Qed.

Lemma last_flush_cons ev log : not_flush ev -> last_flush (ev :: log) = last_flush log.
Proof. by destruct ev. Qed.

(** ** The invariant of the session *)

Record sinv {A} (ip n : Z) (log : list event) (s : session_t A) : Prop := {
  si_n : 0 <= n;
  si_jit : jitter_ok (s_jit s);
  si_gen : 0 <= s_gen s /\ s_gen s + n < 2 ^ 32;
  si_room : gen (s_jit s) + n < 2 ^ 32 /\
            Z.max (play_cursor (s_jit s)) (seq_ref (sx (s_jit s))) + 65536 * n < 2 ^ 61 + 65536;
  si_ip : n_sender_ip (s_net s) = ip;
  si_dec : dec_ok (s_dec s) (s_fpp s);
  si_cap : s_pcm_cap s = Some (s_fpp s * 2);
  si_win : forall e ts pl, window (s_jit s) e = Some (ts, pl) -> fresh ip log ts pl;
  si_flush : last_flush log = if flushed (s_play s) then Some (boundary_ts (s_play s)) else None;
}.

(** Changes that leave alone what the invariant reads. *)
Lemma sinv_same {A} ip m n log (s s' : session_t A) :
  sinv ip m log s -> 0 <= n <= m ->
  s_jit s' = s_jit s -> s_gen s' = s_gen s -> n_sender_ip (s_net s') = n_sender_ip (s_net s) ->
  s_fpp s' = s_fpp s -> dec_ok (s_dec s') (s_fpp s) -> s_pcm_cap s' = s_pcm_cap s ->
  flushed (s_play s') = flushed (s_play s) -> boundary_ts (s_play s') = boundary_ts (s_play s) ->
  sinv ip n log s'.
Proof.
  intros [] Hn Hj Hg Hi Hf Hd Hc Hfl Hb. constructor; rewrite ?Hj, ?Hg, ?Hi, ?Hf, ?Hc, ?Hfl, ?Hb; try done; lia.
Qed.

Lemma sinv_weaken {A} ip n log (s : session_t A) : sinv ip (n + 1) log s -> 0 <= n -> sinv ip n log s.
Proof. intros Hs Hn. eapply sinv_same; try done; [lia|]. by apply si_dec in Hs. Qed.

(** A quiet event changes no freshness. *)
Lemma sinv_event {A} ip n log (s : session_t A) ev : sinv ip n log s -> not_flush ev -> sinv ip n (ev :: log) s.
Proof.
  intros [] He. constructor; try done.
  - intros e ts pl Hw. apply fresh_cons; eauto.
  - by rewrite last_flush_cons.
Qed.

Lemma sinv_jroom {A} ip n log (s : session_t A) : sinv ip n log s -> 1 <= n -> jitter_room (s_jit s).
Proof. intros [] Hn. unfold jitter_room. lia. Qed.

(** Discharges the side conditions of [sinv_same] on a record update. *)
Ltac same :=
  lazymatch goal with
  | Hs : sinv _ ?m _ ?s |- _ => apply (sinv_same _ m _ _ s); try first [done | lia]; exact (si_dec _ _ _ _ Hs)
  end.

Section RxProofs.
Context `{DataModel} {A : Type} (hz : Z).
Implicit Types s : session_t A.

(** What an action of the receiver leaves: the invariant, the flags and the
    generation, and at most one packet inserted. *)
Definition ins_event (ip : Z) (e : option (Z * bytes)) : list event :=
  match e with Some (ts, pl) => [EvInsert ip ts pl] | None => [] end.

Definition rx_kept (ip n : Z) (log : list event) (s : session_t A) (r : session_t A * option (Z * bytes)) : Prop :=
  sinv ip n (ins_event ip r.2 ++ log) r.1 /\ s_flags r.1 = s_flags s /\ s_gen r.1 = s_gen s /\
  same_holdings s r.1.

Lemma rx_kept_none ip n log s s' :
  sinv ip n log s' -> s_flags s' = s_flags s -> s_gen s' = s_gen s -> same_holdings s s' ->
  rx_kept ip n log s (s', None).
Proof. done. Qed.

Lemma rx_insert_kept ip n log s a pl :
  sinv ip (n + 1) log s -> 0 <= n -> 0 <= rtptime a < 4294967296 ->
  rx_kept ip n log s
    (let '(s', taken) := rx_insert s a pl in (s', if taken then Some (rtptime a, pl) else None)).
Proof.
  intros Hs Hn Ht. unfold rx_insert. cbv zeta.
  destruct (session_reject_stale_audio (count AUDIO_PKTS s) (rtptime a)) eqn:Er.
  { apply rx_kept_none; try done. same. }
  destruct (jitter_insert (s_jit (count AUDIO_PKTS s)) (seq a) (rtptime a) pl) as [j r] eqn:Ej.
  change (s_jit (count AUDIO_PKTS s)) with (s_jit s) in Ej.
  apply jitter_insert_cases in Ej as (Hok & Hg & Hb & Hc & _ & Hq & Hw);
    [|by eapply si_jit|eapply sinv_jroom; [done|lia]|done].
  destruct Hs as [S1 S2 S3 S4 S5 S6 S7 S8 S9].
  destruct Hw as [(Hr & _ & Hw)|(-> & ext & He & Hce & Hwe & Hl & Hw)].
  - rewrite (proj2 (Z.eqb_neq _ _) Hr). apply rx_kept_none; [|done..].
    constructor; cbn [with_jit count with_stats s_jit s_gen s_net s_dec s_fpp s_pcm_cap s_play]; try done; try lia.
    intros e ts' pl'. rewrite Hw. apply S8.
  - rewrite Z.eqb_refl. split; [|done]. cbn [fst snd ins_event app].
    constructor; cbn [with_jit with_play count with_stats s_jit s_gen s_net s_dec s_fpp s_pcm_cap s_play add_rx flushed boundary_ts];
      try done; try lia.
    intros e ts' pl'. rewrite Hw. case_bool_decide; [|intros Hx; apply fresh_cons; [by eapply S8|done]].
    case_bool_decide; [|done]. intros [= <- <-]. exists [], log. split_and!; [done|constructor|].
    rewrite S9. unfold session_reject_stale_audio in Er. change (s_play (count AUDIO_PKTS s)) with (s_play s) in Er.
    destruct (flushed (s_play s)); [|done]. cbn [andb] in Er. by apply Z.ltb_ge in Er.
Qed.

Lemma rx_audio_kept ip n log s buf :
  sinv ip (n + 1) log s -> 0 <= n -> bytes_ok buf ->
  wp (rx_audio s buf) (rx_kept ip n log s).
Proof.
  intros Hs Hn Hb. unfold rx_audio. wp_step.
  pose proof (rtp_parse_audio_wp buf) as Hwp.
  destruct (rtp_parse_audio buf) as [[a|]| |] eqn:E; [| |done..]; cbn [wp] in Hwp |- *.
  - destruct Hwp as [Hv _]. wp_step. wp_step; [exact Hv|].
    apply parse_audio_inv in E as (_ & _ & _ & _ & (_ & Ht & _)); [|done].
    pose proof (rx_insert_kept ip n log s a (sub buf (payload a) (payload_len a)) Hs Hn Ht) as Hk.
    by destruct (rx_insert _ _ _).
  - apply rx_kept_none; try done. by apply sinv_weaken.
Qed.

Lemma rx_dispatch_kept ip n log s fd buf t :
  sinv ip (n + 1) log s -> 0 <= n -> bytes_ok buf ->
  wp (rx_dispatch hz s fd buf t) (rx_kept ip n log s).
Proof.
  intros Hs Hn Hb. unfold rx_dispatch. destruct (fd =? _); [by apply rx_audio_kept|].
  destruct (fd =? _).
  { wp_step. eapply wp_mono; [apply rtp_classify_control_wp|]. intros [[] v].
    - intros _. wp_step. eapply wp_mono; [apply rtp_parse_sync_wp|]. intros [[rn nn]|] _; cbn [wp];
        apply rx_kept_none; try done; same.
    - intros ([o l] & -> & Hv & _). wp_step. wp_step; [exact Hv|]. apply rx_audio_kept; auto with bytes.
    - intros _. cbn [wp]. apply rx_kept_none; try done. by apply sinv_weaken. }
  destruct (fd =? _); [|by apply rx_kept_none; [apply sinv_weaken| | |]].
  destruct (s_timing s) as [t1 token out]. destruct out; cbn [negb].
  2:{ by apply rx_kept_none; [apply sinv_weaken| | |]. }
  wp_step. eapply wp_mono; [apply rtp_parse_timing_reply_wp|]. intros [[rn oe]|] _; cbn [wp].
  2:{ by apply rx_kept_none; [apply sinv_weaken| | |]. }
  destruct (negb _); cbn [wp]; apply rx_kept_none; try done; same.
Qed.

Lemma rx_resend_kept ip n log s :
  sinv ip (n + 1) log s -> 0 <= n ->
  wp (rx_resend s) (fun r => rx_kept ip n log s (r.1, None)).
Proof.
  intros Hs Hn. unfold rx_resend. destruct (jitter_next_resend _) as [[from to]|].
  - cbv zeta. rewrite build_resend_eq by (rewrite length_replicate; lia). cbn [rbind].
    change (8 =? 8) with true. apply rx_kept_none; try done. same.
  - by apply rx_kept_none; [apply sinv_weaken| | |].
Qed.

Lemma rx_timing_kept ip n log s now t sendto :
  sinv ip (n + 1) log s -> 0 <= n ->
  wp (rx_timing hz s now t sendto) (fun r => rx_kept ip n log s (r.1, None)).
Proof.
  intros Hs Hn. unfold rx_timing. cbv zeta.
  match goal with |- context [if ?b then with_timing s ?x else s] =>
    set (s1 := if b then with_timing s x else s) end.
  assert (sinv ip n log s1 /\ s_flags s1 = s_flags s /\ s_gen s1 = s_gen s /\ same_holdings s s1)
    as (H1 & H2 & H3 & H4).
  { unfold s1. case_match; split_and!; try done; [same|by apply sinv_weaken]. }
  destruct (negb _); [|by cbn [wp]]. unfold send_timing_request. cbv zeta.
  rewrite build_timing_request_eq by (rewrite length_replicate; lia). cbn [rbind].
  change (negb (32 =? 32)) with false. destruct (_ <? 0); [by cbn [wp]|]. cbn [wp].
  apply rx_kept_none; [|done|done|].
  - destruct H1. by constructor.
  - destruct H4 as (? & ? & ?). done.
Qed.
End RxProofs.

Section PlProofs.
Context `{DataModel} {A : Type} (lib : alac_lib A).
Context (aes_cbcdec : bytes -> bytes -> bytes -> bytes).
Implicit Types s : session_t A.

Definition turn_ok (ip : Z) (log : list event) (g : Z) (t : turn) : Prop :=
  match t with
  | TWait => True
  | TSkip g' => g' = g
  | TSlot slot g' => g' = g /\ (js_kind slot = POP_DATA -> fresh ip log (js_ts slot) (js_payload slot))
  end.

Definition pl_kept (ip n : Z) (log : list event) s s' : Prop :=
  sinv ip n log s' /\ s_flags s' = s_flags s /\ s_gen s' = s_gen s /\ same_holdings s s'.

Lemma pl_pop_kept ip n log s :
  sinv ip (n + 1) log s -> 0 <= n ->
  pl_kept ip n log s (pl_pop s).1 /\ turn_ok ip log (s_gen s) (pl_pop s).2.
Proof.
  intros Hs Hn. pose proof (sinv_jroom _ _ _ _ Hs ltac:(lia)) as Hroom.
  pose proof (si_jit _ _ _ _ Hs) as Hok. unfold pl_pop. cbv zeta.
  destruct (jitter_pop _ (s_jit s)) as [j r] eqn:E.
  apply jitter_pop_cases in E as (Hok' & Hg & Hb & Hx & Hr); [|done..].
  destruct r as [slot|].
  - destruct Hr as (Hc & _ & _ & Hk & Hw). cbn [fst snd turn_ok].
    destruct Hs as [S1 S2 S3 S4 S5 S6 S7 S8 S9]. split.
    + split; [|done]. constructor; cbn [with_jit s_jit s_gen s_net s_dec s_fpp s_pcm_cap s_play]; try done.
      * lia.
      * rewrite Hg, Hc, Hx. lia.
      * intros e ts pl. rewrite Hw. case_bool_decide; [done|]. apply S8.
    + split; [done|]. intros Hd. rewrite Hd in Hk. by eapply S8.
  - destruct Hr as (-> & _).
    assert (pl_kept ip n log s (with_jit s (s_jit s))) as H0 by (split; [same|done]).
    cbn [with_jit s_play s_jit]. destruct (_ <=? 0); [|by split].
    destruct (jitter_try_resync (s_jit s)) as [j2 did] eqn:E2.
    apply jitter_try_resync_cases in E2; [|done..]. destruct did as [sk|].
    + destruct E2 as (Hok2 & Hw & Hg2 & _ & Hx2 & _ & _ & _ & run & hi & _ & ? & ? & _ & _ & ?).
      cbn [fst snd turn_ok]. split; [|done]. destruct Hs as [S1 S2 S3 S4 S5 S6 S7 S8 S9].
      split; [|done]. unfold RESYNC_MIN_RUN in *.
      constructor; cbn [with_jit with_play set_hold s_jit s_gen s_net s_dec s_fpp s_pcm_cap s_play flushed boundary_ts]; try done.
      * lia.
      * rewrite Hg2, Hx2. lia.
      * intros e ts pl. rewrite Hw. apply S8.
    + subst j2. by split.
Qed.

Lemma pl_turn_kept ip n log s :
  sinv ip (n + 1) log s -> 0 <= n ->
  pl_kept ip n log s (pl_turn s).1 /\ turn_ok ip log (s_gen s) (pl_turn s).2.
Proof.
  intros Hs Hn. unfold pl_turn. destruct (started _); [by apply pl_pop_kept|].
  destruct (_ <=? _).
  - cbv zeta. set (s1 := with_stats _ _).
    assert (sinv ip (n + 1) log s1) as H1 by same.
    destruct (pl_pop_kept ip n log s1 H1 Hn) as ((? & ? & ? & ?) & Ht). by split.
  - split; [|done]. split; [by apply sinv_weaken|done].
Qed.

Lemma pl_render_kept ip n log s t g :
  lib_ok lib -> sinv ip n log s -> turn_ok ip log g t ->
  wp (pl_render lib aes_cbcdec s t) (fun '(s', out) =>
    pl_kept ip n log s s' /\ match out with Some (pcm, g', _) => g' = g | None => True end).
Proof.
  intros Hlib Hs Ht. assert (0 <= n) as Hn by apply Hs.
  assert (pl_kept ip n log s s) as H0 by done.
  destruct t as [|g'|slot g']; cbn [pl_render turn_ok] in *; [done|by subst|].
  destruct Ht as [-> _]. destruct (js_kind slot); [|done]. cbv zeta. wp_step.
  unfold session_decode_slot. destruct (_ || _).
  { cbn [wp]. split; [|done]. split; [same|done]. }
  cbv zeta. wp_step. destruct Hs as [S1 S2 S3 S4 S5 S6 S7 S8 S9].
  change (s_pcm_cap (count DBG_POPS s)) with (s_pcm_cap s). replace (default 0 (s_pcm_cap s)) with (s_fpp s * 2) by (by rewrite S7).
  pose proof (proj1 S6).
  eapply wp_mono; [apply (alac_decode_wp lib _ (s_fpp s)); [done|done|lia]|].
  intros [d r] [Hd _]. cbn [fst] in Hd. cbn [wp].
  destruct r; cbn [wp]; (split; [|done]); (split; [|done]); by constructor.
Qed.

Lemma pl_rearm_kept ip n log s : sinv ip n log s -> pl_kept ip n log s (pl_rearm s).
Proof.
  intros Hs. assert (0 <= n) by apply Hs. unfold pl_rearm. destruct (_ <? _); [|done].
  split; [same|done].
Qed.

Lemma session_flush_kept ip n log s seq ts :
  sinv ip (n + 1) log s -> 0 <= n -> 0 <= seq < 65536 ->
  sinv ip n (EvFlush ts :: log) (session_flush s seq ts) /\
  s_gen (session_flush s seq ts) = s_gen s + 1.
Proof.
  intros Hs Hn Hq. pose proof (sinv_jroom _ _ _ _ Hs ltac:(lia)) as Hroom.
  destruct Hs as [S1 S2 S3 S4 S5 S6 S7 S8 S9].
  destruct (jitter_flush_cases (s_jit s) seq ts S2 Hroom Hq) as (Hok & Hg & Hw).
  assert (u32 (s_gen s + 1) = s_gen s + 1) as Hu by (apply u32_small; lia).
  pose proof (ok_bound _ S2). pose proof (ok_seq _ S2).
  split; [|exact Hu]. constructor;
    cbn [session_flush with_gen with_jit with_play with_flags s_jit s_gen s_net s_dec s_fpp s_pcm_cap s_play flushed boundary_ts]; try done.
  - rewrite Hu. lia.
  - rewrite Hg. change (play_cursor (jitter_flush (s_jit s) seq ts)) with seq.
    change (seq_ref (sx (jitter_flush (s_jit s) seq ts))) with seq. lia.
  - intros e ts' pl. by rewrite Hw.
Qed.
End PlProofs.

(** ** The invariant of the interleaving *)

Section WorldProofs.
Context `{DataModel} {A : Type} (lib : alac_lib A).
Context (aes_cbcdec : bytes -> bytes -> bytes -> bytes) (hz : Z).
Implicit Types s : session_t A.

(** A turn being written: what the log has of it, and its generation. *)
Record wr_ok (log : list event) (gen : Z) (w : writing) : Prop := {
  wo_pcm : turn_pcm log = wr_pcm w;
  wo_written : written log = take (Z.to_nat (2 * wr_off w)) (wr_pcm w);
  wo_off : 0 <= wr_off w <= wr_n w;
  wo_gen : wr_gen w <= gen;
  wo_calm : wr_gen w = gen -> calm log = true;
}.

Definition pl_ok (log : list event) (gen : Z) (pc : pl_pc) : Prop :=
  match pc with
  | PL_CHECK w => wr_ok log gen w
  | PL_PUT w => wr_ok log gen w /\ armed log /\ wr_off w < wr_n w
  | _ => True
  end.

(** A flush the sink has not been restarted for is pending, and the player gets at
    most one turn before it sees it. *)
Definition restart_ok (log : list event) (pending : bool) (pc : pl_pc) : Prop :=
  match unrestarted log with
  | None => True
  | Some k => pending = true /\ (k <= 1)%nat /\ (k = 1%nat -> pc <> PL_LOCK)
  end.

Record winv (ip n : Z) (w : world A) : Prop := {
  wi_s : sinv ip n (w_log w) (w_s w);
  wi_good : good ip (w_log w);
  wi_written : exists k, written (w_log w) = take k (turn_pcm (w_log w));
  wi_pl : pl_ok (w_log w) (s_gen (w_s w)) (w_pl w);
  wi_restart : restart_ok (w_log w) (sink_restart_pending (s_flags (w_s w))) (w_pl w);
}.

(** The receiver's events leave the player's part alone. *)
Lemma winv_rx ip n w s pc e :
  winv ip (n + 1) w -> rx_kept ip n (w_log w) (w_s w) (s, e) ->
  winv ip n (mk_world s pc (w_pl w) (ins_event ip e ++ w_log w)).
Proof.
  intros [W1 W2 W3 W4 W5] (Hs & Hf & Hg & _). cbn [fst snd] in *.
  destruct e as [[ts pl]|]; cbn [ins_event app] in *.
  2:{ constructor; cbn [w_s w_log w_pl w_rx]; rewrite ?Hf, ?Hg; done. }
  constructor; cbn [w_s w_log w_pl w_rx]; rewrite ?Hf, ?Hg; try done.
  destruct (w_pl w); try done; cbn [pl_ok] in *.
  - destruct W4. by constructor.
  - destruct W4 as (Hw & Ha & Ho). destruct Hw. split; [by constructor|done].
Qed.

Definition rx_input_ok (i : rx_input) : Prop :=
  match ri_got i with Some (_, buf) => bytes_ok buf | None => True end.

Lemma rx_step_inv ip n w i :
  winv ip (n + 1) w -> 0 <= n -> rx_input_ok i ->
  wp (rx_step hz (w_s w) (w_rx w) i) (fun '(s, pc, ev) =>
    winv ip n (mk_world s pc (w_pl w) (ev ++ w_log w))).
Proof.
  intros Hw Hn Hi. pose proof (wi_s _ _ _ Hw) as Hs.
  assert (forall pc, winv ip n (mk_world (w_s w) pc (w_pl w) ([] ++ w_log w))) as Hstay.
  { intros pc. apply (winv_rx ip n w (w_s w) pc None Hw). by apply rx_kept_none; [apply sinv_weaken| | |]. }
  unfold rx_step. destruct (w_rx w) as [last|[|fd fds] [|k] last|last|now|]; try by cbn [wp]; apply Hstay.
  - destruct (running _); cbn [wp]; apply Hstay.
  - destruct (running _); [|cbn [wp]; apply Hstay]. wp_step. unfold rx_drain_one, rx_input_ok in *.
    destruct (ri_got i) as [[from buf]|]; [|cbn [wp]; apply Hstay].
    destruct (Z.eqb_spec from (n_sender_ip (s_net (w_s w)))) as [->|]; cbn [negb]; [|cbn [wp]; apply Hstay].
    wp_step. eapply wp_mono; [by apply rx_dispatch_kept|]. intros [s e] Hk. cbn [wp].
    rewrite (si_ip _ _ _ _ Hs).
    pose proof (winv_rx ip n w s (RX_READ (fd :: fds) k last) e Hw Hk) as Hr.
    by destruct e as [[ts pl]|].
  - cbv zeta. destruct (_ <? _); [cbn [wp]; apply Hstay|]. wp_step.
    eapply wp_mono; [by apply rx_resend_kept|]. intros [s r] Hk. cbn [wp fst] in *. 
    by apply (winv_rx ip n w s _ None Hw).
  - wp_step. eapply wp_mono; [by apply rx_timing_kept|]. intros [s r] Hk. cbn [wp fst] in *.
    by apply (winv_rx ip n w s _ None Hw).
Qed.

Lemma write_done_kept ip n log s wr :
  sinv ip n log s -> let r := write_done s wr in pl_kept ip n log s r.1 /\ r.2 = PL_TOP.
Proof.
  intros Hs. assert (0 <= n) by apply Hs. unfold write_done. cbv zeta. cbn [fst snd].
  destruct (wr_data wr); split; try done. split; [same|done].
Qed.

Lemma restart_ok_pc log pending pc pc' :
  restart_ok log pending pc -> pc' <> PL_LOCK -> restart_ok log pending pc'.
Proof. unfold restart_ok. destruct (unrestarted log); [|done]. intuition. Qed.

Lemma turn_good ip log s g t pcm :
  good ip log -> turn_ok ip log g t -> good ip (EvTurn (turn_src t) pcm :: log).
Proof.
  intros Hg Ht. split; [done|]. destruct t as [| |slot g']; cbn [turn_src]; try done.
  destruct Ht as [_ Ht]. destruct (js_kind slot); [|done]. by apply Ht.
Qed.

(** A turn of the player, from the lock to the first loop test. *)
Lemma pl_lock_inv ip n w :
  lib_ok lib -> winv ip (n + 1) w -> 0 <= n -> w_pl w = PL_LOCK ->
  wp (pl_step lib aes_cbcdec (w_s w) PL_LOCK 0) (fun '(s, pc, ev) =>
    winv ip n (mk_world s (w_rx w) pc (ev ++ w_log w))).
Proof.
  intros Hlib [W1 W2 W3 W4 W5] Hn Hpc. rewrite Hpc in W4, W5. cbn [pl_step].
  pose proof (pl_turn_kept ip n (w_log w) (w_s w) W1 Hn) as [Hk Ht].
  destruct (pl_turn (w_s w)) as [s1 t]. cbn [fst snd] in Hk, Ht. destruct Hk as (K1 & K2 & K3 & K4).
  wp_step. eapply wp_mono; [by apply (pl_render_kept lib aes_cbcdec ip n (w_log w))|].
  intros [s2 out] ((R1 & R2 & R3 & R4) & Hout). rewrite K2 in R2. rewrite K3 in R3.
  assert (forall pc pcm, pc <> PL_LOCK -> pl_ok (EvTurn (turn_src t) pcm :: w_log w) (s_gen (w_s w)) pc ->
    winv ip n (mk_world s2 (w_rx w) pc (EvTurn (turn_src t) pcm :: w_log w))) as Hturn.
  { intros pc pcm Hne Hp. constructor; cbn [w_s w_log w_pl w_rx]; rewrite ?R2, ?R3.
    - by apply sinv_event.
    - by eapply turn_good.
    - by exists 0%nat.
    - done.
    - unfold restart_ok in *. cbn [unrestarted]. destruct (unrestarted (w_log w)) as [k|]; cbn [fmap option_fmap option_map]; [|done].
      destruct W5 as (-> & Hk & Hk1). split_and!; [done| |done].
      destruct k as [|k]; [lia|]. exfalso. apply Hk1; [lia|done]. }
  destruct out as [[[pcm g] data]|]; cbn [wp].
  - subst g. apply Hturn; [done|]. constructor; cbn [wr_pcm wr_off wr_gen turn_pcm written calm]; try first [done | lia].
    split; [lia|]. unfold wr_n. cbn [wr_pcm]. apply Z.quot_pos; lia.
  - destruct t; cbn [app]; [|by apply Hturn..].
    constructor; cbn [w_s w_log w_pl w_rx]; rewrite ?R2, ?R3; try done. by eapply restart_ok_pc.
Qed.

(** The end of a write, or of the loop without one: back to the top. *)
Lemma write_done_inv ip n w wr :
  winv ip (n + 1) w -> 0 <= n -> w_pl w = PL_CHECK wr \/ w_pl w = PL_PUT wr ->
  wp (let '(s, pc) := write_done (w_s w) wr in Ret (s, pc, [])) (fun '(s, pc, ev) =>
    winv ip n (mk_world s (w_rx w) pc (ev ++ w_log w))).
Proof.
  intros [W1 W2 W3 W4 W5] Hn Hpc.
  destruct (write_done_kept ip n (w_log w) (w_s w) wr) as [(K1 & K2 & K3 & K4) _]; [by apply sinv_weaken|].
  unfold write_done in *. cbn [wp app fst] in *.
  cbn [fst] in K1, K2, K3.
  constructor; cbn [w_s w_log w_pl w_rx]; rewrite ?K2, ?K3; try done. by eapply restart_ok_pc.
Qed.

Lemma pl_check_inv ip n w wr accept :
  winv ip (n + 1) w -> 0 <= n -> w_pl w = PL_CHECK wr ->
  wp (pl_step lib aes_cbcdec (w_s w) (PL_CHECK wr) accept) (fun '(s, pc, ev) =>
    winv ip n (mk_world s (w_rx w) pc (ev ++ w_log w))).
Proof.
  intros Hw Hn Hpc. pose proof (write_done_inv ip n w wr Hw Hn (or_introl Hpc)) as Hd.
  cbn [pl_step]. destruct (Z.ltb_spec (wr_off wr) (wr_n wr)) as [Hlt|]; cbn [andb];
    [|exact Hd].
  unfold write_check. cbn [o_gen o_threads_up o_running].
  destruct (Z.eqb_spec (s_gen (w_s w)) (wr_gen wr)) as [Hg|]; cbn [andb];
    [|exact Hd].
  destruct (negb _); [|exact Hd].
  cbn [wp app]. destruct Hw as [W1 W2 W3 W4 W5]. rewrite Hpc in W4, W5.
  constructor; cbn [w_s w_log w_pl w_rx]; try done.
  - apply sinv_event; [by apply sinv_weaken|done].
  - destruct W4 as [O1 O2 O3 O4 O5]. split; [by constructor|]. split; [|done]. cbn [armed]. auto.
  - by eapply restart_ok_pc.
Qed.

Lemma pl_put_inv ip n w wr accept :
  winv ip (n + 1) w -> 0 <= n -> w_pl w = PL_PUT wr ->
  wp (pl_step lib aes_cbcdec (w_s w) (PL_PUT wr) accept) (fun '(s, pc, ev) =>
    winv ip n (mk_world s (w_rx w) pc (ev ++ w_log w))).
Proof.
  intros Hw Hn Hpc. pose proof (write_done_inv ip n w wr Hw Hn (or_intror Hpc)) as Hd.
  cbn [pl_step]. destruct Hw as [W1 W2 W3 W4 W5]. rewrite Hpc in W4, W5.
  destruct W4 as ([O1 O2 O3 O4 O5] & Ha & Hlt).
  destruct (write_put accept (wr_n wr) (wr_off wr) (wr_retries wr)) as [[off re]|] eqn:Ep;
    [|exact Hd].
  assert (wr_off wr <= off <= wr_n wr) as Hoff.
  { unfold write_put in Ep. cbv zeta in Ep. destruct (Z.ltb_spec (Z.min accept (wr_n wr - wr_off wr)) 0); [done|].
    destruct (_ =? 0); [destruct (_ <? _); [done|]|]; injection Ep as <- <-; lia. }
  cbn [wp]. destruct (Z.eqb_spec off (wr_off wr)) as [->|Hne]; cbn [app].
  - constructor; cbn [w_s w_log w_pl w_rx]; try done; [by apply sinv_weaken|by eapply restart_ok_pc].
  - set (c := sub _ _ _).
    assert (written (w_log w) ++ c = take (Z.to_nat (2 * off)) (wr_pcm wr)) as Hc.
    { rewrite O2. unfold c, sub. rewrite take_take_drop. f_equal. lia. }
    constructor; cbn [w_s w_log w_pl w_rx]; try done.
    + apply sinv_event; [by apply sinv_weaken|done].
    + exists (Z.to_nat (2 * off)). cbn [written turn_pcm]. by rewrite Hc, O1.
    + cbn [pl_ok]. constructor; cbn [wr_pcm wr_off wr_gen wr_n turn_pcm written calm]; try done. unfold wr_n in *. cbn [wr_pcm]. lia.
    + by eapply restart_ok_pc.
Qed.

Lemma pl_step_inv ip n w accept :
  lib_ok lib -> winv ip (n + 1) w -> 0 <= n ->
  wp (pl_step lib aes_cbcdec (w_s w) (w_pl w) accept) (fun '(s, pc, ev) =>
    winv ip n (mk_world s (w_rx w) pc (ev ++ w_log w))).
Proof.
  intros Hlib Hw Hn. destruct (w_pl w) as [| | |wr|wr|] eqn:Hpc.
  - cbn [pl_step wp app]. destruct Hw as [W1 W2 W3 W4 W5].
    constructor; cbn [w_s w_log w_pl w_rx]; try done; [by apply sinv_weaken|by destruct (running _)|].
    eapply restart_ok_pc; [done|by destruct (running _)].
  - cbn [pl_step wp]. destruct Hw as [W1 W2 W3 W4 W5].
    set (s1 := with_flags (w_s w) (set_restart false (s_flags (w_s w)))).
    assert (sinv ip n (w_log w) s1) as H1.
    { eapply (sinv_same _ (n + 1) _ _ (w_s w)); try first [done | lia]. exact (si_dec _ _ _ _ W1). }
    apply pl_rearm_kept in H1 as (K1 & K2 & K3 & K4).
    destruct (sink_restart_pending (s_flags (w_s w))) eqn:Ep; cbn [app];
      (constructor; cbn [w_s w_log w_pl w_rx]; try done; rewrite ?K2).
    + by apply sinv_event.
    + unfold restart_ok in *. by destruct (unrestarted (w_log w)) as [k|]; [destruct W5|].
  - by apply (pl_lock_inv ip n w).
  - by apply pl_check_inv.
  - by apply pl_put_inv.
  - cbn [pl_step wp app]. destruct Hw as [W1 W2 W3 W4 W5].
    constructor; cbn [w_s w_log w_pl w_rx]; try done; [by apply sinv_weaken|by eapply restart_ok_pc].
Qed.

Definition action_ok (a : action) : Prop :=
  match a with
  | ARx i => rx_input_ok i
  | AFlush seq _ => 0 <= seq < 65536
  | APl _ | AStop => True
  end.

Lemma wstep_inv ip n w a :
  lib_ok lib -> winv ip (n + 1) w -> 0 <= n -> action_ok a ->
  wp (wstep lib aes_cbcdec hz w a) (winv ip n).
Proof.
  intros Hlib Hw Hn Ha. destruct a as [i|accept|seq ts|]; cbn [wstep action_ok] in *.
  - wp_step. eapply wp_mono; [by apply rx_step_inv|]. by intros [[s pc] ev].
  - wp_step. eapply wp_mono; [by apply pl_step_inv|]. by intros [[s pc] ev].
  - cbn [wp]. destruct Hw as [W1 W2 W3 W4 W5].
    destruct (session_flush_kept ip n (w_log w) (w_s w) seq ts W1 Hn Ha) as [K1 K2].
    constructor; cbn [w_s w_log w_pl w_rx]; try done; rewrite ?K2.
    + destruct (w_pl w) as [| | |wr|wr|]; try done; cbn [pl_ok] in *.
      * destruct W4. constructor; try done; lia.
      * destruct W4 as ([] & ? & ?). split; [|done]. constructor; try done; lia.
    + split_and!; [done|lia|done].
  - cbn [wp]. destruct Hw as [W1 W2 W3 W4 W5]. constructor; cbn [w_s w_log w_pl w_rx]; try done. same.
Qed.

Lemma wrun_inv ip w acts :
  lib_ok lib -> winv ip (Z.of_nat (length acts)) w -> Forall action_ok acts ->
  wp (wrun lib aes_cbcdec hz w acts) (winv ip 0).
Proof.
  intros Hlib. revert w. induction acts as [|a acts IH]; intros w Hw Ha; cbn [wrun]; [done|].
  apply Forall_cons_1 in Ha as [Ha Hr]. wp_step. cbn [length] in Hw.
  eapply wp_mono; [apply (wstep_inv ip (Z.of_nat (length acts))); try done; [|lia]|].
  - by replace (Z.of_nat (length acts) + 1) with (Z.of_nat (S (length acts))) by lia.
  - intros w' Hw'. by apply IH.
Qed.
End WorldProofs.

(** ** Properties *)

Section Properties.
Context `{DataModel} {A : Type} (lib : alac_lib A).
Context (oaep_decrypt : bytes -> option bytes) (aes_cbcdec : bytes -> bytes -> bytes -> bytes) (hz : Z).

(** A session that [session_create] made and [session_start] started for the
    sender at [ip]. *)
Definition live (ip : Z) (s : session_t A) : Prop :=
  exists e e' sdp socks seq ts ctl tim r0 s0 r1 req r2,
    session_create lib oaep_decrypt e sdp r0 = (Some s0, r1) /\
    session_start hz e' s0 socks seq ts ip ctl tim r1 = Ret (0, s, req, r2) /\
    0 <= Sdp.frame_length sdp /\ 0 <= seq < 65536.

(** A start gives the invariant, whatever flushes came before it. *)
Lemma start_sinv e (s0 : session_t A) socks seq ts ip ctl tim r1 (s : session_t A) req r2 n log :
  session_start hz e s0 socks seq ts ip ctl tim r1 = Ret (0, s, req, r2) ->
  dec_ok (s_dec s0) (s_fpp s0) -> 0 <= seq < 65536 ->
  0 <= n < 2 ^ 32 - 1 -> 0 <= s_gen s0 /\ s_gen s0 + n < 2 ^ 32 ->
  last_flush log = (if flushed (s_play s0) then Some (boundary_ts (s_play s0)) else None) ->
  sinv ip n log s /\ sink_restart_pending (s_flags s) = sink_restart_pending (s_flags s0).
Proof.
  intros Hst Hd Hq Hn Hg Hf. unfold session_start in Hst. cbv zeta in Hst. destruct (negb (e_malloc e)); [done|].
  match type of Hst with (rbind (send_timing_request _ ?s1 ?t ?x) _) = _ =>
    pose proof (send_timing_request_wp hz s1 t x) as Hw; destruct (send_timing_request hz s1 t x) as [[s2 rq]| |] end;
    [|done|done].
  cbn [rbind wp fst] in *. destruct Hw as ((H1 & H2 & _) & H4 & H5 & H6 & H7 & H8 & H9).
  destruct (negb _); [done|]. destruct (negb _); [done|]. injection Hst as <- <- <-.
  split; [|cbn [with_flags s_flags set_threads_up sink_restart_pending]; by rewrite H4].
  constructor; cbn [with_flags s_jit s_gen s_net s_dec s_fpp s_pcm_cap s_play]; rewrite ?H1, ?H2, ?H5, ?H6, ?H7, ?H8, ?H9;
    cbn [with_flags with_sync with_timing with_play with_clk with_jit with_pcm_cap with_net s_jit s_gen s_net s_dec s_fpp
      s_pcm_cap s_play n_sender_ip flushed boundary_ts]; try done; try lia.
  - by apply jitter_init_ok.
  - change (gen (jitter_init (s_fpp s0) seq ts)) with 1.
    change (play_cursor (jitter_init (s_fpp s0) seq ts)) with seq.
    change (seq_ref (sx (jitter_init (s_fpp s0) seq ts))) with seq. lia.
  - intros x t pl Hx. exfalso. pose proof (abs_init_empty (s_fpp s0) seq ts x) as Hy.
    change (window (jitter_init (s_fpp s0) seq ts) x = None) in Hy. by rewrite Hx in Hy.
Qed.

(** What a created session starts from. *)
Lemma create_blank e sdp r0 (s : session_t A) r1 :
  session_create lib oaep_decrypt e sdp r0 = (Some s, r1) -> 0 <= Sdp.frame_length sdp ->
  dec_ok (s_dec s) (s_fpp s) /\ s_gen s = 0 /\ flushed (s_play s) = false /\ threads_up (s_flags s) = false.
Proof.
  unfold session_create. intros Hc Hf. destruct (raop_oaep_unwrap_key _ _); [|done].
  destruct (alac_open lib _ _ _ _ _) as [d|] eqn:Ed; [|done]. apply alac_open_ok in Ed; [|done]. cbv zeta in Hc.
  destruct (negb _); [done|]. destruct (negb _); [done|]. by injection Hc as <- <-.
Qed.

Lemma live_sinv ip s n : live ip s -> 0 <= n < 2 ^ 32 - 1 -> sinv ip n [] s.
Proof.
  intros (e & e' & sdp & socks & sq & ts & ctl & tim & r0 & s0 & r1 & req & r2 & Hc & Hst & Hf & Hq) Hn.
  apply create_blank in Hc as (Hd & Hg & Hfl & _); [|done].
  apply (start_sinv _ _ _ _ _ _ _ _ _ _ _ _ n [] Hst); try done; [rewrite Hg; lia|by rewrite Hfl].
Qed.

Lemma live_winv ip s last n : live ip s -> 0 <= n < 2 ^ 32 - 1 -> winv ip n (world_init s last).
Proof.
  intros Hl Hn. constructor; cbn [world_init w_s w_log w_pl w_rx]; try done; [by apply live_sinv|by exists 0%nat].
Qed.

(** Fewer actions than would wrap the generation. *)
Definition acts_ok (acts : list action) : Prop :=
  Forall action_ok acts /\ Z.of_nat (length acts) < 2 ^ 32 - 1.

(** C2: what is played is the sender's, current, and in order.  In every
    interleaving of the receiver, the player, flushes and a stop, whatever the
    datagrams and their sources and whatever the sink accepts, no step fails, and:
    each packet the player pops came from the sender's address, entered the buffer
    since the last flush, and is not before that flush's boundary; samples are
    handed to the sink only after a check, itself after the last write, that no
    flush followed the packet's pop, so at most one write can follow a flush; and
    the samples written in a turn are a prefix of that turn's samples. *)
Theorem session_plays_current ip s last acts :
  lib_ok lib -> live ip s -> acts_ok acts ->
  wp (wrun lib aes_cbcdec hz (world_init s last) acts) (fun w =>
    (forall l1 ts pl pcm l2, w_log w = l1 ++ EvTurn (Some (ts, pl)) pcm :: l2 -> fresh ip l2 ts pl) /\
    (forall l1 c l2, w_log w = l1 ++ EvWrite c :: l2 -> armed l2) /\
    (exists k, written (w_log w) = take k (turn_pcm (w_log w)))).
Proof.
  intros Hlib Hlive [Ha Hn]. eapply wp_mono; [apply (wrun_inv lib aes_cbcdec hz ip); [done|apply live_winv; [done|lia]|done]|].
  intros w [_ Hg Hw _ _]. split; [exact (good_turn ip _ Hg)|]. split; [exact (good_write ip _ Hg)|done].
Qed.

(** Every flush reaches the sink.  In every interleaving, while the sink has
    not been restarted since a flush the restart is pending, and the player starts
    at most one turn before it. *)
Theorem session_flush_reaches_sink ip s last acts :
  lib_ok lib -> live ip s -> acts_ok acts ->
  wp (wrun lib aes_cbcdec hz (world_init s last) acts) (fun w =>
    forall k, unrestarted (w_log w) = Some k ->
      sink_restart_pending (s_flags (w_s w)) = true /\ (k <= 1)%nat).
Proof.
  intros Hlib Hlive [Ha Hn]. eapply wp_mono; [apply (wrun_inv lib aes_cbcdec hz ip); [done|apply live_winv; [done|lia]|done]|].
  intros w [_ _ _ _ Hr] k Hk. unfold restart_ok in Hr. rewrite Hk in Hr. by destruct Hr as (? & ? & _).
Qed.
End Properties.

(** ** A run: three packets fill the buffer, one is played, a flush follows *)

Definition sample_sdp2 : Sdp.raop_sdp_t :=
  Sdp.mk_sdp (replicate 256 7) (replicate 16 1) 96 8192 16 2 44100 (replicate 48 0).
Definition sample_created : option (session_t unit) * res_t :=
  session_create sample_alac (fun _ => Some (replicate 16 9)) sample_env sample_sdp2 sample_res.
Definition sample_blank : session_t unit :=
  mk_session [] [] (mk_dec tt 0 0 0 0 0 []) 0 0 (jitter_init 0 0 0) clock_init (mk_net 0 0 0 0 0 0)
    (mk_flags false false false) (fun _ => 0) (mk_timing 0 0 false) (mk_play 0 false 0 false 0) (0, 0) None.
Definition sample_started : run (Z * session_t unit * option bytes * res_t) :=
  @session_start ilp32 unit 100 sample_env (default sample_blank sample_created.1) sample_net_socks 10 1000 40
    6001 6002 sample_created.2.
Definition sample_session : session_t unit :=
  match sample_started with Ret (_, s, _, _) => s | _ => sample_blank end.

Lemma sample_live : @live ilp32 unit sample_alac (fun _ => Some (replicate 16 9)) 100 40 sample_session.
Proof.
  exists sample_env, sample_env, sample_sdp2, sample_net_socks, 10, 1000, 6001, 6002, sample_res,
    (default sample_blank sample_created.1), sample_created.2,
    (match sample_started with Ret (_, _, q, _) => q | _ => None end),
    (match sample_started with Ret (_, _, _, r) => r | _ => sample_res end).
  split; [vm_compute; reflexivity|]. split; [vm_compute; reflexivity|]. cbn. lia.
Qed.

(** A datagram on the audio socket. *)
Definition sample_rx (from sq ts : Z) : action :=
  ARx (mk_rxin (true, false, false) (Some (from, audio_packet false sq ts [0; 0; 0; 0] (32 :: replicate 15 1))) 100 32).

Definition sample_acts : list action :=
  [sample_rx 40 10 1000; sample_rx 99 10 1000; sample_rx 40 10 1000; sample_rx 40 11 1352; sample_rx 40 12 1704] ++
  [APl 0; APl 0; APl 0; APl 3; APl 1; APl 3; AFlush 500 9000; APl 3; APl 3; APl 3; APl 3] ++
  [sample_rx 40 13 2056; APl 0].

Lemma sample_acts_ok : acts_ok sample_acts.
Proof.
  split; [|vm_compute; reflexivity].
  repeat apply List.Forall_cons; try apply List.Forall_nil; cbn [action_ok sample_rx rx_input_ok ri_got]; try done; try lia.
  all: apply bytes_okb_ok; vm_compute; reflexivity.
Qed.

Abbreviation sample_run := (@wrun ilp32 unit sample_alac (fun _ _ b => b) 100 (world_init sample_session 0)).

Lemma session_plays_current_witness :
  (exists w pcm, sample_run sample_acts = Ret w /\
     EvTurn (Some (1000, 32 :: replicate 15 1)) pcm ∈ w_log w /\ EvWrite [0; 0] ∈ w_log w) /\
  wp (sample_run sample_acts) (fun w =>
    (forall l1 ts pl pcm l2, w_log w = l1 ++ EvTurn (Some (ts, pl)) pcm :: l2 -> fresh 40 l2 ts pl) /\
    (forall l1 c l2, w_log w = l1 ++ EvWrite c :: l2 -> armed l2) /\
    (exists k, written (w_log w) = take k (turn_pcm (w_log w)))).
Proof.
  split.
  - eexists _, (replicate 8 0). split; [vm_compute; reflexivity|]. split.
    + cbn [w_log]. do 6 right. left.
    + cbn [w_log]. do 4 right. left.
  - apply (@session_plays_current ilp32 unit sample_alac (fun _ => Some (replicate 16 9)) (fun _ _ b => b) 100 40).
    + intros a inp. reflexivity.
    + exact sample_live.
    + exact sample_acts_ok.
Defined.

Lemma session_flush_reaches_sink_witness :
  (exists w, sample_run (take 12 sample_acts) = Ret w /\ unrestarted (w_log w) = Some 0%nat) /\
  wp (sample_run (take 12 sample_acts)) (fun w =>
    forall k, unrestarted (w_log w) = Some k ->
      sink_restart_pending (s_flags (w_s w)) = true /\ (k <= 1)%nat).
Proof.
  split.
  - eexists. split; [vm_compute; reflexivity|]. reflexivity.
  - apply (@session_flush_reaches_sink ilp32 unit sample_alac (fun _ => Some (replicate 16 9)) (fun _ _ b => b) 100 40).
    + intros a inp. reflexivity.
    + exact sample_live.
    + destruct sample_acts_ok as [Ha _]. split; [by apply Forall_take|]. vm_compute. reflexivity.
Defined.
