(* ===== verification/SessionLive.v ===== *)
(** * Liveness of the player ([src/session.c], [src/jitter.c])

    The player always gets back to playing: concealing leads to the packet that
    justified it, and a lapped buffer is left by a resync, for every frame length
    whose conceal window covers the resync's preroll.  For longer frames it can be
    stuck for ever. *)
From Stdlib Require Import ZArith Lia.
From stdpp Require Import base numbers list option.
From S2P Require Import Prelude Seqext Jitter JitterSpec Session.

Local Open Scope Z_scope.

(** ** The conceal deadline *)

Lemma deadline_scan_iff fuel j e last lim :
  lim - e <= Z.of_nat fuel ->
  deadline_scan fuel j e last lim = true <->
  exists x, e <= x <= last /\ x < lim /\ slot_received j x = true.
Proof.
  revert e. induction fuel as [|fuel IH]; intros e Hf; cbn [deadline_scan].
  { split; [done|]. intros (x & ? & ? & _). lia. }
  destruct (Z.leb_spec e last); cbn [andb]; [destruct (Z.ltb_spec e lim)|].
  2,3: split; [done|]; intros (x & ? & ? & _); lia.
  destruct (slot_received j e) eqn:Hr.
  { split; [|done]. intros _. exists e. split_and!; [lia|lia|lia|done]. }
  rewrite IH by lia. split; intros (x & Hx & Hl & Hs); exists x; split_and!; try done; try lia.
  destruct (decide (x = e)) as [->|]; [congruence|lia].
Qed.

(** A slot is past its deadline exactly when a packet of the conceal window after
    it has been received. *)
Lemma session_deadline_iff j c :
  0 <= c < 2 ^ 62 -> 1 <= frames_per_pkt j ->
  session_deadline j c = true <->
  exists x, c < x <= c + deadline_pkts (frames_per_pkt j) /\ x < c + 512 /\ slot_received j x = true.
Proof.
  intros Hc Hf. unfold session_deadline. cbv zeta.
  assert (1 <= deadline_pkts (frames_per_pkt j) <= 22050) as Hd.
  { unfold deadline_pkts, START_FILL_FRAMES. cbv zeta.
    destruct (Z.ltb_spec 0 (frames_per_pkt j)); [|lia].
    destruct (Z.ltb_spec (Z.quot 22050 (frames_per_pkt j)) 1); [lia|].
    split; [done|]. rewrite Z.quot_div_nonneg by lia. apply Z.div_le_upper_bound; lia. }
  unfold JITTER_SLOTS. rewrite !u64_small by lia. rewrite deadline_scan_iff by lia.
  split; intros (x & ? & ? & ?); exists x; split_and!; try done; lia.
Qed.

(** ** Turns of the player on its own *)

Section Live.
Context `{DataModel} {A : Type}.
Implicit Types s : session_t A.

(** One iteration of [pl_thread]'s loop, up to what it plays. *)
Definition pl_iter s : session_t A * turn := pl_turn (pl_rearm s).

Fixpoint pl_iters (n : nat) s : session_t A * list turn :=
  match n with
  | O => (s, [])
  | S n =>
      let '(s, t) := pl_iter s in
      let '(s, ts) := pl_iters n s in (s, t :: ts)
  end.

(** A packet was popped to be played. *)
Definition plays (t : turn) : Prop :=
  match t with TSlot slot _ => js_kind slot = POP_DATA | _ => False end.

(** The fill gate is open, and the counters are far from wrapping. *)
Record playing s : Prop := {
  p_jit : jitter_ok (s_jit s);
  p_started : started (s_play s) = true;
  p_fpp : 1 <= frames_per_pkt (s_jit s);
  p_gen : gen (s_jit s) < 2 ^ 32 - 1;
  p_seq : seq_ref (sx (s_jit s)) < 2 ^ 60;
  p_cur : play_cursor (s_jit s) < 2 ^ 60 + 1024;
}.

Lemma playing_room s : playing s -> jitter_room (s_jit s).
Proof. intros []. unfold jitter_room. lia. Qed.

Definition cursor s : Z := play_cursor (s_jit s).
Definition received s (e : Z) : Prop := slot_received (s_jit s) e = true.
Definition conceal_window s : Z := deadline_pkts (frames_per_pkt (s_jit s)).

(** An iteration that finds the cursor's packet plays it; one that sees a packet
    in the conceal window conceals and moves on, and the packet stays. *)
Lemma pl_iter_received s : playing s -> received s (cursor s) -> plays (pl_iter s).2.
Proof.
  intros Hp Hr. pose proof (playing_room s Hp) as Hroom. destruct Hp as [Hok Hst _ _ _ _].
  unfold pl_iter, pl_turn.
  assert (s_jit (pl_rearm s) = s_jit s /\ started (s_play (pl_rearm s)) = true) as [Hj Hs2].
  { unfold pl_rearm. by case_match. }
  rewrite Hs2. unfold pl_pop. rewrite Hj.
  destruct (jitter_pop _ (s_jit s)) as [j r] eqn:E.
  apply jitter_pop_cases in E as (_ & _ & _ & _ & Hc); [|done..].
  apply window_is_Some in Hr. destruct r as [slot|].
  - destruct Hc as (_ & _ & _ & Hk & _). cbn [snd plays]. destruct (js_kind slot); [done|].
    destruct Hk as (Hn & _). unfold cursor in Hr. rewrite Hn in Hr. by destruct Hr.
  - destruct Hc as (_ & Hn & _). unfold cursor in Hr. rewrite Hn in Hr. by destruct Hr.
Qed.

Lemma pl_iter_conceal s x :
  playing s -> cursor s < 2 ^ 60 -> ~ received s (cursor s) ->
  cursor s < x <= cursor s + conceal_window s -> x < cursor s + 512 -> received s x ->
  playing (pl_iter s).1 /\ cursor (pl_iter s).1 = cursor s + 1 /\
  conceal_window (pl_iter s).1 = conceal_window s /\ received (pl_iter s).1 x.
Proof.
  intros Hp Hlt Hn Hx Hx2 Hr. pose proof (playing_room s Hp) as Hroom. destruct Hp as [Hok Hst Hf Hg Hq Hc].
  unfold pl_iter, pl_turn, cursor, received, conceal_window in *.
  assert (s_jit (pl_rearm s) = s_jit s /\ started (s_play (pl_rearm s)) = true) as [Hj Hs2].
  { unfold pl_rearm. by case_match. }
  pose proof (ok_bound _ Hok) as Hb.
  assert (session_deadline (s_jit s) (play_cursor (s_jit s)) = true) as Hd.
  { apply session_deadline_iff; [lia|done|]. exists x. done. }
  rewrite Hs2. unfold pl_pop. rewrite Hj.
  destruct (jitter_pop _ (s_jit s)) as [j r] eqn:E. pose proof E as E0.
  apply jitter_pop_cases in E as (Hok' & Hg' & _ & Hsx & Hcs); [|done..].
  destruct r as [slot|].
  - destruct Hcs as (Hc' & _ & _ & _ & Hw). cbn [fst with_jit s_jit s_play].
    assert (frames_per_pkt j = frames_per_pkt (s_jit s)) as Hfp.
    { unfold jitter_pop in E0. repeat case_match; by injection E0 as <- _. }
    split_and!; [constructor; cbn [with_jit s_jit s_play]; rewrite ?Hg', ?Hsx, ?Hfp; try done; lia|done|by rewrite Hfp|].
    apply window_is_Some. rewrite Hw. rewrite bool_decide_eq_false_2; [by apply window_is_Some|].
    intros Hm. assert ((x - play_cursor (s_jit s)) mod 512 = 0) as Hz.
    { rewrite Zminus_mod, Hm, Z.sub_diag. done. }
    rewrite Z.mod_small in Hz by lia. lia.
  - destruct Hcs as (_ & _ & Hf2). by rewrite Hd in Hf2.
Qed.

Lemma pl_iters_S n s : (pl_iters (S n) s).2 = (pl_iter s).2 :: (pl_iters n (pl_iter s).1).2.
Proof. cbn [pl_iters]. destruct (pl_iter s) as [s1 t]. cbn [fst snd]. by destruct (pl_iters n s1). Qed.

Lemma plays_more m n s : (m <= n)%nat -> Exists plays (pl_iters m s).2 -> Exists plays (pl_iters n s).2.
Proof.
  revert n s. induction m as [|m IH]; intros n s Hn He; [by inversion He|].
  destruct n as [|n]; [lia|]. rewrite pl_iters_S in *.
  apply Exists_cons in He as [He|He]; [by left|right]. apply IH; [lia|done].
Qed.

(** A packet within the conceal window is reached: one iteration per slot. *)
Lemma reaches m s x :
  playing s -> cursor s <= x <= cursor s + Z.of_nat m -> x <= cursor s + conceal_window s ->
  x < cursor s + 512 -> x < 2 ^ 60 -> received s x ->
  Exists plays (pl_iters (S m) s).2.
Proof.
  revert s. induction m as [|m IH]; intros s Hp Hx Hw H512 Hlt Hr.
  { rewrite pl_iters_S. left. apply pl_iter_received; [done|]. by replace (cursor s) with x by lia. }
  rewrite pl_iters_S. destruct (slot_received (s_jit s) (cursor s)) eqn:Hc.
  { left. by apply pl_iter_received. }
  right. assert (x <> cursor s) by (intros ->; unfold received in Hr; congruence).
  destruct (pl_iter_conceal s x) as (P1 & P2 & P3 & P4); try done; try lia.
  { unfold received. by rewrite Hc. }
  apply IH; try done; rewrite ?P2, ?P3; lia.
Qed.

(** ** Resync *)

(** The newest packet received at or after the cursor ends a run of eight, and is
    far enough ahead for a resync. *)
Definition lapped s (hi : Z) : Prop :=
  cursor s + RESYNC_BEHIND <= hi /\
  (forall e, hi - RESYNC_MIN_RUN < e <= hi -> received s e) /\
  (forall e, cursor s <= e -> received s e -> e <= hi).

(** A resync fires on a lapped buffer. *)
Lemma resync_fires j hi :
  jitter_ok j -> jitter_room j -> play_cursor j + RESYNC_BEHIND <= hi ->
  (forall e, hi - RESYNC_MIN_RUN < e <= hi -> slot_received j e = true) ->
  (forall e, play_cursor j <= e -> slot_received j e = true -> e <= hi) ->
  exists sk, (jitter_try_resync j).2 = Some sk.
Proof.
  intros Hok (_ & Hc & Hq) Hh Hrun Hmax. unfold RESYNC_BEHIND, RESYNC_MIN_RUN in *.
  assert (is_Some (window j hi)) as Hhi by (apply window_is_Some, Hrun; lia).
  pose proof (window_range j hi Hok Hhi) as Hr. pose proof (ok_bound j Hok) as Hb.
  pose proof (scan_hi_spec j Hok) as Hs. unfold jitter_try_resync.
  destruct (foldl (scan_hi j) None (ring j)) as [hi'|].
  2:{ rewrite (Hs hi) in Hhi by lia. by destruct Hhi. }
  destruct Hs as (S1 & S2 & S3).
  assert (hi' = hi) as ->.
  { apply Z.le_antisymm; [|by apply S3; [lia|]]. by apply Hmax; [|apply window_is_Some]. }
  unfold RESYNC_BEHIND, RESYNC_MIN_RUN. rewrite (u64_small (play_cursor j + 128)) by lia.
  destruct (Z.ltb_spec hi (play_cursor j + 128)); [lia|].
  pose proof (walk_back_spec (Z.to_nat JITTER_SLOTS) j hi) as W. cbv zeta in W |- *.
  pose proof (walk_back_fuel j hi Hok Hhi) as Wf. unfold JITTER_SLOTS in Wf at 2.
  set (r := walk_back _ j hi) in *. destruct W as (W1 & W2 & W3 & W4 & W5). specialize (W2 ltac:(lia)).
  assert (hi - r + 1 >= 8) as Hlen.
  { destruct W5 as [W5|W5]; [unfold JITTER_SLOTS; lia|lia|].
    destruct (decide (r <= hi - 7)); [lia|]. rewrite Hrun in W5 by lia. done. }
  rewrite u64_small by lia. destruct (Z.ltb_spec (hi - r + 1) 8); [lia|]. cbn [snd]. by eexists.
Qed.

(** An iteration that stalls: while the hysteresis holds only its count changes;
    when it is over, the resync moves the cursor to at most sixteen packets before
    a received one. *)
Lemma pl_iter_stall s hi :
  playing s -> cursor s < 2 ^ 60 -> lapped s hi -> hi < 2 ^ 60 -> 16 <= conceal_window s ->
  ~ received s (cursor s) ->
  (forall x, cursor s < x <= cursor s + conceal_window s -> x < cursor s + 512 -> ~ received s x) ->
  let s' := (pl_iter s).1 in
  playing s' /\ conceal_window s' = conceal_window s /\
  if 1 <? resync_hold (s_play s) then
    s_jit s' = s_jit s /\ resync_hold (s_play s') = resync_hold (s_play s) - 1
  else exists x, cursor s' <= x <= cursor s' + 16 /\ x <= hi /\ received s' x.
Proof.
  intros Hp Hlt (Hl1 & Hl2 & Hl3) Hhi Hw Hn Hno. cbv zeta.
  pose proof (playing_room s Hp) as Hroom. destruct Hp as [Hok Hst Hf Hg Hq Hc].
  unfold pl_iter, pl_turn, cursor, received, conceal_window in *.
  pose proof (ok_bound _ Hok) as Hb.
  set (s1 := pl_rearm s).
  assert (s_jit s1 = s_jit s /\ started (s_play s1) = true /\
    resync_hold (s_play s1) = (if 0 <? resync_hold (s_play s) then resync_hold (s_play s) - 1 else resync_hold (s_play s)))
    as (Hj & Hs1 & Hh1).
  { unfold s1, pl_rearm. by destruct (0 <? resync_hold (s_play s)). }
  rewrite Hs1. unfold pl_pop. rewrite Hj.
  assert (session_deadline (s_jit s) (play_cursor (s_jit s)) = false) as Hd.
  { apply not_true_is_false. rewrite session_deadline_iff by (done || lia).
    intros (x & X1 & X2 & X3). by apply (Hno x). }
  destruct (jitter_pop _ (s_jit s)) as [j r] eqn:E.
  apply jitter_pop_cases in E as (_ & _ & _ & _ & Hcs); [|done..].
  destruct r as [slot|].
  { exfalso. destruct Hcs as (_ & _ & _ & Hk & _). destruct (js_kind slot).
    - apply Hn, window_is_Some. by rewrite Hk.
    - destruct Hk as (_ & _ & _ & f & [= <-] & Hf2). congruence. }
  destruct Hcs as (-> & _). cbn [with_jit s_play s_jit]. rewrite Hh1.
  destruct (Z.ltb_spec 1 (resync_hold (s_play s))) as [H1|H1].
  { destruct (Z.ltb_spec 0 (resync_hold (s_play s))); [|lia].
    destruct (Z.leb_spec (resync_hold (s_play s) - 1) 0); [lia|]. cbn [fst with_jit s_jit s_play].
    rewrite Hh1. split_and!; try done. }
  replace (_ <=? 0) with true by (destruct (Z.ltb_spec 0 (resync_hold (s_play s))); symmetry; apply Z.leb_le; lia).
  destruct (resync_fires (s_jit s) hi) as [sk Hsk]; try done.
  destruct (jitter_try_resync (s_jit s)) as [j2 did] eqn:E2. cbn [snd] in Hsk. subst did.
  apply jitter_try_resync_cases in E2 as (Hok2 & Hw2 & Hg2 & _ & Hx2 & Hf2 & _ & _ & run & hi2 & R1 & R2 & R3 & R4 & R5 & R6); [|done..].
  unfold RESYNC_MIN_RUN, RESYNC_PREROLL, RESYNC_BEHIND in *.
  assert (is_Some (window (s_jit s) run)) as Hrw by (apply R4; lia).
  pose proof Hrw as Hrw'. apply window_is_Some in Hrw'.
  assert (play_cursor (s_jit s) < run) as Hcr.
  { destruct (Z.lt_total (play_cursor (s_jit s)) run) as [?|[He|?]]; [done| |].
    - exfalso. apply Hn. by rewrite He.
    - exfalso. apply Hn, window_is_Some, R4. lia. }
  assert (hi2 <= hi) as Hhh by (apply Hl3; [lia|]; apply window_is_Some, R4; lia).
  cbn [fst with_jit with_play s_jit s_play set_hold started].
  split_and!; [|by rewrite Hf2|].
  - constructor; cbn [with_jit with_play s_jit s_play set_hold started]; rewrite ?Hg2, ?Hx2, ?Hf2; try done; try lia.
  - exists run. split_and!; try lia. apply window_is_Some. by rewrite Hw2.
Qed.

(** Stalling until the resync, then playing. *)
Lemma stalls_end n s hi :
  Z.max (resync_hold (s_play s)) 1 <= Z.of_nat n ->
  playing s -> cursor s < 2 ^ 60 -> lapped s hi -> hi < 2 ^ 60 -> 16 <= conceal_window s ->
  ~ received s (cursor s) ->
  (forall x, cursor s < x <= cursor s + conceal_window s -> x < cursor s + 512 -> ~ received s x) ->
  Exists plays (pl_iters (n + 17) s).2.
Proof.
  revert s. induction n as [|n IH]; intros s Hh Hp Hlt Hl Hhi Hw Hn Hno; [lia|].
  destruct (pl_iter_stall s hi) as (P1 & P2 & P3); try done.
  change (S n + 17)%nat with (S (n + 17)). rewrite pl_iters_S. right.
  destruct (Z.ltb_spec 1 (resync_hold (s_play s))).
  - destruct P3 as [Hj Hh']. unfold lapped, received, cursor, conceal_window in *. rewrite <- Hj in *.
    apply (IH (pl_iter s).1); try done. lia.
  - destruct P3 as (x & X1 & X2 & X3). apply (plays_more 17); [lia|].
    apply (reaches 16 _ x); try done; try lia.
Qed.

(** ** Long frames

    With a conceal window shorter than the preroll the resync can land where it
    started: the received run begins out of sight of the cursor, but less than
    sixteen packets after it. *)
Definition stuck s (r hi : Z) : Prop :=
  16 <= cursor s /\ cursor s + conceal_window s < r <= cursor s + 16 /\ r <= hi /\
  (forall e, cursor s <= e -> received s e <-> r <= e <= hi).

Lemma resync_stays j r hi :
  jitter_ok j -> jitter_room j -> 16 <= play_cursor j < r -> r <= play_cursor j + 16 -> r <= hi ->
  (forall e, play_cursor j <= e -> slot_received j e = true <-> r <= e <= hi) ->
  let j' := (jitter_try_resync j).1 in
  play_cursor j' = play_cursor j /\ ring j' = ring j /\ gen j' = gen j /\ sx j' = sx j /\
  frames_per_pkt j' = frames_per_pkt j /\ jitter_ok j'.
Proof.
  intros Hok (_ & Hc & Hq) Hr Hr2 Hrh Hw. unfold jitter_try_resync.
  assert (is_Some (window j hi)) as Hhi by (apply window_is_Some, Hw; lia).
  pose proof (window_range j hi Hok Hhi) as Hrg.
  pose proof (scan_hi_spec j Hok) as Hs. cbv zeta.
  destruct (foldl (scan_hi j) None (ring j)) as [hi'|]; [|by split_and!].
  destruct Hs as (S1 & S2 & S3).
  assert (hi' = hi) as ->.
  { apply Z.le_antisymm; [|by apply S3; [lia|]]. apply window_is_Some, Hw in S2; lia. }
  destruct (hi <? _); [by split_and!|].
  pose proof (walk_back_spec (Z.to_nat JITTER_SLOTS) j hi) as W. cbv zeta in W.
  pose proof (walk_back_fuel j hi Hok Hhi) as Wf.
  set (w := walk_back _ j hi) in *. destruct W as (W1 & W2 & W3 & W4 & W5). specialize (W2 ltac:(lia)).
  assert (w = r) as ->.
  { destruct (decide (w < r)) as [Hlt|].
    - destruct (decide (w = hi)); [lia|]. assert (slot_received j w = true) as Hx by (apply W4; lia).
      apply Hw in Hx; lia.
    - destruct (decide (w = r)); [done|]. exfalso.
      destruct W5 as [W5|W5]; [change (Z.of_nat (Z.to_nat JITTER_SLOTS)) with JITTER_SLOTS; lia|lia|].
      apply not_true_iff_false in W5. apply W5, Hw; lia. }
  destruct (_ <? RESYNC_MIN_RUN); [by split_and!|]. unfold RESYNC_PREROLL. destruct (Z.ltb_spec 16 r); [|lia].
  replace (if r - 16 <? play_cursor j then play_cursor j else r - 16) with (play_cursor j)
    by (destruct (Z.ltb_spec (r - 16) (play_cursor j)); lia).
  cbn [fst play_cursor ring gen sx frames_per_pkt]. split_and!; try done. jframe j.
Qed.

Lemma pl_iter_stuck s r hi :
  playing s -> cursor s < 2 ^ 60 -> stuck s r hi ->
  let '(s', t) := pl_iter s in playing s' /\ cursor s' = cursor s /\ stuck s' r hi /\ ~ plays t.
Proof.
  intros Hp Hlt (Hs1 & Hs2 & Hs3 & Hs4). pose proof (playing_room s Hp) as Hroom.
  destruct Hp as [Hok Hst Hf Hg Hq Hc].
  unfold pl_iter, pl_turn, stuck, cursor, received, conceal_window in *.
  set (s1 := pl_rearm s).
  assert (s_jit s1 = s_jit s /\ started (s_play s1) = true) as (Hj & Hst1).
  { unfold s1, pl_rearm. by destruct (0 <? resync_hold (s_play s)). }
  assert (1 <= deadline_pkts (frames_per_pkt (s_jit s))) as Hd1.
  { unfold deadline_pkts. cbv zeta. destruct (Z.ltb_spec (Z.quot START_FILL_FRAMES
      (if 0 <? frames_per_pkt (s_jit s) then frames_per_pkt (s_jit s) else 1)) 1); lia. }
  rewrite Hst1. unfold pl_pop. rewrite Hj.
  destruct (jitter_pop _ (s_jit s)) as [j pr] eqn:E.
  apply jitter_pop_cases in E as (_ & _ & _ & _ & Hcs); [|done..].
  destruct pr as [slot|].
  { exfalso. destruct Hcs as (_ & _ & _ & Hk & _). destruct (js_kind slot).
    - assert (slot_received (s_jit s) (play_cursor (s_jit s)) = true) as Hx by (apply window_is_Some; by rewrite Hk).
      apply Hs4 in Hx; lia.
    - destruct Hk as (_ & _ & _ & f & [= <-] & Hf2). apply session_deadline_iff in Hf2 as (x & X1 & X2 & X3); [|lia|done].
      apply Hs4 in X3; lia. }
  destruct Hcs as (-> & _). cbn [with_jit s_play s_jit].
  destruct (_ <=? 0).
  2:{ cbn [with_jit s_jit]. split_and!; try done; try lia. intros []. }
  pose proof (resync_stays (s_jit s) r hi Hok Hroom ltac:(lia) ltac:(lia) Hs3 Hs4) as Hr. cbv zeta in Hr.
  destruct (jitter_try_resync (s_jit s)) as [j2 did]. cbn [fst] in Hr. destruct Hr as (C1 & C2 & C3 & C4 & C5 & C6).
  assert (forall e, slot_received j2 e = slot_received (s_jit s) e) as Hsame.
  { intros e. unfold slot_received, slot_for. by rewrite C2, C3. }
  assert (playing (with_jit s1 j2)) as Hp2.
  { constructor; cbn [with_jit s_jit s_play]; rewrite ?C1, ?C3, ?C4, ?C5; done. }
  destruct did; cbn [fst with_jit with_play s_jit]; rewrite ?C1, ?C5;
    split_and!; first
      [ done | lia | by intros [] | by destruct Hp2; constructor | intros e He; rewrite Hsame; by apply Hs4 ].
Qed.

(** Whatever the number of iterations, a stuck player never plays again. *)
Lemma player_wedges n s r hi :
  playing s -> cursor s < 2 ^ 60 -> stuck s r hi ->
  cursor (pl_iters n s).1 = cursor s /\ Forall (fun t => ~ plays t) (pl_iters n s).2.
Proof.
  revert s. induction n as [|n IH]; intros s Hp Hlt Hst; [done|]. cbn [pl_iters].
  pose proof (pl_iter_stuck s r hi Hp Hlt Hst) as Hi. destruct (pl_iter s) as [s1 t].
  destruct Hi as (Hp1 & Hc1 & Hst1 & Hnp). specialize (IH s1 Hp1 ltac:(lia) Hst1).
  destruct (pl_iters n s1) as [s2 ts]. cbn [fst snd] in *. destruct IH as [-> IH]. split; [done|]. by constructor.
Qed.

(** C23: the player always gets back to playing.  With a frame length whose conceal
    window is at least sixteen packets (up to 1378 samples, so for the 352 of every
    sender), when the newest packet received is a resync distance ahead and ends a
    run of eight, the player on its own plays a received packet within as many
    iterations as the hysteresis still holds plus one conceal window. *)
Theorem player_unwedges s hi :
  playing s -> cursor s < 2 ^ 60 -> lapped s hi -> hi < 2 ^ 60 -> frames_per_pkt (s_jit s) <= 1378 ->
  Exists plays (pl_iters (Z.to_nat (Z.max (resync_hold (s_play s)) 1 + conceal_window s + 1)) s).2.
Proof.
  intros Hp Hlt Hl Hhi Hf.
  assert (16 <= conceal_window s) as Hw.
  { unfold conceal_window, deadline_pkts, START_FILL_FRAMES. cbv zeta. pose proof (p_fpp s Hp).
    destruct (Z.ltb_spec 0 (frames_per_pkt (s_jit s))); [|lia]. rewrite Z.quot_div_nonneg by lia.
    assert (16 <= 22050 / frames_per_pkt (s_jit s)) by (apply Z.div_le_lower_bound; lia).
    destruct (Z.ltb_spec (22050 / frames_per_pkt (s_jit s)) 1); lia. }
  destruct (slot_received (s_jit s) (cursor s)) eqn:Hc.
  { apply (plays_more 1); [lia|]. rewrite pl_iters_S. left. by apply pl_iter_received. }
  assert (~ received s (cursor s)) as Hn by (unfold received; congruence).
  destruct (session_deadline (s_jit s) (cursor s)) eqn:Hd.
  - pose proof (ok_bound _ (p_jit s Hp)).
    apply session_deadline_iff in Hd as (x & X1 & X2 & X3); [|unfold cursor in *; lia|apply Hp].
    destruct Hl as (_ & _ & Hmax).
    assert (x <= hi) by (apply Hmax; [lia|done]).
    apply (plays_more (S (Z.to_nat (x - cursor s)))); [unfold conceal_window in *; lia|].
    apply (reaches _ s x); try done; try lia. unfold conceal_window. lia.
  - apply (plays_more (Z.to_nat (Z.max (resync_hold (s_play s)) 1) + 17)); [lia|].
    apply (stalls_end _ s hi); try done; [lia|].
    intros x X1 X2 X3. pose proof (ok_bound _ (p_jit s Hp)). apply not_true_iff_false in Hd. apply Hd.
    apply session_deadline_iff; [unfold cursor in *; lia|apply Hp|]. by exists x.
Qed.
End Live.

(** ** Samples *)

(** A player in the middle of a hysteresis on the given buffer. *)
Definition sample_player (j : jitter_t) (hold : Z) : session_t unit :=
  mk_session [] [] (AlacShim.mk_dec tt 0 0 0 0 0 []) (frames_per_pkt j) 0 j Clock.clock_init
    (mk_net 5 6 7 40 6001 6002) (mk_flags true false true) (fun _ => 0) (mk_timing 0 0 false)
    (mk_play 10 true 0 false hold) (0, 0) (Some (frames_per_pkt j * 2)).

Lemma sample_playing j hold :
  jitter_ok j -> 1 <= frames_per_pkt j -> gen j < 2 ^ 32 - 1 -> seq_ref (sx j) < 2 ^ 60 ->
  play_cursor j < 2 ^ 60 + 1024 -> playing (sample_player j hold).
Proof. intros. by constructor. Qed.

Lemma sample_is_lapped j hold hi :
  jitter_ok j -> seq_ref (sx j) = hi -> play_cursor j + 128 <= hi ->
  forallb (fun i => slot_received j (hi - Z.of_nat i)) (seq 0 8) = true ->
  lapped (sample_player j hold) hi.
Proof.
  intros Hok Hq Hc Hall. split; [done|]. split.
  - intros e He. unfold RESYNC_MIN_RUN in He. rewrite forallb_forall in Hall.
    specialize (Hall (Z.to_nat (hi - e))). replace (hi - Z.of_nat (Z.to_nat (hi - e))) with e in Hall by lia.
    apply Hall, in_seq. lia.
  - intros e _ Hr. apply window_is_Some in Hr. apply (window_range j e Hok) in Hr. lia.
Qed.

Lemma sample_is_stuck j hold r hi :
  jitter_ok j -> seq_ref (sx j) = hi -> 16 <= play_cursor j ->
  play_cursor j + deadline_pkts (frames_per_pkt j) < r <= play_cursor j + 16 -> r <= hi ->
  forallb (fun i => negb (slot_received j (r - 1 - Z.of_nat i))) (seq 0 (Z.to_nat (r - play_cursor j))) = true ->
  forallb (fun i => slot_received j (r + Z.of_nat i)) (seq 0 (Z.to_nat (hi - r + 1))) = true ->
  stuck (sample_player j hold) r hi.
Proof.
  intros Hok Hq H16 Hr Hrh Hno Hall. split; [done|]. split; [done|]. split; [done|].
  unfold cursor, received. cbn [sample_player s_jit]. rewrite forallb_forall in Hno, Hall. intros e He. split.
  - intros Hs. pose proof Hs as Hw. apply window_is_Some in Hw. apply (window_range j e Hok) in Hw.
    split; [|lia]. destruct (decide (r <= e)); [done|]. exfalso.
    specialize (Hno (Z.to_nat (r - 1 - e))). replace (r - 1 - Z.of_nat (Z.to_nat (r - 1 - e))) with e in Hno by lia.
    rewrite Hs in Hno. cbn [negb] in Hno. discriminate Hno. apply in_seq. lia.
  - intros Hs. specialize (Hall (Z.to_nat (e - r))). replace (r + Z.of_nat (Z.to_nat (e - r))) with e in Hall by lia.
    apply Hall, in_seq. lia.
Qed.

Lemma player_unwedges_witness :
  slot_received sample_lapped (play_cursor sample_lapped) = false /\
  Exists plays (@pl_iters lp64 unit
    (Z.to_nat (Z.max (resync_hold (s_play (sample_player sample_lapped 3))) 1 +
       conceal_window (sample_player sample_lapped 3) + 1)) (sample_player sample_lapped 3)).2.
Proof.
  split; [vm_compute; reflexivity|].
  apply (@player_unwedges lp64 unit (sample_player sample_lapped 3) 65743).
  - apply sample_playing; [exact sample_lapped_ok|vm_compute; discriminate|vm_compute; reflexivity..].
  - vm_compute. reflexivity.
  - apply sample_is_lapped; [exact sample_lapped_ok|vm_compute; reflexivity|vm_compute; discriminate|vm_compute; reflexivity].
  - lia.
  - vm_compute. discriminate.
Defined.

(** Frames of 4096 samples, which [sdp.c] accepts: six packets are lost, the next
    131 arrive. *)
Definition sample_long : jitter_t :=
  (@exec lp64 (jitter_init 4096 100 0) (map (fun i => OpInsert (106 + Z.of_nat i) 0 [1]) (seq 0 131))).2.

Lemma sample_long_ok : jitter_ok sample_long.
Proof.
  unfold sample_long. set (ops := map _ _). eapply (@jrun_refines lp64 (jitter_init 4096 100 0)
    (@exec lp64 (jitter_init 4096 100 0) ops).1).
  - apply jitter_init_ok. lia.
  - split; vm_compute; reflexivity.
  - apply exec_jrun. vm_compute. reflexivity.
Qed.

(** The player never plays again, however long it runs. *)
Lemma long_frames_wedge n :
  cursor (@pl_iters lp64 unit n (sample_player sample_long 0)).1 = cursor (sample_player sample_long 0) /\
  Forall (fun t => ~ plays t) (@pl_iters lp64 unit n (sample_player sample_long 0)).2.
Proof.
  apply (player_wedges n (sample_player sample_long 0) 106 236).
  - apply sample_playing; [exact sample_long_ok|vm_compute; discriminate|vm_compute; reflexivity..].
  - vm_compute. reflexivity.
  - apply sample_is_stuck; [exact sample_long_ok|vm_compute; reflexivity|vm_compute; discriminate| |lia|vm_compute; reflexivity..].
    split; [vm_compute; reflexivity|vm_compute; discriminate].
Qed.
