(* ===== verification/SessionStop.v ===== *)
(** * The end of the session's threads ([src/session.c])

    What a step of a thread leaves alone, whatever it meets, and the join of
    [session_stop]: once [running] is clear both threads end within a bounded number
    of their own steps, wherever the stop finds them. *)
From Stdlib Require Import ZArith Lia.
From stdpp Require Import base numbers list option.
From S2P Require Import Prelude Seqext Jitter JitterSpec Clock Rtp B64 AlacShim Session SessionRun.

Local Open Scope Z_scope.

(** ** What a step leaves alone *)

Section Steady.
Context `{DataModel} {A : Type} (lib : alac_lib A).
Context (aes_cbcdec : bytes -> bytes -> bytes -> bytes) (hz : Z).
Implicit Types s : session_t A.

(** The fields no thread writes, and those and the decoder. *)
Definition fixed {A} (s : session_t A) :=
  (s_net s, s_pcm_cap s, threads_up (s_flags s), running (s_flags s), (s_key s, s_iv s, s_fpp s)).
Definition steady {A} (s s' : session_t A) : Prop := fixed s' = fixed s.
Definition quiet {A} (s s' : session_t A) : Prop := steady s s' /\ s_dec s' = s_dec s.

Lemma steady_trans {B} (s1 s2 s3 : session_t B) : steady s1 s2 -> steady s2 s3 -> steady s1 s3.
Proof. unfold steady. congruence. Qed.

Lemma untouched_trans {B} (s1 s2 s3 : session_t B) : quiet s1 s2 -> quiet s2 s3 -> quiet s1 s3.
Proof. intros [? ?] [? ?]. split; [by eapply steady_trans|congruence]. Qed.

Lemma steady_holdings {B} (s s' : session_t B) : steady s s' -> same_holdings s s' /\ running (s_flags s') = running (s_flags s).
Proof. unfold steady, fixed, same_holdings. intros E. injection E. auto. Qed.

Ltac still := repeat lazymatch goal with
  | |- rl (rbind _ _) _ => apply rl_any; intros ?
  | |- rl (let '(_, _) := ?r in _) _ => destruct r
  | |- rl (match ?o with _ => _ end) _ => destruct o
  end; try done.

Lemma rx_insert_quiet s a pl : quiet s (rx_insert s a pl).1.
Proof. unfold rx_insert. repeat case_match; done. Qed.

Lemma rx_audio_quiet s buf : rl (rx_audio s buf) (fun r => quiet s r.1).
Proof.
  unfold rx_audio. apply rl_any. intros [a|]; [|done]. apply rl_any. intros pl.
  pose proof (rx_insert_quiet s a pl) as Hi. destruct (rx_insert s a pl). exact Hi.
Qed.

Lemma rx_dispatch_quiet s fd buf t : rl (rx_dispatch hz s fd buf t) (fun r => quiet s r.1).
Proof. unfold rx_dispatch. cbv zeta. still; first [apply rx_audio_quiet | cbn; by repeat case_match]. Qed.

Lemma send_quiet s t x : rl (send_timing_request hz s t x) (fun r => quiet s r.1).
Proof. unfold send_timing_request. cbv zeta. still. Qed.

(** A start keeps the key, the vector, the packet length and the decoder. *)
Lemma start_codec e s socks seq ts ip ctl tim r :
  rl (session_start hz e s socks seq ts ip ctl tim r) (fun '(_, s', _, _) =>
    s_key s' = s_key s /\ s_iv s' = s_iv s /\ s_fpp s' = s_fpp s /\ s_dec s' = s_dec s).
Proof.
  unfold session_start. cbv zeta. destruct (negb _); [done|].
  eapply rl_bind; [apply send_quiet|]. intros [s1 rq] [Hs Hd]. unfold steady, fixed in Hs.
  injection Hs as _ _ _ _ Hk Hi Hf. destruct (negb _); [done|]. by destruct (negb _).
Qed.

Lemma rx_timing_quiet s now t x : rl (rx_timing hz s now t x) (fun r => quiet s r.1).
Proof.
  unfold rx_timing. cbv zeta. match goal with |- context [if ?b then with_timing s ?x else s] =>
    assert (quiet s (if b then with_timing s x else s)) as H1 by (by destruct b);
    generalize dependent (if b then with_timing s x else s) end.
  intros s1 H1. destruct (negb _); [|exact H1].
  eapply rl_mono; [apply send_quiet|]. intros r. by apply untouched_trans.
Qed.

Lemma rx_step_quiet s pc i : rl (rx_step hz s pc i) (fun r => quiet s r.1.1).
Proof.
  destruct pc as [last|[|fd fds] [|k] last|last|now|]; cbn [rx_step]; cbv zeta; try done.
  - by case_match.
  - destruct (running _); [|done]. eapply (rl_bind _ _ (fun r => quiet s r.1.1)); [|by intros [[? ?] ?] ?].
    unfold rx_drain_one. destruct (ri_got i) as [[from buf]|]; [|done]. destruct (negb _); [done|].
    eapply rl_bind; [apply rx_dispatch_quiet|]. by intros [? ?] ?.
  - destruct (_ <? _); [done|]. eapply (rl_bind _ _ (fun r => quiet s r.1)); [|by intros [? ?] ?].
    unfold rx_resend. cbv zeta. still.
  - eapply rl_bind; [apply rx_timing_quiet|]. by intros [? ?] ?.
Qed.

Lemma pl_turn_quiet s : quiet s (pl_turn s).1.
Proof. unfold pl_turn, pl_pop. cbv zeta. repeat case_match; simplify_eq/=; done. Qed.

Lemma pl_render_steady s t : rl (pl_render lib aes_cbcdec s t) (fun r => steady s r.1).
Proof. unfold pl_render, session_decode_slot. cbv zeta. destruct t as [| |slot g]; try done.
  destruct (js_kind slot); [|done].
  eapply (rl_bind _ _ (fun r => steady s r.1)); [still|]. intros [? []] ?; done.
Qed.

Lemma write_done_quiet s w : quiet s (write_done s w).1.
Proof. unfold write_done. by case_match. Qed.

Lemma pl_step_steady s pc x : rl (pl_step lib aes_cbcdec s pc x) (fun r => steady s r.1.1).
Proof.
  destruct pc as [| | |w|w|]; cbn [pl_step]; cbv zeta; try done.
  - unfold pl_rearm. by case_match.
  - pose proof (proj1 (pl_turn_quiet s)) as Ht. destruct (pl_turn s) as [s1 t].
    eapply rl_bind; [apply pl_render_steady|]. intros [s2 out] Hr. cbn [fst] in *.
    pose proof (steady_trans _ _ _ Ht Hr). by destruct out as [[[pcm g] dt]|].
  - case_match; [done|]. pose proof (proj1 (write_done_quiet s w)). by destruct (write_done s w).
  - pose proof (proj1 (write_done_quiet s w)). case_match; [|by destruct (write_done s w)]. by case_match.
Qed.

(** An action changes neither the holdings nor, unless it is the stop, [running]. *)
Lemma wstep_steady (w : world A) a : rl (wstep lib aes_cbcdec hz w a) (fun w' =>
  same_holdings (w_s w) (w_s w') /\ (a <> AStop -> running (s_flags (w_s w')) = running (s_flags (w_s w)))).
Proof.
  destruct a as [i|x|sq ts|]; cbn [wstep]; try done.
  - eapply rl_bind; [apply rx_step_quiet|]. intros [[s pc] ev] [[? ?]%steady_holdings _]. by split.
  - eapply rl_bind; [apply pl_step_steady|]. intros [[s pc] ev] [? ?]%steady_holdings. by split.
Qed.
End Steady.

(** ** The join *)

(** How many of its own steps a thread still takes once [running] is clear. *)
Definition rx_left (pc : rx_pc) : nat :=
  match pc with
  | RX_END => 0 | RX_POLL _ => 1 | RX_TIMING _ => 2 | RX_TICK _ => 3
  | RX_READ fds _ _ => 4 + length fds
  end.
Definition pl_left (pc : pl_pc) : nat :=
  match pc with PL_END => 0 | PL_TOP => 1 | PL_CHECK _ => 2 | PL_PUT _ => 3 | PL_LOCK => 3 | PL_SERVICE => 4 end.

Definition is_rx (a : action) : bool := match a with ARx _ => true | _ => false end.
Definition is_pl (a : action) : bool := match a with APl _ => true | _ => false end.
Definition steps_of (f : action -> bool) (acts : list action) : nat := length (List.filter f acts).

(** [session_stop] waits in [pthread_join]. *)
Definition stopping {A} (s : session_t A) : Prop := threads_up (s_flags s) = true /\ running (s_flags s) = false.

Section Join.
Context `{DataModel} {A : Type} (lib : alac_lib A).
Context (oaep_decrypt : bytes -> option bytes) (aes_cbcdec : bytes -> bytes -> bytes -> bytes) (hz : Z).
Implicit Types s : session_t A.

Lemma rx_step_left s pc i : stopping s -> rl (rx_step hz s pc i) (fun r => (rx_left r.1.2 <= pred (rx_left pc))%nat).
Proof.
  intros [_ Hr]. destruct pc as [last|[|fd fds] [|k] last|last|now|]; cbn [rx_step]; cbv zeta; rewrite ?Hr; cbn; try lia.
  - destruct (_ <? _); [cbn; lia|]. apply rl_any. intros [? ?]. cbn. lia.
  - apply rl_any. intros [? ?]. cbn. lia.
Qed.

Lemma pl_step_left s pc x : stopping s ->
  rl (pl_step lib aes_cbcdec s pc x) (fun r => (pl_left r.1.2 <= pred (pl_left pc))%nat).
Proof.
  intros [Ht Hr]. destruct pc as [| | |w|w|]; cbn [pl_step]; cbv zeta; rewrite ?Hr; cbn; try lia.
  - destruct (pl_turn s) as [s1 t]. apply rl_any. intros [s2 [[[pcm g] dt]|]]; cbn; lia.
  - unfold write_check. cbn [o_gen o_threads_up o_running]. rewrite Ht. cbn [andb negb]. rewrite !andb_false_r.
    unfold write_done. cbn. lia.
  - case_match; [case_match|]; cbn; lia.
Qed.

Lemma wstep_left w a : stopping (w_s w) -> rl (wstep lib aes_cbcdec hz w a) (fun w' =>
  stopping (w_s w') /\ (rx_left (w_rx w') <= rx_left (w_rx w) - steps_of is_rx [a])%nat /\
  (pl_left (w_pl w') <= pl_left (w_pl w) - steps_of is_pl [a])%nat).
Proof.
  intros Hs. pose proof (wstep_steady lib aes_cbcdec hz w a) as Hk.
  pose proof (rx_step_left (w_s w) (w_rx w)) as Hx. pose proof (pl_step_left (w_s w) (w_pl w)) as Hp.
  destruct a as [i|x|sq ts|]; cbn [wstep] in *.
  - specialize (Hx i Hs). destruct (rx_step _ _ _ _) as [[[s pc] ev]| |]; [|done|done]. cbn in *.
    destruct Hk as ((_ & _ & K1) & K2), Hs as [S1 S2]. split; [split; [congruence|rewrite K2 by done; done]|lia].
  - specialize (Hp x Hs). destruct (pl_step _ _ _ _ _) as [[[s pc] ev]| |]; [|done|done]. cbn in *.
    destruct Hk as ((_ & _ & K1) & K2), Hs as [S1 S2]. split; [split; [congruence|rewrite K2 by done; done]|lia].
  - cbn. split; [exact Hs|lia].
  - cbn. destruct Hs. split; [by split|lia].
Qed.

Lemma wrun_left w acts : stopping (w_s w) -> rl (wrun lib aes_cbcdec hz w acts) (fun w' =>
  (rx_left (w_rx w') <= rx_left (w_rx w) - steps_of is_rx acts)%nat /\
  (pl_left (w_pl w') <= pl_left (w_pl w) - steps_of is_pl acts)%nat).
Proof.
  revert w. induction acts as [|a acts IH]; intros w Hs; cbn [wrun]; [cbn; lia|].
  eapply rl_bind; [by apply wstep_left|]. intros w1 (H1 & H2 & H3). eapply rl_mono; [by apply IH|].
  intros w2 [H4 H5]. unfold steps_of in *. cbn [List.filter] in *. destruct (is_rx a), (is_pl a); cbn in *; lia.
Qed.

(** The receiver never has more than its three sockets to drain. *)
Lemma wrun_started w acts :
  threads_up (s_flags (w_s w)) = true -> (rx_left (w_rx w) <= 7)%nat ->
  rl (wrun lib aes_cbcdec hz w acts) (fun w' =>
    threads_up (s_flags (w_s w')) = true /\ (rx_left (w_rx w') <= 7)%nat).
Proof.
  revert w. induction acts as [|a acts IH]; intros w Ht Hl; cbn [wrun]; [done|].
  eapply (rl_bind _ _ (fun w' => threads_up (s_flags (w_s w')) = true /\ (rx_left (w_rx w') <= 7)%nat)).
  2:{ intros w1 [H1 H2]. by apply IH. }
  pose proof (wstep_steady lib aes_cbcdec hz w a) as Hk. destruct a as [i|x|sq ts|]; cbn [wstep] in *; try done.
  - assert (rl (rx_step hz (w_s w) (w_rx w) i) (fun r => (rx_left r.1.2 <= 7)%nat)) as Hx.
    { destruct (w_rx w) as [last|[|fd fds] [|k] last|last|now|]; cbn [rx_step rx_left length] in *; cbv zeta;
        repeat first [progress cbn|apply rl_any; intros [? ?]|case_match]; try lia.
      unfold ready_fds. repeat case_match; cbn; lia. }
    destruct (rx_step _ _ _ _) as [[[s pc] ev]| |]; [|done|done]. cbn in *. destruct Hk as ((_ & _ & K1) & _).
    split; [congruence|exact Hx].
  - destruct (pl_step _ _ _ _ _) as [[[s pc] ev]| |]; [|done|done]. cbn in *. destruct Hk as ((_ & _ & K1) & _).
    split; [congruence|done].
Qed.

Lemma wrun_app w a1 a2 : wrun lib aes_cbcdec hz w (a1 ++ a2) =
  let! w := wrun lib aes_cbcdec hz w a1 in wrun lib aes_cbcdec hz w a2.
Proof.
  revert w. induction a1 as [|a a1 IH]; intros w; cbn [app wrun rbind]; [done|].
  destruct (wstep _ _ _ w a) as [w1| |]; [|done|done]. cbn [rbind]. apply IH.
Qed.

(** A started session has its threads up. *)
Lemma live_up ip s : live lib oaep_decrypt hz ip s -> threads_up (s_flags s) = true.
Proof.
  intros (e & e' & sdp & socks & sq & ts & ctl & tim & r0 & s0 & r1 & req & r2 & _ & Hst & _).
  unfold session_start in Hst. cbv zeta in Hst. destruct (negb (e_malloc e')); [done|].
  destruct (send_timing_request _ _ _ _) as [[s2 rq]| |]; [|done|done]. cbn [rbind] in Hst.
  destruct (negb _); [done|]. destruct (negb _); [done|]. by injection Hst as <- _ _.
Qed.

(** C29: [session_stop] joins its threads.  Whatever the receiver, the player and the
    server have done and wherever the stop finds the two threads (waiting, draining
    a socket, rendering a packet, inside a write), once [running] is clear the
    receiver ends within 7 of its own steps and the player within 4 of its own, in
    every interleaving, whatever the datagrams, the clock and the sink do. *)
Theorem session_stop_joins ip s last before after :
  lib_ok lib -> live lib oaep_decrypt hz ip s -> acts_ok (before ++ AStop :: after) ->
  (7 <= steps_of is_rx after)%nat -> (4 <= steps_of is_pl after)%nat ->
  wp (wrun lib aes_cbcdec hz (world_init s last) (before ++ AStop :: after)) (fun w =>
    w_rx w = RX_END /\ w_pl w = PL_END).
Proof.
  intros Hlib Hl [Ha Hn] Hrx Hpl.
  pose proof (wrun_inv lib aes_cbcdec hz ip (world_init s last) (before ++ AStop :: after) Hlib) as Hr.
  specialize (Hr ltac:(by eapply live_winv; [done|lia]) Ha).
  pose proof (wrun_started (world_init s last) before (live_up ip s Hl) ltac:(cbn; lia)) as Hb.
  rewrite wrun_app in Hr |- *. destruct (wrun lib aes_cbcdec hz (world_init s last) before) as [w1| |]; [|done|done].
  destruct Hb as [Hu H7]. cbn [rbind wrun wstep] in *.
  pose proof (wrun_left (mk_world (with_flags (w_s w1) (set_running false (s_flags (w_s w1)))) (w_rx w1) (w_pl w1) (w_log w1))
    after ltac:(by split)) as Hx.
  destruct (wrun _ _ _ _ after) as [w2| |]; [|done|done]. cbn in *. destruct Hx as [X1 X2].
  assert (pl_left (w_pl w1) <= 4)%nat by (destruct (w_pl w1); cbn; lia).
  destruct (w_rx w2), (w_pl w2); cbn in *; try lia; done.
Qed.
End Join.

(** A stop in the middle of a write, with packets still arriving. *)
Definition sample_after : list action :=
  concat (replicate 4 [APl 1; sample_rx 40 13 2056; sample_rx 40 14 2408]).

Lemma session_stop_joins_witness :
  (exists w wr, sample_run (take 11 sample_acts) = Ret w /\ w_pl w = PL_PUT wr) /\
  wp (sample_run (take 11 sample_acts ++ AStop :: sample_after)) (fun w => w_rx w = RX_END /\ w_pl w = PL_END).
Proof.
  split.
  - eexists _, _. split; vm_compute; reflexivity.
  - apply (@session_stop_joins ilp32 unit sample_alac (fun _ => Some (replicate 16 9)) (fun _ _ b => b) 100 40).
    + intros a inp. reflexivity.
    + exact sample_live.
    + split; [|vm_compute; reflexivity]. apply Forall_app. split; [by apply Forall_take, sample_acts_ok|].
      repeat apply List.Forall_cons; try apply List.Forall_nil; cbn [action_ok sample_rx rx_input_ok ri_got]; try done.
      all: apply bytes_okb_ok; vm_compute; reflexivity.
    + vm_compute. lia.
    + vm_compute. lia.
Defined.
