(* ===== verification/SessionAudio.v ===== *)
(** * What the session plays ([src/session.c])

    The player decodes one packet at a time, between the arrivals, flushes and
    writes of the other threads.  Here what reaches the sink is compared with a
    sequential reference: one pass over the packets popped, each decrypted with the
    session's key and decoded after the one before it. *)
From Stdlib Require Import ZArith Lia.
From stdpp Require Import base numbers list option.
From S2P Require Import Prelude Seqext Jitter JitterSpec Clock Rtp B64 AlacShim Session SessionRun SessionStop.

Local Open Scope Z_scope.

(** ** The reference *)

Section Reference.
Context {A : Type} (lib : alac_lib A) (aes_cbcdec : bytes -> bytes -> bytes -> bytes).
Context (key iv : bytes) (fpp cap : Z).

(** A packet's samples, none when it cannot be decoded; or one period of silence. *)
Definition ref_turn (d : @alac_dec A) (src : option (Z * bytes)) : run (@alac_dec A * bytes) :=
  match src with
  | None => Ret (d, replicate (Z.to_nat (2 * Z.min cap (fpp * 2))) 0)
  | Some (_, pl) =>
      if (length pl =? 0)%nat || (JITTER_MAX_PAYLOAD <? Z.of_nat (length pl)) then Ret (d, [])
      else
        let! (d, pcm) := alac_decode lib d (raop_aes_cbc_decrypt aes_cbcdec key iv pl) cap in
        Ret (d, default [] pcm)
  end.

Fixpoint ref_run (d : @alac_dec A) (srcs : list (option (Z * bytes))) : run (@alac_dec A * list bytes) :=
  match srcs with
  | [] => Ret (d, [])
  | src :: srcs =>
      let! (d, pcm) := ref_turn d src in
      let! (d, pcms) := ref_run d srcs in
      Ret (d, pcm :: pcms)
  end.

Lemma ref_run_snoc d srcs src d1 pcms d2 pcm :
  ref_run d srcs = Ret (d1, pcms) -> ref_turn d1 src = Ret (d2, pcm) ->
  ref_run d (srcs ++ [src]) = Ret (d2, pcms ++ [pcm]).
Proof.
  revert d pcms. induction srcs as [|x srcs IH]; intros d pcms; cbn [ref_run app].
  - intros [= <- <-] ->. done.
  - destruct (ref_turn d x) as [[d' p]| |]; [|done|done]. cbn [rbind].
    destruct (ref_run d' srcs) as [[d'' ps]| |] eqn:E; [|done|done]. cbn [rbind]. intros [= -> <-] Ht.
    rewrite (IH _ _ E Ht). done.
Qed.
End Reference.

(** ** What a log says of it *)

(** The turns of a log, oldest first: the packet popped and the samples to play. *)
Fixpoint turns (log : list event) : list (option (Z * bytes) * bytes) :=
  match log with
  | [] => []
  | EvTurn src pcm :: log => turns log ++ [(src, pcm)]
  | _ :: log => turns log
  end.

(** The bytes the sink has taken. *)
Fixpoint heard (log : list event) : bytes :=
  match log with
  | [] => []
  | EvWrite c :: log => heard log ++ c
  | _ :: log => heard log
  end.

(** Those of the turns before the newest. *)
Fixpoint heard_before (log : list event) : bytes :=
  match log with
  | [] => []
  | EvTurn _ _ :: log => heard log
  | _ :: log => heard_before log
  end.

Lemma heard_split log : heard log = heard_before log ++ written log.
Proof.
  induction log as [|ev log IH]; [done|]. destruct ev; cbn [heard heard_before written]; try exact IH.
  - by rewrite app_nil_r.
  - by rewrite IH, app_assoc.
Qed.

Definition no_turn (ev : event) : Prop := match ev with EvTurn _ _ => False | _ => True end.

Lemma turns_quiet evs log : Forall no_turn evs -> turns (evs ++ log) = turns log /\ heard_before (evs ++ log) = heard_before log.
Proof. induction 1 as [|ev evs He _ [IH1 IH2]]; [done|]. by destruct ev. Qed.

Lemma turn_pcm_nil log : turns log = [] -> turn_pcm log = [].
Proof. induction log as [|ev log IH]; [done|]. destruct ev; cbn [turn_pcm turns]; try exact IH. intros E. by destruct (turns log). Qed.

Lemma turn_pcm_snoc log l x : turns log = l ++ [x] -> turn_pcm log = x.2.
Proof.
  induction log as [|ev log IH]; [by destruct l|]. destruct ev; cbn [turn_pcm turns]; try exact IH.
  intros E. by apply app_inj_tail in E as [_ <-].
Qed.

(** The first bytes of each, one number each; no number, nothing. *)
Definition prefixes (ks : list nat) (pcms : list bytes) : bytes := concat (zip_with (fun k p => take k p) ks pcms).

Lemma prefixes_app ks pcms ks' pcms' : length ks = length pcms ->
  prefixes (ks ++ ks') (pcms ++ pcms') = prefixes ks pcms ++ prefixes ks' pcms'.
Proof. intros Hl. unfold prefixes. by rewrite zip_with_app, concat_app. Qed.

Lemma prefixes_extra ks pcms pcms' : length ks = length pcms -> prefixes ks (pcms ++ pcms') = prefixes ks pcms.
Proof. intros Hl. rewrite <- (app_nil_r ks) at 1. rewrite prefixes_app by done. by rewrite app_nil_r. Qed.

Section Audio.
Context `{DataModel} {A : Type} (lib : alac_lib A).
Context (oaep_decrypt : bytes -> option bytes) (aes_cbcdec : bytes -> bytes -> bytes -> bytes) (hz : Z).
Implicit Types s : session_t A.

Abbreviation reference s0 := (ref_run lib aes_cbcdec (s_key s0) (s_iv s0) (s_fpp s0) (default 0 (s_pcm_cap s0)) (s_dec s0)).

(** The turns logged are those of the reference, and each has been heard up to
    some point. *)
Record audio (s0 : session_t A) (w : world A) : Prop := {
  au_ref : reference s0 (map fst (turns (w_log w))) = Ret (s_dec (w_s w), map snd (turns (w_log w)));
  au_fixed : s_key (w_s w) = s_key s0 /\ s_iv (w_s w) = s_iv s0 /\ s_fpp (w_s w) = s_fpp s0 /\ s_pcm_cap (w_s w) = s_pcm_cap s0;
  au_heard : exists ks, length ks = pred (length (turns (w_log w))) /\
    heard_before (w_log w) = prefixes ks (map snd (turns (w_log w)));
}.

(** What the reference depends on. *)
Definition same_codec s s' : Prop :=
  s_key s' = s_key s /\ s_iv s' = s_iv s /\ s_fpp s' = s_fpp s /\ s_pcm_cap s' = s_pcm_cap s /\ s_dec s' = s_dec s.

Lemma quiet_codec s s' : quiet s s' -> same_codec s s'.
Proof.
  intros [Hs Hd]. unfold steady, fixed in Hs. injection Hs as _ Hc _ _ Hk Hi Hp. done.
Qed.

Lemma audio_quiet s0 w s rx pl evs :
  audio s0 w -> same_codec (w_s w) s -> Forall no_turn evs -> audio s0 (mk_world s rx pl (evs ++ w_log w)).
Proof.
  intros [Hr (F1 & F2 & F3 & F4) Hh] (C1 & C2 & C3 & C4 & C5) He. destruct (turns_quiet evs (w_log w) He) as [Et Eb].
  constructor; cbn [w_s w_log]; rewrite ?Et, ?Eb, ?C5; [done| |done]. split_and!; congruence.
Qed.

(** The bytes taken, turn by turn. *)
Lemma heard_prefixes s0 w : audio s0 w -> (exists k, written (w_log w) = take k (turn_pcm (w_log w))) ->
  exists ks, length ks = length (turns (w_log w)) /\ heard (w_log w) = prefixes ks (map snd (turns (w_log w))).
Proof.
  intros [_ _ (ks & Hl & Hh)] [k Hw]. rewrite heard_split, Hw, Hh.
  destruct (turns (w_log w)) as [|x l _] eqn:El using rev_ind.
  - exists []. split; [done|]. rewrite (turn_pcm_nil _ El). destruct ks; [|done]. by destruct k.
  - rewrite (turn_pcm_snoc _ _ _ El), map_app, length_app in *. cbn [length map] in *. rewrite Nat.add_1_r in *. cbn [pred] in *.
    exists (ks ++ [k]). rewrite length_app. cbn [length]. split; [lia|].
    rewrite prefixes_extra, prefixes_app by (rewrite length_map; lia). unfold prefixes at 3. cbn. by rewrite app_nil_r.
Qed.

Lemma silence_reference s :
  silence s = replicate (Z.to_nat (2 * Z.min (default 0 (s_pcm_cap s)) (s_fpp s * 2))) 0.
Proof. unfold silence. cbv zeta. do 3 f_equal. destruct (Z.ltb_spec (default 0 (s_pcm_cap s)) (s_fpp s * 2)); lia. Qed.

(** A turn is rendered as the reference renders it. *)
Lemma render_reference s t : t <> TWait ->
  rl (pl_render lib aes_cbcdec s t) (fun '(s', out) =>
    ref_turn lib aes_cbcdec (s_key s) (s_iv s) (s_fpp s) (default 0 (s_pcm_cap s)) (s_dec s) (turn_src t) =
      Ret (s_dec s', match out with Some (pcm, _, _) => pcm | None => [] end)).
Proof.
  intros Ht. destruct t as [|g|slot g]; [done| |]; cbn [pl_render turn_src ref_turn].
  { cbn. by rewrite silence_reference. }
  destruct (js_kind slot); [|cbn; by rewrite silence_reference]. unfold session_decode_slot. cbv zeta.
  destruct (_ || _) eqn:E; cbn [rbind rl ref_turn count with_stats with_dec s_dec s_key s_iv s_pcm_cap]; [by rewrite E|].
  destruct (alac_decode _ _ _ _) as [[d r]| |]; [|done|done].
  destruct r; cbn [rbind rl count with_stats with_dec s_dec]; by rewrite E.
Qed.

Lemma audio_turn s0 w s t s2 out rx pl :
  audio s0 w -> (exists k, written (w_log w) = take k (turn_pcm (w_log w))) -> t <> TWait ->
  same_codec (w_s w) s -> pl_render lib aes_cbcdec s t = Ret (s2, out) ->
  audio s0 (mk_world s2 rx pl (EvTurn (turn_src t) (match out with Some (pcm, _, _) => pcm | None => [] end) :: w_log w)).
Proof.
  intros Ha Hw Ht (C1 & C2 & C3 & C4 & C5) E. destruct (heard_prefixes s0 w Ha Hw) as (ks & Hl & Hh).
  destruct Ha as [Hr (F1 & F2 & F3 & F4) _].
  pose proof (render_reference s t Ht) as Href. rewrite E in Href. cbn [rl] in Href.
  pose proof (pl_render_steady lib aes_cbcdec s t) as Hst. rewrite E in Hst. cbn [rl fst] in Hst.
  unfold steady, fixed in Hst. injection Hst as _ D1 _ _ D2 D3 D4.
  assert (s_key s = s_key s0 /\ s_iv s = s_iv s0 /\ s_fpp s = s_fpp s0 /\ s_pcm_cap s = s_pcm_cap s0) as (G1 & G2 & G3 & G4)
    by (split_and!; congruence).
  rewrite G1, G2, G3, G4, C5 in Href.
  constructor; cbn [w_s w_log turns heard_before].
  - rewrite !map_app. cbn [map fst snd]. by eapply ref_run_snoc.
  - split_and!; congruence.
  - exists ks. rewrite map_app, length_app. cbn [length]. rewrite Nat.add_1_r. cbn [pred]. split; [done|].
    rewrite Hh. symmetry. apply prefixes_extra. by rewrite length_map.
Qed.

(** *** Steps *)

Lemma rx_step_events s pc i : rl (rx_step hz s pc i) (fun r => Forall no_turn r.2).
Proof.
  destruct pc as [last|[|fd fds] [|k] last|last|now|]; cbn [rx_step]; cbv zeta; try by constructor.
  - case_match; by constructor.
  - destruct (running _); [|by constructor]. apply rl_any. intros [[s1 e] more]. cbn.
    destruct (ri_got i) as [[from buf]|]; [|by constructor]. destruct e as [[ts pl]|]; by repeat constructor.
  - case_match; [by constructor|]. apply rl_any. intros [? ?]. by constructor.
  - apply rl_any. intros [? ?]. by constructor.
Qed.

Lemma pl_step_audio s0 ip n w accept : winv ip n w -> audio s0 w ->
  rl (pl_step lib aes_cbcdec (w_s w) (w_pl w) accept) (fun '(s, pc, ev) => audio s0 (mk_world s (w_rx w) pc (ev ++ w_log w))).
Proof.
  intros Hw Ha.
  assert (forall s pc evs, quiet (w_s w) s -> Forall no_turn evs -> audio s0 (mk_world s (w_rx w) pc (evs ++ w_log w))) as Hq.
  { intros s pc evs Hs He. apply audio_quiet; [done|by apply quiet_codec|done]. }
  assert (forall wr, rl (let '(s, pc) := write_done (w_s w) wr in Ret (s, pc, []))
    (fun '(s, pc, ev) => audio s0 (mk_world s (w_rx w) pc (ev ++ w_log w)))) as Hd.
  { intros wr. pose proof (write_done_quiet (w_s w) wr) as Hr. destruct (write_done (w_s w) wr) as [s pc]. by apply Hq. }
  destruct (w_pl w) as [| | |wr|wr|]; cbn [pl_step]; cbv zeta; try (by apply Hq).
  - apply Hq; [|by case_match; repeat constructor]. unfold pl_rearm. by case_match.
  - pose proof (pl_turn_quiet (w_s w)) as Ht. destruct (pl_turn (w_s w)) as [s1 t]. cbn [fst] in Ht.
    destruct (pl_render lib aes_cbcdec s1 t) as [[s2 out]| |] eqn:E; [|done|done]. cbn [rbind].
    assert (t = TWait \/ t <> TWait) as [->|Hn] by (by destruct t; [left|right..]).
    + cbn [pl_render] in E. injection E as <- <-. by apply Hq.
    + pose proof (audio_turn s0 w s1 t s2 out (w_rx w)) as Hx.
      destruct out as [[[pcm g] dt]|]; cbn [rl app];
        [|destruct t; [done|..]]; (apply Hx; [done|by eapply wi_written|done|by apply quiet_codec|done]).
  - case_match; [by apply Hq; repeat constructor|exact (Hd wr)].
  - case_match; [|exact (Hd wr)]. case_match. apply Hq; [done|]. case_match; by repeat constructor.
Qed.

Lemma wstep_audio s0 ip n w a : winv ip n w -> audio s0 w -> rl (wstep lib aes_cbcdec hz w a) (audio s0).
Proof.
  intros Hw Ha. destruct a as [i|x|sq ts|]; cbn [wstep].
  - pose proof (rx_step_quiet hz (w_s w) (w_rx w) i) as Hs. pose proof (rx_step_events (w_s w) (w_rx w) i) as He.
    destruct (rx_step _ _ _ _) as [[[s pc] ev]| |]; [|done|done]. apply audio_quiet; [done|by apply quiet_codec|done].
  - pose proof (pl_step_audio s0 ip n w x Hw Ha) as Hs. by destruct (pl_step _ _ _ _ _) as [[[s pc] ev]| |].
  - apply (audio_quiet s0 w _ _ _ [EvFlush ts]); [done|done|by repeat constructor].
  - by apply (audio_quiet s0 w _ _ _ []).
Qed.

Lemma wrun_audio s0 ip w acts :
  lib_ok lib -> winv ip (Z.of_nat (length acts)) w -> Forall action_ok acts -> audio s0 w ->
  rl (wrun lib aes_cbcdec hz w acts) (audio s0).
Proof.
  intros Hlib. revert w. induction acts as [|a acts IH]; intros w Hw Ha Hau; cbn [wrun]; [done|].
  apply Forall_cons_1 in Ha as [Ha Hr]. cbn [length] in Hw. rewrite Nat2Z.inj_succ in Hw.
  pose proof (wstep_inv lib aes_cbcdec hz ip (Z.of_nat (length acts)) w a Hlib Hw ltac:(lia) Ha) as Hi.
  pose proof (wstep_audio s0 _ _ w a Hw Hau) as Hx.
  destruct (wstep _ _ _ w a) as [w1| |]; [|done|done]. by apply IH.
Qed.

(** What is heard is the sequential decoding of the packets popped.  In every
    interleaving of the receiver, the player, flushes and a stop, the samples of the
    player's turns are those of one sequential pass: each packet popped, decrypted
    with the key and vector of the announcement and decoded by the decoder state the
    packet before it left, none where it does not decode, and one period of silence
    where a packet is missing; and the bytes the sink has taken are, turn by turn
    and in order, a prefix of those samples. *)
Theorem session_plays_decoded ip s last acts :
  lib_ok lib -> live lib oaep_decrypt hz ip s -> acts_ok acts ->
  wp (wrun lib aes_cbcdec hz (world_init s last) acts) (fun w =>
    let pcms := map snd (turns (w_log w)) in
    ref_run lib aes_cbcdec (s_key s) (s_iv s) (s_fpp s) (s_fpp s * 2) (s_dec s) (map fst (turns (w_log w))) =
      Ret (s_dec (w_s w), pcms) /\
    exists ks, length ks = length pcms /\ heard (w_log w) = prefixes ks pcms).
Proof.
  intros Hlib Hl [Ha Hn]. pose proof (live_winv lib oaep_decrypt hz ip s last (Z.of_nat (length acts)) Hl ltac:(lia)) as Hw.
  pose proof (wrun_inv lib aes_cbcdec hz ip (world_init s last) acts Hlib Hw Ha) as Hr.
  assert (audio s (world_init s last)) as H0 by (constructor; [done|done|by exists []]).
  pose proof (wrun_audio s ip (world_init s last) acts Hlib Hw Ha H0) as Hau.
  pose proof (si_cap _ _ _ _ (wi_s _ _ _ Hw)) as Hc. cbn in Hc.
  destruct (wrun _ _ _ _ acts) as [w| |]; [|done|done]. cbn [wp rl] in *. cbn zeta.
  destruct (heard_prefixes s w Hau (wi_written _ _ _ Hr)) as (ks & Hk & Hh). destruct Hau as [Hx _ _].
  rewrite Hc in Hx. split; [exact Hx|]. exists ks. rewrite length_map. done.
Qed.
End Audio.

(** A run: a packet decoded and partly written, then a flush. *)
Lemma session_plays_decoded_witness :
  (exists w, sample_run sample_acts = Ret w /\ length (turns (w_log w)) = 1%nat /\ heard (w_log w) = replicate 8 0) /\
  wp (sample_run sample_acts) (fun w =>
    let pcms := map snd (turns (w_log w)) in
    ref_run sample_alac (fun _ _ b => b) (replicate 16 9) (replicate 16 1) 8192 16384 (s_dec sample_session)
      (map fst (turns (w_log w))) = Ret (s_dec (w_s w), pcms) /\
    exists ks, length ks = length pcms /\ heard (w_log w) = prefixes ks pcms).
Proof.
  split.
  - eexists. split; [vm_compute; reflexivity|]. split; vm_compute; reflexivity.
  - pose proof (@session_plays_decoded ilp32 unit sample_alac (fun _ => Some (replicate 16 9)) (fun _ _ b => b) 100 40
      sample_session 0 sample_acts ltac:(intros a inp; reflexivity) sample_live sample_acts_ok) as Hw.
    exact Hw.
Defined.
