(* ===== verification/Wakelock.v ===== *)
(** * The wake lock ([src/wakelock.c])

    Two shell commands.  The log of the commands run so far is the state; what the
    power daemon makes of them is the class [PowerdOk]. *)
From Stdlib Require Import ZArith Lia String.
From stdpp Require Import base numbers list.
From S2P Require Import Prelude.

Local Open Scope Z_scope.

Definition lipc_acquire : bytes := str "lipc-set-prop -i com.lab126.powerd preventScreenSaver 1 >/dev/null 2>&1".
Definition lipc_release : bytes := str "lipc-set-prop -i com.lab126.powerd preventScreenSaver 0 >/dev/null 2>&1".

(** [wakelock_acquire] and [wakelock_release]: [system], whose result is ignored. *)
Definition wakelock_acquire (log : list bytes) : list bytes := log ++ [lipc_acquire].
Definition wakelock_release (log : list bytes) : list bytes := log ++ [lipc_release].

(** ** The discipline of the lock *)

(** Whether the lock is held after a log, if acquisitions and releases alternate
    and the first is an acquisition. *)
Definition wake_step (s : option bool) (cmd : bytes) : option bool :=
  match s with
  | Some false => if bool_decide (cmd = lipc_acquire) then Some true else None
  | Some true => if bool_decide (cmd = lipc_release) then Some false else None
  | None => None
  end.
Definition wake_state (log : list bytes) : option bool := foldl wake_step (Some false) log.

Lemma wake_acquired log : wake_state log = Some false -> wake_state (wakelock_acquire log) = Some true.
Proof. unfold wake_state, wakelock_acquire. rewrite foldl_app. by intros ->. Qed.

Lemma wake_released log : wake_state log = Some true -> wake_state (wakelock_release log) = Some false.
Proof. unfold wake_state, wakelock_release. rewrite foldl_app. by intros ->. Qed.

(** ** What the power daemon does with them *)

(** [system] runs a command and returns its status; a command that succeeds has
    set the property. *)
Class PowerdOk {P} (system : bytes -> P -> Z * P) (prevented : P -> bool) : Prop := {
  powerd_acquire p p' : system lipc_acquire p = (0, p') -> prevented p' = true;
  powerd_release p p' : system lipc_release p = (0, p') -> prevented p' = false;
}.

Section Powerd.
Context {P : Type} (system : bytes -> P -> Z * P) (prevented : P -> bool) `{!PowerdOk system prevented}.

(** The device after a log, and the status of the last command. *)
Definition run_log (log : list bytes) (p : P) : Z * P := foldl (fun rp cmd => system cmd rp.2) (0, p) log.

Lemma wake_step_last s cmd b : wake_step s cmd = Some b -> cmd = if b then lipc_acquire else lipc_release.
Proof. destruct s as [[]|]; cbn; [case_bool_decide; by intros [= <-] ..|done]. Qed.

(** A disciplined log leaves the screen saver as the lock says, if its last command
    succeeded (or none was given, and the property was off). *)
Lemma run_log_prevented log b p p' :
  prevented p = false -> wake_state log = Some b -> run_log log p = (0, p') -> prevented p' = b.
Proof.
  intros Hp. destruct log as [|log cmd _] using rev_ind.
  - by intros [= <-] [= <-].
  - unfold wake_state, run_log. rewrite !foldl_app. cbn [foldl]. intros Hw. apply wake_step_last in Hw as ->.
    destruct b; intros Hr; [by eapply powerd_acquire|by eapply powerd_release].
Qed.
End Powerd.

(** A daemon that obeys every command. *)
Definition obedient (cmd : bytes) (b : bool) : Z * bool :=
  if bool_decide (cmd = lipc_acquire) then (0, true)
  else if bool_decide (cmd = lipc_release) then (0, false) else (127, b).

#[export] Instance obedient_ok : PowerdOk obedient id.
Proof. split; intros p p' H; by injection H as <-. Qed.
