(* ===== verification/ServerState.v ===== *)
(** * The daemon's state and its monad ([src/main.c])

    The server record of the RTSP loop, the rest of the process it acts on, and the
    interface it needs of a playing session. *)
From Stdlib Require Import ZArith Lia String.
From stdpp Require Import base numbers list gmap.
From S2P Require Import Prelude Rtp Sdp RtspMsg Rtsp Bodycap Daap Npstate DacpState Dacp B64 AlacShim Session SessionStop Wakelock.

Local Open Scope Z_scope.

Definition RTSP_PORT : Z := 5000.
Definition AUDIO_LATENCY : Z := 88200.
Definition DEFAULT_VOL : Z := 50.
Definition RBUF_CAP : nat := Z.to_nat 8192.
Definition METABUF_CAP : nat := Z.to_nat 16384.
Definition HANDSHAKE_SECS : Z := 10.

(** ** What the server uses of a session *)

(** The operations of [session.h] the server calls, on any type of sessions. *)
Record session_api (S : Type) := mk_api {
  api_create : start_env -> raop_sdp_t -> Z -> res_t -> option S * res_t;
  api_start : start_env -> S -> rtp_sockets_t -> Z -> Z -> Z -> Z -> Z -> res_t -> run (Z * S * res_t);
  api_flush : S -> Z -> Z -> S;
  api_stop : S -> res_t -> S * res_t;
  api_destroy : S -> res_t -> res_t;
}.
Arguments api_create {S}. Arguments api_start {S}. Arguments api_flush {S}.
Arguments api_stop {S}. Arguments api_destroy {S}.

(** What the server relies on.  [owns s o r0 r]: in [r] the session holds what it
    acquired on top of [r0], kernel objects apart, and [o] is the socket triple it
    was started with; [sender s] is the address it takes packets from; [made s desc],
    that it decrypts and decodes as the announcement [desc] says.  The threads may
    turn a session into any [evolves]-related one. *)
Class SessionLaws {S : Type} (api : session_api S) := {
  owns : S -> option rtp_sockets_t -> res_t -> res_t -> Prop;
  evolves : S -> S -> Prop;
  sender : S -> Z;
  made : S -> raop_sdp_t -> Prop;
  law_create : forall e sdp vol r0, 1 <= frame_length sdp -> r_sink r0 = false ->
    match api_create api e sdp vol r0 with
    | (None, r) => r = r0
    | (Some s, r) => owns s None r0 r /\ made s sdp /\ r_kernel r = r_kernel r0
    end;
  law_start : forall e s socks seq ts ip ctl tim r0 r, 0 <= seq < 65536 -> owns s None r0 r ->
    wp (api_start api e s socks seq ts ip ctl tim r) (fun '(_, s', r') =>
      owns s' (Some socks) r0 r' /\ sender s' = ip /\ (forall desc, made s desc -> made s' desc) /\
      r_kernel r' = r_kernel r);
  law_sender : forall s s', evolves s s' -> sender s' = sender s;
  law_evolves : forall s s' o r0 r, evolves s s' -> owns s o r0 r -> owns s' o r0 r;
  law_made : forall s s' o r0 r desc, evolves s s' -> owns s o r0 r -> made s desc -> made s' desc;
  law_flush : forall s seq ts, 0 <= seq < 65536 -> evolves s (api_flush api s seq ts);
  law_kernel : forall s o r0 r k, owns s o r0 r -> owns s o r0 (res_with_kernel k r);
  law_base : forall s o r0 r k, owns s o (res_with_kernel k r0) r -> owns s o r0 r;
  law_stop : forall s o r0 r, owns s o r0 r ->
    let '(s', r') := api_stop api s r in owns s' o r0 r' /\ r_kernel r' = r_kernel r;
  law_destroy : forall s o r0 r, r_sink r0 = false -> owns s o r0 r ->
    api_destroy api s r =
      res_with_kernel (match o with Some socks => (rtp_close socks (r_kernel r)).2 | None => r_kernel r end) r0;
}.

(** ** State *)

Record server_t (S : Type) := mk_server {
  listen_fd : Z;
  client_fd : Z;
  client_since : Z;
  client_ip_be : Z;
  iface_ip_be : Z;
  dacp_probed : bool;
  rbuf : bytes;               (* the first [rlen] bytes of the buffer *)
  bcap : bodycap_t;
  bcap_active : bool;
  prefix : bytes;
  rtsp : rtsp_session_t;
  ip4 : bytes;
  mac : bytes;
  socks : rtp_sockets_t;
  rtp_bound : bool;
  sess : option S;
}.

(** The rest of the process: the file system, the resources of the session layer
    and the kernel, the now-playing and DACP state, and the outputs: the calls on the
    display (a change of the now-playing state, or [None] for a wake), the commands
    of the wake lock, the sink's volume, the bytes written to the current client and
    the probes fired. *)
Record proc_t := mk_proc {
  p_fs : fs;
  p_res : res_t;
  p_np : np_snapshot_t;
  p_dacp : dacp_snapshot_t;
  p_display : list (option np_op);
  p_lock : list bytes;
  p_volume : option Z;
  p_sent : bytes;
  p_probes : list (dacp_cmd_t * Z);
}.

Record st (S : Type) := mk_st {
  srv : server_t S;
  prc : proc_t;
  writes : list (option Z);   (* the answers of the coming [write] calls *)
  stream : bytes;             (* ghost: the bytes received from the current client *)
  frames : list (rtsp_msg_t * nat);  (* ghost: its requests so far with their lengths, oldest first *)
}.

Arguments mk_server {S}. Arguments listen_fd {S}. Arguments client_fd {S}. Arguments client_since {S}. Arguments client_ip_be {S}. Arguments iface_ip_be {S}. Arguments dacp_probed {S}. Arguments rbuf {S}. Arguments bcap {S}. Arguments bcap_active {S}. Arguments prefix {S}. Arguments rtsp {S}. Arguments ip4 {S}. Arguments mac {S}. Arguments socks {S}. Arguments rtp_bound {S}. Arguments sess {S}.
Arguments mk_st {S}. Arguments srv {S}. Arguments prc {S}. Arguments writes {S}. Arguments stream {S}. Arguments frames {S}.

(** Field updates. *)
Section Updates.
Context {S : Type}.

Definition set_client_fd y (s : server_t S) : server_t S := mk_server (listen_fd s) y (client_since s) (client_ip_be s) (iface_ip_be s) (dacp_probed s) (rbuf s) (bcap s) (bcap_active s) (prefix s) (rtsp s) (ip4 s) (mac s) (socks s) (rtp_bound s) (sess s).
Definition set_client_since y (s : server_t S) : server_t S := mk_server (listen_fd s) (client_fd s) y (client_ip_be s) (iface_ip_be s) (dacp_probed s) (rbuf s) (bcap s) (bcap_active s) (prefix s) (rtsp s) (ip4 s) (mac s) (socks s) (rtp_bound s) (sess s).
Definition set_client_ip_be y (s : server_t S) : server_t S := mk_server (listen_fd s) (client_fd s) (client_since s) y (iface_ip_be s) (dacp_probed s) (rbuf s) (bcap s) (bcap_active s) (prefix s) (rtsp s) (ip4 s) (mac s) (socks s) (rtp_bound s) (sess s).
Definition set_dacp_probed y (s : server_t S) : server_t S := mk_server (listen_fd s) (client_fd s) (client_since s) (client_ip_be s) (iface_ip_be s) y (rbuf s) (bcap s) (bcap_active s) (prefix s) (rtsp s) (ip4 s) (mac s) (socks s) (rtp_bound s) (sess s).
Definition set_rbuf y (s : server_t S) : server_t S := mk_server (listen_fd s) (client_fd s) (client_since s) (client_ip_be s) (iface_ip_be s) (dacp_probed s) y (bcap s) (bcap_active s) (prefix s) (rtsp s) (ip4 s) (mac s) (socks s) (rtp_bound s) (sess s).
Definition set_bcap y (s : server_t S) : server_t S := mk_server (listen_fd s) (client_fd s) (client_since s) (client_ip_be s) (iface_ip_be s) (dacp_probed s) (rbuf s) y (bcap_active s) (prefix s) (rtsp s) (ip4 s) (mac s) (socks s) (rtp_bound s) (sess s).
Definition set_bcap_active y (s : server_t S) : server_t S := mk_server (listen_fd s) (client_fd s) (client_since s) (client_ip_be s) (iface_ip_be s) (dacp_probed s) (rbuf s) (bcap s) y (prefix s) (rtsp s) (ip4 s) (mac s) (socks s) (rtp_bound s) (sess s).
Definition set_rtsp y (s : server_t S) : server_t S := mk_server (listen_fd s) (client_fd s) (client_since s) (client_ip_be s) (iface_ip_be s) (dacp_probed s) (rbuf s) (bcap s) (bcap_active s) (prefix s) y (ip4 s) (mac s) (socks s) (rtp_bound s) (sess s).
Definition set_socks y (s : server_t S) : server_t S := mk_server (listen_fd s) (client_fd s) (client_since s) (client_ip_be s) (iface_ip_be s) (dacp_probed s) (rbuf s) (bcap s) (bcap_active s) (prefix s) (rtsp s) (ip4 s) (mac s) y (rtp_bound s) (sess s).
Definition set_rtp_bound y (s : server_t S) : server_t S := mk_server (listen_fd s) (client_fd s) (client_since s) (client_ip_be s) (iface_ip_be s) (dacp_probed s) (rbuf s) (bcap s) (bcap_active s) (prefix s) (rtsp s) (ip4 s) (mac s) (socks s) y (sess s).
Definition set_sess y (s : server_t S) : server_t S := mk_server (listen_fd s) (client_fd s) (client_since s) (client_ip_be s) (iface_ip_be s) (dacp_probed s) (rbuf s) (bcap s) (bcap_active s) (prefix s) (rtsp s) (ip4 s) (mac s) (socks s) (rtp_bound s) y.

Definition set_p_fs y (p : proc_t) : proc_t := mk_proc y (p_res p) (p_np p) (p_dacp p) (p_display p) (p_lock p) (p_volume p) (p_sent p) (p_probes p).
Definition set_p_res y (p : proc_t) : proc_t := mk_proc (p_fs p) y (p_np p) (p_dacp p) (p_display p) (p_lock p) (p_volume p) (p_sent p) (p_probes p).
Definition set_p_np y (p : proc_t) : proc_t := mk_proc (p_fs p) (p_res p) y (p_dacp p) (p_display p) (p_lock p) (p_volume p) (p_sent p) (p_probes p).
Definition set_p_dacp y (p : proc_t) : proc_t := mk_proc (p_fs p) (p_res p) (p_np p) y (p_display p) (p_lock p) (p_volume p) (p_sent p) (p_probes p).
Definition set_p_display y (p : proc_t) : proc_t := mk_proc (p_fs p) (p_res p) (p_np p) (p_dacp p) y (p_lock p) (p_volume p) (p_sent p) (p_probes p).
Definition set_p_lock y (p : proc_t) : proc_t := mk_proc (p_fs p) (p_res p) (p_np p) (p_dacp p) (p_display p) y (p_volume p) (p_sent p) (p_probes p).
Definition set_p_volume y (p : proc_t) : proc_t := mk_proc (p_fs p) (p_res p) (p_np p) (p_dacp p) (p_display p) (p_lock p) y (p_sent p) (p_probes p).
Definition set_p_sent y (p : proc_t) : proc_t := mk_proc (p_fs p) (p_res p) (p_np p) (p_dacp p) (p_display p) (p_lock p) (p_volume p) y (p_probes p).
Definition set_p_probes y (p : proc_t) : proc_t := mk_proc (p_fs p) (p_res p) (p_np p) (p_dacp p) (p_display p) (p_lock p) (p_volume p) (p_sent p) y.

Definition set_srv y (x : st S) : st S := mk_st y (prc x) (writes x) (stream x) (frames x).
Definition set_prc y (x : st S) : st S := mk_st (srv x) y (writes x) (stream x) (frames x).
Definition set_writes y (x : st S) : st S := mk_st (srv x) (prc x) y (stream x) (frames x).
Definition set_stream y (x : st S) : st S := mk_st (srv x) (prc x) (writes x) y (frames x).
Definition set_frames y (x : st S) : st S := mk_st (srv x) (prc x) (writes x) (stream x) y.

End Updates.

(** [S->sess != NULL]. *)
Definition has_session {S} (s : server_t S) : bool := if sess s is Some _ then true else false.

(** ** The monad of the handlers: state, over checked accesses *)

Definition M (S A : Type) : Type := st S -> run (A * st S).

Definition ret {S A} (a : A) : M S A := fun x => Ret (a, x).
Definition bind {S A B} (m : M S A) (f : A -> M S B) : M S B := fun x =>
  match m x with Ret (a, x) => f a x | Oob => Oob | NoFuel => NoFuel end.

Declare Scope srv_scope.
Delimit Scope srv_scope with srv.
Notation "'let*' x ':=' m 'in' k" := (bind m (fun x => k))
  (at level 10, x pattern, m at level 100, k at level 200,
   format "'[v' 'let*'  x  ':='  m  'in' '/' k ']'") : srv_scope.
Open Scope srv_scope.

Definition ask {S A} (f : st S -> A) : M S A := fun x => Ret (f x, x).
Definition on_srv {S} (f : server_t S -> server_t S) : M S unit := fun x => Ret (tt, set_srv (f (srv x)) x).
Definition on_prc {S} (f : proc_t -> proc_t) : M S unit := fun x => Ret (tt, set_prc (f (prc x)) x).
Definition lift {S A} (r : run A) : M S A := fun x => match r with Ret a => Ret (a, x) | Oob => Oob | NoFuel => NoFuel end.

(** Weakest precondition of a handler. *)
Definition mwp {S A} (m : M S A) (Q : A -> st S -> Prop) (x : st S) : Prop :=
  wp (m x) (fun r => Q r.1 r.2).

Section MwpRules.
Context {S A B : Type}.

Lemma mwp_ret (a : A) (Q : A -> st S -> Prop) x : Q a x -> mwp (ret a) Q x.
Proof. done. Qed.

Lemma mwp_bind (m : M S A) (f : A -> M S B) Q x : mwp m (fun a => mwp (f a) Q) x -> mwp (bind m f) Q x.
Proof. unfold mwp, bind. by destruct (m x) as [[a y]| |]. Qed.

Lemma mwp_mono (m : M S A) (P Q : A -> st S -> Prop) x :
  mwp m P x -> (forall a y, P a y -> Q a y) -> mwp m Q x.
Proof. unfold mwp. intros H HPQ. eapply wp_mono; [exact H|]. intros [a y]. apply HPQ. Qed.

Lemma mwp_ask (f : st S -> A) Q x : Q (f x) x -> mwp (ask f) Q x.
Proof. done. Qed.

Lemma mwp_lift (r : run A) (Q : A -> st S -> Prop) x : wp r (fun a => Q a x) -> mwp (lift r) Q x.
Proof. unfold mwp, lift. by destruct r. Qed.
End MwpRules.

Lemma mwp_srv {S} (f : server_t S -> server_t S) (Q : unit -> st S -> Prop) x :
  Q tt (set_srv (f (srv x)) x) -> mwp (on_srv f) Q x.
Proof. done. Qed.

Lemma mwp_prc {S} (f : proc_t -> proc_t) (Q : unit -> st S -> Prop) x :
  Q tt (set_prc (f (prc x)) x) -> mwp (on_prc f) Q x.
Proof. done. Qed.

(** One operation of a handler. *)
Ltac mstep :=
  lazymatch goal with
  | |- mwp (bind _ _) _ _ => apply mwp_bind
  | |- mwp (ret _) _ _ => apply mwp_ret
  | |- mwp (ask _) _ _ => apply mwp_ask
  | |- mwp (on_srv _) _ _ => apply mwp_srv
  | |- mwp (on_prc _) _ _ => apply mwp_prc
  | |- mwp (lift _) _ _ => apply mwp_lift
  end.

(** ** The sessions of [session.c] *)

Section SessionInstance.
Context `{DataModel} {A : Type} (lib : alac_lib A).
Context (oaep_decrypt : bytes -> option bytes) (hz : Z).

(** [session_create] passes the volume to the sink it opens. *)
Definition session_ops : session_api (session_t A) := {|
  api_create := fun e sdp _ r => session_create lib oaep_decrypt e sdp r;
  api_start := fun e s socks seq ts ip ctl tim r =>
    let! (rc, s, _, r) := session_start hz e s socks seq ts ip ctl tim r in Ret (rc, s, r);
  api_flush := session_flush;
  api_stop := session_stop;
  api_destroy := session_destroy;
|}.

Definition session_owns (s : session_t A) (o : option rtp_sockets_t) (r0 r : res_t) : Prop :=
  holds s (res_with_kernel (r_kernel r) r0) r /\
  match o with
  | Some socks => exists ip ctl tim, s_net s = mk_net (audio_fd socks) (control_fd socks) (timing_fd socks) ip ctl tim
  | None => (exists ip ctl tim, s_net s = mk_net (-1) (-1) (-1) ip ctl tim) /\ s_pcm_cap s = None /\
      threads_up (s_flags s) = false
  end.

Lemma res_kernel_id (r : res_t) : res_with_kernel (r_kernel r) r = r.
Proof. by destruct r. Qed.

Lemma owns_same (s s' : session_t A) o r0 r : same_holdings s s' -> session_owns s o r0 r -> session_owns s' o r0 r.
Proof. intros He (Hh & Ho). split; [by eapply holds_same|]. by destruct He as (-> & -> & ->). Qed.

(** The key, the vector and the packet length are those of an announcement. *)
Definition keyed (s : session_t A) (desc : raop_sdp_t) : Prop :=
  raop_oaep_unwrap_key oaep_decrypt (rsaaeskey desc) = Some (s_key s) /\ s_iv s = aesiv desc /\
  s_fpp s = frame_length desc.

Definition same_key (s s' : session_t A) : Prop := s_key s' = s_key s /\ s_iv s' = s_iv s /\ s_fpp s' = s_fpp s.

Lemma keyed_same s s' desc : same_key s s' -> keyed s desc -> keyed s' desc.
Proof. unfold keyed. by intros (-> & -> & ->). Qed.

(** What a session is created with. *)
Lemma create_keyed e desc r0 (s : session_t A) r : session_create lib oaep_decrypt e desc r0 = (Some s, r) ->
  keyed s desc /\ exists m, alac_open lib m (frame_length desc) 16 (channels desc) (cookie desc) = Some (s_dec s).
Proof.
  unfold session_create. destruct (raop_oaep_unwrap_key _ _) as [k|] eqn:Ek; [|done].
  destruct (alac_open _ _ _ _ _ _) as [dc|] eqn:Ed; [|done]. cbv zeta. destruct (negb _); [done|].
  destruct (negb _); [done|]. intros [= <- _]. split; [by split_and!|]. by exists (e_alac_mem e).
Qed.

#[export, refine] Instance session_laws : SessionLaws session_ops := {|
  owns := session_owns; evolves := fun s s' => same_holdings s s' /\ same_key s s';
  sender := fun s => n_sender_ip (s_net s); made := keyed;
|}.
Proof.
  - intros e sdp vol r0 _ Hs. pose proof (create_holds lib oaep_decrypt e sdp r0 Hs) as Hc. cbn [api_create session_ops].
    destruct (session_create _ _ _ _ _) as [[s|] r] eqn:E; [|done]. destruct Hc as (Hh & Hn & Hp & Hu).
    pose proof (h_kernel _ _ _ Hh) as Hk. apply create_keyed in E as [He _].
    split; [|by split]. split; [by rewrite Hk, res_kernel_id|]. eauto 6.
  - intros e s socks seq ts ip ctl tim r0 r _ (Hh & (ip' & ctl' & tim' & Hn) & Hp & Hu). cbn [api_start session_ops].
    pose proof (start_codec hz e s socks seq ts ip ctl tim r) as Hc. pose proof (start_holds hz e s socks seq ts ip ctl tim _ _ Hh Hp Hu) as Hw.
    destruct (session_start _ _ _ _ _ _ _ _ _ _) as [[[[rc s'] req] r']| |]; [|done|done].
    destruct Hw as (Hh' & Hn' & _), Hc as (C1 & C2 & C3 & _). cbn [rbind wp].
    pose proof (h_kernel _ _ _ Hh') as Hk. cbn [res_with_kernel r_kernel] in Hk.
    split; [|split; [by rewrite Hn'|split; [|done]]]; [split; [by rewrite Hk|]; eauto|].
    intros desc. by apply keyed_same.
  - by intros s s' ((-> & _) & _).
  - intros s s' o r0 r [He _]. by apply owns_same.
  - intros s s' o r0 r desc [_ Hk] _. by apply keyed_same.
  - intros s seq ts _. done.
  - intros s o r0 r k ([Hd Hs Hh Ht Hk] & Ho). split; [|done]. by constructor.
  - intros s o r0 r k Hh. exact Hh.
  - intros s o r0 r (Hh & Ho). cbn [api_stop session_ops]. unfold session_stop.
    destruct (threads_up (s_flags s)) eqn:Et; cbn [negb].
    2:{ split; [|done]. split; [done|]. destruct o; [done|]. by rewrite Et. }
    destruct Hh as [Hd Hs Hh Ht Hk]. rewrite Et in Ht. split; [|done]. split.
    + constructor; cbn in *; try done. lia.
    + destruct o; [done|]. by destruct Ho as (_ & _ & Hu).
  - intros s o r0 r Hs (Hh & Ho). cbn [api_destroy session_ops].
    rewrite (destroy_holds s (res_with_kernel (r_kernel r) r0) r) by done.
    destruct o as [socks|].
    + destruct Ho as (ip & ctl & tim & ->). cbn [res_with_kernel r_kernel]. by rewrite release_rtp_close.
    + by destruct Ho as ((ip & ctl & tim & ->) & _).
Defined.
End SessionInstance.
