(* ===== verification/Server.v ===== *)
(** * The RTSP server ([src/main.c])

    The handlers of the poll loop, in the code's order: requests, body captures,
    reads, accepts and the handshake deadline. *)
From Stdlib Require Import ZArith Lia String.
From stdpp Require Import base numbers list gmap.
From S2P Require Import Prelude Rtp Sdp RtspMsg Rtsp Bodycap Daap Npstate DacpState Dacp Session Wakelock ServerState.

Local Open Scope Z_scope.

(** What the system answers while one event is handled: the session layer's
    answers, the probe's environment variable, allocation and thread. *)
Record env := mk_senv {
  ev_start : start_env;
  ev_probe : option bytes;
  ev_probe_mem : bool;
  ev_probe_thread : bool;
}.

(** [write_all] from [off] of [buf], with the successive results of [write] ([None]:
    interrupted); after them the connection fails.  A [write] that returns [n] has
    taken the first [n] of the bytes it was offered.  With the verdict, the bytes
    written and the answers left. *)
Fixpoint write_all (ws : list (option Z)) (buf : bytes) (off : nat) : bool * bytes * list (option Z) :=
  if (off <? length buf)%nat then
    match ws with
    | [] => (false, [], [])
    | None :: ws => write_all ws buf off
    | Some n :: ws =>
        if 0 <? n then
          let n := Nat.min (Z.to_nat n) (length buf - off) in
          let '(ok, out, ws) := write_all ws buf (off + n) in
          (ok, take n (drop off buf) ++ out, ws)
        else (false, [], ws)
    end
  else (true, [], ws).

(** [vlen >= length p && strncasecmp(v, p, length p) == 0]. *)
Definition ci_prefix (p v : bytes) : bool :=
  (length p <=? length v)%nat && ci_eqb (take (length p) v) p.

Definition body_mode (m : rtsp_msg_t) : bodycap_mode_t :=
  match List.find (fun h => ci_eq (name h) (str "Content-Type")) (hdr m) with
  | Some h =>
      if ci_prefix (str "image/jpeg") (hval h) then BODYCAP_FILE
      else if ci_prefix (str "application/x-dmap-tagged") (hval h) then BODYCAP_MEM
      else BODYCAP_DISCARD
  | None => BODYCAP_DISCARD
  end.

(** The last header of each name wins. *)
Definition dacp_headers (m : rtsp_msg_t) : option bytes * option bytes :=
  foldl (fun '(ar, id) h =>
    if ci_eq (name h) (str "Active-Remote") then (Some (hval h), id)
    else if ci_eq (name h) (str "DACP-ID") then (ar, Some (hval h))
    else (ar, id)) (None, None) (hdr m).

Definition probe_cmd (pr : bytes) : option dacp_cmd_t :=
  if bytes_eqb pr (str "playpause") then Some DACP_PLAYPAUSE
  else if bytes_eqb pr (str "nextitem") then Some DACP_NEXTITEM
  else if bytes_eqb pr (str "previtem") then Some DACP_PREVITEM
  else None.

Section Server.
Context `{DataModel} {S : Type} (api : session_api S).
Context (rsa_private : bytes -> option bytes) (d : disk) (ka : answers).

Abbreviation M := (M S).

(** *** Calls into the other components *)

Definition np (o : np_op) : M unit :=
  on_prc (fun p => set_p_display (p_display p ++ [Some o]) (set_p_np (np_do (p_np p) o) p)).
Definition nprender_wake : M unit := on_prc (fun p => set_p_display (p_display p ++ [None]) p).
Definition dacp (o : dacp_op) : M unit := on_prc (fun p => set_p_dacp (dacp_do (p_dacp p) o) p).
Definition with_kernel (f : kernel -> kernel) : M unit :=
  on_prc (fun p => set_p_res (res_with_kernel (f (r_kernel (p_res p))) (p_res p)) p).

Definition srv_close_socks : M unit := fun x =>
  let '(sk, k) := rtp_close (socks (srv x)) (r_kernel (p_res (prc x))) in
  Ret (tt, set_prc (set_p_res (res_with_kernel k (p_res (prc x))) (prc x)) (set_srv (set_socks sk (srv x)) x)).

Definition srv_open_socks : M Z := fun x =>
  let '(r, sk, k) := rtp_open ka (socks (srv x)) (r_kernel (p_res (prc x))) in
  Ret (r, set_prc (set_p_res (res_with_kernel k (p_res (prc x))) (prc x)) (set_srv (set_socks sk (srv x)) x)).

(** [write_all(S->client_fd, resp, rlen)]. *)
Definition send (resp : bytes) : M bool := fun x =>
  let '(ok, out, ws) := write_all (writes x) resp 0 in
  let x := set_writes ws x in
  Ret (ok, set_prc (set_p_sent (p_sent (prc x) ++ out) (prc x)) x).

Definition feed (data : bytes) : M unit := fun x =>
  let! (_, b, f) := bodycap_feed d (bcap (srv x)) data (p_fs (prc x)) in
  Ret (tt, set_prc (set_p_fs f (prc x)) (set_srv (set_bcap b (srv x)) x)).

Definition finish : M Z := fun x =>
  let '(rc, b, f) := bodycap_finish d (bcap (srv x)) (p_fs (prc x)) in
  Ret (rc, set_prc (set_p_fs f (prc x)) (set_srv (set_bcap b (srv x)) x)).

(** *** [teardown_client] *)

(** [session_stop], [session_destroy] and [wakelock_release]. *)
Definition end_session (s : S) : M unit :=
  on_prc (fun p =>
    let '(s, r) := api_stop api s (p_res p) in
    set_p_lock (wakelock_release (p_lock p)) (set_p_res (api_destroy api s r) p)).

Definition teardown_client : M unit :=
  let* _ := np NpReset in
  let* _ := np (NpPlaying 0) in
  let* _ := nprender_wake in
  let* s := ask (fun x => sess (srv x)) in
  let* bound := ask (fun x => rtp_bound (srv x)) in
  let* _ := (match s with
       | Some s => let* _ := end_session s in on_srv (set_sess None)
       | None => if bound then srv_close_socks else ret tt
       end) in
  let* _ := on_srv (set_rtp_bound false) in
  let* fd := ask (fun x => client_fd (srv x)) in
  let* _ := (if 0 <=? fd then let* _ := with_kernel (sys_close fd) in on_srv (set_client_fd (-1)) else ret tt) in
  let* _ := on_srv (set_client_ip_be 0) in
  let* _ := on_srv (set_rbuf []) in
  let* _ := on_srv (set_dacp_probed false) in
  let* _ := dacp DNewSession in
  let* active := ask (fun x => bcap_active (srv x)) in
  let* _ := (if active then let* _ := finish in on_srv (set_bcap_active false) else ret tt) in
  on_srv (fun s => set_rtsp (rtsp_session_init (ip4 s) (mac s) AUDIO_LATENCY) s).

(** *** Body captures *)

Definition begin_body_capture (m : rtsp_msg_t) (declared : Z) (already : bytes) : M unit :=
  let mode := body_mode m in
  let* _ := (fun x =>
    let artpath := take 511 (prefix (srv x) ++ str "/np-art.jpg") in
    let '(b, f) := bodycap_begin d mode declared
      (match mode with BODYCAP_FILE => Some artpath | _ => None end)
      (match mode with BODYCAP_MEM => METABUF_CAP | _ => 0%nat end) (p_fs (prc x)) in
    Ret (tt, set_prc (set_p_fs f (prc x)) (set_srv (set_bcap b (srv x)) x))) in
  let* _ := (if (length already =? 0)%nat then ret tt else feed already) in
  on_srv (set_bcap_active true).

(** The raw metadata is kept in a file; failures are ignored. *)
Definition persist_meta (mem : bytes) : M unit :=
  fun x =>
  let mp := take 511 (prefix (srv x) ++ str "/np-meta.bin") in
  let '(ok, f) := sys_open d mp (p_fs (prc x)) in
  let f := if ok then (sys_write d mp mem f).2 else f in
  Ret (tt, set_prc (set_p_fs f (prc x)) x).

Definition finish_body_capture : M unit :=
  let* rc := finish in
  let* b := ask (fun x => bcap (srv x)) in
  let* _ := (match mode b with
       | BODYCAP_FILE => if rc =? 0 then let* _ := np NpArt in nprender_wake else ret tt
       | BODYCAP_MEM =>
           if rc =? 0 then
             let* _ := persist_meta (mem b) in
             let* meta := lift (daap_parse (mem b)) in
             let* _ := np (NpMeta meta) in
             nprender_wake
           else ret tt
       | BODYCAP_DISCARD => ret tt
       end) in
  on_srv (set_bcap_active false).

(** *** Requests *)

(** The diagnostic self-probe after a session has started. *)
Definition probe (e : env) : M unit :=
  let* probed := ask (fun x => dacp_probed (srv x)) in
  match ev_probe e with
  | Some pr =>
      if probed then ret tt
      else
        match probe_cmd pr with
        | Some c =>
            let* _ := on_srv (set_dacp_probed true) in
            let* iface := ask (fun x => iface_ip_be (srv x)) in
            if ev_probe_mem e && ev_probe_thread e
            then on_prc (fun p => set_p_probes (p_probes p ++ [(c, iface)]) p)
            else ret tt
        | None => ret tt
        end
  | None => ret tt
  end.

(** [case ACT_START_PLAY]. *)
Definition start_play (e : env) : M unit :=
  let* bound := ask (fun x => rtp_bound (srv x)) in
  if negb bound then ret tt
  else
    let* r := ask (fun x => rtsp (srv x)) in
    let vol := if 0 <=? pending_volume_pct r then pending_volume_pct r else DEFAULT_VOL in
    let* desc := lift (match sdp r with Some desc => Ret desc | None => Oob end) in
    let* s := (fun x =>
      let '(s, res) := api_create api (ev_start e) desc vol (p_res (prc x)) in
      Ret (s, set_prc (set_p_res res (prc x)) x)) in
    match s with
    | None => let* _ := srv_close_socks in on_srv (set_rtp_bound false)
    | Some s =>
        let* r' := (fun x =>
          let! (rc, s, res) := api_start api (ev_start e) s (socks (srv x)) (rtp_seq r) (rtp_ts r)
            (client_ip_be (srv x)) (u16 (sender_control_port r)) (u16 (sender_timing_port r)) (p_res (prc x)) in
          Ret ((rc, s), set_prc (set_p_res res (prc x)) x)) in
        let '(rc, s) := r' in
        let* _ := on_srv (set_rtp_bound false) in
        if negb (rc =? 0) then on_prc (fun p => set_p_res (api_destroy api s (p_res p)) p)
        else
          let* _ := on_srv (set_sess (Some s)) in
          let* _ := on_prc (fun p => set_p_lock (wakelock_acquire (p_lock p)) p) in
          let* _ := np (NpPlaying 1) in
          let* _ := nprender_wake in
          probe e
    end.

(** The side effect a handled request asks for; -1 when the client is gone. *)
Definition do_rtsp_action (e : env) : M Z :=
  let* r := ask (fun x => rtsp (srv x)) in
  let* s := ask (fun x => sess (srv x)) in
  match action r with
  | ACT_START_PLAY => let* _ := start_play e in ret 0
  | ACT_FLUSH =>
      let* _ := (match s with
           | Some s => on_srv (set_sess (Some (api_flush api s (rtp_seq r) (rtp_ts r))))
           | None => ret tt
           end) in
      ret 0
  | ACT_SET_VOLUME =>
      let* _ := (match s with
           | Some _ => on_prc (set_p_volume (Some (pending_volume_pct r)))
           | None => ret tt
           end) in
      ret 0
  | ACT_TEARDOWN => let* _ := teardown_client in ret (-1)
  | ACT_BIND_RTP | ACT_NONE => ret 0
  end.

Definition bind_ports (m : rtsp_msg_t) : M unit :=
  let* s := ask srv in
  if bytes_eqb (method m) (str "SETUP") && negb (rtp_bound s) && negb (has_session s) then
    let* r := srv_open_socks in
    if r =? 0 then
      let* _ := on_srv (set_rtp_bound true) in
      on_srv (fun s => set_rtsp (rtsp_set_local_ports (rtsp s) (Rtp.server_port (socks s)) (Rtp.control_port (socks s))
        (Rtp.timing_port (socks s))) s)
    else ret tt
  else ret tt.

Definition handle_msg (e : env) (m : rtsp_msg_t) : M Z :=
  let* _ := (if bytes_eqb (method m) (str "ANNOUNCE") then dacp DNewSession else ret tt) in
  let* ip := ask (fun x => client_ip_be (srv x)) in
  let* _ := (match dacp_headers m with
       | (Some ar, Some id) => dacp (DCapture (Some id) (Some ar) ip)
       | _ => ret tt
       end) in
  let* _ := bind_ports m in
  let* active := ask (fun x => bcap_active (srv x)) in
  let* _ := (match body m with
       | Some b =>
           if negb active && bytes_eqb (method m) (str "SET_PARAMETER") && (0 <? body_len m) &&
              negb (bool_decide (body_mode m = BODYCAP_DISCARD))
           then let* _ := begin_body_capture m (body_len m) b in finish_body_capture
           else ret tt
       | None => ret tt
       end) in
  let* r := ask (fun x => rtsp (srv x)) in
  let* h := lift (rtsp_handle rsa_private r m 4096) in
  let '(r, resp, _) := h in
  let* _ := on_srv (set_rtsp r) in
  let* ok := send resp in
  if negb ok then let* _ := teardown_client in ret (-1)
  else do_rtsp_action e.

(** *** Reads *)

(** The offset at which the loop stops, or [None] when the client is gone. *)
Fixpoint drain_loop (fuel : nat) (e : env) (off : nat) : M (option nat) :=
  match fuel with
  | O => fun _ => NoFuel
  | Datatypes.S fuel =>
      let* b := ask (fun x => rbuf (srv x)) in
      if (off <? length b)%nat then
        let* r := lift (rtsp_msg_parse (drop off b)) in
        match r with
        | NeedMore | Partial _ _ => ret (Some off)
        | Malformed => let* _ := teardown_client in ret None
        | Complete m consumed =>
            let* _ := (fun x => Ret (tt, set_frames (frames x ++ [(m, consumed)]) x)) in
            let* rc := handle_msg e m in
            if negb (rc =? 0) then ret None else drain_loop fuel e (off + consumed)
        end
      else ret (Some off)
  end.

Definition drain (e : env) : M unit :=
  let* b := ask (fun x => rbuf (srv x)) in
  let* r := drain_loop (Datatypes.S (length b)) e 0 in
  match r with
  | None => ret tt
  | Some off => on_srv (fun s => set_rbuf (drop off (rbuf s)) s)
  end.

Definition frame_oversized (e : env) : M Z :=
  let* b := ask (fun x => rbuf (srv x)) in
  let* r := lift (rtsp_msg_parse b) in
  match r with
  | Partial m consumed =>
      if body_len m =? 0 then ret (-1)
      else
        let* _ := begin_body_capture m (body_len m) (drop consumed b) in
        let* _ := on_srv (set_rbuf []) in
        let* _ := (fun x => Ret (tt, set_frames (frames x ++ [(m, (consumed + Z.to_nat (body_len m))%nat)]) x)) in
        let* _ := handle_msg e m in
        ret 0
  | _ => ret (-1)
  end.

(** What [recv] returns: bytes, the end of the stream, nothing yet, or an error. *)
Inductive recv_t := RData (data : bytes) | RClosed | RAgain | RError.

(** [recv] stores at most the room left in the buffer. *)
Definition on_client_readable (e : env) (got : recv_t) : M unit :=
  let* s := ask srv in
  if (length (rbuf s) =? RBUF_CAP)%nat && negb (bcap_active s) then
    let* rc := frame_oversized e in
    if negb (rc =? 0) then teardown_client else ret tt
  else
    match got with
    | RClosed => teardown_client
    | RAgain => ret tt
    | RError => teardown_client
    | RData data =>
        let data := take (RBUF_CAP - length (rbuf s)) data in
        if (length data =? 0)%nat then teardown_client
        else
          let* _ := (fun x => Ret (tt, set_stream (stream x ++ data) x)) in
          let* _ := on_srv (fun s => set_rbuf (rbuf s ++ data) s) in
          let* s := ask srv in
          if bcap_active s then
            let rem := Z.to_nat (remaining (bcap s)) in
            let tk := (if length (rbuf s) <? rem then length (rbuf s) else rem)%nat in
            let* _ := feed (take tk (rbuf s)) in
            let* _ := on_srv (fun s => set_rbuf (drop tk (rbuf s)) s) in
            let* b := ask (fun x => bcap (srv x)) in
            if negb (bodycap_done b) then ret tt
            else let* _ := finish_body_capture in drain e
          else drain e
    end.

(** [accept]: the new descriptor and the peer's address; and the clock. *)
Definition on_listen_readable (conn : option (Z * Z)) (now : Z) : M unit :=
  match conn with
  | None => ret tt
  | Some (fd, ip) =>
      let* _ := with_kernel (fun k => mk_kernel ({[fd]} ∪ k_open k) (k_nonblock k) (k_port k) (Datatypes.S (k_calls k)) (k_stray k)) in
      let* c := ask (fun x => client_fd (srv x)) in
      if 0 <=? c then with_kernel (sys_close fd)
      else
        let* _ := on_srv (set_client_fd fd) in
        let* _ := on_srv (set_client_since now) in
        let* _ := on_srv (set_client_ip_be ip) in
        let* _ := on_srv (set_rbuf []) in
        let* _ := (fun x => Ret (tt, set_frames [] (set_stream [] (set_prc (set_p_sent [] (prc x)) x)))) in
        dacp DNewSession
  end.

(** *** The poll loop *)

Definition handshake_ticks (secs hz : Z) : Z := slong (secs * (if hz <=? 0 then 100 else hz)).

(** One poll: its result, the clock for the deadline, and what the ready
    descriptors deliver. *)
Record poll_ev := mk_poll {
  pe_result : Z;
  pe_eintr : bool;
  pe_now : Z;
  pe_accept : option (option (Z * Z) * Z);
  pe_client : option recv_t;
}.

(** The timeout in milliseconds [poll] is called with: -1 waits for an event. *)
Definition poll_timeout (fg : bool) (s : server_t S) : Z :=
  let handshaking := (0 <=? client_fd s) && negb (has_session s) in
  if fg || handshaking then 1000 else -1.

(** The rest of a turn of [run_loop], once [poll] has returned; false leaves the
    loop. *)
Definition loop_turn (ticks : Z) (e : env) (p : poll_ev) : M bool :=
  let* s := ask srv in
  let handshaking := (0 <=? client_fd s) && negb (has_session s) in
  let two := 0 <=? client_fd s in
  if pe_result p <? 0 then ret (pe_eintr p)
  else if handshaking && (0 <? ticks) && negb (pe_now p =? -1) &&
          (ticks <? slong (pe_now p - client_since s)) then
    let* _ := teardown_client in ret true
  else if pe_result p =? 0 then ret true
  else
    let* _ := (match pe_accept p with
         | Some (conn, now) => on_listen_readable conn now
         | None => ret tt
         end) in
    let* s := ask srv in
    let* _ := (match pe_client p with
         | Some got => if two && (0 <=? client_fd s) then on_client_readable e got else ret tt
         | None => ret tt
         end) in
    ret true.

(** What the system answers to a [poll] at the time [T] (in milliseconds) with a
    timeout: nothing ever, or what the turn meets and the time at which it returns. *)
Definition poller : Type := Z -> st S -> Z -> option (env * list (option Z) * poll_ev * Z).

(** [n] turns of [run_loop] from the time [T] ([fg]: started with [--foreground];
    [g_stop] not set); the time after them, or [None] when the loop has been left or
    waits for ever. *)
Fixpoint run_loop (fg : bool) (ticks : Z) (sys : poller) (n : nat) (T : Z) : M (option Z) :=
  match n with
  | O => ret (Some T)
  | Datatypes.S n =>
      let* x := ask id in
      match sys T x (poll_timeout fg (srv x)) with
      | None => ret None
      | Some (e, ws, p, T') =>
          let* _ := (fun x => Ret (tt, set_writes ws x)) in
          let* go := loop_turn ticks e p in
          if go then run_loop fg ticks sys n T' else ret None
      end
  end.

(** *** What [main] starts from *)

(** The server record before the loop, listening on [lfd]. *)
Definition server_init (lfd iface : Z) (pre i m : bytes) : server_t S :=
  mk_server lfd (-1) 0 0 iface false [] (mk_cap BODYCAP_DISCARD 0 false false [] [] [] 0) false
    (take 255 pre) (rtsp_session_init i m AUDIO_LATENCY) i m (mk_sockets 0 0 0 0 0 0) false None.

(** The process at that point: the files are the disk's, the resources those
    acquired so far; nothing is playing. *)
Definition proc_init (f : fs) (r : res_t) : proc_t :=
  mk_proc f r np_init dacp_state_init [] [] None [] [].
End Server.
