(* ===== verification/ServerInv.v ===== *)
(** * The invariant of the RTSP server

    What every handler of [Server.v] preserves, and the specification of each
    handler against it. *)
From Stdlib Require Import ZArith Lia String.
From stdpp Require Import base numbers list gmap.
From S2P Require Import Prelude Rtp Sdp RtspMsg Rtsp Bodycap Daap Npstate DacpState Dacp Session Wakelock ServerState Server.

Local Open Scope Z_scope.

(** Evaluates the projections of updated states. *)
Ltac st_simpl :=
  cbn [set_srv set_prc set_writes set_stream set_frames srv prc writes stream frames
    set_client_fd set_client_since set_client_ip_be set_dacp_probed set_rbuf set_bcap set_bcap_active
    set_rtsp set_socks set_rtp_bound set_sess listen_fd client_fd client_since client_ip_be iface_ip_be
    dacp_probed rbuf bcap bcap_active prefix rtsp ip4 mac socks rtp_bound sess
    set_p_fs set_p_res set_p_np set_p_dacp set_p_display set_p_lock set_p_volume set_p_sent set_p_probes
    p_fs p_res p_np p_dacp p_display p_lock p_volume p_sent p_probes
    fst snd np_do np_reset np_set_playing np_publish_art playing dacp_do has_session].

Tactic Notation "st_simpl" "in" hyp(H) :=
  cbn [set_srv set_prc set_writes set_stream set_frames srv prc writes stream frames
    set_client_fd set_client_since set_client_ip_be set_dacp_probed set_rbuf set_bcap set_bcap_active
    set_rtsp set_socks set_rtp_bound set_sess listen_fd client_fd client_since client_ip_be iface_ip_be
    dacp_probed rbuf bcap bcap_active prefix rtsp ip4 mac socks rtp_bound sess
    set_p_fs set_p_res set_p_np set_p_dacp set_p_display set_p_lock set_p_volume set_p_sent set_p_probes
    p_fs p_res p_np p_dacp p_display p_lock p_volume p_sent p_probes
    fst snd np_do np_reset np_set_playing np_publish_art playing dacp_do has_session] in H.

(** Runs a straight-line handler. *)
Ltac mcall :=
  first [mstep
        |lazymatch goal with
         | |- mwp (np _) _ _ => unfold np
         | |- mwp nprender_wake _ _ => unfold nprender_wake
         | |- mwp (dacp _) _ _ => unfold dacp
         | |- mwp (with_kernel _) _ _ => unfold with_kernel
         end].
Ltac msteps := repeat (mcall; st_simpl).

Section Invariant.
Context `{DataModel} {S : Type} (api : session_api S) `{L : !SessionLaws api}.
Context (base : res_t).

(** *** Ownership *)

Definition fd_set (fd : Z) : gset Z := if 0 <=? fd then {[fd]} else ∅.

(** The descriptors of the process with the client's and without any socket
    triple. *)
Definition under (fd : Z) : kernel := mk_kernel (k_open (r_kernel base) ∪ fd_set fd) ∅ ∅ 0 (k_stray (r_kernel base)).

(** Each acquisition has exactly one owner: a session owns its holdings and its
    triple, or the server owns a bound triple, or nothing is acquired; and the
    open descriptors are exactly those and the client's; and no descriptor has been
    closed that was not open, so none has been closed twice. *)
Definition own (se : option S) (bound : bool) (sk : rtp_sockets_t) (fd : Z) (res : res_t) : Prop :=
  (0 <= fd -> fd ∉ k_open (r_kernel base)) /\
  match se with
  | Some s => bound = false /\ exists t, owns s (Some t) base res /\ held (under fd) t (r_kernel res)
  | None => res = res_with_kernel (r_kernel res) base /\
      if bound then held (under fd) sk (r_kernel res) else same_table (under fd) (r_kernel res)
  end.

Lemma res_rebase (r r0 : res_t) k :
  r = res_with_kernel (r_kernel r) r0 ->
  res_with_kernel k r = res_with_kernel (r_kernel (res_with_kernel k r)) r0.
Proof. by intros ->. Qed.

Lemma own_session_ends s bound sk fd r :
  r_sink base = false -> own (Some s) bound sk fd r ->
  let '(s', r') := api_stop api s r in own None false sk fd (api_destroy api s' r').
Proof.
  intros Hb (Hf & -> & t & Ho & Hh). pose proof (law_stop s (Some t) base r Ho) as Hs.
  destruct (api_stop api s r) as [s' r']. destruct Hs as [Ho' Hk].
  rewrite (law_destroy s' (Some t) base r' Hb Ho'), Hk. split; [done|]. split; [done|].
  apply rtp_close_held in Hh. destruct (rtp_close t (r_kernel r)) as [t' k']. by destruct Hh as [Hh _].
Qed.

Lemma own_unbind sk fd r :
  own None true sk fd r ->
  let '(sk', k) := rtp_close sk (r_kernel r) in own None false sk' fd (res_with_kernel k r).
Proof.
  intros (Hf & Hr & Hh). apply rtp_close_held in Hh. destruct (rtp_close sk (r_kernel r)) as [sk' k'].
  destruct Hh as [Hh _]. split; [done|]. split; [by apply res_rebase|done].
Qed.

Lemma own_bind ka `{!KernelOk ka} sk fd r :
  own None false sk fd r ->
  let '(rc, sk', k) := rtp_open ka sk (r_kernel r) in
  (rc = 0 /\ own None true sk' fd (res_with_kernel k r) /\
     Forall (fun p => 0 < p < 65536) [Rtp.server_port sk'; Rtp.control_port sk'; Rtp.timing_port sk']) \/
  (rc = -1 /\ own None false sk' fd (res_with_kernel k r)).
Proof.
  intros (Hf & Hr & Hk). pose proof (rtp_open_spec ka sk (r_kernel r)) as Ho.
  destruct (rtp_open ka sk (r_kernel r)) as [[rc sk'] k].
  destruct Ho as [(-> & Hh & _ & _ & _ & _ & _ & _ & Hp)|(-> & Hk' & _)]; [left|right].
  - split; [done|]. split; [|done]. split; [done|]. split; [by apply res_rebase|].
    cbn [res_with_kernel r_kernel]. destruct Hh as (H1 & H2 & H3 & H4), Hk as [Hk Hy]. rewrite Hk in H1.
    split_and!; [exact H1| |exact H3|congruence].
    intros x Hx. destruct (H2 x Hx) as [?|[? Hn]]; [by left|right]. by rewrite Hk in Hn.
  - split; [done|]. split; [done|]. split; [by apply res_rebase|]. cbn [res_with_kernel r_kernel]. by eapply same_table_trans.
Qed.

Lemma own_close_client sk fd r :
  0 <= fd -> own None false sk fd r -> own None false sk (-1) (res_with_kernel (sys_close fd (r_kernel r)) r).
Proof.
  intros H0 (Hf & Hr & Hk & Hy). split; [lia|]. split; [by apply res_rebase|].
  unfold under, fd_set in *. rewrite (proj2 (Z.leb_le 0 fd)) in * by done. cbn [k_open k_stray] in Hk, Hy.
  split; [|cbn [res_with_kernel r_kernel]; rewrite close_open by (rewrite Hk; set_solver); exact Hy].
  cbn [res_with_kernel r_kernel sys_close k_open]. rewrite Hk.
  specialize (Hf H0). change (0 <=? -1) with false. cbv iota. set_solver.
Qed.

Lemma own_stray se bound sk fd r :
  own se bound sk fd r -> k_stray (r_kernel r) = k_stray (r_kernel base).
Proof.
  intros [_ Ho]. destruct se as [s|].
  - by destruct Ho as (_ & t & _ & _ & _ & _ & ->).
  - destruct Ho as [_ Ho]. destruct bound; [by destruct Ho as (_ & _ & _ & ->)|by destruct Ho as [_ ->]].
Qed.

Lemma own_same_triple sk sk' bound fd se r :
  bound = false -> own se bound sk fd r -> own se bound sk' fd r.
Proof. intros ->. destruct se; exact id. Qed.

(** *** The invariant *)

(** A capture that has seen the bytes [seen] of a body of [n]. *)
Definition capture_inv (b : bodycap_t) (f : fs) : Prop :=
  exists n f0 b0 seen, 0 <= n /\ captured n f0 b0 seen b f /\ bytes_ok seen.

(** The now-playing state is what the changes made of it, and a wake has followed
    the last. *)
Definition announced (n : np_snapshot_t) (l : list (option np_op)) : Prop :=
  n = foldl np_do np_init (omap id l) /\ default None (last l) = None.

Lemma announced_by n l n' evs :
  announced n l -> n' = foldl np_do n (omap id evs) -> last evs = Some None -> announced n' (l ++ evs).
Proof.
  intros [-> _] -> He. split; [by rewrite omap_app, foldl_app|]. by rewrite last_app, He.
Qed.

Ltac announce H := rewrite <- ?app_assoc; by apply (announced_by _ _ _ _ H).

(** The fields of the server and of the control state are of their C types. *)
Definition long_ok (z : Z) : Prop := LONG_MIN <= z <= LONG_MAX.
Definition uint_ok (z : Z) : Prop := 0 <= z <= UINT32_MAX.

Definition dacp_typed (g : dacp_snapshot_t) : Prop :=
  uint_ok (peer_ip_be g) /\ uint_ok (resolved_port g) /\ uint_ok (resolved_gen g).

Record typed (lfd cfd since ip iface : Z) (i m : bytes) (sk : rtp_sockets_t) (g : dacp_snapshot_t) : Prop := {
  t_listen : fd_ok lfd;
  t_client : fd_ok cfd;
  t_since : long_ok since;
  t_ip : uint_ok ip;
  t_iface : uint_ok iface;
  t_ip4 : bytes_ok i;
  t_mac : bytes_ok m;
  t_socks : socks_ok sk;
  t_dacp : dacp_typed g;
}.

Lemma typed_with lfd cfd since ip iface i m sk g cfd' ip' sk' g' :
  typed lfd cfd since ip iface i m sk g -> fd_ok cfd' -> uint_ok ip' -> socks_ok sk' -> dacp_typed g' ->
  typed lfd cfd' since ip' iface i m sk' g'.
Proof. by intros []. Qed.

Lemma typed_socks lfd cfd since ip iface i m sk g sk' :
  typed lfd cfd since ip iface i m sk g -> socks_ok sk' -> typed lfd cfd since ip iface i m sk' g.
Proof. by intros []. Qed.

Lemma new_session_typed g : dacp_typed g -> dacp_typed (dacp_state_new_session g).
Proof. intros (H1 & H2 & H3). unfold dacp_typed, uint_ok, UINT32_MAX in *. cbn. lia. Qed.

Lemma capture_typed id token ip g : uint_ok ip -> dacp_typed g -> dacp_typed (dacp_state_capture id token ip g).
Proof.
  intros Hi (H1 & H2 & H3). unfold dacp_state_capture.
  destruct (dacp_normalize_id id), (dacp_sanitize_token 32 token); split_and!; cbn; done || (by case_match).
Qed.

Lemma publish_typed gen port g : uint_ok gen -> uint_ok port -> dacp_typed g -> dacp_typed (dacp_state_publish_port gen port g).
Proof.
  intros Hg Hp (H1 & H2 & H3). unfold dacp_state_publish_port. by case_match; split_and!.
Qed.

Record core (x : st S) : Prop := {
  c_own : own (sess (srv x)) (rtp_bound (srv x)) (socks (srv x)) (client_fd (srv x)) (p_res (prc x));
  c_fd : -1 <= client_fd (srv x);
  c_ip4 : length (ip4 (srv x)) = 4%nat;
  c_mac : length (mac (srv x)) = 6%nat;
  c_dacp : dacp_ok (p_dacp (prc x));
  c_disp : announced (p_np (prc x)) (p_display (prc x));
  c_vol : forall v, p_volume (prc x) = Some v -> 0 <= v <= 100;
  c_types : typed (listen_fd (srv x)) (client_fd (srv x)) (client_since (srv x)) (client_ip_be (srv x))
    (iface_ip_be (srv x)) (ip4 (srv x)) (mac (srv x)) (socks (srv x)) (p_dacp (prc x));
}.

Record good (x : st S) : Prop := {
  g_core : core x;
  g_lock : wake_state (p_lock (prc x)) = Some (has_session (srv x));
  g_play : playing (p_np (prc x)) = has_session (srv x);
  g_rtsp : sess_ok (rtsp (srv x));
  g_creds : have_creds (p_dacp (prc x)) = true ->
    peer_ip_be (p_dacp (prc x)) = client_ip_be (srv x) /\ 0 <= client_fd (srv x);
  g_cap : bcap_active (srv x) = true -> capture_inv (bcap (srv x)) (p_fs (prc x)) /\ 0 < remaining (bcap (srv x));
  g_sender : forall s, sess (srv x) = Some s -> sender s = client_ip_be (srv x);
  g_run : forall s, sess (srv x) = Some s -> state (rtsp (srv x)) = RTSP_PLAYING /\
    exists desc, sdp (rtsp (srv x)) = Some desc /\ made s desc;
  g_vol : volume_ok (rtsp (srv x));
}.

(** No client: the state a connection starts from. *)
Record idle (x : st S) : Prop := {
  i_core : core x;
  i_client : client_fd (srv x) = -1;
  i_ip : client_ip_be (srv x) = 0;
  i_sess : sess (srv x) = None;
  i_bound : rtp_bound (srv x) = false;
  i_rbuf : rbuf (srv x) = [];
  i_active : bcap_active (srv x) = false;
  i_probed : dacp_probed (srv x) = false;
  i_creds : have_creds (p_dacp (prc x)) = false;
  i_lock : wake_state (p_lock (prc x)) = Some false;
  i_play : playing (p_np (prc x)) = false;
  i_rtsp : rtsp (srv x) = rtsp_session_init (ip4 (srv x)) (mac (srv x)) AUDIO_LATENCY;
}.

Lemma init_ok i m : length i = 4%nat -> length m = 6%nat -> sess_ok (rtsp_session_init i m AUDIO_LATENCY).
Proof.
  intros Hi Hm. split; [by intros Hne; destruct Hne|]. cbn. unfold int_ok, INT_MIN, INT_MAX, UINT32_MAX, AUDIO_LATENCY.
  split_and!; done || lia.
Qed.

Lemma idle_good x : idle x -> good x.
Proof.
  intros [Hc H1 H2 H3 H4 H5 H6 H7 H8 H9 H10 H11]. constructor; try done.
  - unfold has_session. by rewrite H3.
  - unfold has_session. by rewrite H3.
  - rewrite H11. destruct Hc. by apply init_ok.
  - by rewrite H8.
  - by rewrite H6.
  - by rewrite H3.
  - by rewrite H3.
  - rewrite H11. by split; cbn; [lia|].
Qed.

(** Everything acquired for a client has been released. *)
Lemma idle_released x : idle x ->
  p_res (prc x) = res_with_kernel (r_kernel (p_res (prc x))) base /\
  same_table (r_kernel base) (r_kernel (p_res (prc x))).
Proof.
  intros [[Hc _ _ _ _] H1 _ H3 H4 _ _ _ _ _ _ _]. rewrite H1, H3, H4 in Hc.
  destruct Hc as (_ & Hr & Hk & Hy). split; [done|]. split; [|exact Hy].
  rewrite Hk. unfold under, fd_set. cbn. set_solver.
Qed.

(** What handling a request leaves alone. *)
Record same_client (x y : st S) : Prop := {
  k_client : client_fd (srv y) = client_fd (srv x);
  k_ip : client_ip_be (srv y) = client_ip_be (srv x);
  k_since : client_since (srv y) = client_since (srv x);
  k_rbuf : rbuf (srv y) = rbuf (srv x);
  k_stream : stream y = stream x;
  k_frames : frames y = frames x;
  k_active : bcap_active (srv y) = bcap_active (srv x);
  k_bcap : bcap_active (srv x) = true -> remaining (bcap (srv y)) = remaining (bcap (srv x));
}.

Lemma same_client_refl x : same_client x x.
Proof. done. Qed.

Lemma same_client_trans x y z : same_client x y -> same_client y z -> same_client x z.
Proof.
  intros [] []. constructor; try congruence. intros. rewrite k_bcap1 by congruence. auto.
Qed.

(** ** The handlers *)

Context (rsa_private : bytes -> option bytes).
Context (rsa_in_place : forall blk s, rsa_private blk = Some s -> length s = length blk /\ bytes_ok s).
Context (d : disk) `{!DiskOk d} (ka : answers) `{!KernelOk ka} (Hbase : r_sink base = false).

(** *** [teardown_client] *)

Lemma dacp_new_ok g : dacp_ok g -> dacp_ok (dacp_state_new_session g).
Proof. apply (dacp_do_ok g DNewSession). Qed.

(** The sockets or the session of the client. *)
Definition drop_session (se : option S) (bound : bool) : M S unit :=
  match se with
  | Some s => let* _ := end_session api s in on_srv (set_sess None)
  | None => if bound then srv_close_socks else ret tt
  end.

Lemma drop_session_spec x (Q : unit -> st S -> Prop) :
  own (sess (srv x)) (rtp_bound (srv x)) (socks (srv x)) (client_fd (srv x)) (p_res (prc x)) ->
  wake_state (p_lock (prc x)) = Some (has_session (srv x)) -> socks_ok (socks (srv x)) ->
  (forall sk r lk, socks_ok sk -> own None false sk (client_fd (srv x)) r -> wake_state lk = Some false ->
    Q tt (set_prc (set_p_lock lk (set_p_res r (prc x))) (set_srv (set_sess None (set_socks sk (srv x))) x))) ->
  mwp (drop_session (sess (srv x)) (rtp_bound (srv x))) Q x.
Proof.
  destruct x as [[lfd cfd since cip iface probed rb cap act pre rt i m sk0 bound se] [f r np dc wk lock vol sent pr]
    ws str frs]. st_simpl. unfold drop_session, has_session. st_simpl.
  intros Ho Hl Hk HQ. destruct se as [s|].
  - unfold end_session. msteps. apply (own_session_ends s _ _ _ _ Hbase) in Ho.
    destruct (api_stop api s r) as [s' r']. st_simpl. exact (HQ _ _ _ Hk Ho (wake_released _ Hl)).
  - destruct bound; [|exact (HQ _ _ _ Hk Ho Hl)]. unfold srv_close_socks, mwp. st_simpl.
    apply own_unbind in Ho. apply (rtp_close_typed _ (r_kernel r)) in Hk.
    destruct (rtp_close _ _) as [sk k]. cbn [wp fst snd]. exact (HQ _ _ _ Hk Ho Hl).
Qed.

(** The descriptor of the client. *)
Definition close_client (fd : Z) : M S unit :=
  if 0 <=? fd then let* _ := with_kernel (sys_close fd) in on_srv (set_client_fd (-1)) else ret tt.

Lemma close_client_spec x (Q : unit -> st S -> Prop) :
  -1 <= client_fd (srv x) ->
  own None false (socks (srv x)) (client_fd (srv x)) (p_res (prc x)) ->
  (forall r, own None false (socks (srv x)) (-1) r ->
    Q tt (set_prc (set_p_res r (prc x)) (set_srv (set_client_fd (-1) (srv x)) x))) ->
  mwp (close_client (client_fd (srv x))) Q x.
Proof.
  destruct x as [[lfd cfd since cip iface probed rb cap act pre rt i m sk0 bound se] [f r np dc wk lock vol sent pr]
    ws str frs]. unfold close_client. st_simpl. intros Hfd Ho HQ.
  destruct (Z.leb_spec 0 cfd) as [H0|H0]; msteps.
  - exact (HQ _ (own_close_client _ _ _ H0 Ho)).
  - assert (cfd = -1) as -> by lia. exact (HQ _ Ho).
Qed.

Lemma finish_spec x (Q : Z -> st S -> Prop) :
  (forall rc b f, bodycap_finish d (bcap (srv x)) (p_fs (prc x)) = (rc, b, f) ->
    Q rc (set_prc (set_p_fs f (prc x)) (set_srv (set_bcap b (srv x)) x))) ->
  mwp (finish d) Q x.
Proof. unfold finish, mwp. destruct (bodycap_finish _ _ _) as [[rc b] f]. intros HQ. by apply HQ. Qed.

Lemma teardown_spec x :
  core x -> wake_state (p_lock (prc x)) = Some (has_session (srv x)) -> mwp (teardown_client api d) (fun _ y => idle y) x.
Proof.
  intros [Ho Hfd Hi Hm Hd Ha0 Hv Hty] Hl. unfold teardown_client. msteps.
  match goal with |- mwp _ ?Q ?y => apply (drop_session_spec y Q) end; [exact Ho|exact Hl|exact (t_socks _ _ _ _ _ _ _ _ _ Hty)|].
  intros sk r lk Hk Hr Hlk. st_simpl. msteps. st_simpl in Hr.
  match goal with |- mwp _ ?Q ?y => apply (close_client_spec y Q) end; [exact Hfd|exact Hr|].
  intros r' Hr'. st_simpl. msteps. st_simpl in Hr'. apply dacp_new_ok in Hd.
  destruct (bcap_active (srv x)) eqn:Ha; msteps; [apply finish_spec; intros rc b f _; msteps|].
  all: constructor; st_simpl; try done; constructor; st_simpl; try done; try (announce Ha0).
  all: eapply typed_with; [exact Hty|done..|]; apply new_session_typed, Hty.
Qed.

(** *** Body captures *)

Lemma feed_spec x data (Q : unit -> st S -> Prop) :
  capture_inv (bcap (srv x)) (p_fs (prc x)) -> bytes_ok data ->
  (forall b f, capture_inv b f -> mode b = mode (bcap (srv x)) ->
    remaining b = Z.max 0 (remaining (bcap (srv x)) - Z.of_nat (length data)) ->
    Q tt (set_prc (set_p_fs f (prc x)) (set_srv (set_bcap b (srv x)) x))) ->
  mwp (feed d data) Q x.
Proof.
  intros (n & f0 & b0 & seen & Hn & Hc & Hs) Hd HQ. unfold feed, mwp.
  destruct (bodycap_feed_spec d n f0 b0 seen _ _ data Hn Hc) as (tk & b & f & -> & Hc' & _).
  cbn [rbind wp fst snd]. apply HQ.
  - exists n, f0, b0, (seen ++ data). split_and!; try done. by apply Forall_app.
  - destruct Hc as (Hm & _), Hc' as (Hm' & _). congruence.
  - destruct Hc as (_ & _ & _ & _ & Hr & _), Hc' as (_ & _ & _ & _ & Hr' & _).
    rewrite Hr, Hr', length_app. lia.
Qed.

(** What [begin_body_capture] leaves: the capture [b], the files [f]. *)
Definition capturing (x : st S) (b : bodycap_t) (f : fs) : st S :=
  set_srv (set_bcap_active true (set_bcap b (srv x))) (set_prc (set_p_fs f (prc x)) x).

Lemma begin_spec x m declared already (Q : unit -> st S -> Prop) :
  0 <= declared -> bytes_ok already ->
  (forall b f, capture_inv b f -> remaining b = Z.max 0 (declared - Z.of_nat (length already)) ->
    Q tt (capturing x b f)) ->
  mwp (begin_body_capture d m declared already) Q x.
Proof.
  intros Hn Ha HQ. unfold begin_body_capture. msteps.
  unfold mwp at 1.
  match goal with |- context [bodycap_begin d _ _ ?p ?c ?f] =>
    pose proof (begin_captured d (body_mode m) declared p c f Hn) as Hc end.
  destruct (bodycap_begin _ _ _ _ _ _) as [b f]. cbn [wp fst snd].
  assert (captured declared (p_fs (prc x)) b [] b f) as Hc'.
  { apply Hc. intros ->. by eexists. }
  assert (capture_inv b f) as Hi
    by (exists declared, (p_fs (prc x)), b, []; split; [done|]; split; [done|by apply Forall_nil]).
  destruct Hc' as (_ & _ & _ & _ & Hr & _). cbn [length] in Hr.
  mstep. destruct already as [|c already]; cbn [length Nat.eqb].
  - msteps. apply HQ; [done|cbn [length]; lia].
  - apply feed_spec; st_simpl; [done|done|]. intros b' f' Hi' _ Hr'. msteps. apply HQ; [done|].
    rewrite Hr', Hr. lia.
Qed.

(** What ending a capture leaves. *)
Definition captured_state (x : st S) (b : bodycap_t) (f : fs) (n : np_snapshot_t) (wk : list (option np_op)) : st S :=
  set_srv (set_bcap_active false (set_bcap b (srv x)))
    (set_prc (set_p_display wk (set_p_np n (set_p_fs f (prc x)))) x).

Lemma publish_meta_playing s m : playing (np_publish_meta m s) = playing s.
Proof. unfold np_publish_meta. by case_match. Qed.

Lemma capture_mem b f : capture_inv b f -> mode b = BODYCAP_MEM -> bytes_ok (mem b).
Proof.
  intros (n & f0 & b0 & seen & _ & (Hm & _ & _ & _ & _ & Hx) & Hs) Hb.
  rewrite <- Hm, Hb in Hx. destruct Hx as (_ & -> & _). auto with bytes.
Qed.

Lemma finish_capture_spec x (Q : unit -> st S -> Prop) :
  capture_inv (bcap (srv x)) (p_fs (prc x)) -> announced (p_np (prc x)) (p_display (prc x)) ->
  (forall b f n wk, playing n = playing (p_np (prc x)) -> announced n wk -> Q tt (captured_state x b f n wk)) ->
  mwp (finish_body_capture d) Q x.
Proof.
  intros Hc Han HQ. unfold finish_body_capture. mstep. apply finish_spec. intros rc b f Hf.
  assert (mode b = BODYCAP_MEM -> bytes_ok (mem b)) as Hb.
  { revert Hf. unfold bodycap_finish. destruct (mode (bcap (srv x))) eqn:Em.
    - intros [= _ <- _]. congruence.
    - unfold sys_rename. repeat case_match; by intros [= _ <- _].
    - intros [= _ <- _] _. by eapply capture_mem. }
  destruct x as [[lfd cfd since cip iface probed rb cap act pre rt i m sk0 bound se] [fs0 r np dc wk lock vol sent pr]
    ws str frs]. st_simpl. msteps. destruct (mode b) eqn:Em.
  - msteps. by apply (HQ b f np wk).
  - destruct (rc =? 0); msteps; [apply (HQ b f (np_publish_art np)); [done|announce Han]|by apply (HQ b f np wk)].
  - destruct (rc =? 0); msteps; [|by apply (HQ b f np wk)]. unfold persist_meta, mwp at 1. st_simpl.
    destruct (sys_open _ _ _) as [ok f1]. cbn [wp fst snd]. msteps.
    eapply wp_mono; [by apply daap_parse_wp, Hb|]. intros meta _. msteps.
    apply (HQ b _ (np_publish_meta meta np)); [apply publish_meta_playing|announce Han].
Qed.

(** *** Requests *)

(** A step inside the handling of a request. *)
Definition kept (x y : st S) : Prop := good y /\ same_client x y /\ p_sent (prc y) = p_sent (prc x).

Lemma kept_refl x : good x -> kept x x.
Proof. done. Qed.

Lemma kept_trans x y z : kept x y -> kept y z -> kept x z.
Proof.
  intros (_ & Hk & Hs) (Hg & Hk' & Hs'). split; [done|]. split; [by eapply same_client_trans|congruence].
Qed.

Lemma dacp_new_kept x (Q : unit -> st S -> Prop) :
  good x -> (forall y, kept x y -> Q tt y) -> mwp (dacp DNewSession) Q x.
Proof.
  intros [[Ho Hf Hi Hm Hd Hdi Hvo Hty] H1 H2 H3 H4 H5] HQ. msteps. apply HQ. split; [|done].
  constructor; st_simpl; try done. constructor; st_simpl; try done; [by apply dacp_new_ok|].
  eapply typed_with; [exact Hty|apply Hty..|]. apply new_session_typed, Hty.
Qed.

Lemma dacp_capture_kept x id token (Q : unit -> st S -> Prop) :
  good x -> 0 <= client_fd (srv x) -> (forall y, kept x y -> Q tt y) ->
  mwp (dacp (DCapture id token (client_ip_be (srv x)))) Q x.
Proof.
  intros [[Ho Hf Hi Hm Hd Hdi Hvo Hty] H1 H2 H3 H4 H5] Hc HQ. msteps. apply HQ. split; [|done].
  constructor; st_simpl; try done.
  - constructor; st_simpl; try done; [by apply (dacp_do_ok _ (DCapture id token (client_ip_be (srv x))))|].
    eapply typed_with; [exact Hty|apply Hty..|]. apply capture_typed; apply Hty.
  - unfold dacp_state_capture. destruct (dacp_normalize_id id), (dacp_sanitize_token 32 token);
      cbn [have_creds peer_ip_be]; auto.
Qed.

Lemma set_ports_ok s sk :
  sess_ok s -> Forall (fun p => 0 < p < 65536) [Rtp.server_port sk; Rtp.control_port sk; Rtp.timing_port sk] ->
  sess_ok (rtsp_set_local_ports s (Rtp.server_port sk) (Rtp.control_port sk) (Rtp.timing_port sk)).
Proof.
  intros (Hd & H1 & H2 & _ & _ & _ & Hrest) Hp. apply Forall_cons_1 in Hp as [P1 Hp].
  apply Forall_cons_1 in Hp as [P2 Hp]. apply Forall_cons_1 in Hp as [P3 _].
  split; [exact Hd|]. cbn. unfold int_ok, INT_MIN, INT_MAX in *. split_and?; try tauto; lia.
Qed.

Lemma bind_ports_kept x m (Q : unit -> st S -> Prop) :
  good x -> (forall y, kept x y -> Q tt y) -> mwp (bind_ports ka m) Q x.
Proof.
  intros Hg HQ. unfold bind_ports. msteps. case_match eqn:Hc; [|by apply HQ, kept_refl].
  apply andb_true_iff in Hc as [Hc Hs]. apply andb_true_iff in Hc as [_ Hb].
  apply negb_true_iff in Hs, Hb. unfold has_session in Hs.
  destruct Hg as [[Ho Hf Hi Hm Hd Hdi Hvo Hty] H1 H2 H3 H4 H5]. unfold has_session in *.
  destruct (sess (srv x)) eqn:Es; [done|]. rewrite Hb in Ho.
  pose proof (own_bind ka _ _ _ Ho) as Hk.
  pose proof (rtp_open_typed ka (socks (srv x)) (r_kernel (p_res (prc x))) (t_socks _ _ _ _ _ _ _ _ _ Hty)) as Hso.
  apply (typed_socks _ _ _ _ _ _ _ _ _ _ Hty) in Hso. mstep. unfold srv_open_socks, mwp at 1.
  destruct (rtp_open ka _ _) as [[rc sk] k]. cbn [wp fst snd] in *.
  destruct Hk as [(-> & Hk & Hp)|(-> & Hk)]; [change (0 =? 0) with true|change (-1 =? 0) with false];
    msteps; apply HQ; (split; [|done]); constructor; st_simpl; unfold has_session; st_simpl; rewrite ?Es; try done.
  - constructor; st_simpl; rewrite ?Es; done.
  - by apply set_ports_ok.
  - constructor; st_simpl; rewrite ?Es, ?Hb; done.
Qed.

Lemma probe_kept x e (Q : unit -> st S -> Prop) :
  good x -> (forall y, kept x y -> Q tt y) -> mwp (probe e) Q x.
Proof.
  intros Hg HQ. unfold probe. msteps. destruct (ev_probe e) as [pr|]; [|by apply HQ, kept_refl].
  destruct (dacp_probed (srv x)); [by apply HQ, kept_refl|].
  destruct (probe_cmd pr) as [c|]; [|by apply HQ, kept_refl]. msteps.
  destruct Hg as [[] H1 H2 H3 H4 H5].
  case_match; msteps; apply HQ; (split; [|done]); constructor; st_simpl; try done; constructor; st_simpl; done.
Qed.

(** A session takes the bound triple. *)
Lemma own_start s sk sk' fd r r' r0 :
  own None true sk fd r -> owns s (Some sk) r0 r' -> r0 = r -> r_kernel r' = r_kernel r ->
  own (Some s) false sk' fd r' /\ own None false sk' fd (api_destroy api s r').
Proof.
  intros (Hf & Hr & Hh) Ho -> Hk. rewrite Hr in Ho. apply law_base in Ho. rewrite <- Hk in Hh. split.
  - split; [done|]. split; [done|]. by exists sk.
  - rewrite (law_destroy s (Some sk) base r' Hbase Ho). split; [done|]. split; [done|].
    apply rtp_close_held in Hh. destruct (rtp_close sk (r_kernel r')) as [t k]. by destruct Hh as [Hh _].
Qed.

Lemma own_bound_none se sk fd r : own se true sk fd r -> se = None.
Proof. destruct se; [|done]. by intros (_ & ? & _). Qed.

Lemma own_base_sink sk fd r : own None true sk fd r -> r_sink r = false.
Proof. intros (_ & -> & _). exact Hbase. Qed.

Lemma valid_frames desc : sdp_valid desc -> 1 <= frame_length desc <= 16384.
Proof. by intros (_ & _ & _ & _ & _ & ? & _). Qed.

Lemma ok_seq s : sess_ok s -> 0 <= rtp_seq s < 65536.
Proof. by intros (_ & _ & _ & _ & _ & _ & _ & _ & ? & _). Qed.

Lemma start_play_kept x e (Q : unit -> st S -> Prop) :
  good x -> state (rtsp (srv x)) = RTSP_PLAYING -> (exists desc, sdp (rtsp (srv x)) = Some desc /\ sdp_valid desc) ->
  (forall y, kept x y -> Q tt y) -> mwp (start_play api e) Q x.
Proof.
  intros Hg Hst (desc & Hsdp & Hv) HQ. unfold start_play. msteps.
  destruct (rtp_bound (srv x)) eqn:Hb; cbn [negb]; [|by apply HQ, kept_refl]. msteps. rewrite Hsdp. cbn [wp]. mstep.
  destruct Hg as [[Ho Hf Hi Hm Hd Ha0 Hvo Hty] H1 H2 H3 H4 H5]. unfold has_session in *. rewrite Hb in Ho.
  pose proof (own_bound_none _ _ _ _ Ho) as Es. rewrite Es in *.
  unfold mwp at 1. match goal with |- context [api_create api ?a ?b ?c ?r] =>
    pose proof (law_create a b c r (proj1 (valid_frames _ Hv)) (own_base_sink _ _ _ Ho)) as Hc;
    destruct (api_create api a b c r) as [[s|] r1] end; cbn [wp fst snd]; st_simpl.
  2:{ subst r1. mstep. unfold srv_close_socks, mwp at 1. st_simpl. apply own_unbind in Ho.
      pose proof (rtp_close_typed (socks (srv x)) (r_kernel (p_res (prc x))) (t_socks _ _ _ _ _ _ _ _ _ Hty)) as Hso.
      destruct (rtp_close _ _) as [sk k]. cbn [wp fst snd]. msteps. apply HQ. split; [|done].
      apply (typed_socks _ _ _ _ _ _ _ _ _ _ Hty) in Hso.
      constructor; st_simpl; unfold has_session; st_simpl; rewrite ?Es; try done.
      constructor; st_simpl; rewrite ?Es; done. }
  destruct Hc as (Hs & Hmd & Hk). msteps. unfold mwp at 1. st_simpl. apply wp_bind.
  eapply wp_mono; [by apply law_start; [apply ok_seq|]|]. intros [[rc s1] r2] (Ho2 & Hsd & Hmk & Hk2). cbn [wp fst snd]. st_simpl.
  rewrite Hk in Hk2. msteps.
  pose proof (own_start s1 _ (socks (srv x)) _ _ _ _ Ho Ho2 eq_refl Hk2) as [Hown Hfree].
  destruct (rc =? 0); cbn [negb]; msteps.
  - apply probe_kept; [|intros y Hy; apply HQ; eapply kept_trans; [|exact Hy]; split; [|done]];
      (constructor; st_simpl; unfold has_session; st_simpl; try (done || by apply wake_acquired || by intros ? [= <-]; eauto); constructor; st_simpl; done || announce Ha0).
  - apply HQ. split; [|done].
    constructor; st_simpl; unfold has_session; st_simpl; rewrite ?Es; try done.
    constructor; st_simpl; rewrite ?Es; done.
Qed.

(** The end of a request: the client is kept, or gone and everything with it. *)
Definition outcome (x : st S) (rc : Z) (y : st S) : Prop := (rc = 0 /\ kept x y) \/ (rc = -1 /\ idle y).

Lemma own_flush se s seq ts bound sk fd r :
  0 <= seq < 65536 -> se = Some s -> own se bound sk fd r -> own (Some (api_flush api s seq ts)) bound sk fd r.
Proof.
  intros Hq -> (Hf & Hb & t & Ho & Hh). split; [done|]. split; [done|]. exists t. split; [|done].
  eapply law_evolves; [by apply law_flush|done].
Qed.

Lemma action_spec x e (Q : Z -> st S -> Prop) :
  core x -> wake_state (p_lock (prc x)) = Some (has_session (srv x)) ->
  (action (rtsp (srv x)) <> ACT_TEARDOWN -> good x) ->
  (action (rtsp (srv x)) = ACT_START_PLAY -> state (rtsp (srv x)) = RTSP_PLAYING /\
     exists desc, sdp (rtsp (srv x)) = Some desc /\ sdp_valid desc) ->
  (forall rc y, outcome x rc y -> Q rc y) -> mwp (do_rtsp_action api d e) Q x.
Proof.
  intros Hcore Hwake Hg Hsdp HQ. unfold do_rtsp_action. msteps.
  assert (forall y, kept x y -> Q 0 y) as HQ0 by (intros y Hy; apply HQ; by left).
  destruct (action (rtsp (srv x))) eqn:Eact; msteps; try specialize (Hg ltac:(done)); try (by apply HQ0, kept_refl).
  - destruct (Hsdp eq_refl) as [Hst Hd]. apply start_play_kept; [done..|]. intros y Hy. msteps. by apply HQ0.
  - destruct (sess (srv x)) as [s|] eqn:Es; msteps; [|by apply HQ0, kept_refl]. apply HQ0. split; [|done].
    pose proof (ok_seq _ (g_rtsp _ Hg)) as Hq.
    destruct Hg as [[Ho Hf Hi Hm Hd] H1 H2 H3 H4 H5 H6 H7]. unfold has_session in *. rewrite Es in *.
    constructor; st_simpl; unfold has_session; st_simpl; try done.
    + constructor; st_simpl; try done. by apply (own_flush (Some s)).
    + intros ? [= <-]. rewrite (law_sender s) by (by apply law_flush). by apply H6.
    + intros ? [= <-]. destruct (H7 s eq_refl) as (Hst & desc & Hsd & Hmd), Ho as (_ & _ & t & Ho & _).
      split; [done|]. exists desc. split; [done|]. by eapply law_made; [by apply law_flush| |].
  - eapply mwp_mono; [by apply teardown_spec|]. intros [] y Hy. msteps. apply HQ. by right.
  - destruct (sess (srv x)) as [s|] eqn:Es; msteps; [|by apply HQ0, kept_refl]. apply HQ0. split; [|done].
    destruct Hg as [[] H1 H2 H3 H4 H5 H6 H7 [Hr Hv]]. constructor; st_simpl; try done.
    constructor; st_simpl; try done. intros ? [= <-]. specialize (Hv Eact). lia.
Qed.

(** What the parser guarantees of a request. *)
Definition msg_ok (m : rtsp_msg_t) : Prop :=
  cseq_ok m /\ 0 <= body_len m /\ (forall b, body m = Some b -> bytes_ok b /\ Z.of_nat (length b) = body_len m).

(** The response to a request, with nothing cut. *)
Definition answers_to (m : rtsp_msg_t) (resp : bytes) : Prop :=
  exists status extra bd, resp = response_text status (cseq m) extra bd.

(** The bytes written are complete responses, one for each request and in order. *)
Definition answered (fs : list (rtsp_msg_t * nat)) (out : bytes) : Prop :=
  exists resps, Forall2 (fun f r => answers_to f.1 r) fs resps /\ out = concat resps.

Lemma answered_snoc fs out f resp : answered fs out -> answers_to f.1 resp -> answered (fs ++ [f]) (out ++ resp).
Proof.
  intros (resps & Hf & ->) Hr. exists (resps ++ [resp]). split; [|by rewrite concat_app, concat_cons, concat_nil, app_nil_r].
  apply Forall2_app; [done|]. by repeat constructor.
Qed.

(** A [write_all] that succeeds has written the rest of the buffer; one that fails,
    the beginning of it. *)
Lemma write_all_spec ws buf off :
  let '(ok, out, _) := write_all ws buf off in
  out `prefix_of` drop off buf /\ (ok = true -> out = drop off buf).
Proof.
  revert off. induction ws as [|[n|] ws IH]; intros off; cbn [write_all].
  - destruct (Nat.ltb_spec off (length buf)); (split; [apply prefix_nil|]); [done|]. by rewrite drop_ge.
  - destruct (Nat.ltb_spec off (length buf)); [|split; [apply prefix_nil|by rewrite drop_ge]].
    destruct (0 <? n); [|by split; [apply prefix_nil|]]. set (k := Nat.min _ _). specialize (IH (off + k)%nat).
    destruct (write_all ws buf (off + k)) as [[ok out] ws']. destruct IH as [IH1 IH2].
    rewrite <- drop_drop in IH1, IH2. split.
    + rewrite <- (take_drop k (drop off buf)) at 2. by apply prefix_app.
    + intros Ho. by rewrite (IH2 Ho), take_drop.
  - destruct (Nat.ltb_spec off (length buf)); [apply IH|]. split; [apply prefix_nil|by rewrite drop_ge].
Qed.

(** The request has been answered, once, and the client is kept; or it is gone. *)
Definition handled (x : st S) (m : rtsp_msg_t) (rc : Z) (y : st S) : Prop :=
  (rc = 0 /\ good y /\ same_client x y /\
     exists resp, p_sent (prc y) = p_sent (prc x) ++ resp /\ answers_to m resp) \/
  (rc = -1 /\ idle y).

(** A body that came whole is captured at once. *)
Lemma whole_body_kept x m (Q : unit -> st S -> Prop) :
  good x -> msg_ok m -> (forall y, kept x y -> Q tt y) ->
  mwp (match body m with
       | Some b =>
           if negb (bcap_active (srv x)) && bytes_eqb (method m) (str "SET_PARAMETER") && (0 <? body_len m) &&
              negb (bool_decide (body_mode m = BODYCAP_DISCARD))
           then let* _ := begin_body_capture d m (body_len m) b in finish_body_capture d
           else ret tt
       | None => ret tt
       end) Q x.
Proof.
  intros Hg (_ & Hn & Hb) HQ. destruct (body m) as [b|]; [|by apply HQ, kept_refl].
  destruct (Hb b eq_refl) as [Hbo _].
  destruct (bcap_active (srv x)) eqn:Ha; [by apply HQ, kept_refl|].
  case_match; [|by apply HQ, kept_refl].
  mstep. apply begin_spec; [done|done|]. intros cap f Hc _.
  apply finish_capture_spec; [exact Hc|apply Hg|]. intros cap' f' n wk Hp Han. apply HQ.
  destruct Hg as [[] H1 H2 H3 H4 H5]. split; [|split; [|done]].
  - constructor; st_simpl; try done; first [exact (eq_trans Hp H2) | constructor; st_simpl; done].
  - constructor; st_simpl; try done. by rewrite Ha.
Qed.

(** The session after a request, unless it ends. *)
Lemma set_rtsp_kept x s :
  good x -> sess_ok s ->
  (state (rtsp (srv x)) = RTSP_PLAYING -> sdp s = sdp (rtsp (srv x)) /\ (state s = RTSP_PLAYING \/ action s = ACT_TEARDOWN)) ->
  volume_ok s -> action s <> ACT_TEARDOWN -> good (set_srv (set_rtsp s (srv x)) x).
Proof.
  intros [[] H1 H2 H3 H4 H5 H6 H7 H8] Hs Hp Hv Ha. constructor; st_simpl; try done.
  intros t Et. destruct (H7 t Et) as (Hst & desc & Hd & Hm). destruct (Hp Hst) as [-> [?|?]]; [|done]. eauto.
Qed.

Lemma stepped_start s0 s m rc :
  sess_ok s -> stepped s0 s m rc -> action s = ACT_START_PLAY ->
  state s = RTSP_PLAYING /\ exists desc, sdp s = Some desc /\ sdp_valid desc.
Proof.
  intros (Hd & _) Hs Ha. destruct Hs as [(_ & Ht & _)|(_ & _ & Hn & _)]; [|congruence].
  rewrite Ha in Ht. assert (state s = RTSP_PLAYING) as Hst by (inversion Ht; congruence).
  split; [done|]. destruct (Hd ltac:(congruence)) as (_ & desc & -> & Hv). by eexists.
Qed.

Lemma handle_msg_spec x e m (Q : Z -> st S -> Prop) :
  good x -> 0 <= client_fd (srv x) -> msg_ok m ->
  (forall rc y, handled x m rc y -> Q rc y) -> mwp (handle_msg api rsa_private d ka e m) Q x.
Proof.
  intros Hg Hfd Hm HQ. unfold handle_msg. mstep.
  eapply (mwp_mono _ (fun _ y => kept x y)).
  { case_match; [by apply dacp_new_kept|by apply mwp_ret, kept_refl]. }
  intros [] y Hy. msteps.
  eapply (mwp_mono _ (fun _ z => kept x z)).
  { destruct (dacp_headers m) as [[ar|] [id|]]; try exact Hy. apply dacp_capture_kept; [apply Hy| |].
    - destruct Hy as (_ & Hk & _). rewrite (k_client _ _ Hk). exact Hfd.
    - intros z Hz. by eapply kept_trans. }
  clear y Hy. intros [] y Hy. mstep. apply bind_ports_kept; [apply Hy|]. intros z Hz.
  pose proof (kept_trans _ _ _ Hy Hz) as Hxz. clear y Hy Hz. msteps.
  apply whole_body_kept; [apply Hxz|done|]. intros y Hzy. pose proof (kept_trans _ _ _ Hxz Hzy) as Hy.
  clear z Hxz Hzy. msteps.
  destruct (handle_ok rsa_private rsa_in_place (rtsp (srv y)) m 4096 (g_rtsp _ ltac:(apply Hy)) (proj1 Hm))
    as (s' & resp & rc & status & extra & bd & Er & Hs' & Hst & _ & Ht).
  pose proof (handle_playing rsa_private (rtsp (srv y)) m 4096) as Hpl.
  pose proof (handle_volume rsa_private (rtsp (srv y)) m 4096 (g_vol _ ltac:(apply Hy))) as Hvl. rewrite Er in *. cbn [wp rl fst] in *. msteps.
  specialize (Ht ltac:(apply Nat.leb_le; reflexivity)). unfold send, mwp at 1. st_simpl.
  pose proof (write_all_spec (writes y) resp 0) as Hw.
  destruct (write_all _ _ _) as [[ok out] ws]. destruct Hw as [_ Hw].
  rewrite drop_0 in Hw. cbn [wp fst snd]. st_simpl.
  destruct Hy as (Hgy & Hky & Hsy). destruct ok; cbn [negb].
  - apply action_spec.
    + by destruct Hgy as [[] ? ? ? ? ?].
    + by destruct Hgy as [[] ? ? ? ? ?].
    + intros Ha. st_simpl in Ha. by destruct (set_rtsp_kept y s' Hgy Hs' Hpl Hvl Ha) as [[] ? ? ? ? ?].
    + st_simpl. by apply (stepped_start _ _ _ _ Hs' Hst).
    + intros rc' z' [(-> & Hg' & Hk' & Hs2)|[-> Hi]]; apply HQ; [left|by right].
      split; [done|]. split; [done|]. split; [eapply same_client_trans; [exact Hky|by destruct Hk'; constructor]|].
      exists resp. split; [by rewrite Hs2; st_simpl; rewrite Hsy, (Hw eq_refl)|]. by exists status, extra, bd.
  - mstep. eapply mwp_mono; [apply teardown_spec|].
    + by destruct Hgy as [[] ? ? ? ? ?].
    + by destruct Hgy as [[] ? ? ? ? ?].
    + intros [] z' Hi. apply mwp_ret, HQ. by right.
Qed.
End Invariant.
