(* ===== verification/ServerFrame.v ===== *)
(** * Where the requests of a byte stream lie

    A reference definition of the framing of [src/main.c]: the requests of a
    connection as a function of the bytes received, without buffers, chunks or
    captures. *)
From Stdlib Require Import ZArith Lia.
From stdpp Require Import base numbers list.
From S2P Require Import Prelude Wakelock RtspMsg Rtsp ServerState.

Local Open Scope Z_scope.

Section Frame.
Context `{DataModel}.

(** The request at the head of the stream with the bytes it takes: one that fits
    the read buffer with its body, or one whose body does not fit once the buffer
    is full. *)
Definition next_frame (s : bytes) : option (rtsp_msg_t * nat) :=
  match rtsp_msg_parse (take RBUF_CAP s) with
  | Ret (Complete m n) => Some (m, n)
  | Ret (Partial m n) => if (RBUF_CAP <=? length s)%nat then Some (m, (n + Z.to_nat (body_len m))%nat) else None
  | _ => None
  end.

(** The requests of a stream, in order. *)
Fixpoint requests (fuel : nat) (s : bytes) : list (rtsp_msg_t * nat) :=
  match fuel with
  | O => []
  | S fuel =>
      match next_frame s with
      | Some (m, n) => (m, n) :: requests fuel (drop n s)
      | None => []
      end
  end.

Definition total (l : list (rtsp_msg_t * nat)) : nat := sum_list (map snd l).

(** [l] are requests of the stream, one after the other from its start. *)
Fixpoint framed (s : bytes) (l : list (rtsp_msg_t * nat)) : Prop :=
  match l with
  | [] => True
  | (m, n) :: l => next_frame s = Some (m, n) /\ framed (drop n s) l
  end.

Lemma total_snoc l f : total (l ++ [f]) = (total l + f.2)%nat.
Proof. unfold total. induction l as [|f' l IH]; cbn in *; lia. Qed.

(** A buffer the parser has stopped at. *)
Lemma next_frame_none b :
  (length b < RBUF_CAP)%nat ->
  (exists r, rtsp_msg_parse b = Ret r /\ match r with Complete _ _ => False | _ => True end) -> next_frame b = None.
Proof.
  intros Hl (r & Hr & Hc). unfold next_frame. rewrite take_ge, Hr by lia.
  destruct r; try done. by rewrite (proj2 (Nat.leb_gt _ _)).
Qed.

Lemma next_frame_nil : next_frame [] = None.
Proof. done. Qed.

Lemma next_frame_pos s m n : next_frame s = Some (m, n) -> (0 < n)%nat.
Proof.
  unfold next_frame. destruct (rtsp_msg_parse_ok (take RBUF_CAP s)) as (r & -> & Hr).
  destruct r as [| |m' c|m' c]; try done; cbn [result_ok] in Hr.
  - case_match; [|done]. intros [= <- <-]. lia.
  - intros [= <- <-]. lia.
Qed.

(** Bytes that arrive later change nothing. *)
Lemma next_frame_app s t f : next_frame s = Some f -> next_frame (s ++ t) = Some f.
Proof.
  unfold next_frame. destruct (decide (RBUF_CAP <= length s)%nat) as [Hf|Hf].
  - rewrite take_app_le by lia. rewrite length_app, !(proj2 (Nat.leb_le _ _)) by lia. done.
  - rewrite (take_ge s) by lia. rewrite take_app_ge by lia. rewrite (proj2 (Nat.leb_gt _ _)) by lia.
    destruct (rtsp_msg_parse_ok s) as (r & Hr & _). rewrite Hr.
    destruct r as [| |m' c|m' c]; try done. intros [= <-].
    destruct (rtsp_msg_parse_stable s (take (RBUF_CAP - length s) t) _ Hr) as (r' & -> & ->); done.
Qed.

Lemma framed_app s t l : framed s l -> framed (s ++ t) l.
Proof.
  revert s. induction l as [|[m n] l IH]; intros s; [done|]. cbn [framed]. intros [Hn Hf].
  split; [by apply next_frame_app|]. destruct l as [|[m' n'] l]; [done|].
  destruct (decide (n <= length s)%nat) as [Hle|Hgt].
  - rewrite drop_app_le by done. by apply IH.
  - rewrite drop_ge in Hf by lia. by destruct Hf as [Hf _].
Qed.

Lemma framed_snoc s l f : framed s l -> next_frame (drop (total l) s) = Some f -> framed s (l ++ [f]).
Proof.
  revert s. induction l as [|[m n] l IH]; intros s; cbn [framed app].
  - intros _ Hf. destruct f as [m n]. split; [exact Hf|done].
  - intros [Hn Hf] Hx. split; [done|]. apply IH; [done|]. rewrite drop_drop. exact Hx.
Qed.

(** Requests that are framed are the first of the stream's. *)
Lemma framed_requests s l fuel :
  framed s l -> (length s <= fuel)%nat ->
  exists rest, requests fuel s = l ++ rest /\ (next_frame (drop (total l) s) = None -> rest = []).
Proof.
  revert s fuel. induction l as [|[m n] l IH]; intros s fuel; cbn [framed].
  - intros _ Hl. eexists. split; [done|]. cbn [total map sum_list fold_right]. rewrite drop_0.
    destruct fuel; [done|]. cbn [requests]. by intros ->.
  - intros [Hn Hf] Hl. pose proof (next_frame_pos _ _ _ Hn) as Hp.
    destruct s as [|c s]; [done|]. cbn [length] in Hl. destruct fuel as [|fuel]; [lia|].
    cbn [requests]. rewrite Hn.
    destruct (IH (drop n (c :: s)) fuel Hf) as (rest & -> & Hr); [rewrite length_drop; cbn [length]; lia|].
    exists rest. split; [done|]. rewrite drop_drop in Hr. exact Hr.
Qed.
End Frame.
