(* ===== verification/ServerProps.v ===== *)
(** * Properties of the RTSP server

    The read path and the poll loop preserve the server's invariant; the theorems
    about every state the daemon reaches. *)
From Stdlib Require Import ZArith Lia String.
From stdpp Require Import base numbers list gmap.
From S2P Require Import Prelude Rtp Sdp RtspMsg Rtsp Bodycap Daap Npstate DacpState Dacp AlacShim Session Wakelock ServerState Server ServerInv ServerFrame.

Local Open Scope Z_scope.

Section Props.
Context `{DataModel} {S : Type} (api : session_api S) `{L : !SessionLaws api}.
Context (base : res_t).
Context (rsa_private : bytes -> option bytes).
Context (rsa_in_place : forall blk s, rsa_private blk = Some s -> length s = length blk /\ bytes_ok s).
Context (d : disk) `{!DiskOk d} (ka : answers) `{!KernelOk ka} (Hbase : r_sink base = false).

(** *** The connection *)

Record conn (x : st S) : Prop := {
  f_framed : framed (stream x) (frames x);
  f_rbuf : rbuf (srv x) = drop (total (frames x)) (stream x);
  f_cap : (length (rbuf (srv x)) <= RBUF_CAP)%nat;
  f_cover : if bcap_active (srv x)
    then Z.of_nat (total (frames x)) = Z.of_nat (length (stream x)) + remaining (bcap (srv x))
    else (total (frames x) <= length (stream x))%nat;
  f_bytes : bytes_ok (stream x);
  f_answers : answered (frames x) (p_sent (prc x));
}.

(** The parser has nothing more to take from the buffer until it is full. *)
Definition drained (x : st S) : Prop :=
  (length (rbuf (srv x)) < RBUF_CAP)%nat -> next_frame (rbuf (srv x)) = None.

Definition sinv (x : st S) : Prop :=
  good api base x /\ (0 <= client_fd (srv x) -> conn x /\ drained x) /\ (client_fd (srv x) < 0 -> idle api base x).

Lemma idle_sinv x : idle api base x -> sinv x.
Proof.
  intros Hi. split; [by apply idle_good|]. rewrite (i_client _ _ _ Hi). split; [lia|done].
Qed.

Lemma parsed_ok buf m n :
  bytes_ok buf -> rtsp_msg_parse buf = Ret (Complete m n) \/ rtsp_msg_parse buf = Ret (Partial m n) ->
  msg_ok m.
Proof.
  intros Hb Hp. destruct (rtsp_msg_parse_ok buf) as (r & Hr & Ho). pose proof (parse_cseq _ _ Hr) as Hc.
  destruct Hp as [Hp|Hp]; rewrite Hp in Hr; injection Hr as <-; cbn [result_ok] in Ho; split; try exact Hc.
  - destruct Ho as (_ & Hn & _ & Hbd). split; [done|]. intros b Hm. rewrite Hm in Hbd.
    destruct Hbd as (Hl & _ & Hs). split; [rewrite Hs; auto with bytes|done].
  - destruct Ho as (_ & _ & Hn & Hlt & _). split; [lia|]. by rewrite Hn.
Qed.

(** *** [drain] *)

(** The loop at offset [off] of the buffer. *)
Record draining (off : nat) (x : st S) : Prop := {
  d_good : good api base x;
  d_client : 0 <= client_fd (srv x);
  d_active : bcap_active (srv x) = false;
  d_cap : (length (rbuf (srv x)) <= RBUF_CAP)%nat;
  d_off : (off <= length (rbuf (srv x)))%nat;
  d_framed : framed (stream x) (frames x);
  d_rest : drop off (rbuf (srv x)) = drop (total (frames x)) (stream x);
  d_total : (total (frames x) <= length (stream x))%nat;
  d_bytes : bytes_ok (stream x);
  d_answers : answered (frames x) (p_sent (prc x));
}.

(** A request taken from the stream and answered. *)
Lemma answered_next (x y : st S) m n :
  answered (frames x) (p_sent (prc x)) ->
  frames y = frames x ++ [(m, n)] ->
  (exists resp, p_sent (prc y) = p_sent (prc x) ++ resp /\ answers_to m resp) ->
  answered (frames y) (p_sent (prc y)).
Proof. intros Ha -> (resp & -> & Hr). by apply answered_snoc. Qed.

Definition took (m : rtsp_msg_t) (n : nat) (x : st S) : st S := set_frames (frames x ++ [(m, n)]) x.

Lemma took_good x m n : good api base x -> good api base (took m n x).
Proof. intros [[] ? ? ? ? ?]. by constructor. Qed.

Lemma draining_step off x m n y :
  draining off x -> rtsp_msg_parse (drop off (rbuf (srv x))) = Ret (Complete m n) ->
  good api base y -> same_client (took m n x) y ->
  (exists resp, p_sent (prc y) = p_sent (prc x) ++ resp /\ answers_to m resp) ->
  draining (off + n) y.
Proof.
  intros [Dg Dc Da Dp Do Df Dr Dt Db Dans] Hr Hg [Kc _ _ Kb Ks Kf Ka _] Hans. unfold took in *. st_simpl in Kc.
  destruct (rtsp_msg_parse_ok (drop off (rbuf (srv x)))) as (r & Hr' & Ho).
  rewrite Hr in Hr'. injection Hr' as <-. destruct Ho as ([_ Hn] & _). rewrite length_drop in Hn.
  assert (length (drop off (rbuf (srv x))) = length (stream x) - total (frames x))%nat as Hlen
    by (by rewrite Dr, length_drop).
  rewrite length_drop in Hlen. constructor; rewrite ?Kc, ?Kb, ?Ks, ?Kf, ?Ka; st_simpl; try done.
  - lia.
  - apply framed_snoc; [done|]. rewrite <- Dr. unfold next_frame.
    rewrite take_ge, Hr by (rewrite length_drop; lia). done.
  - rewrite total_snoc, <- !drop_drop. by f_equal.
  - rewrite total_snoc. cbn [snd]. lia.
  - pose proof (answered_next x y m n Dans Kf Hans) as A. rewrite Kf in A. exact A.
Qed.

Lemma drain_loop_spec fuel e off x (Q : option nat -> st S -> Prop) :
  draining off x -> (length (rbuf (srv x)) - off < fuel)%nat ->
  (forall y, idle api base y -> Q None y) ->
  (forall off y, draining off y ->
     ((length (drop off (rbuf (srv y))) < RBUF_CAP)%nat -> next_frame (drop off (rbuf (srv y))) = None) ->
     Q (Some off) y) ->
  mwp (drain_loop api rsa_private d ka fuel e off) Q x.
Proof.
  intros Hd Hf HN HS. revert off x Hd Hf. induction fuel as [|fuel IH]; intros off x Hd Hf; [lia|].
  cbn [drain_loop]. msteps.
  destruct (Nat.ltb_spec off (length (rbuf (srv x)))) as [Hlt|Hge].
  2:{ msteps. apply HS; [done|]. by rewrite drop_ge. }
  pose proof (d_bytes _ _ Hd) as Hb. apply (bytes_ok_drop _ (total (frames x))) in Hb.
  rewrite <- (d_rest _ _ Hd) in Hb. msteps.
  destruct (rtsp_msg_parse_ok (drop off (rbuf (srv x)))) as (r & Hr & Ho). rewrite Hr. cbn [wp].
  destruct r as [| |m n|m n]; msteps.
  - apply HS; [done|]. intros Hl. apply next_frame_none; [done|]. by eexists.
  - eapply mwp_mono; [apply teardown_spec; [done|apply Hd|apply Hd]|]. intros [] y Hy. msteps. by apply HN.
  - apply HS; [done|]. intros Hl. apply next_frame_none; [done|]. by eexists.
  - unfold mwp at 1. cbn [wp fst snd]. mstep.
    apply (handle_msg_spec api base rsa_private rsa_in_place d ka Hbase (took m n x));
      [by apply took_good, Hd|exact (d_client _ _ Hd)|by eapply parsed_ok; [|left]|].
    intros rc y [(-> & Hg & Hk & Ha)|[-> Hi]]; cbn [Z.eqb negb].
    + pose proof (draining_step _ _ _ _ _ Hd Hr Hg Hk Ha) as Hd'. apply IH; [done|].
      destruct Ho as ([Hn _] & _). rewrite (k_rbuf _ _ Hk). unfold took. st_simpl. lia.
    + msteps. by apply HN.
Qed.

Lemma drain_spec e x (Q : unit -> st S -> Prop) :
  draining 0 x -> (forall y, sinv y -> Q tt y) -> mwp (drain api rsa_private d ka e) Q x.
Proof.
  intros Hd HQ. unfold drain. msteps. apply drain_loop_spec; [done|lia| |].
  - intros y Hi. msteps. by apply HQ, idle_sinv.
  - intros off y [Dg Dc Da Dp Do Df Dr Dt Db Dans] Hn. msteps. apply HQ. split; [|split]; st_simpl.
    + by destruct Dg as [[] ? ? ? ? ?].
    + intros _. split; [|exact Hn]. constructor; st_simpl; rewrite ?Da; try done.
      rewrite length_drop. lia.
    + lia.
Qed.

(** *** [frame_oversized] *)

(** The state in which an oversized request is handled. *)
Definition oversized (m : rtsp_msg_t) (c : nat) (x : st S) (b : bodycap_t) (f : fs) : st S :=
  took m (c + Z.to_nat (body_len m)) (set_srv (set_rbuf [] (srv (capturing x b f))) (capturing x b f)).

Lemma oversized_good m c x b f :
  good api base x -> capture_inv b f -> 0 < remaining b -> good api base (oversized m c x b f).
Proof. intros [[] ? ? ? ? ?] Hc Hr. by constructor. Qed.

Lemma oversized_conn m c x b f y :
  conn x -> bcap_active (srv x) = false -> length (rbuf (srv x)) = RBUF_CAP ->
  rtsp_msg_parse (rbuf (srv x)) = Ret (Partial m c) ->
  remaining b = Z.max 0 (body_len m - Z.of_nat (length (drop c (rbuf (srv x))))) ->
  same_client (oversized m c x b f) y ->
  (exists resp, p_sent (prc y) = p_sent (prc x) ++ resp /\ answers_to m resp) ->
  0 < remaining b /\ conn y /\ drained y.
Proof.
  intros [Cf Cr Cc Ct Cb Ca] Hact Hfull Hr Hrem [_ _ _ Kb Ks Kf Ka Kc] Hans.
  unfold oversized, took, capturing in *. st_simpl in Kb. st_simpl in Ks. st_simpl in Kf.
  st_simpl in Ka. st_simpl in Kc. rewrite Hact in Ct.
  destruct (rtsp_msg_parse_ok (rbuf (srv x))) as (r & Hr' & Ho). rewrite Hr in Hr'. injection Hr' as <-.
  destruct Ho as (_ & [_ Hc] & _ & Hbl & _). rewrite length_drop in Hrem.
  assert (length (rbuf (srv x)) = length (stream x) - total (frames x))%nat as Hlen by (by rewrite Cr, length_drop).
  split; [lia|]. split.
  2:{ unfold drained. rewrite Kb. intros _. apply next_frame_nil. }
  constructor; rewrite ?Kb, ?Ks, ?Ka.
  - rewrite Kf. apply framed_snoc; [done|]. rewrite <- Cr. unfold next_frame.
    rewrite take_ge, Hr by lia. by rewrite (proj2 (Nat.leb_le _ _)) by lia.
  - rewrite Kf, total_snoc. cbn [snd]. symmetry. apply drop_ge. lia.
  - cbn. lia.
  - rewrite Kf, total_snoc, Kc by done. cbn [snd]. lia.
  - done.
  - by apply (answered_next x y m (c + Z.to_nat (body_len m))).
Qed.

Lemma frame_oversized_spec e x (Q : Z -> st S -> Prop) :
  good api base x -> 0 <= client_fd (srv x) -> conn x -> bcap_active (srv x) = false ->
  length (rbuf (srv x)) = RBUF_CAP ->
  (forall y, sinv y -> Q 0 y) -> Q (-1) x -> mwp (frame_oversized api rsa_private d ka e) Q x.
Proof.
  intros Hg Hfd Hc Hact Hfull H0 H1. unfold frame_oversized. msteps.
  destruct (rtsp_msg_parse_ok (rbuf (srv x))) as (r & Hr & Ho). rewrite Hr. cbn [wp].
  destruct r as [| |m c|m c]; msteps; try exact H1. case_match; msteps; [exact H1|].
  assert (bytes_ok (rbuf (srv x))) as Hb by (rewrite (f_rbuf _ Hc); apply bytes_ok_drop, (f_bytes _ Hc)).
  assert (msg_ok m) as Hm by (by eapply parsed_ok; [|right]).
  apply begin_spec; [done|apply Hm|by apply bytes_ok_drop|]. intros b f Hcap Hrem. msteps.
  unfold mwp at 1. cbn [wp fst snd]. mstep.
  assert (0 < remaining b) as Hpos.
  { destruct Ho as (_ & [_ Hlc] & _ & Hbl & _). rewrite length_drop in Hrem. lia. }
  apply (handle_msg_spec api base rsa_private rsa_in_place d ka Hbase (oversized m c x b f));
    [by apply oversized_good|exact Hfd|done|].
  intros rc y [(-> & Hg' & Hk & Ha)|[-> Hi]]; msteps; apply H0; [|by apply idle_sinv].
  destruct (oversized_conn m c x b f y Hc Hact Hfull Hr Hrem Hk Ha) as (_ & Hc' & Hd').
  split; [done|]. split; [done|]. rewrite (k_client _ _ Hk). unfold oversized, took, capturing. st_simpl. lia.
Qed.

(** *** [on_client_readable] *)

Definition received (data : bytes) (x : st S) : st S :=
  set_srv (set_rbuf (rbuf (srv x) ++ data) (srv x)) (set_stream (stream x ++ data) x).

(** Bytes of a body whose request has been answered. *)
Definition body_chunk (e : env) (x : st S) : M S unit :=
  let rem := Z.to_nat (remaining (bcap (srv x))) in
  let tk := (if length (rbuf (srv x)) <? rem then length (rbuf (srv x)) else rem)%nat in
  let* _ := feed d (take tk (rbuf (srv x))) in
  let* _ := on_srv (fun s => set_rbuf (drop tk (rbuf s)) s) in
  let* b := ask (fun x => bcap (srv x)) in
  if negb (bodycap_done b) then ret tt
  else let* _ := finish_body_capture d in drain api rsa_private d ka e.

Lemma active_empty x : conn x -> good api base x -> bcap_active (srv x) = true -> rbuf (srv x) = [].
Proof.
  intros [_ Cr _ Ct _ _] [_ _ _ _ _ Gc] Ha. rewrite Ha in Ct. destruct (Gc Ha) as [_ Hr].
  rewrite Cr. apply drop_ge. lia.
Qed.

Lemma received_good chunk x : good api base x -> good api base (received chunk x).
Proof. intros [[] ? ? ? ? ?]. by constructor. Qed.

Lemma body_chunk_spec e chunk x (Q : unit -> st S -> Prop) :
  good api base x -> 0 <= client_fd (srv x) -> conn x -> bcap_active (srv x) = true ->
  bytes_ok chunk -> (0 < length chunk <= RBUF_CAP)%nat -> (forall y, sinv y -> Q tt y) ->
  mwp (body_chunk e (received chunk x)) Q (received chunk x).
Proof.
  intros Hg Hfd Hc Ha Hb Hl HQ. pose proof (active_empty _ Hc Hg Ha) as He.
  destruct Hc as [Cf Cr Cc Ct Cb Ca]. rewrite Ha in Ct. destruct (g_cap _ _ _ Hg Ha) as [Hcap Hpos].
  unfold body_chunk, received. st_simpl. rewrite He. cbn [app length Nat.sub] in *. mstep.
  assert (framed (stream x ++ chunk) (frames x)) as Hf by (by apply framed_app).
  assert (bytes_ok (stream x ++ chunk)) as Hsb by (by apply Forall_app).
  assert (drop (total (frames x)) (stream x ++ chunk) = drop (Z.to_nat (remaining (bcap (srv x)))) chunk) as Hdrop.
  { rewrite drop_app_ge by lia. f_equal. lia. }
  apply feed_spec; st_simpl; [done|done|by apply bytes_ok_take|]. intros b f Hbf _ Hrem. msteps. unfold bodycap_done.
  destruct (Nat.ltb_spec (length chunk) (Z.to_nat (remaining (bcap (srv x))))) as [Hlt|Hge].
  - rewrite take_ge in Hrem by lia. rewrite (proj2 (Z.eqb_neq _ _)) by lia. cbn [negb]. msteps. apply HQ.
    destruct Hg as [[] G1 G2 G3 G4 G5]. split; [|split]; st_simpl; [..|lia].
    + constructor; st_simpl; try done; first [by constructor | intros _; split; [done|lia]].
    + intros _. rewrite (drop_ge chunk) by lia. split; [|intros _; apply next_frame_nil].
      constructor; st_simpl; rewrite ?Ha; try done.
      * rewrite Hdrop. symmetry. apply drop_ge. lia.
      * cbn. lia.
      * rewrite length_app. lia.
  - rewrite length_take in Hrem. rewrite (proj2 (Z.eqb_eq _ _)) by lia. cbn [negb]. mstep.
    apply finish_capture_spec; st_simpl; [done|apply Hg|]. intros b' f' n wk Hn Han. apply drain_spec; [|done].
    destruct Hg as [[] G1 G2 G3 G4 G5]. constructor; unfold captured_state; st_simpl; try done; rewrite ?drop_0.
    + constructor; st_simpl; try done; first [exact (eq_trans Hn G2) | by constructor].
    + rewrite length_drop. lia.
    + lia.
    + rewrite length_app. lia.
Qed.

Lemma readable_spec e got x (Q : unit -> st S -> Prop) :
  good api base x -> 0 <= client_fd (srv x) -> conn x -> drained x ->
  (forall data, got = RData data -> bytes_ok data) ->
  (forall y, sinv y -> Q tt y) -> mwp (on_client_readable api rsa_private d ka e got) Q x.
Proof.
  intros Hg Hfd Hc Hdr Hgot HQ.
  assert (forall z, core api base z /\ wake_state (p_lock (prc z)) = Some (has_session (srv z)) -> mwp (teardown_client api d) Q z) as Htd.
  { intros z [Hz1 Hz2]. eapply mwp_mono; [by apply teardown_spec|]. intros [] y Hy. by apply HQ, idle_sinv. }
  assert (core api base x /\ wake_state (p_lock (prc x)) = Some (has_session (srv x))) as Hcx by (by destruct Hg).
  unfold on_client_readable. msteps. case_match eqn:Hfull.
  { apply andb_true_iff in Hfull as [Hl Ha]. apply Nat.eqb_eq in Hl. apply negb_true_iff in Ha. mstep.
    apply frame_oversized_spec; [done..| |].
    - intros y Hy. by apply mwp_ret, HQ.
    - by apply Htd. }
  destruct got as [data| | |]; [|by apply Htd|by apply mwp_ret, HQ; split; [|split; [|lia]]|by apply Htd].
  set (chunk := take _ data). case_match; [by apply Htd|]. msteps. unfold mwp at 1. cbn [wp fst snd]. msteps.
  assert (bytes_ok chunk) as Hb by (apply bytes_ok_take; by apply Hgot).
  assert (length chunk <= RBUF_CAP - length (rbuf (srv x)))%nat as Hlc by (unfold chunk; rewrite length_take; lia).
  match goal with Hz : (length chunk =? 0)%nat = false |- _ => apply Nat.eqb_neq in Hz end.
  destruct (bcap_active (srv x)) eqn:Ha.
  { apply (body_chunk_spec e chunk x); [done..|lia|done]. }
  destruct Hc as [Cf Cr Cc Ct Cb Ca]. rewrite Ha in Ct.
  apply drain_spec; [|done]. constructor; st_simpl; try done.
  - by apply (received_good chunk).
  - rewrite length_app. lia.
  - lia.
  - by apply framed_app.
  - rewrite drop_0, drop_app_le by done. by rewrite Cr.
  - rewrite length_app. lia.
  - by apply Forall_app.
Qed.

(** *** [on_listen_readable] and the loop *)

Lemma own_kernel se bound sk fd r k :
  same_table (r_kernel r) k -> own api base se bound sk fd r ->
  own api base se bound sk fd (res_with_kernel k r).
Proof.
  intros Hk (Hf & Ho). split; [done|]. destruct se as [s|].
  - destruct Ho as (Hb & t & Ho & Hh). split; [done|]. exists t. split; [by apply law_kernel|].
    by eapply held_open.
  - destruct Ho as [Hr Ho]. split; [by apply res_rebase|]. cbn [res_with_kernel r_kernel].
    destruct bound; [by eapply held_open|by eapply same_table_trans].
Qed.

Lemma own_accept sk fd r k :
  0 <= fd -> fd ∉ k_open (r_kernel r) -> k_open k = {[fd]} ∪ k_open (r_kernel r) ->
  k_stray k = k_stray (r_kernel r) ->
  own api base None false sk (-1) r -> own api base None false sk fd (res_with_kernel k r).
Proof.
  intros H0 Hfd Hk Hy (_ & Hr & Ho & Hz). rewrite Ho in Hfd, Hk. unfold under, fd_set in *.
  change (0 <=? -1) with false in *. cbn [k_open] in Hfd, Hk. split; [set_solver|].
  split; [by apply res_rebase|]. split; [|cbn [res_with_kernel r_kernel]; rewrite Hy; exact Hz].
  unfold under, fd_set. cbn [res_with_kernel r_kernel k_open].
  rewrite Hk, (proj2 (Z.leb_le 0 fd)) by done. set_solver.
Qed.

(** [accept] hands out a descriptor that is not in use, with the peer's address. *)
Definition accept_ok (conn : option (Z * Z)) (x : st S) : Prop :=
  match conn with
  | Some (fd, ip) => 0 <= fd <= INT_MAX /\ fd ∉ k_open (r_kernel (p_res (prc x))) /\ uint_ok ip
  | None => True
  end.

Lemma listen_spec conn now x (Q : unit -> st S -> Prop) :
  sinv x -> accept_ok conn x -> long_ok now -> (forall y, sinv y -> Q tt y) -> mwp (on_listen_readable conn now) Q x.
Proof.
  intros (Hg & Hc & Hi) Ha Hnow HQ. destruct conn as [[fd ip]|]; [|by apply mwp_ret, HQ].
  destruct Ha as ([H0 Hmax] & Hfd & Hip).
  unfold on_listen_readable. msteps. destruct (Z.leb_spec 0 (client_fd (srv x))) as [Hcl|Hcl]; msteps.
  - apply HQ. split; [|split; [|st_simpl; lia]].
    + destruct Hg as [[Ho ? ? ? ?] ? ? ? ? ?]. constructor; st_simpl; try done. constructor; st_simpl; try done.
      cbn [res_with_kernel r_kernel]. apply (own_kernel _ _ _ _ (p_res (prc x))); [|exact Ho].
      split; [cbn [sys_close k_open]; set_solver|]. by rewrite close_open by set_solver.
    + intros _. destruct (Hc Hcl) as [[] Hd]. split; [by constructor|exact Hd].
  - unfold mwp at 1. cbn [wp fst snd]. msteps. specialize (Hi Hcl). apply HQ.
    destruct Hi as [[Ho ? ? ? ? ? ? Hty] I1 I2 I3 I4 I5 I6 I7 I8 I9 I10 I11].
    split; [|split; [|st_simpl; lia]].
    + assert (sess_ok (rtsp (srv x))) as Hok by (rewrite I11; by apply init_ok).
      assert (volume_ok (rtsp (srv x))) as Hvo by (rewrite I11; by split; cbn; [lia|]).
      constructor; st_simpl; unfold has_session; st_simpl; rewrite ?I3, ?I6; try done.
      constructor; st_simpl; rewrite ?I3, ?I4; [|lia|done|done|by apply dacp_new_ok|done|done|].
      * rewrite I1, I3, I4 in Ho. apply (own_accept _ _ (p_res (prc x))); try done.
      * destruct Hty. constructor; first [done|by apply new_session_typed|split; lia].
    + intros _. split; [|intros _; apply next_frame_nil].
      constructor; st_simpl; rewrite ?I6; done || (cbn; lia) || (by exists []) || (by constructor).
Qed.

(** What one poll may deliver in the state [x]. *)
Definition poll_ok (x : st S) (p : poll_ev) : Prop :=
  match pe_accept p with Some (conn, now) => accept_ok conn x /\ long_ok now | None => True end /\
  forall data, pe_client p = Some (RData data) -> bytes_ok data.

Ltac mif := match goal with |- mwp (if ?b then _ else _) _ _ => destruct b end.

Lemma turn_spec ticks e p x (Q : bool -> st S -> Prop) :
  sinv x -> poll_ok x p -> (forall b y, sinv y -> Q b y) ->
  mwp (loop_turn api rsa_private d ka ticks e p) Q x.
Proof.
  intros Hs [Hacc Hdata] HQ. unfold loop_turn. msteps. mif; [by apply mwp_ret, HQ|]. mif.
  { mstep. eapply mwp_mono; [apply teardown_spec; [done|exact (g_core _ _ _ (proj1 Hs))|exact (g_lock _ _ _ (proj1 Hs))]|].
    intros [] y Hy. apply mwp_ret. by apply HQ, idle_sinv. }
  mif; [by apply mwp_ret, HQ|]. mstep.
  eapply (mwp_mono _ (fun _ y => sinv y)).
  { destruct (pe_accept p) as [[conn now]|]; [|by apply mwp_ret]. destruct Hacc. by apply listen_spec. }
  intros [] y (Hg & Hc & Hi). msteps.
  destruct (pe_client p) as [got|]; [|by apply mwp_ret, mwp_ret, HQ].
  destruct ((0 <=? client_fd (srv x)) && (0 <=? client_fd (srv y))) eqn:E; [|by apply mwp_ret, mwp_ret, HQ].
  apply andb_true_iff in E as [_ E]. apply Z.leb_le in E. destruct (Hc E) as [Hcy Hdy].
  apply readable_spec; [done..| |].
  - intros data ->. by apply Hdata.
  - intros z Hz. by apply mwp_ret, HQ.
Qed.

(** *** The daemon *)

(** What [main] hands the loop: a listening socket, an interface and its addresses,
    and the text of the state directory. *)
Definition start_ok (lfd iface : Z) (pre i m : bytes) : Prop :=
  0 <= lfd <= INT_MAX /\ uint_ok iface /\ bytes_ok i /\ bytes_ok m /\ Forall (fun c => c <> 0) pre.

(** The states the daemon reaches: turns of the loop, each with its own answers of
    [write], and in between the threads of the session and the resolver. *)
Inductive served : st S -> Prop :=
  | served_start lfd iface pre i m f :
      length i = 4%nat -> length m = 6%nat -> start_ok lfd iface pre i m ->
      served (mk_st (server_init lfd iface pre i m) (proc_init f base) [] [] [])
  | served_turn x ws ticks e p b y :
      served x -> poll_ok x p ->
      loop_turn api rsa_private d ka ticks e p (set_writes ws x) = Ret (b, y) -> served y
  | served_threads x s s' :
      served x -> sess (srv x) = Some s -> evolves s s' -> served (set_srv (set_sess (Some s') (srv x)) x)
  | served_resolver x g port :
      served x -> uint_ok g -> uint_ok port -> served (set_prc (set_p_dacp (dacp_state_publish_port g port (p_dacp (prc x))) (prc x)) x).

Lemma set_writes_sinv ws x : sinv x -> sinv (set_writes ws x).
Proof.
  intros (Hg & Hc & Hi). split; [|split].
  - by destruct Hg as [[] ? ? ? ? ?].
  - intros Hf. destruct (Hc Hf) as [[] Hd]. by split.
  - intros Hf. by destruct (Hi Hf) as [[] ? ? ? ? ? ? ? ? ? ? ?].
Qed.

Lemma publish_creds g port s :
  have_creds (dacp_state_publish_port g port s) = have_creds s /\
  peer_ip_be (dacp_state_publish_port g port s) = peer_ip_be s.
Proof. unfold dacp_state_publish_port. by case_match. Qed.

Lemma resolver_core x g port : uint_ok g -> uint_ok port -> core api base x ->
  core api base (set_prc (set_p_dacp (dacp_state_publish_port g port (p_dacp (prc x))) (prc x)) x).
Proof.
  intros Hg Hp [? ? ? ? Hd ? ? Hty]. constructor; st_simpl; try done; [by apply (dacp_do_ok _ (DPublish g port))|].
  eapply typed_with; [exact Hty|apply Hty..|]. apply publish_typed; [done..|]. apply Hty.
Qed.

Lemma start_typed lfd iface pre i m :
  start_ok lfd iface pre i m -> typed lfd (-1) 0 0 iface i m (mk_sockets 0 0 0 0 0 0) dacp_state_init.
Proof.
  intros ([H0 H1] & Hi & Hb & Hm & _). pose proof long_max_pos.
  assert (0 <= LONG_MAX /\ LONG_MIN <= 0) as [??]
    by (unfold LONG_MIN; pose proof (Z.pow_nonneg 2 (long_bits - 1)); lia).
  constructor; try done; unfold fd_ok, long_ok, uint_ok, socks_ok, dacp_typed, fds, UINT32_MAX, INT_MAX in *; cbn;
    rewrite ?Forall_cons, ?Forall_nil; unfold fd_ok, uint_ok, UINT32_MAX, INT_MAX; lia.
Qed.

Lemma served_sinv x : served x -> sinv x.
Proof.
  induction 1 as [lfd iface pre i m f Hi Hm Hst|x ws ticks e p b y _ IH Hp Ht|x s s' _ IH Hs He|x g port _ IH Hug Hup].
  - apply idle_sinv. constructor; try done. constructor; cbn; [|lia|done|done|exact dacp_init_ok|done|done|].
    + split; [lia|]. split; [by destruct base|]. split; [cbn; set_solver|done].
    + by apply (start_typed _ _ pre).
  - pose proof (turn_spec ticks e p (set_writes ws x) (fun _ y => sinv y) (set_writes_sinv ws x IH) Hp) as Hw.
    unfold mwp in Hw. rewrite Ht in Hw. by apply Hw.
  - destruct IH as (Hg & Hc & Hi). split; [|split]; st_simpl.
    + destruct Hg as [[Ho ? ? ? ?] Hl Hpl ? ? ? Hsd Hrun]. unfold has_session in *. rewrite Hs in *.
      constructor; st_simpl; try done.
      * constructor; st_simpl; try done.
        destruct Ho as (Hf & Hb & t & Ho & Hh). split; [done|]. split; [done|]. exists t.
        split; [by eapply law_evolves|done].
      * intros ? [= <-]. rewrite (law_sender _ _ He). by apply Hsd.
      * intros ? [= <-]. destruct (Hrun s eq_refl) as (Hst & desc & Hd & Hm), Ho as (_ & _ & t & Ho & _).
        split; [done|]. exists desc. split; [done|]. by eapply law_made.
    + intros Hf. destruct (Hc Hf) as [[] Hd]. split; [by constructor|exact Hd].
    + intros Hf. specialize (Hi Hf). destruct Hi as [_ _ _ I3]. congruence.
  - destruct IH as (Hg & Hc & Hi).
    pose proof (publish_creds g port (p_dacp (prc x))) as [Ep1 Ep2].
    split; [|split]; st_simpl.
    + destruct Hg as [Hco ? ? ? Hcr ?]. constructor; st_simpl; rewrite ?Ep1, ?Ep2; try done.
      by apply resolver_core.
    + intros Hf. destruct (Hc Hf) as [[] Hd]. split; [by constructor|exact Hd].
    + intros Hf. destruct (Hi Hf) as [Hco ? ? ? ? ? ? ? ? ? ? ?]. constructor; st_simpl; rewrite ?Ep1; try done.
      by apply resolver_core.
Qed.

(** ** Properties *)

(** Nothing acquired for a client is left: the resources are those the loop
    started with, and so are the open descriptors; and every descriptor closed was
    open. *)
Definition released (x : st S) : Prop :=
  p_res (prc x) = res_with_kernel (r_kernel (p_res (prc x))) base /\
  same_table (r_kernel base) (r_kernel (p_res (prc x))).

(** C5: everything the daemon acquires for a sender has one owner and is released
    with the sender.  In every state it reaches, whatever the requests, the
    kernel, the disk and the session's threads have done: a playing session owns
    its sockets, decoder, sink, memory and threads, or the server owns a bound
    triple, or nothing is acquired, and no other descriptor is open; the
    commands given for the wake lock alternate, and it is held and the display says
    playing exactly while there is a session.  No close was
    ever of a descriptor that was not open: nothing is closed twice.  When there is
    no client nothing is held, and tearing the client down at any moment releases
    everything, each descriptor by one close. *)
Theorem server_owns_once x :
  served x ->
  own api base (sess (srv x)) (rtp_bound (srv x)) (socks (srv x)) (client_fd (srv x)) (p_res (prc x)) /\
  k_stray (r_kernel (p_res (prc x))) = k_stray (r_kernel base) /\
  wake_state (p_lock (prc x)) = Some (has_session (srv x)) /\ playing (p_np (prc x)) = has_session (srv x) /\
  (client_fd (srv x) < 0 -> released x) /\
  mwp (teardown_client api d) (fun _ y => released y /\ client_fd (srv y) = -1 /\
    wake_state (p_lock (prc y)) = Some false /\ playing (p_np (prc y)) = false) x.
Proof.
  intros Hs. destruct (served_sinv x Hs) as (Hg & _ & Hi). split; [apply Hg|].
  split; [eapply own_stray, Hg|]. split; [apply Hg|]. split; [apply Hg|]. split.
  - intros Hf. by apply (idle_released api), Hi.
  - eapply mwp_mono; [apply teardown_spec; [done|exact (g_core _ _ _ Hg)|exact (g_lock _ _ _ Hg)]|].
    intros [] y Hy. split; [by apply (idle_released api)|]. by destruct Hy.
Qed.

(** C25: a turn of the loop always ends and never leaves its buffers.  Whatever a
    poll delivers, the handlers return without an access outside a buffer; the
    read buffer never holds more than 8192 bytes; whenever [recv] is called it is
    offered room, so a result of 0 always means that the sender has closed; and a
    capture in progress always waits for at least one more byte. *)
Theorem server_turn_total x ws ticks e p :
  served x -> poll_ok x p ->
  exists b y, loop_turn api rsa_private d ka ticks e p (set_writes ws x) = Ret (b, y) /\
    (0 <= client_fd (srv y) ->
     (length (rbuf (srv y)) <= RBUF_CAP)%nat /\
     (length (rbuf (srv y)) = RBUF_CAP -> bcap_active (srv y) = false) /\
     (bcap_active (srv y) = true -> 0 < remaining (bcap (srv y)))).
Proof.
  intros Hs Hp.
  pose proof (turn_spec ticks e p (set_writes ws x) (fun _ y => sinv y) (set_writes_sinv ws x (served_sinv x Hs)) Hp)
    as Hw.
  specialize (Hw (fun _ _ Hy => Hy)). unfold mwp in Hw.
  destruct (loop_turn _ _ _ _ _ _ _ _) as [[b y]| |]; [|done|done]. cbn [wp fst snd] in Hw. destruct Hw as (Hg & Hc & _). exists b, y. split; [done|].
  intros Hf. destruct (Hc Hf) as [Hcy _]. split; [apply Hcy|]. split.
  - intros Hl. destruct (bcap_active (srv y)) eqn:Ha; [|done].
    rewrite (active_empty _ Hcy Hg Ha) in Hl. done.
  - intros Ha. by apply (g_cap _ _ _ Hg).
Qed.

(** C6: the requests the daemon handles are those of the byte stream, however the
    network cut it.  For a connected sender, the requests handled so far, with
    their lengths, are the first of the requests the reference definition finds in
    all the bytes received, bodies that exceed the buffer included; and unless the
    buffer is full they are all of them. *)
Theorem server_frames_stream x :
  served x -> 0 <= client_fd (srv x) ->
  exists rest, requests (length (stream x)) (stream x) = frames x ++ rest /\
    ((length (rbuf (srv x)) < RBUF_CAP)%nat -> rest = []).
Proof.
  intros Hs Hf. destruct (served_sinv x Hs) as (_ & Hc & _). destruct (Hc Hf) as [[Cf Cr _ _ _ _] Hd].
  destruct (framed_requests (stream x) (frames x) (length (stream x)) Cf) as (rest & Hr & Hn); [done|].
  exists rest. split; [done|]. intros Hl. apply Hn. rewrite <- Cr. by apply Hd.
Qed.

(** C24: every request gets exactly one response, in order, and none is cut.  The
    bytes written to the connected sender, however few each [write] took and however
    often it was interrupted, are the responses to the requests handled, one for each
    and in their order, each complete and with that request's CSeq, and nothing
    else. *)
Theorem server_answers_each x :
  served x -> 0 <= client_fd (srv x) ->
  exists resps, Forall2 (fun f resp => answers_to f.1 resp) (frames x) resps /\ p_sent (prc x) = concat resps.
Proof.
  intros Hs Hf. destruct (served_sinv x Hs) as (_ & Hc & _). by destruct (Hc Hf) as [[] _].
Qed.

(** Remote-control credentials never outlive the sender they came from.
    Whenever the control thread can see credentials, they are validated, a sender
    is connected, and the peer they are sent to is that sender's address. *)
Theorem server_credentials_current x :
  served x -> have_creds (p_dacp (prc x)) = true ->
  0 <= client_fd (srv x) /\ peer_ip_be (p_dacp (prc x)) = client_ip_be (srv x) /\
  id_ok (dacp_id (p_dacp (prc x))) /\ token_ok (active_remote (p_dacp (prc x))).
Proof.
  intros Hs Hc. destruct (served_sinv x Hs) as (Hg & _ & _). destruct (g_creds _ _ _ Hg Hc) as [Hp Hf].
  destruct (c_dacp _ _ _ (g_core _ _ _ Hg)) as (_ & Hok & _). by destruct (Hok Hc).
Qed.

(** *** The handshake deadline *)

(** What [times] returns at the time [T] in milliseconds: [hz] ticks a second from a
    value [c0], in a long. *)
Definition times_at (hz c0 T : Z) : Z := slong (c0 + T * hz / 1000).

(** The sender is silent: [poll] reports nothing of it.  A [poll] with a timeout
    returns when it has passed or, when another sender knocks, before; at most [late]
    milliseconds after that the turn has read the clock.  Nothing is said of a [poll]
    that may wait for ever. *)
Definition silent (hz c0 late : Z) (sys : poller) : Prop := forall T x timeout, 0 <= timeout ->
  exists e ws p T', sys T x timeout = Some (e, ws, p, T') /\ T < T' <= T + timeout + late /\
    0 <= pe_result p /\ pe_client p = None /\ poll_ok x p /\ pe_now p = times_at hz c0 T'.

(** The turn in which the deadline has passed drops the sender. *)
Lemma deadline_turn x ws ticks e p :
  sinv x -> 0 <= client_fd (srv x) -> has_session (srv x) = false -> 0 <= pe_result p -> 0 < ticks ->
  pe_now p <> -1 -> ticks < slong (pe_now p - client_since (srv x)) ->
  exists y, loop_turn api rsa_private d ka ticks e p (set_writes ws x) = Ret (true, y) /\ idle api base y.
Proof.
  intros Hs Hf Hn Hr Ht Hnow Hd. destruct (set_writes_sinv ws x Hs) as (Hg & _ & _).
  unfold loop_turn, bind at 1, ask at 1. st_simpl. rewrite Hn.
  rewrite (proj2 (Z.ltb_ge _ _)), (proj2 (Z.leb_le 0 (client_fd (srv x)))) by done.
  rewrite (proj2 (Z.ltb_lt 0 ticks)), (proj2 (Z.eqb_neq _ _)), (proj2 (Z.ltb_lt ticks _)) by done.
  cbn [andb negb].
  pose proof (teardown_spec api base d Hbase _ (g_core _ _ _ Hg) (g_lock _ _ _ Hg)) as Hw.
  unfold mwp in Hw. unfold bind. destruct (teardown_client api d _) as [[[] y]| |]; [|done|done].
  exists y. by split.
Qed.

(** A turn before it in which the sender is silent leaves the sender as it is. *)
Lemma waiting_turn x ws ticks e p :
  0 <= client_fd (srv x) -> has_session (srv x) = false -> 0 <= pe_result p -> pe_client p = None ->
  slong (pe_now p - client_since (srv x)) <= ticks ->
  exists y, loop_turn api rsa_private d ka ticks e p (set_writes ws x) = Ret (true, y) /\
    client_fd (srv y) = client_fd (srv x) /\ client_since (srv y) = client_since (srv x) /\
    has_session (srv y) = false.
Proof.
  intros Hf Hn Hr Hc Hd. unfold loop_turn, bind at 1, ask at 1. st_simpl. rewrite Hn, Hc.
  rewrite (proj2 (Z.ltb_ge _ _)), (proj2 (Z.ltb_ge ticks _)), andb_false_r by done.
  destruct (pe_result p =? 0); [eexists; split_and!; try done|].
  unfold on_listen_readable, bind, with_kernel, on_prc, ask, ret.
  destruct (pe_accept p) as [[[[fd ip]|] now]|]; st_simpl.
  1: rewrite (proj2 (Z.leb_le 0 (client_fd (srv x)))) by done.
  all: eexists; split_and!; try done.
Qed.

(** Differences of values that wrap. *)
Lemma slong_sub a b : slong (slong a - slong b) = slong (a - b).
Proof.
  unfold slong. set (h := 2 ^ (long_bits - 1)). set (m := 2 ^ long_bits).
  replace ((a + h) mod m - h - ((b + h) mod m - h) + h) with ((a + h) mod m - (b + h) mod m + h) by lia.
  rewrite <- Zplus_mod_idemp_l, <- Zminus_mod, Zplus_mod_idemp_l. do 2 f_equal. lia.
Qed.

Lemma slong_id z : 0 <= z <= LONG_MAX -> slong z = z.
Proof.
  unfold slong, LONG_MAX. destruct long_bits_ok as [-> | ->]; intros Hz; rewrite Z.mod_small by lia; lia.
Qed.

(** The ticks counted since [T0]. *)
Lemma times_since hz c0 T0 T secs :
  1 <= hz -> T0 <= T -> (T - T0) * hz + 1000 <= 1000 * LONG_MAX ->
  let n := slong (times_at hz c0 T - times_at hz c0 T0) in
  (T <= T0 + 1000 * secs -> n <= secs * hz) /\ (T0 + 1000 * (secs + 1) <= T -> secs * hz < n).
Proof.
  intros Hh HT Hfit. cbv zeta. unfold times_at. rewrite slong_sub.
  replace (c0 + T * hz / 1000 - (c0 + T0 * hz / 1000)) with (T * hz / 1000 - T0 * hz / 1000) by lia.
  pose proof (Z.div_mod (T * hz) 1000 ltac:(lia)). pose proof (Z.mod_pos_bound (T * hz) 1000 ltac:(lia)).
  pose proof (Z.div_mod (T0 * hz) 1000 ltac:(lia)). pose proof (Z.mod_pos_bound (T0 * hz) 1000 ltac:(lia)).
  rewrite slong_id by (pose proof long_max_pos; unfold LONG_MAX in *; nia). split; intros; nia.
Qed.

Lemma silent_run fg hz c0 late secs sys T0 : 1 <= hz -> 0 <= late ->
  0 < secs * hz <= LONG_MAX -> (1000 * (secs + 2) + late) * hz + 1000 <= 1000 * LONG_MAX ->
  (forall t, T0 <= t <= T0 + 1000 * (secs + 2) + late -> times_at hz c0 t <> -1) -> silent hz c0 late sys ->
  forall k T x, served x -> 0 <= client_fd (srv x) -> has_session (srv x) = false ->
  client_since (srv x) = times_at hz c0 T0 -> T0 <= T -> T < T0 + 1000 * (secs + 1) ->
  T0 + 1000 * (secs + 1) - T <= Z.of_nat k ->
  exists n T' y, run_loop api rsa_private d ka fg (handshake_ticks secs hz) sys n T x = Ret (Some T', y) /\
    idle api base y /\ T0 + 1000 * secs < T' <= T0 + 1000 * (secs + 2) + late.
Proof.
  intros Hh Hl Hs Hfit Hclk Hsil k. induction k as [|k IH]; intros T x Hx Hf Hn Hsin H0 H1 Hk; [lia|].
  assert (poll_timeout fg (srv x) = 1000) as Hp.
  { unfold poll_timeout. rewrite Hn, (proj2 (Z.leb_le _ _)) by done. by rewrite orb_true_r. }
  destruct (Hsil T x 1000 ltac:(lia)) as (e & ws & p & T' & Hsys & HT' & Hr & Hc & Hok & Hnow).
  assert (handshake_ticks secs hz = secs * hz) as Hti.
  { unfold handshake_ticks. rewrite (proj2 (Z.leb_gt _ _)) by lia.
    apply slong_id. pose proof long_max_pos. unfold LONG_MAX in *. lia. }
  pose proof (times_since hz c0 T0 T' secs Hh ltac:(lia) ltac:(nia)) as [Hearly Hlate].
  rewrite <- Hnow, <- Hsin, <- Hti in Hearly, Hlate.
  assert (forall n y, loop_turn api rsa_private d ka (handshake_ticks secs hz) e p (set_writes ws x) = Ret (true, y) ->
    run_loop api rsa_private d ka fg (handshake_ticks secs hz) sys (Datatypes.S n) T x =
    run_loop api rsa_private d ka fg (handshake_ticks secs hz) sys n T' y) as Hstep.
  { intros n y Hy. cbn [run_loop]. unfold bind at 1, ask. cbn [id]. rewrite Hp, Hsys. unfold bind. by rewrite Hy. }
  destruct (Z.ltb_spec (handshake_ticks secs hz) (slong (pe_now p - client_since (srv x)))) as [Hd|Hd].
  - destruct (deadline_turn x ws (handshake_ticks secs hz) e p) as (y & Hy & Hi);
      [by apply served_sinv|done|done|done|lia|rewrite Hnow; apply Hclk; lia|done|].
    exists 1%nat, T', y. split; [by rewrite (Hstep _ _ Hy)|]. split; [done|]. lia.
  - destruct (waiting_turn x ws (handshake_ticks secs hz) e p Hf Hn Hr Hc Hd) as (y & Hy & Hf' & Hsin' & Hn').
    assert (T' < T0 + 1000 * (secs + 1)) as Hbefore by (destruct (Z.ltb_spec T' (T0 + 1000 * (secs + 1))); lia).
    destruct (IH T' y) as (n & T'' & z & Hrun & Hz);
      [by eapply served_turn|by rewrite Hf'|done|by rewrite Hsin'|lia|lia|lia|].
    exists (Datatypes.S n), T'', z. by rewrite (Hstep _ _ Hy).
Qed.

(** C38: a sender that never starts playing cannot keep the daemon.  From the moment
    [T] at which a sender accepted at [T0] is connected and does not play, if it stays
    silent, the loop does not wait for ever: after a number of turns, later than the
    deadline of [secs] seconds and no more than two seconds (and the lateness of one
    [poll]) after it, it has dropped the sender, with everything released, whether the
    daemon runs in the foreground or not.  A sender that is not silent is dropped by the
    first poll that returns after the deadline; the next sender is then accepted.  A
    sender that is playing is never dropped by the clock. *)
Theorem server_handshake_deadline fg hz c0 late secs sys T0 T x ws e p :
  served x -> 0 <= client_fd (srv x) -> 0 <= pe_result p ->
  1 <= hz -> 0 <= late -> 0 < secs * hz <= LONG_MAX -> (1000 * (secs + 2) + late) * hz + 1000 <= 1000 * LONG_MAX ->
  (forall t, T0 <= t <= T0 + 1000 * (secs + 2) + late -> times_at hz c0 t <> -1) ->
  (has_session (srv x) = false -> silent hz c0 late sys -> client_since (srv x) = times_at hz c0 T0 ->
   T0 <= T < T0 + 1000 * (secs + 1) ->
   exists n T' y, run_loop api rsa_private d ka fg (handshake_ticks secs hz) sys n T x = Ret (Some T', y) /\
     client_fd (srv y) = -1 /\ released y /\ T0 + 1000 * secs < T' <= T0 + 1000 * (secs + 2) + late) /\
  (has_session (srv x) = false -> pe_now p <> -1 -> secs * hz < slong (pe_now p - client_since (srv x)) ->
   exists y, loop_turn api rsa_private d ka (handshake_ticks secs hz) e p (set_writes ws x) = Ret (true, y) /\
     released y /\ forall fd ip now, accept_ok (Some (fd, ip)) y ->
       exists z, on_listen_readable (Some (fd, ip)) now y = Ret (tt, z) /\
         client_fd (srv z) = fd /\ client_ip_be (srv z) = ip /\ client_since (srv z) = now) /\
  (has_session (srv x) = true -> pe_result p = 0 ->
   loop_turn api rsa_private d ka (handshake_ticks secs hz) e p (set_writes ws x) = Ret (true, set_writes ws x)).
Proof.
  intros Hx Hf Hr Hh Hl Hs Hfit Hclk. split; [|split].
  - intros Hn Hsil Hsin [H0 H1].
    destruct (silent_run fg hz c0 late secs sys T0 Hh Hl Hs Hfit Hclk Hsil (Z.to_nat (T0 + 1000 * (secs + 1) - T)) T x)
      as (n & T' & y & Hrun & Hi & Hb); [done..|lia|].
    exists n, T', y. split; [done|]. split; [by apply Hi|]. split; [by apply (idle_released api)|done].
  - intros Hn Hnow Hd. assert (handshake_ticks secs hz = secs * hz) as Hti.
    { unfold handshake_ticks. rewrite (proj2 (Z.leb_gt _ _)) by lia.
      apply slong_id. pose proof long_max_pos. unfold LONG_MAX in *. lia. }
    destruct (deadline_turn x ws (handshake_ticks secs hz) e p) as (y & Hy & Hi);
      [by apply served_sinv|done|done|done|lia|done|lia|].
    exists y. split; [done|]. split; [by apply (idle_released api)|].
    intros fd ip now _. unfold on_listen_readable, bind, with_kernel, on_prc, ask, on_srv. st_simpl.
    rewrite (i_client _ _ _ Hi). change (0 <=? -1) with false. cbv iota. by eexists.
  - intros Hn H0. unfold loop_turn, bind at 1, ask at 1. st_simpl. rewrite Hn, H0, andb_false_r. done.
Qed.
End Props.

(** ** A sender connects *)

Definition sample_ops : session_api (session_t unit) :=
  @session_ops ilp32 unit sample_alac (fun _ => Some (replicate 16 9)) 100.

Definition sample_start : st (session_t unit) :=
  mk_st (server_init 3 9 (str "/p") [10; 0; 0; 2] [1; 2; 3; 4; 5; 6]) (proc_init (mk_fs ∅ 0) sample_res) [] [] [].

Definition sample_envs : Server.env := mk_senv sample_env None true true.

Definition sample_turn (ws : list (option Z)) (p : poll_ev) (x : st (session_t unit)) : st (session_t unit) :=
  match @loop_turn ilp32 _ sample_ops no_rsa slow_disk sample_kernel 1000 sample_envs p (set_writes ws x) with
  | Ret (_, y) => y
  | _ => x
  end.

Definition sample_request : bytes :=
  str "OPTIONS * RTSP/1.0" ++ [13; 10] ++ str "CSeq: 4" ++ [13; 10] ++ str "DACP-ID: ab" ++ [13; 10]
    ++ str "Active-Remote: 77" ++ [13; 10; 13; 10] ++ str "SETUP".

Definition sample_accept : poll_ev := mk_poll 1 false 20 (Some (Some (8, 77), 20)) None.
Definition sample_read : poll_ev := mk_poll 1 false 30 None (Some (RData sample_request)).

(** A slow connection: two writes that are short, one that is interrupted. *)
Definition sample_writes : list (option Z) := [Some 9; None; Some 20; Some 4096].

Definition sample_accepted : st (session_t unit) := sample_turn [] sample_accept sample_start.
Definition sample_asked : st (session_t unit) := sample_turn sample_writes sample_read sample_accepted.

Abbreviation sample_served := (@served ilp32 (session_t unit) sample_ops _ sample_res no_rsa slow_disk sample_kernel).

Lemma sample_start_ok : start_ok 3 9 (str "/p") [10; 0; 0; 2] [1; 2; 3; 4; 5; 6].
Proof. split; [by vm_compute|]. split; [by vm_compute|]. split_and!; [by apply bytes_okb_ok..|by repeat constructor]. Qed.

Lemma sample_start_served : sample_served sample_start.
Proof. apply served_start; [done..|exact sample_start_ok]. Qed.

Lemma sample_accept_ok {T} (x : st T) :
  8 ∉ k_open (r_kernel (p_res (prc x))) -> @poll_ok ilp32 T x sample_accept.
Proof. intros Hf. split; [|done]. by split; [split; [|split]|]. Qed.

Lemma sample_accepted_served : sample_served sample_accepted.
Proof.
  eapply (served_turn _ _ _ _ _ _ [] 1000 sample_envs sample_accept true); [exact sample_start_served| |].
  - apply sample_accept_ok. by apply (bool_decide_unpack _).
  - by vm_compute.
Qed.

Lemma sample_asked_served : sample_served sample_asked.
Proof.
  eapply (served_turn _ _ _ _ _ _ sample_writes 1000 sample_envs sample_read true); [exact sample_accepted_served| |].
  - split; [done|]. intros data [= <-]. by apply bytes_okb_ok.
  - by vm_compute.
Qed.

Lemma server_owns_once_witness :
  wake_state (p_lock (prc sample_asked)) = Some (has_session (srv sample_asked)) /\
  mwp (@teardown_client ilp32 _ sample_ops slow_disk) (fun _ y => released sample_res y /\ client_fd (srv y) = -1 /\
    wake_state (p_lock (prc y)) = Some false /\ playing (p_np (prc y)) = false) sample_asked.
Proof.
  destruct (server_owns_once sample_ops sample_res no_rsa no_rsa_in_place slow_disk (DiskOk0 := slow_disk_ok)
    sample_kernel (KernelOk0 := sample_kernel_ok) eq_refl sample_asked sample_asked_served) as (_ & _ & Hl & _ & _ & Ht).
  split; [exact Hl|exact Ht].
Defined.

Lemma server_turn_total_witness :
  exists b y, @loop_turn ilp32 _ sample_ops no_rsa slow_disk sample_kernel 1000 sample_envs sample_read
      (set_writes [] sample_asked) = Ret (b, y) /\
    (0 <= client_fd (srv y) ->
     (length (rbuf (srv y)) <= RBUF_CAP)%nat /\
     (length (rbuf (srv y)) = RBUF_CAP -> bcap_active (srv y) = false) /\
     (bcap_active (srv y) = true -> 0 < remaining (bcap (srv y)))).
Proof.
  apply (server_turn_total sample_ops sample_res no_rsa no_rsa_in_place slow_disk (DiskOk0 := slow_disk_ok)
    sample_kernel (KernelOk0 := sample_kernel_ok) eq_refl sample_asked); [exact sample_asked_served|].
  split; [done|]. intros data [= <-]. by apply bytes_okb_ok.
Defined.

Lemma server_frames_stream_witness :
  exists rest, @requests ilp32 (length sample_request) sample_request = frames sample_asked ++ rest /\
    ((length (rbuf (srv sample_asked)) < RBUF_CAP)%nat -> rest = []).
Proof.
  exact (server_frames_stream sample_ops sample_res no_rsa no_rsa_in_place slow_disk (DiskOk0 := slow_disk_ok)
    sample_kernel (KernelOk0 := sample_kernel_ok) eq_refl sample_asked sample_asked_served ltac:(by vm_compute)).
Defined.

Lemma server_answers_each_witness :
  length (frames sample_asked) = 1%nat /\
  exists resps, Forall2 (fun f resp => answers_to f.1 resp) (frames sample_asked) resps /\
    p_sent (prc sample_asked) = concat resps.
Proof.
  split; [by vm_compute|].
  exact (server_answers_each sample_ops sample_res no_rsa no_rsa_in_place slow_disk (DiskOk0 := slow_disk_ok)
    sample_kernel (KernelOk0 := sample_kernel_ok) eq_refl sample_asked sample_asked_served ltac:(by vm_compute)).
Defined.

Lemma server_credentials_current_witness :
  peer_ip_be (p_dacp (prc sample_asked)) = 77 /\ dacp_id (p_dacp (prc sample_asked)) = str "AB".
Proof.
  pose proof (server_credentials_current sample_ops sample_res no_rsa no_rsa_in_place slow_disk (DiskOk0 := slow_disk_ok)
    sample_kernel (KernelOk0 := sample_kernel_ok) eq_refl sample_asked sample_asked_served ltac:(by vm_compute))
    as (_ & -> & _).
  split; by vm_compute.
Defined.

(** Nobody sends anything: every [poll] with a timeout runs into it. *)
Definition sample_silence : @poller (session_t unit) := fun T _ timeout =>
  if timeout <? 0 then None
  else Some (sample_envs, [], mk_poll 0 false (@times_at ilp32 100 0 (T + timeout + 1)) None None, T + timeout + 1).

Lemma sample_silent : @silent ilp32 (session_t unit) 100 0 1 sample_silence.
Proof.
  intros T x timeout H0. unfold sample_silence. rewrite (proj2 (Z.ltb_ge _ _)) by done.
  do 4 eexists. split; [done|]. cbn. by split_and!; [lia|lia| | | |].
Qed.

Lemma sample_clock t : 200 <= t <= 200 + 1000 * (10 + 2) + 1 -> @times_at ilp32 100 0 t <> -1.
Proof.
  intros Ht. unfold times_at. pose proof (Z.div_mod (t * 100) 1000 ltac:(lia)).
  pose proof (Z.mod_pos_bound (t * 100) 1000 ltac:(lia)). rewrite slong_small; lia.
Qed.

Lemma server_handshake_deadline_witness :
  exists n T' y, @run_loop ilp32 _ sample_ops no_rsa slow_disk sample_kernel false (@handshake_ticks ilp32 10 100)
      sample_silence n 300 sample_asked = Ret (Some T', y) /\
    client_fd (srv y) = -1 /\ released sample_res y /\ 200 + 1000 * 10 < T' <= 200 + 1000 * (10 + 2) + 1.
Proof.
  refine (proj1 (server_handshake_deadline sample_ops sample_res no_rsa no_rsa_in_place slow_disk
    (DiskOk0 := slow_disk_ok) sample_kernel (KernelOk0 := sample_kernel_ok) eq_refl false 100 0 1 10 sample_silence
    200 300 sample_asked [] sample_envs (mk_poll 0 false 1021 None None) sample_asked_served _ _ _ _ _ _ sample_clock)
    _ sample_silent _ _); first [by vm_compute|lia].
Defined.
