(* ===== verification/ServerDisplay.v ===== *)
(** * What the sender's bodies become

    The pictures and metadata of a connection, as a function of the bytes received,
    and what the handlers of [Server.v] make of them: the art file and the
    now-playing state. *)
From Stdlib Require Import ZArith Lia String.
From stdpp Require Import base numbers list gmap.
From S2P Require Import Prelude Rtp Sdp RtspMsg Rtsp Bodycap Daap Npstate DacpState Dacp AlacShim Session Wakelock ServerState Server ServerInv ServerFrame ServerProps.

Local Open Scope Z_scope.

(** ** The bodies of a stream *)

Section Bodies.
Context `{DataModel}.

(** The body of a request that came whole, if it is one the daemon captures. *)
Definition whole_body (m : rtsp_msg_t) : list (bodycap_mode_t * bytes) :=
  match body m with
  | Some b =>
      if bytes_eqb (method m) (str "SET_PARAMETER") && (0 <? body_len m) &&
         negb (bool_decide (body_mode m = BODYCAP_DISCARD)) then [(body_mode m, b)] else []
  | None => []
  end.

(** That of a request of [n] bytes at the head of [s]: its own, or, when it did not
    fit the read buffer, the last bytes it takes, once they have all arrived. *)
Definition frame_body (s : bytes) (m : rtsp_msg_t) (n : nat) : list (bodycap_mode_t * bytes) :=
  match body m with
  | Some _ => whole_body m
  | None =>
      if (0 <? body_len m) && (n <=? length s)%nat && negb (bool_decide (body_mode m = BODYCAP_DISCARD))
      then [(body_mode m, drop (n - Z.to_nat (body_len m)) (take n s))] else []
  end.

Fixpoint bodies (s : bytes) (l : list (rtsp_msg_t * nat)) : list (bodycap_mode_t * bytes) :=
  match l with
  | [] => []
  | (m, n) :: l => frame_body s m n ++ bodies (drop n s) l
  end.

Lemma bodies_snoc s l m n : bodies s (l ++ [(m, n)]) = bodies s l ++ frame_body (drop (total l) s) m n.
Proof.
  revert s. induction l as [|[m' n'] l IH]; intros s; cbn [bodies app].
  - by rewrite app_nil_r.
  - rewrite IH, drop_drop, app_assoc. done.
Qed.

Lemma total_cons f l : total (f :: l) = (f.2 + total l)%nat.
Proof. done. Qed.

(** Later bytes do not change the bodies that have arrived. *)
Lemma bodies_app s t l : (total l <= length s)%nat -> bodies (s ++ t) l = bodies s l.
Proof.
  revert s. induction l as [|[m n] l IH]; intros s; cbn [bodies]; [done|].
  rewrite total_cons. cbn [snd]. intros Hl. rewrite drop_app_le, IH by (rewrite ?length_drop; lia).
  f_equal. unfold frame_body. rewrite length_app, take_app_le by lia.
  by rewrite !(proj2 (Nat.leb_le n _)) by lia.
Qed.
End Bodies.

(** ** What they are to become *)

(** The texts and the picture on display, and the contents of the art file. *)
Record view_t := mk_view { v_texts : bytes * bytes * bytes; v_art : bool; v_pic : option bytes }.

Definition blank_view (pic : option bytes) : view_t := mk_view ([], [], []) false pic.

Definition meta_texts (b : bytes) : bytes * bytes * bytes :=
  match daap_parse b with Ret m => texts m | _ => ([], [], []) end.

(** A disk on which everything succeeds. *)
Definition perfect (d : disk) : Prop :=
  (forall f p, d_open d f p = true) /\ (forall f n, (0 < n)%nat -> (0 < d_write d f n)%nat) /\
  (forall f, d_rename d f = true).

(** One body: metadata that fits the buffer replaces the texts; a picture replaces
    the art file as a whole, or, if the disk fails, changes nothing. *)
Inductive shown_body (d : disk) : bodycap_mode_t * bytes -> view_t -> view_t -> Prop :=
  | shown_meta b v : (length b <= METABUF_CAP)%nat ->
      shown_body d (BODYCAP_MEM, b) v (mk_view (meta_texts b) (v_art v) (v_pic v))
  | shown_big b v : (METABUF_CAP < length b)%nat -> shown_body d (BODYCAP_MEM, b) v v
  | shown_art b v : shown_body d (BODYCAP_FILE, b) v (mk_view (v_texts v) true (Some b))
  | shown_failed b v : ~ perfect d -> shown_body d (BODYCAP_FILE, b) v v.

Inductive shown (d : disk) : list (bodycap_mode_t * bytes) -> view_t -> view_t -> Prop :=
  | shown_nil v : shown d [] v v
  | shown_snoc l e u v w : shown d l u v -> shown_body d e v w -> shown d (l ++ [e]) u w.

Lemma shown_app d l l' u v w : shown d l u v -> shown d l' v w -> shown d (l ++ l') u w.
Proof.
  intros H1 H2. revert H1. induction H2 as [w|l' e v v' w _ IH He]; intros Hl.
  - by rewrite app_nil_r.
  - rewrite app_assoc. eapply shown_snoc; [by apply IH|done].
Qed.

Lemma shown_one d e v w : shown_body d e v w -> shown d [e] v w.
Proof. intros He. apply (shown_snoc d [] e v v w); [constructor|done]. Qed.

Definition is_meta (e : bodycap_mode_t * bytes) : bool :=
  bool_decide (e.1 = BODYCAP_MEM) && (length e.2 <=? METABUF_CAP)%nat.
Definition is_art (e : bodycap_mode_t * bytes) : bool := bool_decide (e.1 = BODYCAP_FILE).

(** The last body of a kind. *)
Definition last_body (p : bodycap_mode_t * bytes -> bool) (l : list (bodycap_mode_t * bytes)) : option bytes :=
  snd <$> last (List.filter p l).

Lemma last_body_snoc p l e : last_body p (l ++ [e]) = if p e then Some e.2 else last_body p l.
Proof.
  unfold last_body. rewrite List.filter_app. cbn [List.filter]. destruct (p e).
  - by rewrite last_snoc.
  - by rewrite app_nil_r.
Qed.

(** The bodies after the last one of a kind. *)
Fixpoint since (p : bodycap_mode_t * bytes -> bool) (l : list (bodycap_mode_t * bytes)) : list (bodycap_mode_t * bytes) :=
  match l with
  | [] => []
  | e :: l' => if existsb p l' then since p l' else if p e then l' else e :: l'
  end.

Lemma since_suffix p l : exists l0, l = l0 ++ since p l.
Proof.
  induction l as [|e l [l0 IH]]; [by exists []|]. cbn [since].
  destruct (existsb p l); [exists (e :: l0); cbn; congruence|]. destruct (p e); [by exists [e]|by exists []].
Qed.

Lemma last_body_since p q l : last_body q l = None -> last_body q (since p l) = None.
Proof.
  destruct (since_suffix p l) as [l0 E]. rewrite E at 1. unfold last_body. rewrite List.filter_app.
  destruct (last (List.filter q (since p l))) as [e|] eqn:El; [|done]. by rewrite last_app, El.
Qed.

Lemma shown_texts d l c v :
  shown d l (blank_view c) v -> v_texts v = from_option meta_texts ([], [], []) (last_body is_meta l).
Proof.
  remember (blank_view c) as u eqn:Hu. induction 1 as [u|l e u v w _ IH He]; subst u; [done|].
  specialize (IH eq_refl). rewrite last_body_snoc. destruct He as [b v Hb|b v Hb|b v|b v Hp]; unfold is_meta; cbn.
  - by rewrite (proj2 (Nat.leb_le _ _)) by done.
  - by rewrite (proj2 (Nat.leb_gt _ _)) by done.
  - done.
  - done.
Qed.

Lemma shown_picture d l c v :
  shown d l (blank_view c) v ->
  (v_art v = true -> exists b, In (BODYCAP_FILE, b) l /\ v_pic v = Some b) /\
  (v_art v = false -> v_pic v = c) /\
  (perfect d -> (v_art v = true <-> last_body is_art l <> None) /\ (v_art v = true -> v_pic v = last_body is_art l)).
Proof.
  remember (blank_view c) as u eqn:Hu. induction 1 as [u|l e u v w _ IH He]; subst u.
  - cbn. split; [done|]. split; [done|]. done.
  - destruct (IH eq_refl) as (H1 & H2 & H3). rewrite last_body_snoc.
    destruct He as [b v Hb|b v Hb|b v|b v Hp]; cbn [v_art v_pic is_art fst snd].
    + change (is_art (BODYCAP_MEM, b)) with false. split; [|done]. intros Ha. destruct (H1 Ha) as (b' & Hi & ->).
      exists b'. split; [|done]. apply in_or_app. by left.
    + change (is_art (BODYCAP_MEM, b)) with false. split; [|done]. intros Ha. destruct (H1 Ha) as (b' & Hi & ->).
      exists b'. split; [|done]. apply in_or_app. by left.
    + change (is_art (BODYCAP_FILE, b)) with true. split; [|split; [done|]].
      * intros _. exists b. split; [|done]. apply in_or_app. right. by left.
      * intros _. split; [|done]. by split.
    + split; [|split; [done|by intros ?%Hp]]. intros Ha. destruct (H1 Ha) as (b' & Hi & ->).
      exists b'. split; [|done]. apply in_or_app. by left.
Qed.

(** ** A capture in progress *)

Section Capture.
Context (d : disk) `{!DiskOk d} (pre : bytes) (Hpre : (length pre <= 240)%nat).

Definition art_path : bytes := pre ++ str "/np-art.jpg".
Definition art_tmp : bytes := art_path ++ str ".tmp".

(** A capture in mode [mo] of a body of [n] bytes that has seen [seen]. *)
Definition capture_of (mo : bodycap_mode_t) (n : Z) (seen : bytes) (b : bodycap_t) (f : fs) : Prop :=
  0 <= n /\ (exists f0 b0, captured n f0 b0 seen b f /\ mode b0 = mo /\
    match mo with
    | BODYCAP_FILE => tmp b0 = art_tmp /\ final b0 = art_path
    | BODYCAP_MEM => mem_cap b0 = METABUF_CAP
    | BODYCAP_DISCARD => True
    end) /\
  (mo = BODYCAP_FILE -> perfect d -> failed b = false).

Lemma art_paths : path256 (take 511 art_path ++ str ".tmp") = art_tmp /\ path256 (take 511 art_path) = art_path.
Proof.
  assert (length art_path = length pre + 11)%nat as Hl by (unfold art_path; rewrite length_app; done).
  assert (length art_tmp = length pre + 15)%nat as Ht by (unfold art_tmp; rewrite length_app, Hl; cbn; lia).
  rewrite (take_ge art_path) by lia. unfold path256. change (art_path ++ str ".tmp") with art_tmp.
  by rewrite !take_ge by lia.
Qed.

Lemma art_tmp_ne : art_tmp <> art_path.
Proof. intros E. apply (f_equal length) in E. unfold art_tmp in E. rewrite length_app in E. cbn in E. lia. Qed.

Lemma lookup_art (f f' : gmap bytes bytes) : delete art_tmp f = delete art_tmp f' -> f !! art_path = f' !! art_path.
Proof.
  intros E. pose proof (f_equal (fun g => g !! art_path) E) as Ha. cbn beta in Ha.
  rewrite !lookup_delete_ne in Ha by exact art_tmp_ne. exact Ha.
Qed.

(** The art file is that of the beginning until the capture ends. *)
Lemma capture_pic mo n f0 b0 seen b f :
  captured n f0 b0 seen b f -> (mo = BODYCAP_FILE -> tmp b0 = art_tmp) -> mode b0 = mo ->
  files f !! art_path = files f0 !! art_path.
Proof.
  intros (_ & _ & _ & _ & _ & Hm) Ht E. rewrite E in Hm. destruct mo.
  - by destruct Hm as [-> _].
  - destruct Hm as [Hd _]. rewrite Ht in Hd by done. by apply lookup_art.
  - by destruct Hm as [-> _].
Qed.

Lemma begin_capture mo n f :
  0 <= n ->
  let '(b, f') := bodycap_begin d mo n (match mo with BODYCAP_FILE => Some (take 511 art_path) | _ => None end)
    (match mo with BODYCAP_MEM => METABUF_CAP | _ => 0%nat end) f in
  capture_of mo n [] b f' /\ files f' !! art_path = files f !! art_path.
Proof.
  intros Hn. destruct art_paths as [P1 P2].
  pose proof (begin_captured d mo n (match mo with BODYCAP_FILE => Some (take 511 art_path) | _ => None end)
    (match mo with BODYCAP_MEM => METABUF_CAP | _ => 0%nat end) f Hn) as Hb.
  specialize (Hb ltac:(intros ->; by eexists)). revert Hb. unfold bodycap_begin.
  destruct mo.
  - intros Hb. split; [|done]. split; [done|]. split; [|done]. by exists f, (mk_cap BODYCAP_DISCARD (if n <? 0 then 0 else n) false false [] [] [] 0).
  - unfold sys_open. rewrite P1, P2. destruct (d_open d f art_tmp) eqn:Eo; intros Hb.
    + split; [|cbn [files]; by rewrite lookup_insert_ne by exact art_tmp_ne].
      split; [done|]. split; [|done]. eexists f, _. split; [exact Hb|done].
    + split; [|done]. split; [done|]. split; [eexists f, _; split; [exact Hb|done]|].
      intros _ (Ho & _). by rewrite Ho in Eo.
  - intros Hb. split; [|done]. split; [done|]. split; [|done].
    eexists f, _. split; [exact Hb|]. split; [done|]. done.
Qed.

Lemma write_loop_perfect fuel path data f bad f' :
  perfect d -> (length data < fuel)%nat -> Bodycap.write_loop d fuel path data f = Ret (bad, f') -> bad = false.
Proof.
  intros (_ & Hw & _). revert data f. induction fuel as [|fuel IH]; intros data f Hf; [lia|]. cbn [Bodycap.write_loop].
  destruct data as [|x data]; [by intros [= <- _]|]. unfold sys_write. set (dt := x :: data) in *.
  assert (0 < d_write d f (length dt))%nat as Hp by (apply Hw; unfold dt; cbn; lia).
  destruct (Nat.eqb_spec (d_write d f (length dt)) 0) as [E|E]; [lia|]. intros Hr.
  eapply IH; [|exact Hr]. rewrite length_drop. assert (0 < length dt)%nat by (unfold dt; cbn; lia). lia.
Qed.

Lemma feed_capture mo n seen b f data tk b' f' :
  capture_of mo n seen b f -> bodycap_feed d b data f = Ret (tk, b', f') ->
  capture_of mo n (seen ++ data) b' f' /\ files f' !! art_path = files f !! art_path.
Proof.
  intros (Hn & (f0 & b0 & Hc & Hm & Hx) & Hp) Hr.
  destruct (bodycap_feed_spec d n f0 b0 seen b f data Hn Hc) as (tk' & b1 & f1 & E & Hc' & _).
  rewrite E in Hr. injection Hr as -> -> ->.
  assert (mo = BODYCAP_FILE -> tmp b0 = art_tmp) as Ht by (intros ->; by destruct Hx).
  split; [|by rewrite (capture_pic mo n f0 b0 _ _ _ Hc' Ht Hm), (capture_pic mo n f0 b0 _ _ _ Hc Ht Hm)].
  split; [done|]. split; [by exists f0, b0|]. intros -> Hd. specialize (Hp eq_refl Hd).
  destruct Hc as (Hmb & _ & _ & _ & _ & Hfs). rewrite Hm in Hfs, Hmb.
  destruct Hfs as (_ & _ & Hok). destruct (Hok Hp) as [Hfd _].
  revert E. unfold bodycap_feed. rewrite Hp, Hmb, Hfd. case_match; [|by intros [= _ <- _]].
  match goal with |- context [Bodycap.write_loop d ?k ?q ?c f] => destruct (Bodycap.write_loop d k q c f) as [[bad g]| |] eqn:Ew end;
    cbn [rbind]; [|done|done]. intros [= _ <- _]. cbn [failed fst].
  eapply write_loop_perfect; [exact Hd| |exact Ew]. lia.
Qed.

(** What the end of a capture leaves in the art file, and tells. *)
Lemma finish_capture mo n seen b f rc b' f' :
  capture_of mo n seen b f -> n <= Z.of_nat (length seen) -> bodycap_finish d b f = (rc, b', f') ->
  mode b' = mo /\
  match mo with
  | BODYCAP_FILE =>
      (rc = 0 /\ files f' !! art_path = Some (take (Z.to_nat n) seen)) \/
      (rc = -1 /\ ~ perfect d /\ files f' !! art_path = files f !! art_path)
  | BODYCAP_MEM =>
      f' = f /\ ((rc = 0 /\ (length (take (Z.to_nat n) seen) <= METABUF_CAP)%nat /\ mem b' = take (Z.to_nat n) seen) \/
        (rc = -1 /\ (METABUF_CAP < length (take (Z.to_nat n) seen))%nat))
  | BODYCAP_DISCARD => f' = f
  end.
Proof.
  intros (Hn & (f0 & b0 & Hc & Hm & Hx) & Hp) Hl.
  destruct Hc as (H1 & H2 & H3 & H4 & Hr & Hfs). rewrite Hm in Hfs, H1. unfold bodycap_finish. rewrite H1.
  assert (bodycap_done b = true) as -> by (unfold bodycap_done; lia). cbn [andb]. destruct mo.
  - by intros [= _ <- <-].
  - destruct Hx as [T1 T2]. destruct Hfs as (Hd & _ & Hok). rewrite T1 in Hd, Hok. cbn [tmp final].
    assert (forall g : fs, delete art_tmp (files f) !! art_path = files f !! art_path) as Hart
      by (intros _; by rewrite lookup_delete_ne by exact art_tmp_ne).
    destruct (failed b) eqn:Ef; cbn [negb].
    { intros [= <- <- <-]. split; [done|]. right. split; [done|]. split; [by intros ?%(Hp eq_refl)|].
      cbn [sys_unlink files]. rewrite H2, T1. by apply Hart. }
    destruct (Hok eq_refl) as [_ Hct]. rewrite H2, H3, T1, T2. unfold sys_rename. destruct (d_rename d f) eqn:Er.
    + rewrite Hct. intros [= <- <- <-]. split; [done|]. left. split; [done|]. cbn [files]. by rewrite lookup_insert_eq.
    + intros [= <- <- <-]. split; [done|]. right. split; [done|]. split; [intros (_ & _ & Hq); by rewrite Hq in Er|].
      cbn [sys_unlink files]. by apply Hart.
  - destruct Hfs as (-> & Hmem & Hf). rewrite Hx in *. destruct (Nat.ltb_spec METABUF_CAP (length (take (Z.to_nat n) seen))) as [Hb|Hb];
      rewrite Hf; intros [= <- <- <-]; (split; [done|]; split; [done|]); [by right|].
    left. split; [done|]. split; [done|]. rewrite Hmem. by apply take_ge.
Qed.
End Capture.

(** ** The handlers *)

(** Weakest liberal precondition: what holds if the handler returns, which
    [ServerProps] shows it does. *)
Definition mlp {S A} (m : M S A) (Q : A -> st S -> Prop) (x : st S) : Prop :=
  match m x with Ret (a, y) => Q a y | _ => True end.

Lemma mlp_bind {S A B} (m : M S A) (f : A -> M S B) Q x : mlp m (fun a => mlp (f a) Q) x -> mlp (bind m f) Q x.
Proof. unfold mlp, bind. by destruct (m x) as [[a y]| |]. Qed.

Lemma mlp_mono {S A} (m : M S A) (P Q : A -> st S -> Prop) x :
  mlp m P x -> (forall a y, P a y -> Q a y) -> mlp m Q x.
Proof. unfold mlp. destruct (m x) as [[a y]| |]; auto. Qed.

Lemma mlp_lift {S A} (r : run A) (Q : A -> st S -> Prop) x : (forall a, r = Ret a -> Q a x) -> mlp (lift r) Q x.
Proof. unfold mlp, lift. destruct r; auto. Qed.

Ltac lstep :=
  lazymatch goal with
  | |- mlp (bind _ _) _ _ => apply mlp_bind
  | |- mlp (ret ?a) ?Q ?x => change (Q a x); cbv beta
  | |- mlp (ask ?f) ?Q ?x => change (Q (f x) x); cbv beta
  | |- mlp (on_srv ?f) ?Q ?x => change (Q tt (set_srv (f (srv x)) x)); cbv beta
  | |- mlp (on_prc ?f) ?Q ?x => change (Q tt (set_prc (f (prc x)) x)); cbv beta
  | |- mlp (np _) _ _ => unfold np
  | |- mlp nprender_wake _ _ => unfold nprender_wake
  | |- mlp (dacp _) _ _ => unfold dacp
  | |- mlp (with_kernel _) _ _ => unfold with_kernel
  end.
Ltac lif := match goal with |- mlp (if ?b then _ else _) _ _ => destruct b end.
Ltac lsteps := repeat (lstep; st_simpl).

Section Handlers.
Context `{DataModel} {S : Type} (api : session_api S).
Context (rsa_private : bytes -> option bytes) (d : disk) `{!DiskOk d} (ka : answers).

Definition np_texts (n : np_snapshot_t) : bytes * bytes * bytes := (np_title n, np_artist n, np_album n).

(** What is on display, and the contents of the art file. *)
Definition view (x : st S) : view_t :=
  mk_view (np_texts (p_np (prc x))) (have_art (p_np (prc x))) (files (p_fs (prc x)) !! art_path (prefix (srv x))).

(** What only the captures and the reads change. *)
Definition frame_of (x : st S) := (prefix (srv x), client_fd (srv x), stream x, frames x, rbuf (srv x)).
Definition rest_of (x : st S) :=
  (frame_of x, p_fs (prc x), bcap (srv x), bcap_active (srv x), np_texts (p_np (prc x)), have_art (p_np (prc x))).

Definition quiet (x y : st S) : Prop := rest_of y = rest_of x.

(** No client, nothing on display. *)
Definition blank (pre : bytes) (x : st S) : Prop :=
  client_fd (srv x) < 0 /\ bcap_active (srv x) = false /\ prefix (srv x) = pre /\
  np_texts (p_np (prc x)) = ([], [], []) /\ have_art (p_np (prc x)) = false.

Lemma frame_prefix x y : frame_of y = frame_of x -> prefix (srv y) = prefix (srv x).
Proof. unfold frame_of. congruence. Qed.

Lemma quiet_frame x y : quiet x y -> frame_of y = frame_of x.
Proof. unfold quiet, rest_of. congruence. Qed.

Lemma quiet_view x y : quiet x y -> view y = view x.
Proof. unfold quiet, rest_of, frame_of, view. intros E. injection E. congruence. Qed.

Lemma teardown_blank x : mlp (teardown_client api d) (fun _ y => blank (prefix (srv x)) y) x.
Proof.
  destruct x as [[lfd cfd since cip iface probed rb cap act pre rt i m sk bound se] [f r np dc wk lock vol sent pr]
    ws str frs]. unfold teardown_client. lsteps.
  eapply (mlp_mono _ (fun _ y => prefix (srv y) = pre /\ np_texts (p_np (prc y)) = ([], [], []) /\
    have_art (p_np (prc y)) = false)).
  { destruct se as [s|].
    - unfold end_session. lsteps. by destruct (api_stop api s r).
    - destruct bound; lsteps; [|done]. unfold srv_close_socks, mlp. by destruct (rtp_close _ _). }
  intros [] y (Hp & Ht & Ha). lsteps.
  eapply (mlp_mono _ (fun _ z => prefix (srv z) = pre /\ np_texts (p_np (prc z)) = ([], [], []) /\
    have_art (p_np (prc z)) = false /\ client_fd (srv z) < 0)).
  { destruct (Z.leb_spec 0 (client_fd (srv y))); lsteps; split_and!; done || lia. }
  intros [] z (Hp' & Ht' & Ha' & Hc). lsteps. destruct (bcap_active (srv z)) eqn:Eb.
  - lsteps. unfold finish, mlp at 1. destruct (bodycap_finish _ _ _) as [[rc b] f']. lsteps. by repeat split.
  - lsteps. by repeat split.
Qed.

Lemma bind_ports_quiet m x : mlp (bind_ports ka m) (fun _ y => quiet x y) x.
Proof.
  unfold bind_ports. lsteps. case_match; [|lsteps; done]. lsteps.
  unfold srv_open_socks, mlp at 1. destruct (rtp_open _ _ _) as [[rc sk] k]. lsteps.
  case_match; lsteps; done.
Qed.

Lemma probe_quiet e x : mlp (probe e) (fun _ y => quiet x y) x.
Proof. unfold probe. lsteps. repeat (case_match; lsteps; try done). Qed.

Lemma start_play_quiet e x : mlp (start_play api e) (fun _ y => quiet x y) x.
Proof.
  unfold start_play. lsteps. case_match; [lsteps; done|]. lsteps.
  apply mlp_lift. intros desc _. lsteps. unfold mlp at 1. destruct (api_create _ _ _ _ _) as [[s|] r1]; lsteps.
  2:{ unfold srv_close_socks, mlp at 1. st_simpl. destruct (rtp_close _ _) as [sk k]. lsteps. done. }
  unfold mlp at 1. st_simpl. destruct (api_start _ _ _ _ _ _ _ _ _ _) as [[[rc s1] r2]| |]; cbn [rbind]; [|done|done].
  lsteps. case_match; lsteps; [done|].
  eapply mlp_mono; [apply probe_quiet|]. intros [] y Hy. exact Hy.
Qed.

(** A side effect keeps the display, or the client is gone. *)
Lemma action_quiet e x :
  mlp (do_rtsp_action api d e) (fun rc y => (rc = 0 /\ quiet x y) \/ (rc = -1 /\ blank (prefix (srv x)) y)) x.
Proof.
  unfold do_rtsp_action. lsteps. destruct (action (rtsp (srv x))); lsteps; try (by left).
  - eapply mlp_mono; [apply start_play_quiet|]. intros [] y Hy. lsteps. by left.
  - destruct (sess (srv x)); lsteps; by left.
  - eapply mlp_mono; [apply teardown_blank|]. intros [] y Hy. lsteps. by right.
  - destruct (sess (srv x)); lsteps; by left.
Qed.

(** *** Captures *)

Definition event (mo : bodycap_mode_t) (b : bytes) : list (bodycap_mode_t * bytes) :=
  if bool_decide (mo = BODYCAP_DISCARD) then [] else [(mo, b)].

Lemma publish_texts m s :
  meta_ok m -> np_texts (np_publish_meta m s) = texts m /\ have_art (np_publish_meta m s) = have_art s.
Proof.
  intros (H1 & H2 & H3). unfold np_publish_meta, np_texts, texts. case_match eqn:E; cbn.
  - split; [|done]. by rewrite !np_take_field by done.
  - split; [|done]. apply orb_false_iff in E as [E E3]. apply orb_false_iff in E as [E1 E2].
    apply negb_false_iff in E1, E2, E3. revert E1 E2 E3.
    destruct (bytes_eqb_spec (np_title s) (cstr (title m))); [|done].
    destruct (bytes_eqb_spec (np_artist s) (cstr (artist m))); [|done].
    destruct (bytes_eqb_spec (np_album s) (cstr (album m))); [|done]. congruence.
Qed.

(** The raw metadata goes to another file than the picture. *)
Lemma persist_meta_pic b x : (length (prefix (srv x)) <= 240)%nat ->
  mlp (persist_meta d b) (fun _ y => frame_of y = frame_of x /\ bcap (srv y) = bcap (srv x) /\ view y = view x) x.
Proof.
  intros Hp. unfold persist_meta, mlp.
  assert (length (prefix (srv x) ++ str "/np-meta.bin") = length (prefix (srv x)) + 12)%nat as Hl
    by (rewrite length_app; done).
  rewrite take_ge by lia.
  assert (prefix (srv x) ++ str "/np-meta.bin" <> art_path (prefix (srv x))) as Hne
    by (unfold art_path; by intros ?%app_inv_head).
  unfold sys_open. destruct (d_open d _ _); split_and!; try done; unfold view; st_simpl; cbn [sys_write snd files calls].
  - by rewrite !lookup_insert_ne by exact Hne.
Qed.

Lemma finish_shown mo n seen x :
  (length (prefix (srv x)) <= 240)%nat ->
  capture_of d (prefix (srv x)) mo n seen (bcap (srv x)) (p_fs (prc x)) -> n <= Z.of_nat (length seen) -> bytes_ok seen ->
  mlp (finish_body_capture d) (fun _ y => frame_of y = frame_of x /\ bcap_active (srv y) = false /\
    shown d (event mo (take (Z.to_nat n) seen)) (view x) (view y)) x.
Proof.
  intros Hp Hc Hl Hb. unfold finish_body_capture. lsteps. unfold finish, mlp at 1.
  destruct (bodycap_finish d _ _) as [[rc b] f] eqn:E. apply (finish_capture d (prefix (srv x)) Hp mo n seen) in E as [Hm Hf];
    [|done..]. lsteps. rewrite Hm. unfold event. destruct mo; rewrite ?bool_decide_true, ?bool_decide_false by done.
  - subst f. lsteps. split; [done|]. split; [done|]. constructor.
  - destruct Hf as [[-> Hf]|(-> & Hn & Hf)]; [change (0 =? 0) with true|change (-1 =? 0) with false]; cbv iota; lsteps;
      (split; [done|]; split; [done|]); apply shown_one.
    + unfold view. st_simpl. rewrite Hf. apply (shown_art d _ (view x)).
    + unfold view. st_simpl. rewrite Hf. by apply (shown_failed d _ (view x)).
  - destruct Hf as [-> [(-> & Hle & Hmem)|(-> & Hgt)]]; [change (0 =? 0) with true|change (-1 =? 0) with false]; cbv iota.
    + lsteps. eapply mlp_mono; [apply persist_meta_pic; exact Hp|]. intros [] y (Hfr & Hbc & Hv). lsteps.
      rewrite Hmem. apply mlp_lift. intros m Em. lsteps. split; [exact Hfr|]. split; [done|]. apply shown_one.
      assert (meta_ok m) as Ho.
      { pose proof (daap_parse_wp _ (bytes_ok_take _ (Z.to_nat n) Hb)) as Hw. by rewrite Em in Hw. }
      destruct (publish_texts m (p_np (prc y)) Ho) as [H1 H2].
      pose proof (shown_meta d _ (view x) Hle) as Hs. unfold meta_texts in Hs. rewrite Em in Hs.
      assert (v_art (view y) = v_art (view x) /\ v_pic (view y) = v_pic (view x)) as [Hv2 Hv3] by (by rewrite Hv).
      unfold view in *. cbn [v_art v_pic] in *. st_simpl. rewrite H1, H2, Hv2, Hv3. exact Hs.
    + lsteps. split; [done|]. split; [done|]. apply shown_one. by apply (shown_big d _ (view x)).
Qed.
Lemma feed_shown mo n seen data x : (length (prefix (srv x)) <= 240)%nat ->
  capture_of d (prefix (srv x)) mo n seen (bcap (srv x)) (p_fs (prc x)) ->
  mlp (feed d data) (fun _ y => frame_of y = frame_of x /\ bcap_active (srv y) = bcap_active (srv x) /\
    view y = view x /\ capture_of d (prefix (srv x)) mo n (seen ++ data) (bcap (srv y)) (p_fs (prc y))) x.
Proof.
  intros Hp Hc. unfold feed, mlp. destruct (bodycap_feed d _ _ _) as [[[tk b] f]| |] eqn:E; cbn [rbind]; [|done|done].
  apply (feed_capture d (prefix (srv x)) Hp mo n seen) in E as [Hc' Hpic]; [|exact Hc]. st_simpl.
  split; [done|]. split; [done|]. split; [|exact Hc']. unfold view. st_simpl. by rewrite Hpic.
Qed.

Lemma begin_shown m n already x : (length (prefix (srv x)) <= 240)%nat -> 0 <= n ->
  mlp (begin_body_capture d m n already) (fun _ y => frame_of y = frame_of x /\ bcap_active (srv y) = true /\
    view y = view x /\ capture_of d (prefix (srv x)) (body_mode m) n already (bcap (srv y)) (p_fs (prc y))) x.
Proof.
  intros Hp Hn. unfold begin_body_capture. lsteps. unfold mlp at 1.
  pose proof (begin_capture d (prefix (srv x)) Hp (body_mode m) n (p_fs (prc x)) Hn) as Hb.
  change (art_path (prefix (srv x))) with (prefix (srv x) ++ str "/np-art.jpg") in Hb.
  destruct (bodycap_begin _ _ _ _ _ _) as [b f]. destruct Hb as [Hb Hpic].
  set (z := set_prc _ _). assert (view z = view x) as Hv by (unfold z, view; st_simpl; unfold art_path; by rewrite Hpic).
  lstep. destruct already as [|c already]; cbn [length Nat.eqb].
  - lsteps. split; [done|]. split; [done|]. split; [exact Hv|exact Hb].
  - eapply mlp_mono; [apply (feed_shown (body_mode m) n [] _ z); [exact Hp|exact Hb]|]. intros [] y (H1 & _ & H3 & H4).
    lsteps. split; [exact H1|]. split; [done|]. split; [by etrans; [exact H3|]|exact H4].
Qed.

(** The body of a whole request. *)
Lemma whole_shown m x : (length (prefix (srv x)) <= 240)%nat -> msg_ok m -> bcap_active (srv x) = false ->
  mlp (match body m with
       | Some b =>
           if negb (bcap_active (srv x)) && bytes_eqb (method m) (str "SET_PARAMETER") && (0 <? body_len m) &&
              negb (bool_decide (body_mode m = BODYCAP_DISCARD))
           then let* _ := begin_body_capture d m (body_len m) b in finish_body_capture d
           else ret tt
       | None => ret tt
       end)
    (fun _ y => frame_of y = frame_of x /\ bcap_active (srv y) = false /\ shown d (whole_body m) (view x) (view y)) x.
Proof.
  intros Hp (_ & Hn & Hb) Ha. unfold whole_body. destruct (body m) as [b|]; [|lsteps; by repeat constructor].
  destruct (Hb b eq_refl) as [Hbo Hlen]. rewrite Ha. cbn [negb andb].
  case_match eqn:E; [|lsteps; by repeat constructor]. lsteps.
  eapply mlp_mono; [by apply begin_shown|]. intros [] y (H1 & _ & H3 & H4).
  assert (prefix (srv y) = prefix (srv x)) as Hpre by (by apply frame_prefix).
  eapply mlp_mono; [apply (finish_shown (body_mode m) (body_len m) b y); rewrite ?Hpre; [done|exact H4|lia|done]|].
  intros [] z (Hz1 & Hz2 & Hz3). split; [congruence|]. split; [done|].
  rewrite <- H3. unfold event in Hz3. rewrite take_ge in Hz3 by lia. apply andb_true_iff in E as [_ E].
  by rewrite bool_decide_false in Hz3 by (by apply negb_true_iff, bool_decide_eq_false in E).
Qed.

(** A request changes the display by its own body and nothing else, or the client
    is gone and the display blank. *)
Lemma handle_shown e m x : (length (prefix (srv x)) <= 240)%nat -> msg_ok m ->
  mlp (handle_msg api rsa_private d ka e m) (fun rc y =>
    (rc = 0 /\ frame_of y = frame_of x /\ bcap_active (srv y) = bcap_active (srv x) /\
       if bcap_active (srv x) then quiet x y else shown d (whole_body m) (view x) (view y)) \/
    (rc = -1 /\ blank (prefix (srv x)) y)) x.
Proof.
  intros Hp Hm. unfold handle_msg. lstep.
  eapply (mlp_mono _ (fun _ y => quiet x y)); [by case_match; lsteps|]. intros [] y Hy. lsteps.
  eapply (mlp_mono _ (fun _ z => quiet x z)).
  { destruct (dacp_headers m) as [[ar|] [id|]]; lsteps; exact Hy. }
  clear y Hy. intros [] y Hy. lstep. eapply mlp_mono; [apply bind_ports_quiet|]. intros [] z Hz.
  assert (quiet x z) as Hxz by (unfold quiet in *; congruence). clear y Hy Hz. lsteps.
  assert (frame_of z = frame_of x /\ bcap_active (srv z) = bcap_active (srv x) /\ view z = view x) as (Hf & Ha & Hv).
  { split; [by apply quiet_frame|]. split; [|by apply quiet_view]. unfold quiet, rest_of in Hxz. congruence. }
  assert (prefix (srv z) = prefix (srv x)) as Hpz by (by apply frame_prefix).
  eapply (mlp_mono _ (fun _ y => frame_of y = frame_of x /\ bcap_active (srv y) = bcap_active (srv x) /\
    if bcap_active (srv x) then quiet x y else shown d (whole_body m) (view x) (view y))).
  { destruct (bcap_active (srv x)) eqn:Ea.
    - rewrite Ha. cbn [negb andb]. destruct (body m); lsteps; by rewrite Ha.
    - rewrite <- Hv. eapply mlp_mono; [apply whole_shown; by rewrite ?Hpz|].
      intros [] y (H1 & H2 & H3). by rewrite H1. }
  clear Hxz Hf Ha Hv Hpz z. intros [] z (Hf & Ha & Hv). lsteps. apply mlp_lift. intros [[r resp] rc] _. lsteps.
  unfold send, mlp at 1. st_simpl. destruct (write_all _ _ _) as [[ok out] ws].
  match goal with |- mlp _ _ ?t => set (w := t) end.
  assert (quiet z w) as Hw by done. clearbody w.
  assert (prefix (srv w) = prefix (srv x)) as Hpw
    by (apply frame_prefix; rewrite <- Hf; by apply quiet_frame).
  destruct ok; cbn [negb].
  - eapply mlp_mono; [apply action_quiet|]. intros rc' y [[-> Hq]|[-> Hq]]; [left|right; by rewrite <- Hpw].
    assert (quiet z y) as Hzy by (unfold quiet in *; congruence). split; [done|].
    split; [by rewrite (quiet_frame _ _ Hzy)|]. split; [unfold quiet, rest_of in Hzy; congruence|].
    destruct (bcap_active (srv x)); [unfold quiet in *; congruence|by rewrite (quiet_view _ _ Hzy)].
  - lsteps. eapply mlp_mono; [apply teardown_blank|]. intros [] y Hy. lsteps. right. by rewrite <- Hpw.
Qed.
(** *** Reads *)

(** The capture in progress is of the last request. *)
Definition capture_link (x : st S) : Prop :=
  exists l m c, frames x = l ++ [(m, (c + Z.to_nat (body_len m))%nat)] /\ body m = None /\ 0 < body_len m /\
    (total l + c <= length (stream x))%nat /\
    capture_of d (prefix (srv x)) (body_mode m) (body_len m) (drop (total l + c) (stream x)) (bcap (srv x)) (p_fs (prc x)).

(** The display is what the bodies of the connection make of a blank one. *)
Definition displays (x : st S) : Prop :=
  exists pic, shown d (bodies (stream x) (frames x)) (blank_view pic) (view x).

Lemma frame_body_whole s m n buf :
  rtsp_msg_parse buf = Ret (Complete m n) -> frame_body s m n = whole_body m.
Proof.
  intros Hr. destruct (rtsp_msg_parse_ok buf) as (r & Hr' & Ho). rewrite Hr in Hr'. injection Hr' as <-.
  destruct Ho as (_ & _ & _ & Hb). unfold frame_body, whole_body. destruct (body m); [done|]. by rewrite Hb.
Qed.

Definition same_conn (x y : st S) : Prop :=
  prefix (srv y) = prefix (srv x) /\ client_fd (srv y) = client_fd (srv x) /\ stream y = stream x.

Lemma frame_conn x y : frame_of y = frame_of x -> same_conn x y /\ frames y = frames x /\ rbuf (srv y) = rbuf (srv x).
Proof. unfold frame_of, same_conn. intros E. injection E. repeat split; congruence. Qed.

Lemma same_conn_trans x y z : same_conn x y -> same_conn y z -> same_conn x z.
Proof. unfold same_conn. intuition congruence. Qed.

Lemma drain_loop_shown fuel e off x :
  (length (prefix (srv x)) <= 240)%nat -> bcap_active (srv x) = false -> bytes_ok (rbuf (srv x)) -> displays x ->
  mlp (drain_loop api rsa_private d ka fuel e off) (fun r y =>
    match r with
    | Some _ => same_conn x y /\ bcap_active (srv y) = false /\ displays y
    | None => blank (prefix (srv x)) y
    end) x.
Proof.
  revert off x. induction fuel as [|fuel IH]; intros off x Hp Ha Hb Hd; [done|]. cbn [drain_loop]. lsteps.
  case_match; [|lsteps; done]. lsteps. apply mlp_lift. intros r Hr. destruct r as [| |m n|m n]; lsteps; [done| |done|].
  { eapply mlp_mono; [apply teardown_blank|]. intros [] y Hy. lsteps. exact Hy. }
  unfold mlp at 1. lsteps. set (z := set_frames _ x).
  assert (msg_ok m) as Hm by (eapply parsed_ok; [apply bytes_ok_drop; exact Hb|by left]).
  eapply mlp_mono; [by apply (handle_shown e m z)|].
  intros rc y [(-> & Hf & Hay & Hv)|[-> Hy]]; cbn [Z.eqb negb]; [|lsteps; exact Hy].
  destruct (frame_conn z y Hf) as (Hc & Hfr & Hrb). change (same_conn x y) in Hc.
  assert (prefix (srv y) = prefix (srv x)) as Hpy by apply Hc.
  change (bcap_active (srv z)) with (bcap_active (srv x)) in Hay, Hv. rewrite Ha in Hay, Hv.
  eapply mlp_mono; [apply (IH (off + n)%nat y)|].
  - by rewrite Hpy.
  - done.
  - by rewrite Hrb.
  - destruct Hd as [pic Hd]. exists pic. destruct Hc as (_ & _ & ->). rewrite Hfr. unfold z. st_simpl.
    rewrite bodies_snoc, (frame_body_whole _ _ _ _ Hr). eapply shown_app; [exact Hd|exact Hv].
  - intros [off'|] w; [|by rewrite Hpy]. intros (H1 & H2). split; [by eapply same_conn_trans|done].
Qed.

(** A turn of the connection: it goes on, or it ends and the display is blank. *)
Definition shown_turn (x y : st S) : Prop :=
  (prefix (srv y) = prefix (srv x) /\ client_fd (srv y) = client_fd (srv x) /\ displays y /\
     (bcap_active (srv y) = true -> capture_link y)) \/
  blank (prefix (srv x)) y.

Lemma drain_shown e x :
  (length (prefix (srv x)) <= 240)%nat -> bcap_active (srv x) = false -> bytes_ok (rbuf (srv x)) -> displays x ->
  mlp (drain api rsa_private d ka e) (fun _ y => shown_turn x y) x.
Proof.
  intros Hp Ha Hb Hd. unfold drain. lsteps. eapply mlp_mono; [by apply drain_loop_shown|].
  intros [off|] y Hy; lsteps; [|by right]. left. destruct Hy as ((H1 & H2 & H3) & Hay & Hdy).
  split; [done|]. split; [done|]. split; [exact Hdy|]. st_simpl. by rewrite Hay.
Qed.

Lemma oversized_shown e x :
  (length (prefix (srv x)) <= 240)%nat -> conn x -> bcap_active (srv x) = false -> displays x ->
  mlp (frame_oversized api rsa_private d ka e) (fun rc y => (rc = 0 /\ shown_turn x y) \/ (rc = -1 /\ y = x)) x.
Proof.
  intros Hp [_ Cr _ Ct Cb _] Ha [pic Hd]. rewrite Ha in Ct. unfold frame_oversized. lsteps.
  apply mlp_lift. intros r Hr. destruct r as [| |m c|m c]; lsteps; try (by right). case_match; lsteps; [by right|].
  destruct (rtsp_msg_parse_ok (rbuf (srv x))) as (r & Hr' & Ho). rewrite Hr in Hr'. injection Hr' as <-.
  destruct Ho as (_ & [_ Hc] & Hbody & Hbl & _).
  assert (bytes_ok (rbuf (srv x))) as Hb by (rewrite Cr; by apply bytes_ok_drop).
  assert (msg_ok m) as Hm by (by eapply parsed_ok; [|right]).
  assert (length (rbuf (srv x)) = length (stream x) - total (frames x))%nat as Hlen by (by rewrite Cr, length_drop).
  eapply mlp_mono; [apply begin_shown; [done|lia]|]. intros [] y (Hf & Hay & Hv & Hcap). lsteps.
  unfold mlp at 1. lsteps. set (z := set_frames _ _).
  destruct (frame_conn x y Hf) as ((F1 & F2 & F3) & Hfr & _).
  assert (prefix (srv z) = prefix (srv x)) as Hpz by exact F1.
  assert (frames z = frames x ++ [(m, (c + Z.to_nat (body_len m))%nat)]) as Hfz by (unfold z; st_simpl; by rewrite Hfr).
  assert (stream z = stream x) as Hsz by exact F3.
  assert (displays z) as Hdz.
  { exists pic. change (view z) with (view y). rewrite Hv, Hfz, Hsz, bodies_snoc. unfold frame_body. rewrite Hbody.
    rewrite (proj2 (Nat.leb_gt _ _)), andb_false_r by (rewrite length_drop; lia). cbn [andb]. by rewrite app_nil_r. }
  assert (capture_link z) as Hl.
  { exists (frames x), m, c. split; [done|]. split; [done|]. split; [lia|]. rewrite Hpz, Hsz. split; [lia|].
    rewrite Cr, drop_drop in Hcap. exact Hcap. }
  eapply mlp_mono; [apply (handle_shown e m z); by rewrite ?Hpz|].
  intros rc w Hw. lsteps. left. split; [done|]. destruct Hw as [(-> & Hfw & Haw & Hq)|[-> Hy]]; [left|right; by rewrite <- Hpz].
  change (bcap_active (srv z)) with (bcap_active (srv y)) in Haw, Hq. rewrite Hay in Haw, Hq.
  destruct (frame_conn z w Hfw) as ((W1 & W2 & W3) & Wfr & _).
  split; [congruence|]. split; [by rewrite W2|]. split.
  - destruct Hdz as [pic' Hdz]. exists pic'. by rewrite W3, Wfr, (quiet_view _ _ Hq).
  - intros _. assert (bcap (srv w) = bcap (srv z) /\ p_fs (prc w) = p_fs (prc z)) as [E1 E2]
      by (unfold quiet, rest_of in Hq; split; congruence).
    unfold capture_link. by rewrite Wfr, W1, W3, E1, E2.
Qed.
Lemma displays_more (x y : st S) data :
  stream y = stream x ++ data -> frames y = frames x -> view y = view x -> (total (frames x) <= length (stream x))%nat ->
  displays x -> displays y.
Proof. intros Es Ef Ev Ht [pic Hd]. exists pic. by rewrite Es, Ef, Ev, bodies_app. Qed.

(** The capture in progress has not seen its whole body. *)
Lemma open_body (x : st S) l m n : frames x = l ++ [(m, n)] -> body m = None ->
  (length (stream x) < total (frames x))%nat -> (total l <= length (stream x))%nat ->
  bodies (stream x) (frames x) = bodies (stream x) l.
Proof.
  intros Ef Hb Hlt Hl. rewrite Ef, total_snoc in Hlt. cbn [snd] in Hlt.
  rewrite Ef, bodies_snoc. unfold frame_body. rewrite Hb.
  rewrite (proj2 (Nat.leb_gt _ _)), andb_false_r by (rewrite length_drop; lia). by rewrite app_nil_r.
Qed.

(** The last chunk of a body completes it; earlier ones leave everything as it is. *)
Lemma link_more (x : st S) chunk tk :
  capture_link x -> Z.of_nat (total (frames x)) = Z.of_nat (length (stream x)) + remaining (bcap (srv x)) ->
  0 < remaining (bcap (srv x)) -> tk = Nat.min (length chunk) (Z.to_nat (remaining (bcap (srv x)))) ->
  exists l m c, frames x = l ++ [(m, (c + Z.to_nat (body_len m))%nat)] /\ body m = None /\ 0 < body_len m /\
    (total l + c <= length (stream x))%nat /\
    capture_of d (prefix (srv x)) (body_mode m) (body_len m) (drop (total l + c) (stream x)) (bcap (srv x)) (p_fs (prc x)) /\
    bodies (stream x) (frames x) = bodies (stream x) l /\
    let seen := drop (total l + c) (stream x) ++ take tk chunk in
    ((tk < Z.to_nat (remaining (bcap (srv x))))%nat -> (length seen < Z.to_nat (body_len m))%nat /\
       bodies (stream x ++ chunk) (frames x) = bodies (stream x) l /\ seen = drop (total l + c) (stream x ++ chunk)) /\
    (tk = Z.to_nat (remaining (bcap (srv x))) -> length seen = Z.to_nat (body_len m) /\
       bodies (stream x ++ chunk) (frames x) = bodies (stream x) l ++ event (body_mode m) seen).
Proof.
  intros (l & m & c & Ef & Hb & Hn & Hle & Hc) Ht Hr Htk. exists l, m, c. cbv zeta.
  assert (Z.of_nat (total l + c) + body_len m = Z.of_nat (length (stream x)) + remaining (bcap (srv x))) as Hsum
    by (rewrite <- Ht, Ef, total_snoc; cbn [snd]; lia).
  repeat (split; [done|]). split; [apply (open_body x l m _ Ef Hb); lia|].
  split; intros Hx.
  - rewrite length_app, length_drop, length_take. split; [lia|]. rewrite (take_ge chunk) by lia.
    split; [|by rewrite drop_app_le by lia].
    rewrite Ef, bodies_snoc, bodies_app by lia. unfold frame_body. rewrite Hb.
    rewrite (proj2 (Nat.leb_gt _ _)), andb_false_r by (rewrite length_drop, length_app; lia). by rewrite app_nil_r.
  - rewrite length_app, length_drop, length_take. split; [lia|].
    rewrite Ef, bodies_snoc, bodies_app by lia. f_equal. unfold frame_body, event. rewrite Hb.
    rewrite (proj2 (Z.ltb_lt _ _)), (proj2 (Nat.leb_le _ _)) by (rewrite ?length_drop, ?length_app; lia).
    cbn [andb]. case_bool_decide; [done|]. cbn [negb]. do 2 f_equal.
    replace (c + Z.to_nat (body_len m) - Z.to_nat (body_len m))%nat with c by lia.
    rewrite skipn_firstn_comm, drop_drop, drop_app_le, take_app_ge by (rewrite ?length_drop; lia).
    replace (c + Z.to_nat (body_len m) - c)%nat with (Z.to_nat (body_len m)) by lia.
    do 2 f_equal. rewrite length_drop. lia.
Qed.
Lemma chunk_shown e chunk x :
  (length (prefix (srv x)) <= 240)%nat -> bcap_active (srv x) = true -> rbuf (srv x) = [] -> bytes_ok (stream x ++ chunk) ->
  Z.of_nat (total (frames x)) = Z.of_nat (length (stream x)) + remaining (bcap (srv x)) ->
  0 < remaining (bcap (srv x)) -> displays x -> capture_link x ->
  mlp (body_chunk api rsa_private d ka e (received chunk x)) (fun _ y => shown_turn x y) (received chunk x).
Proof.
  intros Hp Ha He Hb Ht Hr [pic Hd] Hl. unfold body_chunk, received. st_simpl. rewrite He. cbn [app].
  set (tk := (if (length chunk <? _)%nat then _ else _)).
  assert (tk = Nat.min (length chunk) (Z.to_nat (remaining (bcap (srv x))))) as Htk
    by (unfold tk; destruct (Nat.ltb_spec (length chunk) (Z.to_nat (remaining (bcap (srv x))))); lia).
  clearbody tk. destruct (link_more x chunk tk Hl Ht Hr Htk) as (l & m & c & Ef & Hbm & Hn & Hle & Hc & Hbo & Hlt & Heq).
  cbv zeta in Hlt, Heq. set (seen := drop (total l + c) (stream x) ++ take tk chunk) in *. lsteps.
  set (z := set_srv _ _).
  assert (view z = view x) as Hvz by done. assert (stream z = stream x ++ chunk) as Hsz by done.
  eapply mlp_mono; [apply (feed_shown (body_mode m) (body_len m) (drop (total l + c) (stream x)) (take tk chunk) z); done|].
  intros [] y (Hfy & Hay & Hvy & Hcy). destruct (frame_conn z y Hfy) as ((Y1 & Y2 & Y3) & Yfr & Yrb).
  change (prefix (srv z)) with (prefix (srv x)) in *. change (client_fd (srv z)) with (client_fd (srv x)) in *.
  change (frames z) with (frames x) in *. fold seen in Hcy. rewrite Hsz in Y3. rewrite Hvz in Hvy.
  change (bcap_active (srv z)) with (bcap_active (srv x)) in Hay.
  lsteps. set (w := set_srv _ y).
  assert (remaining (bcap (srv y)) = body_len m - Z.min (body_len m) (Z.of_nat (length seen))) as Hrem.
  { destruct Hcy as (_ & (f0 & b0 & Hcc & _) & _). by destruct Hcc as (_ & _ & _ & _ & Hcc & _). }
  unfold bodycap_done. destruct (decide (tk < Z.to_nat (remaining (bcap (srv x))))%nat) as [Hlt'|Hge].
  - destruct (Hlt Hlt') as (L1 & L2 & L3). rewrite (proj2 (Z.eqb_neq _ _)) by lia. lsteps. left.
    split; [done|]. split; [done|]. split.
    + exists pic. change (view w) with (view y). change (stream w) with (stream y). change (frames w) with (frames y).
      by rewrite Hvy, Y3, Yfr, L2, <- Hbo.
    + intros _. exists l, m, c. change (stream w) with (stream y). change (frames w) with (frames y).
      rewrite Y3, Yfr, length_app. do 3 (split; [done|]). split; [lia|]. rewrite <- L3.
      change (prefix (srv w)) with (prefix (srv y)). rewrite Y1. exact Hcy.
  - destruct (Heq ltac:(lia)) as (L1 & L2). rewrite (proj2 (Z.eqb_eq _ _)) by lia. cbn [negb]. lstep.
    assert (bytes_ok seen) as Hbs.
    { apply Forall_app in Hb as [Hb1 Hb2]. apply Forall_app. split; [by apply bytes_ok_drop|by apply bytes_ok_take]. }
    eapply mlp_mono; [apply (finish_shown (body_mode m) (body_len m) seen w)|].
    + change (prefix (srv w)) with (prefix (srv y)). by rewrite Y1.
    + change (prefix (srv w)) with (prefix (srv y)). rewrite Y1. exact Hcy.
    + lia.
    + exact Hbs.
    + intros [] v (Hfv & Hav & Hvv). destruct (frame_conn w v Hfv) as ((V1 & V2 & V3) & Vfr & Vrb).
      change (prefix (srv w)) with (prefix (srv y)) in V1. change (client_fd (srv w)) with (client_fd (srv y)) in V2.
      change (stream w) with (stream y) in V3. change (frames w) with (frames y) in Vfr.
      change (rbuf (srv w)) with (drop tk (rbuf (srv y))) in Vrb.
      eapply mlp_mono; [apply (drain_shown e v)|].
      * by rewrite V1, Y1.
      * done.
      * rewrite Vrb, Yrb. apply bytes_ok_drop. by apply Forall_app in Hb as [_ Hb].
      * exists pic. rewrite V3, Vfr, Y3, Yfr, L2. eapply shown_app; [by rewrite <- Hbo; exact Hd|].
        rewrite take_ge in Hvv by lia. change (view w) with (view y) in Hvv. by rewrite <- Hvy.
      * intros [] u [(U1 & U2 & U3 & U4)|Hu]; [left|right].
        -- split; [congruence|]. split; [congruence|]. by split.
        -- by rewrite <- Y1, <- V1.
Qed.

Lemma readable_shown `{L : !SessionLaws api} base e got x :
  (length (prefix (srv x)) <= 240)%nat -> good api base x -> conn x -> displays x ->
  (bcap_active (srv x) = true -> capture_link x) -> (forall data, got = RData data -> bytes_ok data) ->
  mlp (on_client_readable api rsa_private d ka e got) (fun _ y => shown_turn x y) x.
Proof.
  intros Hp Hg Hc Hd Hl Hgot.
  assert (mlp (teardown_client api d) (fun _ y => shown_turn x y) x) as Htd.
  { eapply mlp_mono; [apply teardown_blank|]. intros [] y Hy. by right. }
  assert (shown_turn x x) as Hx by (left; done).
  unfold on_client_readable. lsteps. case_match eqn:Hfull.
  { apply andb_true_iff in Hfull as [_ Ha]. apply negb_true_iff in Ha. lstep.
    eapply mlp_mono; [by apply oversized_shown|]. intros rc y [[-> Hy]|[-> ->]]; cbn [Z.eqb negb]; [lsteps; exact Hy|exact Htd]. }
  destruct got as [data| | |]; [|exact Htd|lsteps; exact Hx|exact Htd].
  set (chunk := take _ data). case_match; [exact Htd|].
  assert (bytes_ok chunk) as Hb by (apply bytes_ok_take; by apply Hgot).
  lsteps. unfold mlp at 1. lsteps. pose proof Hc as [Cf Cr Cc Ct Cb Ca].
  destruct (bcap_active (srv x)) eqn:Ha.
  - destruct (g_cap _ _ _ Hg Ha) as [_ Hpos].
    apply (chunk_shown e chunk x); try done.
    + by eapply active_empty.
    + by apply Forall_app.
    + by apply Hl.
  - set (z := set_srv _ _).
    eapply mlp_mono; [apply (drain_shown e z); try done|].
    + unfold z. st_simpl. apply Forall_app. split; [rewrite Cr; by apply bytes_ok_drop|done].
    + by apply (displays_more x z chunk).
    + intros [] y Hy. exact Hy.
Qed.
End Handlers.

(** ** The loop *)

Section Loop.
Context `{DataModel} {S : Type} (api : session_api S) `{L : !SessionLaws api}.
Context (base : res_t) (rsa_private : bytes -> option bytes).
Context (rsa_in_place : forall blk s, rsa_private blk = Some s -> length s = length blk /\ bytes_ok s).
Context (d : disk) `{!DiskOk d} (ka : answers) `{!KernelOk ka} (Hbase : r_sink base = false).

Definition dinv (x : st S) : Prop :=
  (0 <= client_fd (srv x) -> displays d x /\ (bcap_active (srv x) = true -> capture_link d x)) /\
  (client_fd (srv x) < 0 -> blank (prefix (srv x)) x).

Lemma blank_dinv pre (y : st S) : blank pre y -> prefix (srv y) = pre /\ dinv y.
Proof. intros Hb. pose proof Hb as (Hf & _ & Hp & _). split; [done|]. split; [lia|]. by rewrite Hp. Qed.

Lemma shown_turn_dinv x y : 0 <= client_fd (srv x) -> shown_turn d x y -> prefix (srv y) = prefix (srv x) /\ dinv y.
Proof.
  intros Hf [(H1 & H2 & H3 & H4)|Hb]; [|by apply blank_dinv]. split; [done|]. split; [done|lia].
Qed.

Lemma mlp_and {A} (m : M S A) (P Q : A -> st S -> Prop) x : mwp m P x -> mlp m Q x -> mlp m (fun a y => P a y /\ Q a y) x.
Proof. unfold mwp, mlp. by destruct (m x) as [[a y]| |]. Qed.

Lemma listen_shown c now x : dinv x ->
  mlp (on_listen_readable c now) (fun _ y => prefix (srv y) = prefix (srv x) /\ dinv y) x.
Proof.
  intros [Hc Hb]. destruct c as [[fd ip]|]; unfold on_listen_readable; lsteps; [|done].
  destruct (Z.leb_spec 0 (client_fd (srv x))) as [Hcl|Hcl]; lsteps; [split; [done|]; by split|].
  unfold mlp at 1. lsteps. split; [done|]. destruct (Hb Hcl) as (_ & B1 & _ & B3 & B4). split; st_simpl.
  - intros _. rewrite B1. split; [|done]. exists (v_pic (view x)). unfold view, blank_view. st_simpl.
    rewrite B3, B4. constructor.
  - intros Hfd. by repeat split.
Qed.

Lemma turn_shown ticks e p x : (length (prefix (srv x)) <= 240)%nat -> sinv api base x -> poll_ok x p -> dinv x ->
  mlp (loop_turn api rsa_private d ka ticks e p) (fun _ y => prefix (srv y) = prefix (srv x) /\ dinv y) x.
Proof.
  intros Hp Hs [Hacc Hdata] Hd. assert (prefix (srv x) = prefix (srv x) /\ dinv x) as Hx by (split; [done|exact Hd]).
  unfold loop_turn. lsteps. lif; [lsteps; exact Hx|]. lif.
  { lstep. eapply mlp_mono; [apply teardown_blank|]. intros [] y Hy. lsteps. by apply blank_dinv. }
  lif; [lsteps; exact Hx|]. lstep.
  eapply (mlp_mono _ (fun _ y => sinv api base y /\ prefix (srv y) = prefix (srv x) /\ dinv y)).
  { destruct (pe_accept p) as [[c now]|]; [|lsteps; by split]. destruct Hacc. apply mlp_and; [|by apply listen_shown].
    by apply (listen_spec api base rsa_private rsa_in_place d ka Hbase). }
  intros [] y ((Hg & Hc & Hi) & Hpy & Hdy). lsteps.
  destruct (pe_client p) as [got|]; [|lsteps; by split].
  destruct ((0 <=? client_fd (srv x)) && (0 <=? client_fd (srv y))) eqn:E; [|lsteps; by split].
  apply andb_true_iff in E as [_ E]. apply Z.leb_le in E. destruct (Hc E) as [Hcy _].
  destruct (proj1 Hdy E) as [D1 D2].
  eapply mlp_mono; [apply (readable_shown api rsa_private d ka base e got y); try done|].
  - by rewrite Hpy.
  - intros data ->. by apply Hdata.
  - intros [] z Hz. lsteps. rewrite <- Hpy. by apply (shown_turn_dinv y).
Qed.

(** *** What the operations on the captures and the display preserve *)

(** A property of the now-playing state, the capture and the state directory. *)
Class Preserved (Q : np_snapshot_t -> bodycap_t -> bytes -> Prop) : Prop := {
  pr_np n b p o : Q n b p -> Q (np_do n o) b p;
  pr_begin n b p mo k path cap f : 0 <= k <= LONG_MAX -> (cap <= METABUF_CAP)%nat -> Q n b p ->
    Q n (bodycap_begin d mo k path cap f).1 p;
  pr_feed n b p data f r : bodycap_feed d b data f = Ret r -> Q n b p -> Q n r.1.2 p;
  pr_finish n b p f : Q n b p -> Q n (bodycap_finish d b f).1.2 p;
}.

Section Stable.
Context (Q : np_snapshot_t -> bodycap_t -> bytes -> Prop) `{!Preserved Q}.

Definition at_state (x : st S) : Prop := Q (p_np (prc x)) (bcap (srv x)) (prefix (srv x)).
Definition stable {A} (m : M S A) : Prop := forall x, at_state x -> mlp m (fun _ y => at_state y) x.

Lemma stable_bind {A B} (m : M S A) (f : A -> M S B) : stable m -> (forall a, stable (f a)) -> stable (bind m f).
Proof. intros Hm Hf x Hx. apply mlp_bind. eapply mlp_mono; [by apply Hm|]. intros a y Hy. by apply Hf. Qed.

Lemma stable_lift {A B} (r : run A) (f : A -> M S B) : (forall a, r = Ret a -> stable (f a)) -> stable (bind (lift r) f).
Proof. intros Hf x Hx. apply mlp_bind, mlp_lift. intros a Ha. by apply Hf. Qed.

(** A handler all of whose primitive steps are stable. *)
Ltac keep :=
  repeat lazymatch goal with
    | |- stable (bind (lift _) _) => apply stable_lift; intros ? ?
    | |- stable (bind _ _) => apply stable_bind; [|intros ?]
    | |- stable (match ?o with _ => _ end) => destruct o
    | |- stable (on_srv _) => intros ? ?; done
    | |- stable (on_prc _) => intros ? ?; done
    | |- stable (ret _) => intros ? ?; done
    | |- stable (ask _) => intros ? ?; done
    | |- stable (np _) => intros ? ?; by apply pr_np
    | |- stable nprender_wake => intros ? ?; done
    | |- stable (dacp _) => intros ? ?; done
    | |- stable (with_kernel _) => intros ? ?; done
    end.

Lemma stable_feed b : stable (feed d b).
Proof.
  intros x Hx. unfold feed, mlp. destruct (bodycap_feed d _ _ _) as [[[tk c] f]| |] eqn:E; [|done|done].
  exact (pr_feed _ _ _ _ _ _ E Hx).
Qed.

Lemma stable_finish : stable (finish d).
Proof.
  intros x Hx. unfold finish, mlp. pose proof (pr_finish _ _ _ (p_fs (prc x)) Hx) as Hf.
  destruct (bodycap_finish _ _ _) as [[rc b] f]. exact Hf.
Qed.

Lemma stable_close : stable srv_close_socks.
Proof. intros x Hx. unfold srv_close_socks, mlp. by destruct (rtp_close _ _). Qed.

Lemma stable_teardown : stable (teardown_client api d).
Proof.
  unfold teardown_client. keep; try apply stable_finish; try apply stable_close.
  intros x Hx. unfold end_session, on_prc, mlp. by destruct (api_stop _ _ _).
Qed.

Lemma stable_finish_capture : stable (finish_body_capture d).
Proof.
  unfold finish_body_capture. keep; try apply stable_finish.
  intros x Hx. unfold persist_meta, mlp. by destruct (sys_open _ _ _).
Qed.

Lemma stable_begin m n b : 0 <= n <= LONG_MAX -> stable (begin_body_capture d m n b).
Proof.
  intros Hn. unfold begin_body_capture. keep; [|apply stable_feed].
  intros x Hx. unfold mlp.
  match goal with |- context [bodycap_begin d ?mo n ?path ?cap ?f] =>
    pose proof (pr_begin _ _ _ mo n path cap f Hn ltac:(destruct mo; unfold METABUF_CAP; lia) Hx) as Hb;
    destruct (bodycap_begin d mo n path cap f) end.
  exact Hb.
Qed.

Lemma stable_play e : stable (start_play api e).
Proof.
  unfold start_play, probe. keep; try apply stable_close; try (intros x Hx; done).
  - intros x Hx. unfold mlp. by destruct (api_create _ _ _ _ _).
  - intros x Hx. unfold mlp. by destruct (api_start _ _ _ _ _ _ _ _ _ _) as [[[rc s1] r2]| |].
Qed.

Lemma stable_handle e m : 0 <= body_len m <= LONG_MAX -> stable (handle_msg api rsa_private d ka e m).
Proof.
  intros Hn. unfold handle_msg, bind_ports, do_rtsp_action.
  keep; try (by apply stable_begin); try apply stable_finish_capture; try apply stable_teardown; try apply stable_play;
    try (intros x Hx; done).
  - intros x Hx. unfold srv_open_socks, mlp. by destruct (rtp_open _ _ _) as [[rc sk] k].
  - intros x Hx. unfold send, mlp. destruct (write_all _ _ _) as [[ok out] ws]. by destruct ok.
Qed.

Lemma parsed_length buf m n :
  rtsp_msg_parse buf = Ret (Complete m n) \/ rtsp_msg_parse buf = Ret (Partial m n) -> 0 <= body_len m <= LONG_MAX.
Proof.
  intros Hp. destruct (rtsp_msg_parse_ok buf) as (r & Hr & Ho). pose proof (parse_body_len _ _ Hr) as Hl.
  destruct Hp as [Hp|Hp]; rewrite Hp in Hr; injection Hr as <-; cbn [result_ok] in Ho; lia.
Qed.

Lemma stable_drain e : stable (drain api rsa_private d ka e).
Proof.
  assert (forall fuel off, stable (drain_loop api rsa_private d ka fuel e off)) as Hl.
  { induction fuel as [|fuel IH]; intros off; [done|]. cbn [drain_loop].
    keep; try apply stable_teardown; try (apply stable_handle; by eapply parsed_length; left); try apply IH.
    intros x Hx; done. }
  unfold drain. keep. apply Hl.
Qed.

Lemma stable_turn ticks e p : stable (loop_turn api rsa_private d ka ticks e p).
Proof.
  unfold loop_turn, on_listen_readable, on_client_readable, frame_oversized.
  keep; try apply stable_teardown; try (apply stable_handle; by eapply parsed_length; right); try apply stable_drain;
    try (apply stable_begin; by eapply parsed_length; right); try apply stable_finish_capture; try apply stable_feed;
    intros x Hx; done.
Qed.

Lemma served_stable x :
  served api base rsa_private d ka x ->
  (forall pre, (length pre <= 255)%nat -> Forall (fun c => c <> 0) pre -> Q np_init (mk_cap BODYCAP_DISCARD 0 false false [] [] [] 0) pre) -> at_state x.
Proof.
  intros Hs H0. induction Hs as [lfd iface pre i m f Hi Hm Hst|x ws ticks e p b y Hs IH Hp Ht|x s s' _ IH Hs He|x g port _ IH].
  - apply H0; [change (length (take 255 pre) <= 255)%nat; rewrite length_take; lia|].
    destruct Hst as (_ & _ & _ & _ & Hst). by apply Forall_take.
  - pose proof (stable_turn ticks e p (set_writes ws x) IH) as Hk. unfold mlp in Hk. by rewrite Ht in Hk.
  - exact IH.
  - exact IH.
Qed.
End Stable.

(** The state directory never changes. *)
Lemma turn_prefix ticks e p x b y :
  loop_turn api rsa_private d ka ticks e p x = Ret (b, y) -> prefix (srv y) = prefix (srv x).
Proof.
  intros Ht. assert (Preserved (fun _ _ q => q = prefix (srv x))) by (by constructor).
  pose proof (stable_turn (fun _ _ q => q = prefix (srv x)) ticks e p x eq_refl) as Hk. unfold mlp in Hk. by rewrite Ht in Hk.
Qed.

Lemma served_dinv x : served api base rsa_private d ka x -> (length (prefix (srv x)) <= 240)%nat -> dinv x.
Proof.
  induction 1 as [lfd iface pre i m f Hi Hm|x ws ticks e p b y Hs IH Hp Ht|x s s' _ IH Hs He|x g port _ IH]; intros Hl.
  - split; [done|]. intros _. by repeat split.
  - pose proof (turn_prefix _ _ _ _ _ _ Ht) as Hk. change (prefix (srv (set_writes ws x))) with (prefix (srv x)) in Hk.
    rewrite Hk in Hl.
    pose proof (turn_shown ticks e p (set_writes ws x) Hl
      (set_writes_sinv _ _ ws x (served_sinv _ _ _ rsa_in_place _ _ Hbase x Hs)) Hp (IH Hl)) as Hx.
    unfold mlp in Hx. rewrite Ht in Hx. apply Hx.
  - exact (IH Hl).
  - exact (IH Hl).
Qed.
(** C11: the display shows what the connected sender sent, however the network cut it.
    The bodies of a connection are a function of the bytes received.  The texts on
    display are those of its last complete metadata of at most 16384 bytes, and empty
    if there was none, whatever the disk does.  When the state says that there is a
    picture, the art file holds, byte for byte, the whole body of one of the sender's
    pictures, also when a body was larger than the read buffer; and if the disk does
    not fail, it says so exactly when the sender has sent a picture, and the picture is
    the last one.  Without a sender nothing is on display. *)
Theorem server_display_current x :
  served api base rsa_private d ka x -> (length (prefix (srv x)) <= 240)%nat ->
  let bs := bodies (stream x) (frames x) in
  let pic := files (p_fs (prc x)) !! art_path (prefix (srv x)) in
  (0 <= client_fd (srv x) ->
    np_texts (p_np (prc x)) = from_option meta_texts ([], [], []) (last_body is_meta bs) /\
    (have_art (p_np (prc x)) = true -> exists b, In (BODYCAP_FILE, b) bs /\ pic = Some b) /\
    (perfect d -> (have_art (p_np (prc x)) = true <-> last_body is_art bs <> None) /\
       (have_art (p_np (prc x)) = true -> pic = last_body is_art bs))) /\
  (client_fd (srv x) < 0 -> np_texts (p_np (prc x)) = ([], [], []) /\ have_art (p_np (prc x)) = false).
Proof.
  intros Hs Hp. cbv zeta. destruct (served_dinv x Hs Hp) as [Hc Hb]. split.
  - intros Hf. destruct (proj1 (Hc Hf)) as [pic Hd]. split; [exact (shown_texts d _ pic (view x) Hd)|].
    destruct (shown_picture d _ pic (view x) Hd) as (H1 & _ & H3). split; [exact H1|exact H3].
  - intros Hf. destruct (Hb Hf) as (_ & _ & _ & H1 & H2). by split.
Qed.
End Loop.

(** ** A sender sends a picture, in two pieces *)

Definition sample_picture : bytes := [255; 216; 0; 13; 10].

Definition sample_put : bytes :=
  str "SET_PARAMETER * RTSP/1.0" ++ [13; 10] ++ str "CSeq: 5" ++ [13; 10] ++ str "Content-Type: image/jpeg" ++ [13; 10]
    ++ str "Content-Length: 5" ++ [13; 10; 13; 10] ++ sample_picture.

Definition sample_piece (data : bytes) : poll_ev := mk_poll 1 false 30 None (Some (RData data)).
Definition sample_half : st (session_t unit) := sample_turn [] (sample_piece (take 84 sample_put)) sample_accepted.
Definition sample_put_done : st (session_t unit) := sample_turn [Some 4096] (sample_piece (drop 84 sample_put)) sample_half.

Lemma sample_half_served : sample_served sample_half.
Proof.
  eapply (served_turn _ _ _ _ _ _ [] 1000 sample_envs (sample_piece (take 84 sample_put)) true);
    [exact sample_accepted_served| |by vm_compute].
  split; [done|]. intros data [= <-]. by apply bytes_okb_ok.
Qed.

Lemma sample_put_served : sample_served sample_put_done.
Proof.
  eapply (served_turn _ _ _ _ _ _ [Some 4096] 1000 sample_envs (sample_piece (drop 84 sample_put)) true);
    [exact sample_half_served| |by vm_compute].
  split; [done|]. intros data [= <-]. by apply bytes_okb_ok.
Qed.

Lemma slow_disk_perfect : perfect slow_disk.
Proof. split; [done|]. split; [cbn; lia|done]. Qed.

Lemma server_display_current_witness :
  have_art (p_np (prc sample_put_done)) = true /\
  files (p_fs (prc sample_put_done)) !! str "/p/np-art.jpg" = Some sample_picture.
Proof.
  destruct (server_display_current sample_ops sample_res no_rsa no_rsa_in_place slow_disk (DiskOk0 := slow_disk_ok)
    sample_kernel (KernelOk0 := sample_kernel_ok) eq_refl sample_put_done sample_put_served
    ltac:(by apply (bool_decide_unpack _); vm_compute)) as [Hc _].
  destruct (Hc ltac:(by vm_compute)) as (_ & _ & Hp). destruct (Hp slow_disk_perfect) as [H1 H2].
  assert (have_art (p_np (prc sample_put_done)) = true) as Ha by (apply H1; by vm_compute).
  split; [exact Ha|]. exact (eq_trans (H2 Ha) ltac:(by vm_compute)).
Defined.
