(* ===== verification/Screen.v ===== *)
(** * From the sender's bodies to the screen ([src/main.c], [src/nprender.c])

    The server publishes what a sender sends and the display worker renders it.  The
    two share the now-playing state and the state directory; here a render by
    [do_render] of the state the server has published is read against the bytes the
    sender sent, and the worker is run with the server, in any interleaving. *)
From Stdlib Require Import ZArith Lia String.
From stdpp Require Import base numbers list gmap.
From S2P Require Import Prelude Rtp Sdp RtspMsg Rtsp Bodycap Daap Npstate DacpState Nprender AlacShim Session ServerState Server ServerInv ServerFrame ServerProps ServerDisplay.

Local Open Scope Z_scope.

(** The state files of a prefix. *)
Definition state_file (pre : bytes) (n : string) : bytes := pre ++ [47] ++ str n.

Lemma state_file_inj pre n m : state_file pre n = state_file pre m -> str n = str m.
Proof. unfold state_file. intros E. by simplify_list_eq. Qed.

Lemma art_path_file pre : art_path pre = state_file pre "np-art.jpg".
Proof. done. Qed.

Section Screen.
Context `{DataModel} {S : Type} (api : session_api S) `{L : !SessionLaws api}.
Context (base : res_t) (rsa_private : bytes -> option bytes).
Context (rsa_in_place : forall blk s, rsa_private blk = Some s -> length s = length blk /\ bytes_ok s).
Context (d : disk) `{!DiskOk d} (ka : answers) `{!KernelOk ka} (Hbase : r_sink base = false).

(** Three different files are written, and not the picture. *)
Lemma rendered_files (pre t a l : bytes) (m : gmap bytes bytes) :
  let m' := <[state_file pre "np-album.txt" := l]> (<[state_file pre "np-artist.txt" := a]> (<[state_file pre "np-title.txt" := t]> m)) in
  m' !! state_file pre "np-title.txt" = Some t /\ m' !! state_file pre "np-artist.txt" = Some a /\
  m' !! state_file pre "np-album.txt" = Some l /\ m' !! art_path pre = m !! art_path pre.
Proof.
  cbn zeta. rewrite art_path_file.
  assert (forall n1 n2, str n1 <> str n2 -> state_file pre n1 <> state_file pre n2) as Hne.
  { intros n1 n2 Hn E. by apply state_file_inj in E. }
  split_and!.
  - rewrite !lookup_insert_ne by (by apply Hne). by rewrite lookup_insert_eq.
  - rewrite lookup_insert_ne by (by apply Hne). by rewrite lookup_insert_eq.
  - by rewrite lookup_insert_eq.
  - by rewrite !lookup_insert_ne by (by apply Hne).
Qed.

(** C15: the screen shows what the connected sender sent.  When the worker renders the
    state the server has published: the three text files hold the title, artist and
    album of the sender's last complete metadata that fitted the buffer, each cut to
    one clean line; the renderer's arguments are those files' paths and nothing a
    sender wrote; it is handed a picture only if the sender has sent one on this
    connection, and then the art file, after the texts are written, is byte for byte
    the whole body of one of its pictures; and on a disk that does not fail that is the
    last one, and the renderer is handed it whenever the current track has a picture,
    one that came after the last metadata. *)
Theorem screen_shows_sender x v mode f argv sig f' :
  served api base rsa_private d ka x -> (length (prefix (srv x)) <= 240)%nat -> 0 <= client_fd (srv x) ->
  takes_all d -> files f !! art_path (prefix (srv x)) = files (p_fs (prc x)) !! art_path (prefix (srv x)) ->
  do_render d v (g_prefix_of (Some (prefix (srv x)))) mode (p_np (prc x)) f = (0, Some argv, sig, f') ->
  let pre := prefix (srv x) in
  let bs := bodies (stream x) (frames x) in
  let '(title, artist, album) := from_option meta_texts ([], [], []) (last_body is_meta bs) in
  files f' !! state_file pre "np-title.txt" = Some (display_line title) /\
  files f' !! state_file pre "np-artist.txt" = Some (display_line artist) /\
  files f' !! state_file pre "np-album.txt" = Some (display_line album) /\
  exists art, argv = [renderer_of (v_bin v); mode; art; state_file pre "np-title.txt"; state_file pre "np-artist.txt";
                      state_file pre "np-album.txt"] /\
    (art = [] /\ (perfect d -> last_body is_art (since is_meta bs) = None) \/
     art = art_path pre /\ exists b, files f' !! art = Some b /\ In (BODYCAP_FILE, b) bs /\
       (perfect d -> last_body is_art bs = Some b)).
Proof.
  intros Hs Hl Hfd Hd Hf Hr. cbn zeta.
  destruct (served_dinv api base rsa_private rsa_in_place d ka Hbase x Hs Hl) as [Hc _].
  destruct (proj1 (Hc Hfd)) as [pic0 Hsh]. pose proof (shown_texts d _ pic0 (view x) Hsh) as Ht.
  destruct (shown_picture d _ pic0 (view x) Hsh) as (Ha & _ & Hp). cbn [view v_texts v_art v_pic] in Ht, Ha, Hp.
  assert (g_prefix_of (Some (prefix (srv x))) = prefix (srv x)) as Eg by (apply take_ge; lia). rewrite Eg in Hr.
  apply do_render_files in Hr as (-> & Ef & _); [|done|lia].
  rewrite <- Ht. unfold np_texts.
  destruct (rendered_files (prefix (srv x)) (display_line (np_title (p_np (prc x)))) (display_line (np_artist (p_np (prc x))))
    (display_line (np_album (p_np (prc x)))) (files f)) as (F1 & F2 & F3 & F4). cbn zeta in *.
  change (files f' = <[state_file (prefix (srv x)) "np-album.txt" := display_line (np_album (p_np (prc x)))]>
    (<[state_file (prefix (srv x)) "np-artist.txt" := display_line (np_artist (p_np (prc x)))]>
      (<[state_file (prefix (srv x)) "np-title.txt" := display_line (np_title (p_np (prc x)))]> (files f)))) in Ef.
  rewrite Ef. do 3 (split; [done|]). eexists. split; [reflexivity|].
  destruct (have_art (p_np (prc x))).
  - right. split; [done|]. destruct (Ha eq_refl) as (b & Hin & Hb). exists b. split; [|split; [exact Hin|]].
    + etrans; [exact F4|]. etrans; [exact Hf|exact Hb].
    + intros Hpf. destruct (Hp Hpf) as [_ Hlast]. by rewrite <- (Hlast eq_refl).
  - left. split; [done|]. intros Hpf. destruct (Hp Hpf) as [Hi _]. apply last_body_since.
    destruct (last_body is_art _) eqn:E; [|done]. exfalso. by assert (false = true) by by apply Hi.
Qed.
(** *** The worker follows the server *)

(** What the screen should show: the texts of the connected sender's last metadata,
    in the layout of a session if there is one, and nothing without a sender. *)
Definition current (x : st S) (snap : np_snapshot_t) : Prop :=
  snap = p_np (prc x) /\ playing snap = has_session (srv x) /\
  np_texts snap = if 0 <=? client_fd (srv x)
    then from_option meta_texts ([], [], []) (last_body is_meta (bodies (stream x) (frames x))) else ([], [], []).

Lemma published_current x : served api base rsa_private d ka x -> (length (prefix (srv x)) <= 240)%nat ->
  current x (p_np (prc x)).
Proof.
  intros Hs Hl. split; [done|].
  destruct (served_sinv api base rsa_private rsa_in_place d ka Hbase x Hs) as (Hg & _). split; [apply (g_play _ _ _ Hg)|].
  destruct (served_dinv api base rsa_private rsa_in_place d ka Hbase x Hs Hl) as [Hc Hb].
  destruct (Z.leb_spec 0 (client_fd (srv x))) as [Hf|Hf].
  - destruct (proj1 (Hc Hf)) as [pic0 Hsh]. exact (shown_texts d _ pic0 (view x) Hsh).
  - by destruct (Hb Hf) as (_ & _ & _ & H1 & _).
Qed.

(** C13: the screen catches up with the sender.  Let the display worker run with the
    server in any interleaving in which the server's changes and wakes are those it
    makes, in its order, fewer changes than the counters hold.  Whenever the server
    is between two turns, no change is left unannounced; and whatever the worker was
    doing, at most seven steps of its own take it to a wait in which the snapshot
    last rendered is the state now: the texts of the connected sender's last
    metadata, in the session's layout if there is a session; unless it waits
    already, its last render having failed. *)
Theorem screen_catches_up x l st :
  served api base rsa_private d ka x -> (length (prefix (srv x)) <= 240)%nat ->
  omap published l = p_display (prc x) -> Z.of_nat (length (p_display (prc x))) < 2 ^ long_bits ->
  rrun (r_init true) l = Some st -> r_running st = true ->
  r_np st = p_np (prc x) /\ r_unwoken st = false /\
  ((r_pc st = PWait /\ r_dirty st = false /\ r_failed st = true) \/
   exists own st' snap, Forall own_step own /\ (length own <= 7)%nat /\ rrun st own = Some st' /\
     r_pc st' = PWait /\ r_shown st' = Some snap /\ current x snap).
Proof.
  intros Hs Hl Hp Hn Hr Hrun. destruct (served_sinv api base rsa_private rsa_in_place d ka Hbase x Hs) as (Hg & _).
  destruct (c_disp _ _ _ (g_core _ _ _ Hg)) as [Enp Elast].
  destruct (rrun_published _ _ _ Hr) as (P1 & P2 & P3). cbn zeta in *. rewrite Hp in *. cbn [r_init r_np r_ops r_unwoken] in *.
  assert (r_np st = p_np (prc x)) as E1 by congruence. assert (r_unwoken st = false) as E2.
  { rewrite P3. destruct (last (p_display (prc x))) as [[o|]|]; [done|done|done]. }
  assert (Z.of_nat (r_ops st) < 2 ^ long_bits) as Hops.
  { rewrite P2. pose proof (changes_length (p_display (prc x))). lia. }
  split; [done|]. split; [done|]. destruct (worker_settles st Hrun) as [?|(own & st' & H1 & H2 & H3 & H4 & H5 & H6)].
  { by apply (rrun_done (r_init true) l). }
  { by left. }
  right. exists own, st', (p_np (prc x)). do 4 (split; [done|]). split; [|by apply published_current].
  destruct (rrun_published _ _ _ H3) as (Q1 & Q2 & Q3). cbn zeta in *. rewrite (own_published own H1) in *. cbn in Q1, Q2, Q3.
  assert (rrun (r_init true) (l ++ own) = Some st') as Hr' by (by rewrite (rrun_app _ _ _ _ Hr)).
  rewrite (waits_shown true _ _ Hr'); [by rewrite Q1, E1|by rewrite Q2, Nat.add_0_r|done|congruence|done|done|by left].
Qed.
End Screen.

(** ** A sender sends a picture and metadata *)

Definition screen_turn (p : poll_ev) (x : st (session_t unit)) : st (session_t unit) :=
  match @loop_turn ilp32 _ sample_ops no_rsa whole_disk sample_kernel 1000 sample_envs p (set_writes [Some 4096; Some 4096] x) with
  | Ret (_, y) => y
  | _ => x
  end.

Definition sample_tags : bytes :=
  encode_all [Node (str "mlit") [Leaf (str "minm") (str "Song"); Leaf (str "asar") (str "A" ++ [10] ++ str "B")]].

Definition sample_bodies : bytes :=
  sample_put ++ str "SET_PARAMETER * RTSP/1.0" ++ [13; 10] ++ str "CSeq: 6" ++ [13; 10] ++
    str "Content-Type: application/x-dmap-tagged" ++ [13; 10] ++
    str "Content-Length: " ++ print_d (Z.of_nat (length sample_tags)) ++ [13; 10; 13; 10] ++ sample_tags.

Definition screen_start : st (session_t unit) :=
  mk_st (server_init 3 9 (str "/p") [10; 0; 0; 2] [1; 2; 3; 4; 5; 6]) (proc_init (mk_fs ∅ 0) sample_res) [] [] [].
Definition screen_accepted : st (session_t unit) := screen_turn sample_accept screen_start.
Definition screen_sent : st (session_t unit) := screen_turn (sample_piece sample_bodies) screen_accepted.

Abbreviation screen_served := (@served ilp32 (session_t unit) sample_ops _ sample_res no_rsa whole_disk sample_kernel).

Lemma whole_disk_ok : DiskOk whole_disk.
Proof. intros f n. cbn. lia. Qed.

Lemma whole_disk_perfect : perfect whole_disk.
Proof. done. Qed.

Lemma screen_start_served : screen_served screen_start.
Proof. apply served_start; [done..|exact sample_start_ok]. Qed.

Lemma screen_accepted_served : screen_served screen_accepted.
Proof.
  eapply (served_turn _ _ _ _ _ _ [Some 4096; Some 4096] 1000 sample_envs sample_accept true); [exact screen_start_served| |].
  - apply sample_accept_ok. by apply (bool_decide_unpack _).
  - by vm_compute.
Qed.

Lemma screen_sent_served : screen_served screen_sent.
Proof.
  eapply (served_turn _ _ _ _ _ _ [Some 4096; Some 4096] 1000 sample_envs (sample_piece sample_bodies) true);
    [exact screen_accepted_served| |by vm_compute].
  split; [done|]. intros data [= <-]. by apply bytes_okb_ok.
Qed.

Definition screen_render : Z * option (list bytes) * list reap_op * fs :=
  do_render whole_disk sample_render (str "/p") (str "flash") (p_np (prc screen_sent)) (p_fs (prc screen_sent)).

Lemma screen_shows_sender_witness :
  exists argv sig f', screen_render = (0, Some argv, sig, f') /\
    files f' !! str "/p/np-title.txt" = Some (str "Song" ++ [10]) /\
    files f' !! str "/p/np-artist.txt" = Some (str "A B" ++ [10]) /\
    argv !! 2%nat = Some (str "/p/np-art.jpg") /\ files f' !! str "/p/np-art.jpg" = Some sample_picture.
Proof.
  destruct screen_render as [[[rc argv] sig] f'] eqn:E.
  assert (screen_render.1.1.1 = 0 /\ screen_render.1.1.2 <> None) as [H0 Ha] by (by vm_compute).
  rewrite E in H0, Ha. cbn [fst snd] in H0, Ha. subst rc. destruct argv as [l|]; [|done].
  exists l, sig, f'. split; [done|].
  pose proof (screen_shows_sender sample_ops sample_res no_rsa no_rsa_in_place whole_disk (DiskOk0 := whole_disk_ok)
    sample_kernel (KernelOk0 := sample_kernel_ok) eq_refl screen_sent sample_render (str "flash") (p_fs (prc screen_sent))
    l sig f' screen_sent_served ltac:(apply (bool_decide_unpack _); by vm_compute) ltac:(by vm_compute) ltac:(done) eq_refl E) as Hs.
  cbn zeta in Hs.
  assert (from_option meta_texts ([], [], []) (last_body is_meta (bodies (stream screen_sent) (frames screen_sent))) =
    (str "Song", str "A" ++ [10] ++ str "B", [])) as Em by by vm_compute.
  assert (last_body is_art (bodies (stream screen_sent) (frames screen_sent)) = Some sample_picture) as Ep by by vm_compute.
  assert (prefix (srv screen_sent) = str "/p") as Er by by vm_compute.
  rewrite Em, Ep, Er in Hs. destruct Hs as (F1 & F2 & _ & art & -> & Hart).
  split; [exact F1|]. split; [exact F2|].
  assert (art = str "/p/np-art.jpg") as Hgiven.
  { assert (screen_render.1.1.2 = Some [renderer_of (v_bin sample_render); str "flash"; str "/p/np-art.jpg";
      state_file (str "/p") "np-title.txt"; state_file (str "/p") "np-artist.txt"; state_file (str "/p") "np-album.txt"])
      as Hv by (vm_compute; reflexivity). rewrite E in Hv. injection Hv. auto. }
  destruct Hart as [[Hno _]|(-> & b & Hb & _ & Hlast)]; [rewrite Hno in Hgiven; discriminate Hgiven|].
  split; [reflexivity|]. pose proof (Hlast whole_disk_perfect) as Hl.
  assert (b = sample_picture) as -> by congruence. exact Hb.
Defined.

(** The comment at the choice of the art path means a track without a picture to be drawn
    without one.  Metadata does not clear the flag: here no picture has come since the
    last metadata, and the renderer is handed the one before it. *)
Lemma stale_picture_drawn :
  last_body is_art (since is_meta (bodies (stream screen_sent) (frames screen_sent))) = None /\
  (fun argv => argv !! 2%nat) <$> screen_render.1.1.2 = Some (Some (str "/p/np-art.jpg")).
Proof. split; by vm_compute. Qed.

(** The worker starts its splash, then takes its snapshot between the picture's
    change and its wake. *)
Definition screen_schedule : list raction :=
  let calls := map (fun o => match o with Some o => APublish o | None => AWake end) (p_display (prc screen_sent)) in
  [ABegin] ++ take 1 calls ++ [AClear; AGet] ++ drop 1 calls.

Lemma screen_catches_up_witness :
  exists st, rrun (DM := ilp32) (r_init (DM := ilp32) true) screen_schedule = Some st /\ r_ops st = 2%nat /\
    r_pc st <> PWait /\
    exists own st' snap, Forall own_step own /\ rrun (DM := ilp32) st own = Some st' /\ r_shown st' = Some snap /\
      np_texts snap = (str "Song", str "A" ++ [10] ++ str "B", []).
Proof.
  destruct (rrun (DM := ilp32) (r_init (DM := ilp32) true) screen_schedule) as [st|] eqn:E; [|exfalso; vm_compute in E; discriminate E].
  assert ((fun st => (r_ops st, r_running st, match r_pc st with PWait => true | _ => false end)) <$>
    rrun (DM := ilp32) (r_init (DM := ilp32) true) screen_schedule = Some (2%nat, true, false)) as H by (vm_compute; reflexivity).
  rewrite E in H. injection H as H1 H2 H3. exists st. split; [reflexivity|]. split; [exact H1|].
  assert (r_pc st <> PWait) as H4 by (intros Hw; rewrite Hw in H3; discriminate H3). split; [exact H4|].
  destruct (screen_catches_up sample_ops sample_res no_rsa no_rsa_in_place whole_disk (DiskOk0 := whole_disk_ok)
    sample_kernel (KernelOk0 := sample_kernel_ok) eq_refl screen_sent screen_schedule st screen_sent_served
    ltac:(apply (bool_decide_unpack _); by vm_compute) ltac:(vm_compute; reflexivity) ltac:(vm_compute; reflexivity) E H2)
    as (_ & _ & [[Hw _]|(own & st' & snap & O1 & _ & O2 & _ & O3 & _ & _ & O4)]); [contradiction (H4 Hw)|].
  exists own, st', snap. split; [exact O1|]. split; [exact O2|]. split; [exact O3|]. rewrite O4. vm_compute. reflexivity.
Defined.
