(* ===== verification/ServerTypes.v ===== *)
(** * The types of the server's state

    Every field of the server and of the state it shares stays within its C type:
    integers in their ranges, strings within their arrays.  The model's integers
    are unbounded, so this is what makes its arithmetic that of the program. *)
From Stdlib Require Import ZArith Lia String.
From stdpp Require Import base numbers list gmap.
From S2P Require Import Prelude Rtp Sdp RtspMsg Rtsp Bodycap Daap Npstate DacpState Dacp AlacShim Session Wakelock ServerState Server ServerInv ServerFrame ServerProps ServerDisplay.

Local Open Scope Z_scope.

Section Types.
Context `{DataModel}.

(** A C string in an array of [n] bytes. *)
Definition c_string (n : nat) (s : bytes) : Prop := (length s < n)%nat /\ Forall (fun c => c <> 0) s.
Definition unsigned_long (z : Z) : Prop := 0 <= z < 2 ^ long_bits.

Record np_typed (n : np_snapshot_t) : Prop := {
  ty_gen : unsigned_long (gen n);
  ty_serial : unsigned_long (art_serial n);
  ty_title : c_string 256 (np_title n);
  ty_artist : c_string 256 (np_artist n);
  ty_album : c_string 256 (np_album n);
}.

Record cap_typed (b : bodycap_t) : Prop := {
  ty_remaining : 0 <= remaining b <= LONG_MAX;
  ty_mem : (length (mem b) <= mem_cap b)%nat;
  ty_cap : (mem_cap b <= METABUF_CAP)%nat;
  ty_tmp : (length (tmp b) < 256)%nat;
  ty_final : (length (final b) < 256)%nat;
}.

Lemma ulong_typed z : unsigned_long (ulong z).
Proof. unfold ulong, unsigned_long. apply Z.mod_pos_bound. destruct long_bits_ok as [->| ->]; lia. Qed.

Lemma cstr_nonzero l : Forall (fun c => c <> 0) (cstr l).
Proof. induction l as [|c l IH]; cbn; [constructor|]. case_match eqn:E; [constructor|]. constructor; [lia|done]. Qed.

Lemma np_take_typed f : c_string 256 (np_take f).
Proof.
  unfold np_take. split; [rewrite length_take; lia|]. apply Forall_take, cstr_nonzero.
Qed.

Lemma empty_typed n : (0 < n)%nat -> c_string n [].
Proof. intros Hn. split; [done|constructor]. Qed.

Lemma np_do_typed o n : np_typed n -> np_typed (np_do n o).
Proof.
  intros [H1 H2 H3 H4 H5]. destruct o; cbn [np_do]; try (constructor; cbn; done || apply ulong_typed).
  - unfold np_publish_meta. case_match; [|by constructor].
    constructor; cbn; try done; try apply ulong_typed; apply np_take_typed.
  - constructor; cbn; try done; try apply ulong_typed; apply empty_typed; lia.
Qed.

Lemma np_init_typed : np_typed np_init.
Proof.
  assert (unsigned_long 0) by (unfold unsigned_long; destruct long_bits_ok as [->| ->]; lia).
  constructor; cbn; try done; apply empty_typed; lia.
Qed.

Section Capture.
Context (d : disk).

Lemma begin_typed mo n p cap f : 0 <= n <= LONG_MAX -> (cap <= METABUF_CAP)%nat ->
  cap_typed (bodycap_begin d mo n p cap f).1.
Proof.
  intros Hn Hc. unfold bodycap_begin. rewrite (proj2 (Z.ltb_ge n 0)) by lia.
  assert (forall q, length (path256 q) < 256)%nat as Hp by (intros q; unfold path256; rewrite length_take; lia).
  destruct mo, p; try (constructor; cbn; lia). destruct (sys_open _ _ _). constructor; cbn; auto with lia.
Qed.

Lemma feed_typed b data f r : cap_typed b -> bodycap_feed d b data f = Ret r -> cap_typed r.1.2.
Proof.
  intros [H1 H2 H3 H4 H5]. unfold bodycap_feed.
  set (tk := (if _ <? _ then _ else _)%nat).
  assert (Z.of_nat tk <= remaining b) as Htk
    by (unfold tk; destruct (Nat.ltb_spec (Z.to_nat (remaining b)) (length data)); lia).
  clearbody tk. destruct (_ && _); [|intros [= <-]; constructor; cbn; lia].
  destruct (mode b).
  - intros [= <-]. constructor; cbn; lia.
  - match goal with |- context [rbind ?m _] => destruct m as [[bad g]| |] end; cbn [rbind]; [|done|done].
    intros [= <-]. constructor; cbn; lia.
  - case_match.
    + destruct (wr _ _ _) as [m| |] eqn:E; cbn [rbind]; [|done|done]. intros [= <-].
      apply wr_length in E. constructor; cbn; lia.
    + destruct (wr _ _ _) as [m| |] eqn:E; cbn [rbind]; [|done|done]. intros [= <-].
      apply wr_length in E. constructor; cbn; lia.
Qed.

Lemma finish_typed b f : cap_typed b -> cap_typed (bodycap_finish d b f).1.2.
Proof.
  intros [H1 H2 H3 H4 H5]. unfold bodycap_finish. destruct (mode b); try by constructor.
  case_match; [|by constructor]. destruct (sys_rename _ _ _ _) as [[] g]; by constructor.
Qed.
End Capture.
(** ** The daemon *)

Section Daemon.
Context {S : Type} (api : session_api S) `{L : !SessionLaws api}.
Context (base : res_t) (rsa_private : bytes -> option bytes).
Context (rsa_in_place : forall blk s, rsa_private blk = Some s -> length s = length blk /\ bytes_ok s).
Context (d : disk) `{!DiskOk d} (ka : answers) `{!KernelOk ka} (Hbase : r_sink base = false).

Definition state_typed (n : np_snapshot_t) (b : bodycap_t) (pre : bytes) : Prop :=
  np_typed n /\ cap_typed b /\ c_string 256 pre.

Lemma state_typed_preserved : Preserved d state_typed.
Proof.
  constructor; unfold state_typed.
  - intros n b p o (H1 & H2 & H3). split; [by apply np_do_typed|done].
  - intros n b p mo k path cap f Hk Hc (H1 & H2 & H3). split; [done|]. split; [by apply begin_typed|done].
  - intros n b p data f r Hr (H1 & H2 & H3). split; [done|]. split; [by eapply feed_typed|done].
  - intros n b p f (H1 & H2 & H3). split; [done|]. split; [by apply finish_typed|done].
Qed.

(** C18: the state of the daemon stays within its C types.  In every state the server
    reaches, whatever it has received and whatever the system has answered within the
    types of its calls: the descriptors are -1 or non-negative ints, the bound ports
    16-bit numbers, the addresses unsigned 32-bit numbers, the time of the accept a
    long; the fields of the RTSP session and the DACP credentials, generations, port and
    peer are in the ranges of their types and formats; the counters of the now-playing
    state are unsigned longs and its texts C strings that fit their 256 bytes; a
    capture waits for a number of bytes that is a non-negative long, stores no more
    than its buffer of at most 16384 bytes holds, and its paths fit; the state
    directory is a C string of at most 255 characters; and the read buffer holds bytes
    and never exceeds its 8192. *)
Theorem server_state_typed x :
  served api base rsa_private d ka x ->
  sess_ok (rtsp (srv x)) /\ dacp_ok (p_dacp (prc x)) /\ np_typed (p_np (prc x)) /\ cap_typed (bcap (srv x)) /\
  c_string 256 (prefix (srv x)) /\ (length (rbuf (srv x)) <= RBUF_CAP)%nat /\ bytes_ok (rbuf (srv x)) /\
  length (ip4 (srv x)) = 4%nat /\ length (mac (srv x)) = 6%nat /\
  typed (listen_fd (srv x)) (client_fd (srv x)) (client_since (srv x)) (client_ip_be (srv x))
    (iface_ip_be (srv x)) (ip4 (srv x)) (mac (srv x)) (socks (srv x)) (p_dacp (prc x)).
Proof.
  intros Hs. destruct (served_sinv api base rsa_private rsa_in_place d ka Hbase x Hs) as (Hg & Hc & Hi).
  assert (at_state state_typed x) as (H1 & H2 & H3).
  { apply (served_stable api base rsa_private d ka state_typed (Preserved0 := state_typed_preserved) x Hs).
    intros pre Hp Hz. split; [apply np_init_typed|]. split; [|by split; [lia|]].
    pose proof long_max_pos. constructor; cbn; lia. }
  assert ((length (rbuf (srv x)) <= RBUF_CAP)%nat /\ bytes_ok (rbuf (srv x))) as [Hl Hb].
  { destruct (decide (0 <= client_fd (srv x))) as [Hf|Hf].
    - destruct (Hc Hf) as [[? Hr ? ? ? ?] _]. split; [done|]. rewrite Hr. by apply bytes_ok_drop.
    - rewrite (i_rbuf _ _ _ (Hi ltac:(lia))). split; [cbn; lia|constructor]. }
  split; [apply Hg|]. split; [apply Hg|]. do 5 (split; [done|]). split; [apply Hg|]. split; apply Hg.
Qed.
End Daemon.
End Types.

Lemma server_state_typed_witness :
  @np_typed ilp32 (p_np (prc sample_put_done)) /\ @cap_typed ilp32 (bcap (srv sample_put_done)) /\
  fd_ok (client_fd (srv sample_put_done)) /\ @long_ok ilp32 (client_since (srv sample_put_done)).
Proof.
  destruct (server_state_typed sample_ops sample_res no_rsa no_rsa_in_place slow_disk (DiskOk0 := slow_disk_ok)
    sample_kernel (KernelOk0 := sample_kernel_ok) eq_refl sample_put_done sample_put_served)
    as (_ & _ & H1 & H2 & _ & _ & _ & _ & _ & H3).
  split; [exact H1|]. split; [exact H2|]. split; apply H3.
Defined.
