(* ===== verification/Daemon.v ===== *)
(** * The daemon with the threads of its session ([src/main.c], [src/session.c])

    The poll loop of [Server] over sessions whose threads run: each session carries
    its receiver and player of [SessionRun] and the log of what they did, and is an
    instance of the interface [SessionLaws], so that every theorem about the server
    holds of it.  In return the server gives a session its arguments: the address of
    the connected client, and the flushes its requests ask for. *)
From Stdlib Require Import ZArith Lia String.
From stdpp Require Import base numbers list option relations gmap.
From S2P Require Import Prelude Seqext Jitter JitterSpec Clock Rtp AirportKey B64 Sdp RtspMsg Rtsp Bodycap Npstate DacpState AlacShim Session SessionRun SessionStop SessionAudio ServerState Server ServerInv ServerProps.

Local Open Scope Z_scope.

(** ** Sessions with their threads

    A turn of the loop is one step for the server, but not for the threads: while
    it runs they take the steps of the plan.  Before each call of the server into
    the session they take those of the next block, and after it has cleared
    [running] those of one more until the join.  Between two turns the plan may
    change to any other. *)
Record plan_t := mk_plan {
  pn_last : Z;                    (* the receiver's first clock reading *)
  pn_blocks : list (list action);
}.

Record threaded (A : Type) := mk_threaded {
  th_world : world A;
  th_acts : Z;                    (* the actions taken *)
  th_fault : bool;                (* one of them left its buffers *)
  th_plan : plan_t;
}.
Arguments mk_threaded {A}. Arguments th_world {A}. Arguments th_acts {A}.
Arguments th_fault {A}. Arguments th_plan {A}.

Definition thread_action (a : action) : Prop :=
  match a with ARx i => rx_input_ok i | APl _ => True | _ => False end.

Definition plan_ok (k : plan_t) : Prop := Forall (Forall thread_action) (pn_blocks k).

Section Threads.
Context `{DataModel} {A : Type} (lib : alac_lib A).
Context (oaep_decrypt : bytes -> option bytes) (aes_cbcdec : bytes -> bytes -> bytes -> bytes) (hz : Z).
Implicit Types (t : threaded A) (w : world A).

Definition th_s t : session_t A := w_s (th_world t).
Definition with_plan (k : plan_t) t : threaded A := mk_threaded (th_world t) (th_acts t) (th_fault t) k.

Definition act (a : action) t : threaded A :=
  match wstep lib aes_cbcdec hz (th_world t) a with
  | Ret w => mk_threaded w (th_acts t + 1) (th_fault t) (th_plan t)
  | _ => mk_threaded (th_world t) (th_acts t + 1) true (th_plan t)
  end.

(** The threads take the next block of the plan. *)
Definition block t : threaded A :=
  match pn_blocks (th_plan t) with
  | [] => t
  | b :: bs => foldl (fun t a => act a t) (with_plan (mk_plan (pn_last (th_plan t)) bs) t) b
  end.

Definition th_create (e : start_env) (sdp : raop_sdp_t) (vol : Z) (r : res_t) : option (threaded A) * res_t :=
  let '(s, r) := session_create lib oaep_decrypt e sdp r in
  ((fun s => mk_threaded (mk_world s RX_END PL_END []) 0 false (mk_plan 0 [])) <$> s, r).

(** Both threads are created, or neither runs on. *)
Definition th_start (e : start_env) t (socks : rtp_sockets_t) (seq ts ip ctl tim : Z) (r : res_t) :
    run (Z * threaded A * res_t) :=
  let! (rc, s, _, r) := session_start hz e (th_s t) socks seq ts ip ctl tim r in
  let '(rx, pl) := if rc =? 0 then (RX_POLL (pn_last (th_plan t)), PL_TOP) else (RX_END, PL_END) in
  Ret (rc, mk_threaded (mk_world s rx pl (w_log (th_world t))) (th_acts t) (th_fault t) (th_plan t), r).

Definition th_flush t (seq ts : Z) : threaded A := act (AFlush seq ts) (block t).

(** [session_stop]: [running] is cleared, the threads go on to their ends, and the
    rest runs after the join. *)
Definition th_stop t (r : res_t) : threaded A * res_t :=
  if negb (threads_up (s_flags (th_s t))) then (t, r)
  else
    let t := block (act AStop (block t)) in
    let '(s, r) := session_stop (th_s t) r in
    (mk_threaded (mk_world s RX_END PL_END (w_log (th_world t))) (th_acts t) (th_fault t) (th_plan t), r).

Definition threaded_ops : session_api (threaded A) := {|
  api_create := th_create;
  api_start := th_start;
  api_flush := th_flush;
  api_stop := th_stop;
  api_destroy := fun t => session_destroy (th_s t);
|}.

(** What the threads and the server's flushes make of a session. *)
Inductive th_step : threaded A -> threaded A -> Prop :=
  | th_replan k t : plan_ok k -> th_step t (with_plan k t)
  | th_act a t : thread_action a -> th_step t (act a t)
  | th_flushed seq ts t : 0 <= seq < 65536 -> th_step t (th_flush t seq ts).

(** ** The invariant *)

(** Fewer actions than would wrap the generation. *)
Definition MAX_ACTS : Z := 2 ^ 32 - 2.

Definition is_flush (ev : event) : Prop := match ev with EvFlush _ => True | _ => False end.

(** No thread runs; at most flushes have been logged, and they are pending. *)
Record dormant t : Prop := {
  do_rx : w_rx (th_world t) = RX_END;
  do_pl : w_pl (th_world t) = PL_END;
  do_log : Forall is_flush (w_log (th_world t));
  do_restart : w_log (th_world t) <> [] -> sink_restart_pending (s_flags (th_s t)) = true;
}.

(** Created and not started. *)
Record unstarted t : Prop := {
  un_dormant : dormant t;
  un_dec : AlacShim.dec_ok (s_dec (th_s t)) (s_fpp (th_s t));
  un_gen : 0 <= s_gen (th_s t) <= th_acts t;
  un_flush : last_flush (w_log (th_world t)) =
    if flushed (s_play (th_s t)) then Some (boundary_ts (s_play (th_s t))) else None;
}.

Definition th_sender t : Z := n_sender_ip (s_net (th_s t)).

Record th_inv (o : option rtp_sockets_t) t : Prop := {
  ti_plan : plan_ok (th_plan t);
  ti_acts : 0 <= th_acts t;
  ti_run : th_acts t <= MAX_ACTS ->
    th_fault t = false /\
    match o with
    | None => unstarted t
    | Some _ => dormant t \/ winv (th_sender t) (MAX_ACTS - th_acts t) (th_world t)
    end;
}.

Definition th_owns t (o : option rtp_sockets_t) (r0 r : res_t) : Prop :=
  session_owns (th_s t) o r0 r /\ th_inv o t.

(** *** What an action leaves alone *)

Lemma act_holdings a t : same_holdings (th_s t) (th_s (act a t)).
Proof.
  unfold act. pose proof (wstep_steady lib aes_cbcdec hz (th_world t) a) as Hs.
  destruct (wstep _ _ _ _ a) as [w| |]; [apply Hs|done|done].
Qed.

Lemma act_sender a t : th_sender (act a t) = th_sender t.
Proof. unfold th_sender. by destruct (act_holdings a t) as (-> & _). Qed.

Lemma act_frame a t : th_acts (act a t) = th_acts t + 1 /\ th_plan (act a t) = th_plan t.
Proof. unfold act. by destruct (wstep _ _ _ _ a). Qed.

Lemma same_trans (s1 s2 s3 : session_t A) : same_holdings s1 s2 -> same_holdings s2 s3 -> same_holdings s1 s3.
Proof. intros (?&?&?) (?&?&?). split_and!; congruence. Qed.

(** A block is a sequence of actions, under what is left of the plan. *)
Lemma block_ind (P : threaded A -> Prop) t :
  (forall k t, P t -> plan_ok k -> P (with_plan k t)) -> (forall a t, thread_action a -> P t -> P (act a t)) ->
  plan_ok (th_plan t) -> P t -> P (block t).
Proof.
  intros Hk Ha Hok Ht. unfold block. destruct (th_plan t) as [last [|b bs]] eqn:E; [done|].
  apply Forall_cons in Hok as [Hb Hbs]. cbn [pn_blocks pn_last].
  assert (P (with_plan (mk_plan last bs) t)) as H0 by by apply Hk.
  clear E Ht. revert H0. generalize (with_plan (mk_plan last bs) t). induction Hb as [|a b Hx _ IH]; intros t' Ht; [done|].
  cbn [foldl]. apply IH. by apply Ha.
Qed.

Lemma block_holdings t : same_holdings (th_s t) (th_s (block t)).
Proof.
  unfold block. destruct (pn_blocks (th_plan t)) as [|b bs]; [done|].
  set (t1 := with_plan _ _). change (same_holdings (th_s t1) (th_s (foldl (fun t a => act a t) t1 b))).
  generalize t1. clear t1. induction b as [|a b IH]; intros t1; [done|]. cbn [foldl].
  eapply same_trans; [apply act_holdings|apply IH].
Qed.

Lemma block_sender t : th_sender (block t) = th_sender t.
Proof. unfold th_sender. by destruct (block_holdings t) as (-> & _). Qed.

Lemma flush_holdings t seq ts : same_holdings (th_s t) (th_s (th_flush t seq ts)).
Proof. unfold th_flush. eapply same_trans; [apply block_holdings|apply act_holdings]. Qed.

(** *** The invariant holds *)

Hypothesis Hlib : lib_ok lib.

(** A session without threads: only the server acts. *)
Lemma dormant_act a t : dormant t -> th_fault (act a t) = th_fault t /\ dormant (act a t).
Proof.
  intros [Hr Hp Hl Hs]. unfold act. destruct a as [i|x|sq ts|]; cbn [wstep]; rewrite ?Hr, ?Hp; cbn [rx_step pl_step rbind];
    (split; [done|]); constructor; cbn; rewrite ?Hr, ?Hp; try done. by constructor.
Qed.

Lemma unstarted_act a t : action_ok a -> th_acts t + 1 <= MAX_ACTS -> unstarted t -> unstarted (act a t).
Proof.
  intros Ha Hn [Hd Hdec Hg Hf]. pose proof (dormant_act a t Hd) as [_ Hd'].
  pose proof Hd as [Ex Ep _ _]. unfold MAX_ACTS in Hn. unfold act in *.
  destruct a as [i|x|sq ts|]; cbn [wstep] in *; rewrite ?Ex, ?Ep in *; cbn [rx_step pl_step rbind] in *;
    (constructor; [exact Hd'|exact Hdec|..]); unfold th_s in *; cbn; try done; try lia.
  rewrite u32_small by lia. lia.
Qed.

Lemma act_inv o a t : action_ok a -> th_inv o t -> th_inv o (act a t).
Proof.
  intros Ha [Hp Hn Hr]. destruct (act_frame a t) as [En Ep]. constructor; rewrite ?En, ?Ep; [done|lia|].
  intros Hm. destruct (Hr ltac:(lia)) as [Hf Ho]. destruct o as [socks|].
  - destruct Ho as [Hd|Hw].
    + destruct (dormant_act a t Hd) as [-> Hd']. split; [done|]. by left.
    + rewrite act_sender. unfold act in *.
      pose proof (wstep_inv lib aes_cbcdec hz (th_sender t) (MAX_ACTS - (th_acts t + 1)) (th_world t) a Hlib) as Hs.
      replace (MAX_ACTS - (th_acts t + 1) + 1) with (MAX_ACTS - th_acts t) in Hs by lia.
      specialize (Hs Hw ltac:(lia) Ha). destruct (wstep _ _ _ _ a) as [w| |]; [|done|done].
      split; [done|]. by right.
  - split; [|by apply unstarted_act]. by destruct (dormant_act a t (un_dormant _ Ho)) as [-> _].
Qed.

Lemma thread_ok a : thread_action a -> action_ok a.
Proof. by destruct a. Qed.

Lemma plan_inv o k t : plan_ok k -> th_inv o t -> th_inv o (with_plan k t).
Proof.
  intros Hk [Hp Hn Hr]. constructor; [done..|]. intros Hm. destruct (Hr Hm) as [Hf Ho]. split; [done|].
  destruct o.
  - destruct Ho as [[]|Hw]; [left; by constructor|by right].
  - by destruct Ho as [[] ? ? ?].
Qed.

Lemma block_inv o t : th_inv o t -> th_inv o (block t).
Proof.
  intros Ht. apply block_ind; [intros k t' H1 H2; by apply plan_inv| |by apply ti_plan in Ht|done].
  intros a t' Ha. apply act_inv. by apply thread_ok.
Qed.

Lemma flush_inv o t seq ts : 0 <= seq < 65536 -> th_inv o t -> th_inv o (th_flush t seq ts).
Proof. intros Hq Ht. unfold th_flush. apply act_inv; [exact Hq|by apply block_inv]. Qed.

(** *** The interface *)

Abbreviation plain_laws := (session_laws lib oaep_decrypt hz).

(** A session that decodes as the announcement [desc] says: it holds its key, and
    what its log shows is the sequential decoding that starts with the decoder opened
    for it. *)
Definition th_made t (desc : raop_sdp_t) : Prop :=
  keyed oaep_decrypt (th_s t) desc /\
  (th_acts t <= MAX_ACTS -> exists s0 m,
    alac_open lib m (frame_length desc) 16 (channels desc) (cookie desc) = Some (s_dec s0) /\
    audio lib aes_cbcdec s0 (th_world t)).

Lemma flushes_silent log : Forall is_flush log -> turns log = [] /\ heard log = [] /\ heard_before log = [].
Proof. induction 1 as [|ev log He _ (IH1 & IH2 & IH3)]; [done|]. by destruct ev. Qed.

(** A session that has not played is its own origin. *)
Lemma silent_audio s rx pl log : Forall is_flush log -> audio lib aes_cbcdec s (mk_world s rx pl log).
Proof.
  intros Hl. destruct (flushes_silent log Hl) as (Et & _ & Eh). constructor; cbn [w_s w_log]; rewrite ?Et; [done|done|]. exists []. by rewrite Eh.
Qed.

(** Without threads, only the server's flushes are added. *)
Lemma dormant_audio a t s0 : dormant t -> audio lib aes_cbcdec s0 (th_world t) -> audio lib aes_cbcdec s0 (th_world (act a t)).
Proof.
  intros [Ex Ep _ _] Ha. unfold act. destruct a as [i|x|sq ts|]; cbn [wstep]; rewrite ?Ex, ?Ep; cbn [rx_step pl_step rbind th_world];
    [by apply (audio_quiet _ _ _ _ _ _ _ [])| |by apply (audio_quiet _ _ _ _ _ _ _ [EvFlush ts]); [| |repeat constructor]
    |by apply (audio_quiet _ _ _ _ _ _ _ [])].
  by apply (audio_quiet _ _ _ _ _ _ _ []).
Qed.

Lemma steady_key (s s' : session_t A) : steady s s' -> same_key s s'.
Proof. unfold steady, fixed. intros E. by injection E. Qed.

Lemma wstep_key w a : rl (wstep lib aes_cbcdec hz w a) (fun w' => same_key (w_s w) (w_s w')).
Proof.
  destruct a as [i|x|sq ts|]; cbn [wstep]; try done.
  - eapply rl_bind; [apply rx_step_quiet|]. intros [[s pc] ev] [Hs _]. by apply steady_key.
  - eapply rl_bind; [apply pl_step_steady|]. intros [[s pc] ev] Hs. by apply steady_key.
Qed.

Lemma act_keyed a t desc : keyed oaep_decrypt (th_s t) desc -> keyed oaep_decrypt (th_s (act a t)) desc.
Proof.
  apply keyed_same. unfold act, th_s. pose proof (wstep_key (th_world t) a) as Hs.
  by destruct (wstep _ _ _ _ a).
Qed.

Lemma act_made a t o desc : action_ok a -> th_inv o t -> th_made t desc -> th_made (act a t) desc.
Proof.
  intros Ha [Hp Hn Hr] [Hk Hm]. destruct (act_frame a t) as [En Ep]. split; [by apply act_keyed|].
  rewrite En. intros Hle. destruct (Hm ltac:(lia)) as (s0 & m & Ho & Hau). exists s0, m. split; [done|].
  destruct (Hr ltac:(lia)) as [_ Hst].
  assert (dormant t \/ winv (th_sender t) (MAX_ACTS - th_acts t) (th_world t)) as [Hd|Hw].
  { destruct o; [done|]. left. apply Hst. }
  - by apply dormant_audio.
  - unfold act. pose proof (wstep_audio lib aes_cbcdec hz s0 _ _ _ a Hw Hau) as Hx. by destruct (wstep _ _ _ _ a).
Qed.

(** A flush-only log is good, and its flush is pending. *)
Lemma flushes_good ip log : Forall is_flush log -> SessionRun.good ip log /\ written log = [] /\ turn_pcm log = [].
Proof. induction 1 as [|ev log He _ (IH1 & IH2 & IH3)]; [done|]. by destruct ev. Qed.

Lemma flushes_unrestarted log : Forall is_flush log -> unrestarted log = match log with [] => None | _ => Some 0%nat end.
Proof. intros Hl. destruct Hl as [|ev log He _]; [done|]. by destruct ev. Qed.

Lemma start_pending e (s : session_t A) socks seq ts ip ctl tim r :
  rl (session_start hz e s socks seq ts ip ctl tim r)
    (fun '(_, s', _, _) => sink_restart_pending (s_flags s') = sink_restart_pending (s_flags s)).
Proof.
  unfold session_start. cbv zeta. destruct (negb _); [done|].
  match goal with |- rl (rbind (send_timing_request _ ?s1 ?t ?x) _) _ =>
    pose proof (send_timing_request_wp hz s1 t x) as Hw; destruct (send_timing_request hz s1 t x) as [[s2 rq]| |] end;
    [|done|done].
  cbn [rbind wp fst] in *. destruct Hw as (_ & Hf & _).
  destruct (negb _); cbn; [by rewrite Hf|]. destruct (negb _); cbn; by rewrite Hf.
Qed.

Lemma plan_made k t desc : th_made t desc -> th_made (with_plan k t) desc.
Proof. done. Qed.

Lemma block_made o t desc : th_inv o t -> th_made t desc -> th_inv o (block t) /\ th_made (block t) desc.
Proof.
  intros Ht Hm. apply (block_ind (fun t => th_inv o t /\ th_made t desc)); [| |by apply ti_plan in Ht|done].
  - intros k t' [H1 H2] Hk. split; [by apply plan_inv|by apply plan_made].
  - intros a t' Ha%thread_ok [H1 H2]. split; [by apply act_inv|by eapply act_made].
Qed.

Lemma flush_made o t seq ts desc : 0 <= seq < 65536 -> th_inv o t -> th_made t desc -> th_made (th_flush t seq ts) desc.
Proof.
  intros Hq Ht Hm. destruct (block_made o t desc Ht Hm) as [H1 H2]. unfold th_flush. by eapply act_made.
Qed.

Lemma th_create_owns e sdp vol r0 : 1 <= frame_length sdp -> r_sink r0 = false ->
  match th_create e sdp vol r0 with
  | (None, r) => r = r0
  | (Some t, r) => th_owns t None r0 r /\ th_made t sdp /\ r_kernel r = r_kernel r0
  end.
Proof.
  intros Hfl Hs. pose proof (law_create (SessionLaws := plain_laws) e sdp vol r0 Hfl Hs) as Hc.
  cbn [api_create session_ops] in Hc. unfold th_create.
  destruct (session_create lib oaep_decrypt e sdp r0) as [[s|] r] eqn:E; [|exact Hc]. destruct Hc as (Ho & Hm & Hk).
  destruct (create_keyed _ _ _ _ _ _ _ E) as [_ [m Em]].
  apply create_blank in E as (Hd & Hg & Hf & Hu); [|lia]. cbn [fmap option_fmap option_map].
  split; [|split; [|exact Hk]].
  2:{ split; [exact Hm|]. intros _. exists s, m. split; [exact Em|]. by apply silent_audio. }
  split; [exact Ho|]. constructor; cbn; [constructor|lia|]. intros _. split; [done|].
  assert (dormant (mk_threaded (mk_world s RX_END PL_END []) 0 false (mk_plan 0 []))) as Hdo by by constructor.
  constructor; unfold th_s; cbn; [exact Hdo|exact Hd|lia|by rewrite Hf].
Qed.

(** A start changes the buffers, not how packets are decoded. *)
Lemma start_made t s rx pl desc : unstarted t \/ MAX_ACTS < th_acts t ->
  same_key (th_s t) s -> s_dec s = s_dec (th_s t) -> th_made t desc ->
  th_made (mk_threaded (mk_world s rx pl (w_log (th_world t))) (th_acts t) (th_fault t) (th_plan t)) desc.
Proof.
  intros Hu Hk Hd [Hke Hm]. split; [by eapply keyed_same|]. cbn [th_acts th_world]. intros Hle.
  destruct Hu as [[[_ _ Hl _] _ _ _]|]; [|lia]. destruct (Hm Hle) as (s0 & m & Hop & [Hr _ _]). exists s, m.
  split; [|by apply silent_audio]. rewrite Hop. f_equal. rewrite Hd.
  destruct (flushes_silent _ Hl) as [Et _]. rewrite Et in Hr. by injection Hr.
Qed.

Lemma th_start_owns e t socks seq ts ip ctl tim r0 r : 0 <= seq < 65536 -> th_owns t None r0 r ->
  wp (th_start e t socks seq ts ip ctl tim r) (fun '(_, t', r') =>
    th_owns t' (Some socks) r0 r' /\ th_sender t' = ip /\ (forall desc, th_made t desc -> th_made t' desc) /\
    r_kernel r' = r_kernel r).
Proof.
  intros Hq [Ho [Hp Hn Hr]].
  pose proof (law_start (SessionLaws := plain_laws) e (th_s t) socks seq ts ip ctl tim r0 r Hq Ho) as Hw.
  unfold th_start. cbn [api_start session_ops] in Hw.
  pose proof (start_codec hz e (th_s t) socks seq ts ip ctl tim r) as Hc.
  destruct (session_start hz e (th_s t) socks seq ts ip ctl tim r) as [[[[rc s'] req] r']| |] eqn:E; [|done|done].
  cbn [rbind wp rl] in *. destruct Hw as (Ho' & Hsd & _ & Hk).
  assert (forall rx pl desc, th_made t desc ->
    th_made (mk_threaded (mk_world s' rx pl (w_log (th_world t))) (th_acts t) (th_fault t) (th_plan t)) desc) as Hmd.
  { destruct Hc as (C1 & C2 & C3 & C4). intros rx pl desc. apply start_made; [|done|done].
    destruct (Z.le_gt_cases (th_acts t) MAX_ACTS) as [Hle|]; [|by right]. left. by apply Hr. }
  destruct (Z.eqb_spec rc 0) as [->|Hne]; cbn [wp].
  all: split; [|split; [exact Hsd|split; [apply Hmd|exact Hk]]]; split; [exact Ho'|]; constructor; [done..|]; intros Hm; destruct (Hr Hm) as [Hf Hu];
    (split; [done|]); destruct Hu as [[Dx Dp Dl Hrs] Hd Hg Hfl].
  - right. cbn [th_acts] in Hm |- *. unfold MAX_ACTS in *.
    destruct (start_sinv hz _ _ _ _ _ _ _ _ _ _ _ _ (2 ^ 32 - 2 - th_acts t) _ E Hd Hq ltac:(lia) ltac:(lia) Hfl) as [Hs Hpend].
    cbn [session_laws sender] in Hsd. unfold th_sender, th_s. cbn [th_world w_s].
    destruct (flushes_good ip _ Dl) as (Hgood & Hwr & Htp). rewrite Hsd.
    constructor; cbn [w_s w_log w_pl]; [exact Hs|exact Hgood| |done|].
    + exists 0%nat. by rewrite Hwr.
    + unfold restart_ok. rewrite (flushes_unrestarted _ Dl), Hpend. destruct (w_log (th_world t)); [done|].
      split_and!; [by apply Hrs|lia|done].
  - left. pose proof (start_pending e (th_s t) socks seq ts ip ctl tim r) as Hpd. rewrite E in Hpd. cbn in Hpd.
    constructor; unfold th_s; cbn; try done. rewrite Hpd. exact Hrs.
Qed.

Lemma th_stop_owns t o r0 r : th_owns t o r0 r ->
  let '(t', r') := th_stop t r in th_owns t' o r0 r' /\ r_kernel r' = r_kernel r.
Proof.
  intros [Ho Hi]. unfold th_stop. destruct (threads_up (s_flags (th_s t))) eqn:Eu; cbn [negb]; [|done].
  set (t1 := block _). assert (same_holdings (th_s t) (th_s t1)) as Hs.
  { eapply same_trans; [apply block_holdings|]. eapply same_trans; [apply (act_holdings AStop)|apply block_holdings]. }
  assert (th_inv o t1) as H1 by (apply block_inv, act_inv; [done|by apply block_inv]).
  pose proof (law_stop (SessionLaws := plain_laws) (th_s t1) o r0 r (owns_same _ _ _ _ _ Hs Ho)) as Hw.
  cbn [api_stop session_ops] in Hw. unfold session_stop in *.
  assert (threads_up (s_flags (th_s t1)) = true) as Et by (destruct Hs as (_ & _ & ->); done).
  rewrite Et in *. cbn [negb] in *. destruct Hw as [Ho' Hk]. split; [|exact Hk]. split; [exact Ho'|].
  destruct H1 as [P1 P2 P3]. constructor; [done..|]. intros Hm. destruct (P3 Hm) as [Hf Hx]. split; [exact Hf|].
  destruct o as [socks|].
  - destruct Hx as [[_ _ Dl Dr]|[W1 W2 W3 W4 W5]]; [left; by constructor|right].
    unfold th_sender, th_s in *. cbn in *.
    constructor; cbn; try done.
    + same.
    + by eapply restart_ok_pc.
  - exfalso. destruct Ho as (_ & _ & _ & Hu). congruence.
Qed.

#[export, refine] Instance threaded_laws : SessionLaws threaded_ops := {|
  owns := th_owns; evolves := rtc th_step; sender := th_sender; made := th_made;
|}.
Proof.
  - apply th_create_owns.
  - apply th_start_owns.
  - induction 1 as [|t t1 t2 Hs _ IH]; [done|]. rewrite IH.
    destruct Hs as [k t _|a t _|sq ts t _]; [done|apply act_sender|]. unfold th_flush. by rewrite act_sender, block_sender.
  - intros t t' o r0 r. induction 1 as [|t t1 t2 Hs _ IH]; [done|]. intros [Ho Hi]. apply IH.
    destruct Hs as [k t Hk|a t Ha|sq ts t Hq].
    + split; [exact Ho|by apply plan_inv].
    + split; [exact (owns_same _ _ _ _ _ (act_holdings a t) Ho)|by apply act_inv, Hi; apply thread_ok].
    + split; [exact (owns_same _ _ _ _ _ (flush_holdings t sq ts) Ho)|by apply flush_inv].
  - intros t t' o r0 r desc. induction 1 as [|t t1 t2 Hs _ IH]; [done|]. intros [Ho Hi] Hm.
    destruct Hs as [k t Hk|a t Ha|sq ts t Hq]; apply IH.
    + split; [exact Ho|by apply plan_inv].
    + exact Hm.
    + split; [exact (owns_same _ _ _ _ _ (act_holdings a t) Ho)|by apply act_inv, Hi; apply thread_ok].
    + by eapply act_made; [apply thread_ok| |].
    + split; [exact (owns_same _ _ _ _ _ (flush_holdings t sq ts) Ho)|by apply flush_inv].
    + by eapply flush_made.
  - intros t sq ts Hq. by apply rtc_once, th_flushed.
  - intros t o r0 r k [Ho Hi]. split; [exact (law_kernel (SessionLaws := plain_laws) _ _ _ _ k Ho)|done].
  - intros t o r0 r k [Ho Hi]. split; [exact (law_base (SessionLaws := plain_laws) _ _ _ _ k Ho)|done].
  - apply th_stop_owns.
  - intros t o r0 r Hs [Ho _]. exact (law_destroy (SessionLaws := plain_laws) _ _ _ _ Hs Ho).
Defined.

(** ** Properties *)

Context (base : res_t) (rsa_private : bytes -> option bytes).
Context (rsa_in_place : forall blk s, rsa_private blk = Some s -> length s = length blk /\ bytes_ok s).
Context (d : disk) `{!DiskOk d} (ka : answers) `{!KernelOk ka} (Hbase : r_sink base = false).

(** C3: the whole daemon plays the connected client's audio, and only that.  For
    every sequence of connections, requests and answers of the system, and every
    interleaving of the server's turns and calls with the steps of the session's
    two threads, as long as the session has taken fewer than 2^32 - 1 actions: no
    thread has left its buffers; every packet the player popped came from the
    address of the client now connected, entered the buffer since the last FLUSH
    of the session, and is not before the boundary of that FLUSH; samples are
    written only after a check that no FLUSH followed the packet's pop; those of a
    turn are a prefix of what it decoded; and a FLUSH the sink was not restarted for
    is still pending, with at most one turn after it. *)
Theorem daemon_plays_client x t :
  served threaded_ops base rsa_private d ka x -> sess (srv x) = Some t -> th_acts t <= MAX_ACTS ->
  let log := w_log (th_world t) in
  0 <= client_fd (srv x) /\ th_fault t = false /\
  (forall l1 ts pl pcm l2, log = l1 ++ EvTurn (Some (ts, pl)) pcm :: l2 -> fresh (client_ip_be (srv x)) l2 ts pl) /\
  (forall l1 c l2, log = l1 ++ EvWrite c :: l2 -> armed l2) /\
  (exists k, written log = take k (turn_pcm log)) /\
  (forall k, unrestarted log = Some k -> sink_restart_pending (s_flags (th_s t)) = true /\ (k <= 1)%nat).
Proof.
  intros Hs Et Hm. destruct (served_sinv threaded_ops base rsa_private rsa_in_place d ka Hbase x Hs) as (Hg & _ & Hi).
  assert (0 <= client_fd (srv x)) as Hfd.
  { destruct (Z.lt_ge_cases (client_fd (srv x)) 0) as [Hn|]; [|done]. pose proof (i_sess _ _ _ (Hi Hn)). congruence. }
  destruct (c_own _ _ _ (g_core _ _ _ Hg)) as [_ Ho]. pose proof (g_sender _ _ _ Hg t Et) as Hip. rewrite Et in Ho.
  destruct Ho as (_ & socks & [_ [_ _ Hr]] & _). destruct (Hr Hm) as [Hf Ho]. cbn zeta. do 2 (split; [done|]).
  change (th_sender t = client_ip_be (srv x)) in Hip. rewrite Hip in Ho.
  destruct Ho as [[_ _ Hl Hp]|[_ Wg Ww _ Wr]].
  - destruct (flushes_good (client_ip_be (srv x)) _ Hl) as (Hgl & Hwr & _).
    split; [exact (good_turn _ _ Hgl)|]. split; [exact (good_write _ _ Hgl)|]. split; [by exists 0%nat|].
    intros k Hk. rewrite (flushes_unrestarted _ Hl) in Hk. destruct (w_log (th_world t)); [done|].
    injection Hk as <-. split; [by apply Hp|lia].
  - split; [exact (good_turn _ _ Wg)|]. split; [exact (good_write _ _ Wg)|]. split; [done|].
    intros k Hk. unfold restart_ok in Wr. rewrite Hk in Wr. by destruct Wr as (? & ? & _).
Qed.
(** What a log shows of a started session, decoded as [desc] says. *)
Lemma made_decoded t desc socks : th_inv (Some socks) t -> th_made t desc -> th_acts t <= MAX_ACTS ->
  exists dec m, alac_open lib m (frame_length desc) 16 (channels desc) (cookie desc) = Some dec /\
  let log := w_log (th_world t) in let pcms := map snd (turns log) in
  ref_run lib aes_cbcdec (s_key (th_s t)) (aesiv desc) (frame_length desc) (frame_length desc * 2) dec (map fst (turns log)) =
    Ret (s_dec (th_s t), pcms) /\
  exists ks, length ks = length pcms /\ heard log = prefixes ks pcms.
Proof.
  intros [_ _ Hr] [(_ & Hiv & Hfp) Hm] Hle. destruct (Hr Hle) as [_ Ho]. destruct (Hm Hle) as (s0 & m & Hop & Ha).
  exists (s_dec s0), m. split; [exact Hop|]. cbn zeta. destruct Ho as [[_ _ Hl _]|Hw].
  - destruct (flushes_silent _ Hl) as (Et & Eh & _). destruct Ha as [Hx _ _]. rewrite Et, Eh in *.
    injection Hx as Hx. split; [cbn; by rewrite Hx|by exists []].
  - destruct (heard_prefixes lib aes_cbcdec s0 _ Ha (wi_written _ _ _ Hw)) as (ks & Hk & Hh).
    destruct Ha as [Hx (F1 & F2 & F3 & F4) _]. pose proof (si_cap _ _ _ _ (wi_s _ _ _ Hw)) as Hc. rewrite F4 in Hc.
    rewrite <- F1, <- F2, <- F3, Hc in Hx. cbn [default] in Hx. unfold th_s in *. rewrite <- Hiv, <- Hfp.
    split; [exact Hx|]. exists ks. by rewrite length_map.
Qed.

(** C4: what is heard is the sender's audio, decrypted and decoded as it announced.
    For every sequence of connections, requests and answers of the system and every
    interleaving of the server with the session's threads, a session there is was
    made for the description in force, that of the client's last ANNOUNCE: its key is
    the one that description wraps; the samples of the player's turns are those of
    one sequential pass over the packets popped, each decrypted with that key and
    the announced vector and decoded by the decoder opened for the announced cookie,
    in the state the packet before it left, none where it does not decode and one
    period of silence where a packet is missing; and the bytes the sink has taken
    are, turn by turn and in order, a prefix of those samples. *)
Theorem daemon_plays_decoded x t :
  served threaded_ops base rsa_private d ka x -> sess (srv x) = Some t -> th_acts t <= MAX_ACTS ->
  exists desc key dec m,
    state (rtsp (srv x)) = RTSP_PLAYING /\ sdp (rtsp (srv x)) = Some desc /\ sdp_valid desc /\
    raop_oaep_unwrap_key oaep_decrypt (rsaaeskey desc) = Some key /\
    alac_open lib m (frame_length desc) 16 (channels desc) (cookie desc) = Some dec /\
    let log := w_log (th_world t) in let pcms := map snd (turns log) in
    ref_run lib aes_cbcdec key (aesiv desc) (frame_length desc) (frame_length desc * 2) dec (map fst (turns log)) =
      Ret (s_dec (th_s t), pcms) /\
    exists ks, length ks = length pcms /\ heard log = prefixes ks pcms.
Proof.
  intros Hs Et Hm. destruct (served_sinv threaded_ops base rsa_private rsa_in_place d ka Hbase x Hs) as (Hg & _ & _).
  destruct (g_run _ _ _ Hg t Et) as (Hst & desc & Hd & Hmd).
  destruct (c_own _ _ _ (g_core _ _ _ Hg)) as [_ Ho]. rewrite Et in Ho. destruct Ho as (_ & socks & [_ Hi] & _).
  destruct (made_decoded t desc socks Hi Hmd Hm) as (dec & m & Hop & Hx).
  destruct (proj1 (g_rtsp _ _ _ Hg)) as (_ & desc' & Hd' & Hv); [by rewrite Hst|]. rewrite Hd in Hd'. injection Hd' as <-.
  exists desc, (s_key (th_s t)), dec, m. split_and!; try done. apply Hmd.
Qed.
End Threads.

(** ** A conversation: announce, set up, record, packets, flush *)

Definition wire (lines : list string) : bytes := concat (map (fun l => str l ++ [13; 10]) lines).

Definition talk_sdp : bytes :=
  sdp_text 96 [8192; 0; 16; 40; 10; 14; 2; 255; 0; 0; 44100]
    (map ch (replicate 342 0) ++ replicate 2 61) (map ch (replicate 22 0) ++ replicate 2 61).

Definition talk_start : bytes :=
  wire ["ANNOUNCE rtsp://x/1 RTSP/1.0"; "CSeq: 1"]%string ++
  str "Content-Length: " ++ print_d (Z.of_nat (length talk_sdp)) ++ [13; 10; 13; 10] ++ talk_sdp ++
  wire ["SETUP rtsp://x/1 RTSP/1.0"; "CSeq: 2";
        "Transport: RTP/AVP/UDP;unicast;control_port=6001;timing_port=6002"; ""]%string ++
  wire ["RECORD rtsp://x/1 RTSP/1.0"; "CSeq: 3"; "RTP-Info: seq=10;rtptime=1000"; ""]%string.

Definition talk_flush : bytes := wire ["FLUSH rtsp://x/1 RTSP/1.0"; "CSeq: 4"; "RTP-Info: seq=500;rtptime=9000"; ""]%string.

(** Descriptors in order, and every port free. *)
Definition talk_kernel : answers :=
  mk_answers sample_socket (fun _ _ => Some 40000) (fun _ _ => true) (fun _ _ => true).

Lemma talk_kernel_ok : KernelOk talk_kernel.
Proof.
  constructor; cbn; [intros k; apply sample_socket_fresh..|intros k fd p [= <-]; lia].
Qed.

Definition talk_ops : session_api (threaded unit) :=
  @threaded_ops ilp32 unit sample_alac (fun _ => Some (replicate 16 9)) (fun _ _ b => b) 100.

Definition talk_turn (p : poll_ev) (x : st (threaded unit)) : st (threaded unit) :=
  match @loop_turn ilp32 _ talk_ops no_rsa slow_disk talk_kernel 1000 sample_envs p
          (set_writes (replicate 3 (Some 4096)) x) with
  | Ret (_, y) => y
  | _ => x
  end.

Definition talk_piece (data : bytes) : poll_ev := mk_poll 1 false 30 None (Some (RData data)).

(** Packets from the client and from elsewhere, and the player's turns. *)
Definition talk_plan : plan_t := mk_plan 0
  [[sample_rx 77 10 1000; sample_rx 99 11 1352; sample_rx 77 10 1000; sample_rx 77 11 9192; sample_rx 77 12 17384;
    APl 0; APl 0; APl 0; APl 3; APl 1; APl 3]].

Definition talk_update (f : threaded unit -> threaded unit) (x : st (threaded unit)) : st (threaded unit) :=
  match sess (srv x) with Some t => set_srv (set_sess (Some (f t)) (srv x)) x | None => x end.

Definition talk_begun : st (threaded unit) :=
  mk_st (server_init 3 9 (str "/p") [10; 0; 0; 2] [1; 2; 3; 4; 5; 6]) (proc_init (mk_fs ∅ 0) sample_res) [] [] [].
Definition talk_accepted : st (threaded unit) := talk_turn sample_accept talk_begun.
Definition talk_playing : st (threaded unit) := talk_turn (talk_piece talk_start) talk_accepted.
Definition talk_planned : st (threaded unit) := talk_update (with_plan talk_plan) talk_playing.
Definition talk_flushed : st (threaded unit) := talk_turn (talk_piece talk_flush) talk_planned.

Abbreviation talk_served := (@served ilp32 (threaded unit) talk_ops _ sample_res no_rsa slow_disk talk_kernel).

Lemma talk_lib_ok : lib_ok sample_alac.
Proof. intros a inp. reflexivity. Qed.

#[local] Instance talk_laws : SessionLaws talk_ops :=
  threaded_laws sample_alac (fun _ => Some (replicate 16 9)) (fun _ _ b => b) 100 talk_lib_ok.

Lemma talk_step (x : st (threaded unit)) p : talk_served x -> @poll_ok ilp32 _ x p ->
  (exists b, @loop_turn ilp32 _ talk_ops no_rsa slow_disk talk_kernel 1000 sample_envs p
     (set_writes (replicate 3 (Some 4096)) x) = Ret (b, talk_turn p x)) ->
  talk_served (talk_turn p x).
Proof. intros Hx Hp [b Hb]. by eapply served_turn. Qed.

Lemma talk_piece_ok (x : st (threaded unit)) data : bytes_okb data = true -> @poll_ok ilp32 _ x (talk_piece data).
Proof. intros Hd. split; [done|]. intros ? [= <-]. by apply bytes_okb_ok. Qed.

Lemma talk_accepted_served : talk_served talk_accepted.
Proof.
  apply talk_step; [apply served_start; [done..|exact sample_start_ok]| |].
  - apply sample_accept_ok. by apply (bool_decide_unpack _).
  - eexists. by vm_compute.
Qed.

Lemma talk_playing_served : talk_served talk_playing.
Proof.
  apply talk_step; [exact talk_accepted_served|by apply talk_piece_ok; vm_compute|]. eexists. by vm_compute.
Qed.

Lemma talk_plan_ok : plan_ok talk_plan.
Proof.
  repeat apply List.Forall_cons; try apply List.Forall_nil; cbn [thread_action sample_rx rx_input_ok ri_got]; try done.
  all: apply bytes_okb_ok; vm_compute; reflexivity.
Qed.

Lemma talk_planned_served : talk_served talk_planned.
Proof.
  unfold talk_planned, talk_update. destruct (sess (srv talk_playing)) as [t|] eqn:E; [|exact talk_playing_served].
  eapply served_threads; [exact talk_playing_served|exact E|]. by apply rtc_once, th_replan, talk_plan_ok.
Qed.

Lemma talk_flushed_served : talk_served talk_flushed.
Proof.
  apply talk_step; [exact talk_planned_served|by apply talk_piece_ok; vm_compute|]. eexists. by vm_compute.
Qed.

Lemma daemon_plays_client_witness :
  exists t, sess (srv talk_flushed) = Some t /\ client_ip_be (srv talk_flushed) = 77 /\
    w_log (th_world t) !! 0%nat = Some (EvFlush 9000) /\ w_log (th_world t) !! 2%nat = Some (EvWrite [0; 0]) /\
    exists pl pcm, w_log (th_world t) !! 4%nat = Some (EvTurn (Some (1000, pl)) pcm) /\
      fresh 77 (drop 5 (w_log (th_world t))) 1000 pl.
Proof.
  destruct (sess (srv talk_flushed)) as [t|] eqn:E; [|exfalso; vm_compute in E; discriminate E].
  exists t. split; [done|].
  assert ((th_acts <$> sess (srv talk_flushed)) = Some 12) as Ha by by vm_compute.
  rewrite E in Ha. injection Ha as Ha.
  destruct (daemon_plays_client sample_alac (fun _ => Some (replicate 16 9)) (fun _ _ b => b) 100 talk_lib_ok sample_res no_rsa
    no_rsa_in_place slow_disk (DiskOk0 := slow_disk_ok) talk_kernel (KernelOk0 := talk_kernel_ok) eq_refl talk_flushed t talk_flushed_served E
    ltac:(rewrite Ha; unfold MAX_ACTS; lia)) as (_ & _ & Ht & _).
  assert (exists l1 pl pcm l2, (w_log ∘ th_world) <$> sess (srv talk_flushed) =
      Some (l1 ++ EvTurn (Some (1000, pl)) pcm :: l2) /\ length l1 = 4%nat /\
      l1 !! 0%nat = Some (EvFlush 9000) /\ l1 !! 2%nat = Some (EvWrite [0; 0]) /\
      client_ip_be (srv talk_flushed) = 77) as (l1 & pl & pcm & l2 & El & Hl & H0 & H2 & Hip).
  { eexists [_; _; _; _], _, _, _. split_and!; vm_compute; reflexivity. }
  rewrite E in El. injection El as El. cbn in El. rewrite El, Hip in *. split; [done|].
  split; [by apply lookup_app_l_Some|]. split; [by apply lookup_app_l_Some|]. exists pl, pcm.
  split; [by rewrite <- Hl, list_lookup_middle|].
  rewrite drop_app_ge, Hl by lia. exact (Ht _ _ _ _ _ eq_refl).
Defined.

Lemma daemon_plays_decoded_witness :
  exists t desc, sess (srv talk_flushed) = Some t /\ sdp (rtsp (srv talk_flushed)) = Some desc /\
    length (turns (w_log (th_world t))) = 1%nat /\ length (heard (w_log (th_world t))) = 2%nat /\
    exists key dec m, raop_oaep_unwrap_key (fun _ => Some (replicate 16 9)) (rsaaeskey desc) = Some key /\
      alac_open sample_alac m (frame_length desc) 16 (channels desc) (cookie desc) = Some dec /\
      ref_run sample_alac (fun _ _ b => b) key (aesiv desc) (frame_length desc) (frame_length desc * 2) dec
        (map fst (turns (w_log (th_world t)))) = Ret (s_dec (th_s t), map snd (turns (w_log (th_world t)))).
Proof.
  destruct (sess (srv talk_flushed)) as [t|] eqn:E; [|exfalso; vm_compute in E; discriminate E].
  assert ((fun t => (th_acts t, length (turns (w_log (th_world t))), length (heard (w_log (th_world t))))) <$>
    sess (srv talk_flushed) = Some (12, 1%nat, 2%nat)) as Ha by by vm_compute.
  rewrite E in Ha. injection Ha as Ha Hl Hh.
  destruct (daemon_plays_decoded sample_alac (fun _ => Some (replicate 16 9)) (fun _ _ b => b) 100 talk_lib_ok sample_res no_rsa
    no_rsa_in_place slow_disk (DiskOk0 := slow_disk_ok) talk_kernel (KernelOk0 := talk_kernel_ok) eq_refl talk_flushed t talk_flushed_served E
    ltac:(rewrite Ha; unfold MAX_ACTS; lia)) as (desc & key & dec & m & _ & Hd & _ & Hk & Ho & Hr & _).
  exists t, desc. split; [done|]. split; [exact Hd|]. split; [exact Hl|]. split; [exact Hh|]. exists key, dec, m.
  split; [exact Hk|]. split; [exact Ho|exact Hr].
Defined.
