(* ===== verification/Sink.v ===== *)
(** * The audio sink ([src/sink.cpp])

    The aplay-pipe back end: the software gain, the child at the end of the pipe,
    and the bounded write.  The answers of the system are inputs; the world keeps the
    descriptors, the children with the signals they were sent, and the starts. *)
From Stdlib Require Import ZArith Lia String SpecFloat.
From stdpp Require Import base numbers list gmap.
From S2P Require Import Prelude RaopVolume.

Local Open Scope Z_scope.

Definition WRITE_WAIT_MS : Z := 200.
Definition GAIN_BUF_N : nat := Z.to_nat 2048.

(** ** The gain *)

(** [sink_set_volume]: the factor in 1/256 for a percentage; [powf] is the C
    library's. *)
Definition sink_set_volume (powf : spec_float -> spec_float -> spec_float) (pct : Z) : Z :=
  let gain :=
    if pct <=? 0 then flt 0
    else if 100 <=? pct then flt 1
    else
      let db := SFsub 24 128 (SFmul 24 128 (SFdiv 24 128 (flt pct) (flt 100)) (flt 30)) (flt 30) in
      powf (flt 10) (SFdiv 24 128 db (flt 20)) in
  let gain := if SFltb gain (flt 0) then flt 0 else gain in
  let gain := if SFltb (flt 1) gain then flt 1 else gain in
  to_int (SFadd 24 128 (SFmul 24 128 gain (flt 256)) half).

(** One sample of [apply_gain]. *)
Definition gained (g v : Z) : Z := s16 (Z.shiftr (v * g) 8).

Definition apply_gain (g : Z) (src : list Z) : list Z := map (gained g) src.

(** The samples in memory, low byte first. *)
Definition sample_bytes (v : Z) : bytes := [u8 v; u8 (Z.shiftr v 8)].
Definition pcm_bytes (l : list Z) : bytes := List.concat (map sample_bytes l).

(** ** The command line *)

(** [strtok_r(buf, " ", ...)]: the pieces between runs of blanks. *)
Fixpoint tokens (cur : bytes) (s : bytes) : list bytes :=
  match s with
  | [] => if (length cur =? 0)%nat then [] else [cur]
  | c :: s =>
      if c =? 32 then (if (length cur =? 0)%nat then tokens [] s else cur :: tokens [] s)
      else tokens (cur ++ [c]) s
  end.

Definition default_aplay : bytes := str "/usr/bin/aplay -q -D plug:dmix0 -f S16_LE -c 2 -r 44100 -t raw -".

Definition build_argv (env : option bytes) (max : nat) : list bytes :=
  let buf := take 255 (match env with Some e => e | None => default_aplay end) in
  take (max - 1) (tokens [] buf).

(** ** The world *)

(** What [waitpid(pid, ., WNOHANG)] and [write] answer: the process has ended, it is
    not a child, the call was interrupted, or it is running; so many bytes, not now,
    or an error. *)
Inductive wait_ans := WGone | WNoChild | WIntr | WRunning.
Inductive write_ans := WWrote (n : nat) | WAgain | WError.
Inductive signal := SIGTERM | SIGKILL.

(** [pipe] and [posix_spawn] are told the descriptors in use and the children not
    waited for. *)
Record answers := mk_answers {
  a_env : option bytes;                             (* RAOPD_APLAY *)
  a_pipe : gset Z -> nat -> option (Z * Z);
  a_spawn : gset Z -> nat -> option Z;
  a_nonblock : nat -> bool;
}.

(** A pipe has two new descriptors; a new process has a positive number that is not
    that of a child still to be waited for. *)
Class AnswersOk (a : answers) := {
  pipe_fresh : forall o n r w, a_pipe a o n = Some (r, w) -> 0 <= r /\ 0 <= w /\ r <> w /\ r ∉ o /\ w ∉ o;
  spawn_fresh : forall c n p, a_spawn a c n = Some p -> 0 < p /\ p ∉ c;
}.

Record world := mk_world {
  w_open : gset Z;
  w_calls : nat;
  w_waits : list wait_ans;
  w_writes : list write_ans;
  w_children : gmap Z (list signal);   (* the children started and not waited for, with the signals each was sent *)
  w_pipe : bytes;                      (* what the current child has been given *)
  w_polled : Z;                        (* milliseconds spent in [poll] *)
  w_spawns : Z;                        (* calls of [posix_spawn] *)
  w_stray : nat;                       (* closes of descriptors that were not open *)
}.

Record sink_t := mk_sink { g_wfd : Z; g_pid : Z; g_respawns : Z; g_spawn_attempts : Z }.

Definition close_w (fd : Z) (w : world) : world :=
  mk_world (w_open w ∖ {[fd]}) (w_calls w) (w_waits w) (w_writes w) (w_children w) (w_pipe w) (w_polled w) (w_spawns w)
    (if decide (fd ∈ w_open w) then w_stray w else Datatypes.S (w_stray w)).
Definition waits_w (l : list wait_ans) (w : world) : world :=
  mk_world (w_open w) (w_calls w) l (w_writes w) (w_children w) (w_pipe w) (w_polled w) (w_spawns w) (w_stray w).
Definition children_w (c : gmap Z (list signal)) (w : world) : world :=
  mk_world (w_open w) (w_calls w) (w_waits w) (w_writes w) c (w_pipe w) (w_polled w) (w_spawns w) (w_stray w).
Definition open_w (o : gset Z) (w : world) : world :=
  mk_world o (Datatypes.S (w_calls w)) (w_waits w) (w_writes w) (w_children w) (w_pipe w) (w_polled w) (w_spawns w) (w_stray w).
Definition pipe_w (p : bytes) (l : list write_ans) (w : world) : world :=
  mk_world (w_open w) (w_calls w) (w_waits w) l (w_children w) p (w_polled w) (w_spawns w) (w_stray w).
Definition poll_w (ms : Z) (l : list write_ans) (w : world) : world :=
  mk_world (w_open w) (w_calls w) (w_waits w) l (w_children w) (w_pipe w) (w_polled w + ms) (w_spawns w) (w_stray w).
Definition spawned_w (w : world) : world :=
  mk_world (w_open w) (w_calls w) (w_waits w) (w_writes w) (w_children w) (w_pipe w) (w_polled w) (w_spawns w + 1) (w_stray w).

(** [kill]: a child that has not been waited for keeps the signal. *)
Definition sys_kill (pid : Z) (sig : signal) (w : world) : world :=
  children_w (alter (fun l => l ++ [sig]) pid (w_children w)) w.

(** [posix_spawn]: counted whether it succeeds or not. *)
Definition sys_spawn (a : answers) (w : world) : option Z * world :=
  let w := spawned_w w in
  match a_spawn a (dom (w_children w)) (w_calls w) with
  | Some pid => (Some pid, children_w (<[pid := []]> (w_children w)) w)
  | None => (None, w)
  end.

(** A child that has ended, or is no child, is not one to wait for any more. *)
Definition waited (pid : Z) (r : wait_ans) (w : world) : world :=
  match r with
  | WGone | WNoChild => children_w (delete pid (w_children w)) w
  | WIntr | WRunning => w
  end.

(** The next answer; when they run out the process has ended. *)
Definition waitpid (pid : Z) (w : world) : wait_ans * world :=
  match w_waits w with
  | [] => (WGone, waited pid WGone w)
  | x :: l => (x, waited pid x (waits_w l w))
  end.

(** [do ... while (r < 0 && errno == EINTR)], over the remaining answers. *)
Fixpoint wait_nointr (pid : Z) (l : list wait_ans) (w : world) : wait_ans * world :=
  match l with
  | [] => (WGone, waited pid WGone (waits_w [] w))
  | WIntr :: l => wait_nointr pid l w
  | x :: l => (x, waited pid x (waits_w l w))
  end.

(** The two loops of [kill_bounded]: whether the child was reaped. *)
Fixpoint term_loop (n : nat) (pid : Z) (w : world) : bool * world :=
  match n with
  | O => (false, w)
  | Datatypes.S n =>
      let '(r, w) := wait_nointr pid (w_waits w) w in
      match r with
      | WGone | WNoChild => (true, w)
      | _ => term_loop n pid w
      end
  end.

Fixpoint kill_loop (n : nat) (pid : Z) (w : world) : world :=
  match n with
  | O => w
  | Datatypes.S n =>
      let '(r, w) := waitpid pid w in
      match r with WRunning => kill_loop n pid w | _ => w end
  end.

Definition kill_bounded (pid : Z) (w : world) : world :=
  let w := sys_kill pid SIGTERM w in
  let '(reaped, w) := term_loop 20 pid w in
  if reaped then w else kill_loop 20 pid (sys_kill pid SIGKILL w).

Definition reap (s : sink_t) (w : world) : sink_t * world :=
  let '(s, w) := if 0 <=? g_wfd s
    then (mk_sink (-1) (g_pid s) (g_respawns s) (g_spawn_attempts s), close_w (g_wfd s) w) else (s, w) in
  if 0 <? g_pid s then (mk_sink (g_wfd s) (-1) (g_respawns s) (g_spawn_attempts s), kill_bounded (g_pid s) w)
  else (s, w).

Section Sink.
Context (a : answers).

Definition spawn_child (s : sink_t) (w : world) : Z * sink_t * world :=
  let '(s, w) := if 0 <? g_pid s then reap s w else (s, w) in
  match build_argv (a_env a) 32 with
  | [] => (-1, s, w)
  | _ =>
      match a_pipe a (w_open w) (w_calls w) with
      | None => (-1, s, open_w (w_open w) w)
      | Some (rfd, wfd) =>
          let w := open_w ({[rfd; wfd]} ∪ w_open w) w in
          let '(pid, w) := sys_spawn a w in
          let w := close_w rfd w in
          match pid with
          | None => (-1, s, close_w wfd w)
          | Some pid =>
              if negb (a_nonblock a (w_calls w)) then (-1, s, kill_bounded pid (close_w wfd w))
              else (0, mk_sink wfd pid (g_respawns s) (g_spawn_attempts s), pipe_w [] (w_writes w) w)
          end
      end
  end.

Definition child_alive (s : sink_t) (w : world) : bool * sink_t * world :=
  if g_pid s <=? 0 then (false, s, w)
  else
    let '(r, w) := waitpid (g_pid s) w in
    match r with
    | WGone =>
        let w := if 0 <=? g_wfd s then close_w (g_wfd s) w else w in
        (false, mk_sink (-1) (-1) (g_respawns s) (g_spawn_attempts s), w)
    | _ => (true, s, w)
    end.

Definition sink_open (s : sink_t) (w : world) : Z * sink_t * world :=
  spawn_child (mk_sink (g_wfd s) (g_pid s) 0 0) w.

(** The inner loop: the bytes of one chunk, the milliseconds waited so far. *)
Fixpoint write_chunk (fuel : nat) (data : bytes) (off : nat) (waited : Z) (s : sink_t) (w : world) :
    run (nat * Z * bool * sink_t * world) :=
  match fuel with
  | O => NoFuel
  | Datatypes.S fuel =>
      if (off <? length data)%nat then
        match w_writes w with
        | WWrote n :: l =>
            if (0 <? n)%nat then
              let k := Nat.min n (length data - off) in
              write_chunk fuel data (off + k) waited s (pipe_w (w_pipe w ++ sub data off k) l w)
            else Ret (off, waited, true, s, pipe_w (w_pipe w) l w)
        | WAgain :: l =>
            if WRITE_WAIT_MS <=? waited then Ret (off, waited, true, s, pipe_w (w_pipe w) l w)
            else
              let '(alive, s, w) := child_alive s (poll_w 20 l w) in
              if negb alive then Ret (off, waited + 20, true, s, w)
              else write_chunk fuel data off (waited + 20) s w
        | WError :: l => Ret (off, waited, true, s, pipe_w (w_pipe w) l w)
        | [] => Ret (off, waited, true, s, w)
        end
      else Ret (off, waited, false, s, w)
  end.

(** Enough for every byte and every wait. *)
Definition chunk_fuel (data : bytes) : nat := (length data + 12)%nat.

(** The outer loop; [gain i] is the factor in force when chunk [i] is scaled. *)
Fixpoint write_chunks (fuel : nat) (gain : nat -> Z) (i : nat) (pcm : list Z) (acc : Z) (waited : Z)
    (s : sink_t) (w : world) : run (Z * sink_t * world) :=
  match fuel with
  | O => NoFuel
  | Datatypes.S fuel =>
      match pcm with
      | [] => Ret (acc, s, w)
      | _ =>
          let chunk := take GAIN_BUF_N pcm in
          let data := pcm_bytes (apply_gain (gain i) chunk) in
          let! r := write_chunk (chunk_fuel data) data 0 waited s w in
          let '(off, waited, stop, s, w) := r in
          let acc := acc + Z.of_nat (off / 2) in
          if (stop : bool) then Ret (acc, s, w)
          else write_chunks fuel gain (Datatypes.S i) (drop GAIN_BUF_N pcm) acc waited s w
      end
  end.

(** The writing of samples once there is a child. *)
Definition write_pcm (gain : nat -> Z) (pcm : list Z) (s : sink_t) (w : world) : run (Z * sink_t * world) :=
  write_chunks (Datatypes.S (length pcm)) gain 0 pcm 0 0 s w.

Definition sink_write (gain : nat -> Z) (pcm : list Z) (s : sink_t) (w : world) : run (Z * sink_t * world) :=
  if (length pcm =? 0)%nat then Ret (0, s, w)
  else
    let '(alive, s, w) := child_alive s w in
    if alive then write_pcm gain pcm s w
    else if 1000 <=? g_spawn_attempts s then Ret (0, s, w)
    else
      let '(rc, s, w) := spawn_child (mk_sink (g_wfd s) (g_pid s) (g_respawns s) (g_spawn_attempts s + 1)) w in
      if rc =? 0
      then write_pcm gain pcm (mk_sink (g_wfd s) (g_pid s) (g_respawns s + 1) (g_spawn_attempts s)) w
      else Ret (0, s, w).

Definition sink_flush (s : sink_t) (w : world) : sink_t * world :=
  let '(s, w) := reap s w in
  let '(_, s, w) := spawn_child (mk_sink (g_wfd s) (g_pid s) (g_respawns s) 0) w in (s, w).

Definition sink_close (s : sink_t) (w : world) : sink_t * world := reap s w.

Definition sink_respawns (s : sink_t) : Z := g_respawns s.
End Sink.

(** ** Lemmas *)

(** What the loops that reap the child [pid] leave alone. *)
Definition quiet (pid : Z) (w w' : world) : Prop :=
  w_open w' = w_open w /\ w_writes w' = w_writes w /\ w_pipe w' = w_pipe w /\ w_polled w' = w_polled w /\
  w_spawns w' = w_spawns w /\ w_stray w' = w_stray w /\
  forall q, q <> pid -> w_children w' !! q = w_children w !! q.

Lemma quiet_refl pid w : quiet pid w w.
Proof. done. Qed.

Lemma quiet_trans pid w1 w2 w3 : quiet pid w1 w2 -> quiet pid w2 w3 -> quiet pid w1 w3.
Proof.
  unfold quiet. intros (? & ? & ? & ? & ? & ? & Hc) (? & ? & ? & ? & ? & ? & Hd).
  split_and!; [congruence..|]. intros q Hq. by rewrite Hd, Hc.
Qed.

Lemma kill_quiet pid sig w : quiet pid w (sys_kill pid sig w).
Proof. split_and!; try done. intros q Hq. cbn. by rewrite lookup_alter_ne. Qed.

(** The answer of one wait decides what becomes of the child. *)
Definition waited_for (pid : Z) (w : world) (r : wait_ans) (w' : world) : Prop :=
  quiet pid w w' /\
  w_children w' !! pid = match r with WGone | WNoChild => None | _ => w_children w !! pid end.

Lemma waited_ok pid r w l : waited_for pid w r (waited pid r (waits_w l w)).
Proof.
  split; [|by destruct r; cbn; rewrite ?lookup_delete_eq].
  destruct r; split_and!; try done; intros q Hq; cbn; by rewrite lookup_delete_ne.
Qed.

Lemma wait_nointr_ok pid l w : let '(r, w') := wait_nointr pid l w in waited_for pid w r w'.
Proof. induction l as [|[] l IH]; try exact IH; apply waited_ok. Qed.

Lemma waitpid_ok pid w : let '(r, w') := waitpid pid w in waited_for pid w r w'.
Proof.
  unfold waitpid. destruct (w_waits w) as [|x l] eqn:E; [|apply waited_ok].
  pose proof (waited_ok pid WGone w []) as [(? & ? & ? & ? & ? & ? & Hc) Hx]. by split; [split_and!|].
Qed.

Lemma term_loop_ok n pid w : let '(b, w') := term_loop n pid w in
  quiet pid w w' /\ w_children w' !! pid = if b then None else w_children w !! pid.
Proof.
  revert w. induction n as [|n IH]; intros w; [done|]. cbn [term_loop].
  pose proof (wait_nointr_ok pid (w_waits w) w) as Hq. destruct (wait_nointr _ _ _) as [r w1].
  destruct Hq as [Hq Hp]. specialize (IH w1).
  destruct r; try exact (conj Hq Hp); destruct (term_loop n pid w1) as [b w2]; destruct IH as [I1 I2];
    (split; [by eapply quiet_trans|by rewrite I2, Hp]).
Qed.

Lemma kill_loop_ok n pid w : quiet pid w (kill_loop n pid w) /\
  (w_children (kill_loop n pid w) !! pid = None \/ w_children (kill_loop n pid w) !! pid = w_children w !! pid).
Proof.
  revert w. induction n as [|n IH]; intros w; [split; [done|by right]|]. cbn [kill_loop].
  pose proof (waitpid_ok pid w) as Hq. destruct (waitpid pid w) as [r w1]. destruct Hq as [Hq Hp].
  destruct r; try (split; [exact Hq|by (left + right)]).
  destruct (IH w1) as [I1 I2]. split; [by eapply quiet_trans|]. by rewrite Hp in I2.
Qed.

(** A child that has been let go: reaped, or sent [SIGTERM] and then [SIGKILL] and
    still not to be reaped. *)
Definition let_go (c c' : option (list signal)) : Prop := c' = None \/ (c = Some [] /\ c' = Some [SIGTERM; SIGKILL]).

Lemma kill_bounded_ok pid w : quiet pid w (kill_bounded pid w) /\
  (w_children w !! pid = None \/ w_children w !! pid = Some [] -> let_go (w_children w !! pid) (w_children (kill_bounded pid w) !! pid)).
Proof.
  unfold kill_bounded. pose proof (term_loop_ok 20 pid (sys_kill pid SIGTERM w)) as Ht.
  destruct (term_loop _ _ _) as [[] w1]; destruct Ht as [Hq Hp].
  - split; [eapply quiet_trans; [apply kill_quiet|exact Hq]|]. intros _. by left.
  - destruct (kill_loop_ok 20 pid (sys_kill pid SIGKILL w1)) as [Kq Kp]. split.
    + eapply quiet_trans; [apply kill_quiet|]. eapply quiet_trans; [exact Hq|].
      eapply quiet_trans; [apply kill_quiet|exact Kq].
    + intros Hc. destruct Kp as [->| ->]; [by left|]. cbn [sys_kill children_w w_children] in *.
      rewrite lookup_alter_eq, Hp, lookup_alter_eq. destruct Hc as [->| ->]; [by left|by right].
Qed.

(** One child and one descriptor, or neither. *)
Definition one_or_none (base : gset Z) (s : sink_t) (w : world) : Prop :=
  (g_wfd s = -1 /\ g_pid s = -1 /\ w_open w = base) \/
  (0 <= g_wfd s /\ 0 < g_pid s /\ g_wfd s ∉ base /\ w_open w = {[g_wfd s]} ∪ base).

(** Every child that has not been waited for is the current one, which has been sent
    no signal, or has been let go. *)
Definition accounted (s : sink_t) (w : world) : Prop := forall p l, w_children w !! p = Some l ->
  0 < p /\ l = if decide (p = g_pid s) then [] else [SIGTERM; SIGKILL].

Definition sink_inv (base : gset Z) (s : sink_t) (w : world) : Prop := one_or_none base s w /\ accounted s w.

(** No process is started, and no descriptor closed that is not open. *)
Definition same_counts (w w' : world) : Prop := w_spawns w' = w_spawns w /\ w_stray w' = w_stray w.

Lemma close_w_stray fd w : fd ∈ w_open w -> w_stray (close_w fd w) = w_stray w.
Proof. intros Hf. cbn. by rewrite decide_True. Qed.

Lemma accounted_same s s' w w' : g_pid s' = g_pid s -> w_children w' = w_children w -> accounted s w -> accounted s' w'.
Proof. unfold accounted. by intros -> ->. Qed.

Lemma accounted_current s w : accounted s w -> w_children w !! g_pid s = None \/ w_children w !! g_pid s = Some [].
Proof.
  intros Ha. destruct (w_children w !! g_pid s) as [l|] eqn:E; [right|by left].
  destruct (Ha _ _ E) as [_ ->]. by rewrite decide_True.
Qed.

(** Once the current child has been let go, every child has. *)
Lemma accounted_gone s s' w w' : accounted s w ->
  (forall q, q <> g_pid s -> w_children w' !! q = w_children w !! q) ->
  let_go (w_children w !! g_pid s) (w_children w' !! g_pid s) ->
  g_pid s' = -1 -> accounted s' w'.
Proof.
  intros Ha Hq Hg Hs' p l Hp. rewrite Hs'. destruct (decide (p = g_pid s)) as [->|Hne].
  - destruct Hg as [Hg|[Hc Hg]]; [congruence|]. destruct (Ha _ _ Hc) as [H0 _].
    split; [done|]. rewrite decide_False by lia. congruence.
  - rewrite Hq in Hp by done. destruct (Ha _ _ Hp) as [H0 ->]. rewrite !decide_False by lia. done.
Qed.

Lemma reap_spec base s w :
  sink_inv base s w ->
  let '(s', w') := reap s w in
  s' = mk_sink (-1) (-1) (g_respawns s) (g_spawn_attempts s) /\ w_open w' = base /\ accounted s' w' /\
  w_pipe w' = w_pipe w /\ w_polled w' = w_polled w /\ w_writes w' = w_writes w /\ same_counts w w'.
Proof.
  destruct s as [fd pid rs at_]. unfold sink_inv, one_or_none, reap. cbn [g_wfd g_pid g_respawns g_spawn_attempts].
  intros [[(-> & -> & Ho)|(Hfd & Hp & Hn & Ho)] Ha]; [done|].
  rewrite (proj2 (Z.leb_le 0 fd)) by done. cbn [g_wfd g_pid g_respawns g_spawn_attempts].
  rewrite (proj2 (Z.ltb_lt 0 pid)) by done.
  destruct (kill_bounded_ok pid (close_w fd w)) as [Hq Hg]. specialize (Hg (accounted_current _ _ Ha)).
  destruct Hq as (H1 & H2 & H3 & H4 & H5 & H6 & Hc). split; [done|]. unfold same_counts.
  rewrite H1, H2, H3, H4, H5, H6, close_w_stray by set_solver.
  cbn [close_w w_open w_pipe w_polled w_writes w_spawns]. rewrite Ho. split; [set_solver|]. split; [|done].
  exact (accounted_gone _ (mk_sink (-1) (-1) rs at_) _ _ Ha Hc Hg eq_refl).
Qed.

Section SinkProofs.
Context (a : answers) `{!AnswersOk a} (base : gset Z).

(** A child is started, or nothing is left of the attempt. *)
Definition started (s : sink_t) (w : world) (rc : Z) (s' : sink_t) (w' : world) : Prop :=
  sink_inv base s' w' /\ g_respawns s' = g_respawns s /\ g_spawn_attempts s' = g_spawn_attempts s /\
  w_polled w' = w_polled w /\ w_spawns w <= w_spawns w' <= w_spawns w + 1 /\ w_stray w' = w_stray w /\
  ((rc = 0 /\ w_pipe w' = [] /\ 0 < g_pid s') \/ (rc = -1 /\ w_pipe w' = w_pipe w)).

(** The rest of [spawn_child], once [posix_spawn] has started [pid]. *)
Lemma spawned_spec s rfd wfd pid w :
  g_pid s = -1 -> g_wfd s = -1 -> accounted s w -> 0 < pid -> w_children w !! pid = None ->
  0 <= rfd -> 0 <= wfd -> rfd <> wfd -> rfd ∉ base -> wfd ∉ base -> w_open w = {[rfd; wfd]} ∪ base ->
  let w := close_w rfd (children_w (<[pid := []]> (w_children w)) w) in
  let '(rc, s', w') :=
    if negb (a_nonblock a (w_calls w)) then (-1, s, kill_bounded pid (close_w wfd w))
    else (0, mk_sink wfd pid (g_respawns s) (g_spawn_attempts s), pipe_w [] (w_writes w) w) in
  sink_inv base s' w' /\ g_respawns s' = g_respawns s /\ g_spawn_attempts s' = g_spawn_attempts s /\
  w_polled w' = w_polled w /\ w_spawns w' = w_spawns w /\ w_stray w' = w_stray w /\
  ((rc = 0 /\ w_pipe w' = [] /\ 0 < g_pid s') \/ (rc = -1 /\ w_pipe w' = w_pipe w)).
Proof.
  intros Hs Hf Ha Hp Hn H1 H2 Hne Hr Hw Ho. set (w0 := children_w _ w). cbv zeta.
  assert (accounted (mk_sink wfd pid (g_respawns s) (g_spawn_attempts s)) w0) as Ha0.
  { intros p l. unfold w0. cbn [children_w w_children g_pid]. intros Hl. destruct (decide (p = pid)) as [->|Hx].
    - rewrite lookup_insert_eq in Hl. by injection Hl as <-.
    - rewrite lookup_insert_ne in Hl by done. destruct (Ha _ _ Hl) as [? ->]. split; [done|].
      by rewrite decide_False by (rewrite Hs; lia). }
  assert (w_open (close_w rfd w0) = {[wfd]} ∪ base) as Ho1
    by (unfold w0; cbn [close_w w_open children_w]; rewrite Ho; set_solver).
  assert (w_stray (close_w rfd w0) = w_stray w0) as Hy1
    by (apply close_w_stray; unfold w0; cbn [w_open children_w]; rewrite Ho; set_solver).
  destruct (a_nonblock _ _); cbn [negb].
  - split_and!; try done; [|left; by split_and!]. split; [right; by split_and!|exact Ha0].
  - destruct (kill_bounded_ok pid (close_w wfd (close_w rfd w0))) as [Hq Hg].
    specialize (Hg ltac:(right; unfold w0; cbn; by rewrite lookup_insert_eq)).
    destruct Hq as (Q1 & Q2 & Q3 & Q4 & Q5 & Q6 & Qc).
    split_and!; try done; [|rewrite Q6; apply close_w_stray; rewrite Ho1; set_solver|right; split; [done|by rewrite Q3]].
    split; [left; split_and!; [done..|]; rewrite Q1; unfold w0; cbn [close_w w_open children_w]; rewrite Ho; set_solver|].
    exact (accounted_gone _ _ _ _ Ha0 Qc Hg Hs).
Qed.

Lemma spawn_child_spec s w :
  sink_inv base s w -> let '(rc, s', w') := spawn_child a s w in started s w rc s' w'.
Proof.
  intros Hi. unfold spawn_child.
  assert (exists s1 w1, (if 0 <? g_pid s then reap s w else (s, w)) = (s1, w1) /\
    s1 = mk_sink (-1) (-1) (g_respawns s) (g_spawn_attempts s) /\ w_open w1 = base /\ accounted s1 w1 /\
    w_pipe w1 = w_pipe w /\ w_polled w1 = w_polled w /\ same_counts w w1)
    as (s1 & w1 & -> & -> & Ho & Ha & Hp & Hq & Hsp & Hst).
  { destruct (Z.ltb_spec 0 (g_pid s)).
    - pose proof (reap_spec base s w Hi) as Hr. destruct (reap s w) as [s1 w1]. exists s1, w1. tauto.
    - destruct Hi as [[(H1 & H2 & Ho)|(_ & ? & _)] Ha]; [|lia]. exists s, w. split; [done|].
      destruct s. cbn in *. by subst. }
  assert (forall w', w_open w' = base -> w_children w' = w_children w1 -> w_polled w' = w_polled w1 ->
    w_spawns w1 <= w_spawns w' <= w_spawns w1 + 1 -> w_stray w' = w_stray w1 -> w_pipe w' = w_pipe w1 ->
    started s w (-1) (mk_sink (-1) (-1) (g_respawns s) (g_spawn_attempts s)) w') as Hnone.
  { intros w' Hw Hc Hpo Hs' Hy Hpi. split; [split; [by left|by eapply accounted_same; [| |exact Ha]]|].
    do 2 (split; [done|]). split; [congruence|]. split; [lia|]. split; [congruence|]. right. split; [done|congruence]. }
  destruct (build_argv _ _); [by apply Hnone; first [done|lia]|].
  destruct (a_pipe a (w_open w1) (w_calls w1)) as [[rfd wfd]|] eqn:E; [|by apply Hnone; first [done|cbn; lia]].
  apply pipe_fresh in E. rewrite Ho in E. destruct E as (H1 & H2 & Hne & Hr & Hw). unfold sys_spawn.
  set (w2 := spawned_w (open_w _ w1)).
  assert (w_open w2 = {[rfd; wfd]} ∪ base) as Ho2 by (unfold w2; cbn; by rewrite Ho).
  destruct (a_spawn a (dom (w_children w2)) (w_calls w2)) as [pid|] eqn:Ep.
  - apply spawn_fresh in Ep as [Hpos Hnot]. apply not_elem_of_dom in Hnot.
    pose proof (spawned_spec (mk_sink (-1) (-1) (g_respawns s) (g_spawn_attempts s)) rfd wfd pid w2 eq_refl eq_refl Ha Hpos Hnot
      H1 H2 Hne Hr Hw Ho2) as Hs. cbv zeta in Hs. destruct (if negb _ then _ else _) as [[rc s'] w'].
    destruct Hs as (S1 & S2 & S3 & S4 & S5 & S6 & S7). cbn [close_w children_w w_polled w_pipe] in S4, S7.
    rewrite close_w_stray in S6 by (cbn [children_w w_open]; rewrite Ho2; set_solver).
    unfold w2 in S4, S5, S6, S7. cbn in S4, S5, S6, S7. do 3 (split; [done|]). split; [congruence|]. split; [lia|]. split; [congruence|].
    destruct S7 as [?|[? S7]]; [by left|right; split; [done|congruence]].
  - apply Hnone; try done; [cbn [close_w w_open]; rewrite Ho2; set_solver|cbn; lia|].
    rewrite !close_w_stray; [done|rewrite Ho2; set_solver|cbn [close_w w_open]; rewrite Ho2; set_solver].
Qed.

Lemma child_alive_spec s w :
  sink_inv base s w ->
  let '(alive, s', w') := child_alive s w in
  sink_inv base s' w' /\ g_respawns s' = g_respawns s /\ g_spawn_attempts s' = g_spawn_attempts s /\
  w_polled w' = w_polled w /\ w_pipe w' = w_pipe w /\ w_writes w' = w_writes w /\ same_counts w w' /\
  (alive = true -> s' = s).
Proof.
  intros [Hi Ha]. unfold child_alive. destruct (Z.leb_spec (g_pid s) 0); [done|].
  pose proof (waitpid_ok (g_pid s) w) as Hw. destruct (waitpid _ w) as [r w1]. destruct Hw as [Hq Hp].
  pose proof Hq as (Q1 & Q2 & Q3 & Q4 & Q5 & Q6 & Qc).
  assert (r <> WGone -> sink_inv base s w1) as Hk.
  { intros _. split; [by unfold one_or_none; rewrite Q1|]. intros p l Hl. destruct (decide (p = g_pid s)) as [->|Hx].
    - rewrite Hp in Hl. destruct r; [done|done|..]; by apply Ha in Hl; rewrite decide_True in Hl.
    - rewrite Qc in Hl by done. apply Ha in Hl. by rewrite decide_False in Hl. }
  destruct r; try (by split_and!; auto). destruct Hi as [(_ & ? & _)|(Hfd & _ & Hn & Ho)]; [lia|].
  rewrite (proj2 (Z.leb_le 0 _)) by done. split_and!; try done.
  - split; [left; split_and!; try done; cbn [close_w w_open]; rewrite Q1, Ho; set_solver|].
    exact (accounted_gone _ (mk_sink (-1) (-1) (g_respawns s) (g_spawn_attempts s)) _ _ Ha Qc (or_introl Hp) eq_refl).
  - split; [done|]. rewrite close_w_stray by (rewrite Q1, Ho; set_solver). done.
Qed.

(** Only the coming answers of [write] differ. *)
Definition kept (w w' : world) : Prop :=
  w_open w' = w_open w /\ w_children w' = w_children w /\ w_pipe w' = w_pipe w /\ w_polled w' = w_polled w /\
  same_counts w w'.

(** A write of a chunk: [k] more bytes reach the pipe, in at most 200 ms. *)
Lemma write_chunk_spec fuel data off waited s w :
  sink_inv base s w -> (off <= length data)%nat -> 0 <= waited <= 200 -> Z.divide 20 waited ->
  Z.of_nat (length data - off) + (200 - waited) / 20 + 1 < Z.of_nat fuel ->
  exists off' waited' stop s' w',
    write_chunk fuel data off waited s w = Ret (off', waited', stop, s', w') /\
    (off <= off' <= length data)%nat /\ waited <= waited' <= 200 /\ Z.divide 20 waited' /\
    (stop = false -> off' = length data) /\ sink_inv base s' w' /\
    g_respawns s' = g_respawns s /\ g_spawn_attempts s' = g_spawn_attempts s /\
    w_pipe w' = w_pipe w ++ sub data off (off' - off) /\ w_polled w' = w_polled w + (waited' - waited) /\
    same_counts w w'.
Proof.
  revert off waited s w. induction fuel as [|fuel IH]; intros off waited s w Hi Hoff Hw Hdiv Hf.
  { pose proof (Z.div_pos (200 - waited) 20 ltac:(lia) ltac:(lia)). lia. }
  assert (forall st w', (st = false -> off = length data) -> kept w w' ->
    exists off' waited' stop s' w'', Ret (off, waited, st, s, w') = Ret (off', waited', stop, s', w'') /\
    (off <= off' <= length data)%nat /\ waited <= waited' <= 200 /\ Z.divide 20 waited' /\
    (stop = false -> off' = length data) /\ sink_inv base s' w'' /\
    g_respawns s' = g_respawns s /\ g_spawn_attempts s' = g_spawn_attempts s /\
    w_pipe w'' = w_pipe w ++ sub data off (off' - off) /\ w_polled w'' = w_polled w + (waited' - waited) /\
    same_counts w w'') as Hstop.
  { intros st w' Hst (Q1 & Qc & Q3 & Q4 & Q5 & Q6). exists off, waited, st, s, w'.
    destruct Hi as [Hi Ha]. split; [done|]. split; [lia|]. split; [lia|]. split; [done|]. split; [done|].
    split; [split; [by unfold one_or_none; rewrite Q1|by eapply accounted_same; [| |exact Ha]]|].
    do 2 (split; [done|]). split; [|split; [lia|done]].
    by rewrite Nat.sub_diag, Q3; unfold sub; rewrite take_0, app_nil_r. }
  cbn [write_chunk]. destruct (Nat.ltb_spec off (length data)) as [Hlt|Hge]; [|apply Hstop; [lia|done]].
  destruct (w_writes w) as [|[n| |] l] eqn:El; [by apply Hstop| | |by apply Hstop].
  - destruct (Nat.ltb_spec 0 n) as [Hn|Hn]; [|by apply Hstop].
    set (k := Nat.min n (length data - off)).
    destruct (IH (off + k)%nat waited s (pipe_w (w_pipe w ++ sub data off k) l w))
      as (off' & wt & st & s' & w' & -> & H1 & H2 & H3 & H4 & H5 & H6 & H7 & H8 & H9 & H10);
      [exact Hi|unfold k; lia|done|done|unfold k; lia|].
    exists off', wt, st, s', w'. do 6 (split; [done || lia|]). do 2 (split; [done|]). split; [|by split].
    rewrite H8. cbn [pipe_w w_pipe]. rewrite <- app_assoc. f_equal.
    replace (off' - off)%nat with (k + (off' - (off + k)))%nat by lia. by rewrite sub_split.
  - unfold WRITE_WAIT_MS. destruct (Z.leb_spec 200 waited) as [Hx|Hx]; [by apply Hstop|].
    pose proof (child_alive_spec s (poll_w 20 l w) Hi) as Ha.
    destruct (child_alive s (poll_w 20 l w)) as [[alive s1] w1].
    destruct Ha as (Hi1 & A1 & A2 & A3 & A4 & A5 & [A7 A8] & A6). cbn [poll_w w_polled w_pipe w_writes w_spawns w_stray] in *.
    assert (waited + 20 <= 200) as Hw20 by (destruct Hdiv as [q ->]; lia).
    assert (Z.divide 20 (waited + 20)) as Hd20 by (apply Z.divide_add_r; [done|by exists 1]).
    destruct alive; cbn [negb].
    + destruct (IH off (waited + 20) s1 w1)
        as (off' & wt & st & s' & w' & -> & H1 & H2 & H3 & H4 & H5 & H6 & H7 & H8 & H9 & H10 & H11);
        [done|done|lia|done| |].
      { replace (200 - waited) with ((200 - (waited + 20)) + 1 * 20) in Hf by lia.
        rewrite Z.div_add in Hf by lia. lia. }
      exists off', wt, st, s', w'. unfold same_counts. split_and!; try apply H5; try done; try lia; congruence.
    + exists off, (waited + 20), true, s1, w1. unfold same_counts. split_and!; try apply Hi1; try done; try lia.
      by rewrite Nat.sub_diag, A4; unfold sub; rewrite take_0, app_nil_r.
Qed.

(** The samples a write scales, chunk [i] with the gain in force for it. *)
Definition scaled (gain : nat -> Z) (i : nat) (pcm : list Z) : list Z :=
  imap (fun k v => gained (gain (i + k / GAIN_BUF_N)%nat) v) pcm.

Lemma gain_buf_pos : (0 < GAIN_BUF_N)%nat.
Proof. unfold GAIN_BUF_N. lia. Qed.

Lemma scaled_chunk gain i pcm :
  scaled gain i pcm = apply_gain (gain i) (take GAIN_BUF_N pcm) ++ scaled gain (Datatypes.S i) (drop GAIN_BUF_N pcm).
Proof.
  pose proof gain_buf_pos as Hp. unfold scaled. rewrite <- (take_drop GAIN_BUF_N pcm) at 1. rewrite imap_app. f_equal.
  - unfold apply_gain. rewrite <- imap_const. apply imap_ext. intros k v Hk.
    apply lookup_take_Some in Hk as [_ Hk]. by rewrite Nat.div_small, Nat.add_0_r.
  - apply imap_ext. intros k v Hk. destruct (decide (length pcm <= GAIN_BUF_N)%nat) as [Hle|Hgt].
    { by rewrite drop_ge in Hk. }
    rewrite length_take, Nat.min_l by lia. do 2 f_equal.
    replace (GAIN_BUF_N + k)%nat with (k + 1 * GAIN_BUF_N)%nat by lia. rewrite Nat.div_add by lia. lia.
Qed.

Lemma pcm_bytes_app l1 l2 : pcm_bytes (l1 ++ l2) = pcm_bytes l1 ++ pcm_bytes l2.
Proof. unfold pcm_bytes. by rewrite map_app, List.concat_app. Qed.

Lemma pcm_bytes_length l : length (pcm_bytes l) = (2 * length l)%nat.
Proof. unfold pcm_bytes. induction l as [|v l IH]; [done|]. cbn [map List.concat]. rewrite length_app, IH. cbn. lia. Qed.

(** A write of samples: [n] bytes of theirs reach the pipe. *)
Record wrote (gain : nat -> Z) (i : nat) (pcm : list Z) (n : nat) (s s' : sink_t) (w w' : world) : Prop := {
  wr_inv : sink_inv base s' w';
  wr_attempts : g_spawn_attempts s' = g_spawn_attempts s;
  wr_counts : same_counts w w';
  wr_le : (n <= 2 * length pcm)%nat;
  wr_pipe : w_pipe w' = w_pipe w ++ take n (pcm_bytes (scaled gain i pcm));
}.

Lemma write_chunks_spec fuel gain i pcm acc waited s w :
  sink_inv base s w -> 0 <= waited <= 200 -> Z.divide 20 waited -> (length pcm < fuel)%nat ->
  exists n s' w', write_chunks fuel gain i pcm acc waited s w = Ret (acc + Z.of_nat (n / 2), s', w') /\
    wrote gain i pcm n s s' w w' /\ w_polled w <= w_polled w' <= w_polled w + (200 - waited).
Proof.
  revert i pcm acc waited s w. induction fuel as [|fuel IH]; intros i pcm acc waited s w Hi Hw Hd Hf; [lia|].
  cbn [write_chunks]. destruct pcm as [|v pcm].
  { exists 0%nat, s, w. split; [by rewrite Z.add_0_r|]. split; [|lia]. constructor; try done; first [by rewrite take_0, app_nil_r | cbn; lia]. }
  set (l := v :: pcm) in *. set (c := take GAIN_BUF_N l). set (data := pcm_bytes (apply_gain (gain i) c)).
  assert (length data = 2 * length c)%nat as Hlen
    by (unfold data, apply_gain; rewrite pcm_bytes_length, length_map; done).
  assert (length c <= length l)%nat as Hcl by (unfold c; rewrite length_take; lia).
  destruct (write_chunk_spec (chunk_fuel data) data 0 waited s w Hi)
    as (off & wt & st & s1 & w1 & -> & H1 & H2 & H3 & H4 & H5 & _ & H7 & H8 & H9 & H10); [lia|done|done| |].
  { unfold chunk_fuel. assert ((200 - waited) / 20 <= 10) by (apply Z.div_le_upper_bound; lia). lia. }
  cbn [rbind]. rewrite Nat.sub_0_r in H8. unfold sub in H8. rewrite drop_0 in H8.
  destruct st.
  - exists off, s1, w1. split; [done|]. split; [|lia]. constructor; try done; [lia|].
    rewrite scaled_chunk, pcm_bytes_app. fold c. fold data. by rewrite take_app_le by lia.
  - specialize (H4 eq_refl). pose proof gain_buf_pos as Hgp.
    destruct (IH (Datatypes.S i) (drop GAIN_BUF_N l) (acc + Z.of_nat (off / 2)) wt s1 w1)
      as (n & s2 & w2 & -> & [K1 K2 Kc K3 K4] & K5); [done|lia|done| |].
    { rewrite length_drop. unfold l in *. cbn [length] in *. lia. }
    exists (length data + n)%nat, s2, w2. split; [|split; [constructor|lia]].
    + do 3 f_equal. rewrite H4, Hlen. rewrite (Nat.mul_comm 2), Nat.div_mul by lia.
      rewrite Nat.add_comm, Nat.div_add by lia. lia.
    + done.
    + congruence.
    + destruct H10, Kc. split; congruence.
    + rewrite length_drop in K3. unfold c in Hlen. rewrite length_take in Hlen. lia.
    + rewrite K4, H8, H4, take_ge by done. rewrite (scaled_chunk gain i l), pcm_bytes_app. fold c. fold data.
      rewrite <- app_assoc. f_equal. rewrite take_app_ge by lia. f_equal. f_equal. lia.
Qed.

(** How many more processes may be started before the next open or flush. *)
Definition starts_left (s : sink_t) : Z := 1000 - g_spawn_attempts s.

(** The sink between calls. *)
Definition sink_ok (s : sink_t) (w : world) : Prop := sink_inv base s w /\ 0 <= g_spawn_attempts s <= 1000.

Lemma write_pcm_spec gain pcm s w :
  sink_inv base s w ->
  exists n s' w', write_pcm gain pcm s w = Ret (Z.of_nat (n / 2), s', w') /\
    wrote gain 0 pcm n s s' w w' /\ w_polled w <= w_polled w' <= w_polled w + 200.
Proof.
  intros Hi. destruct (write_chunks_spec (Datatypes.S (length pcm)) gain 0 pcm 0 0 s w Hi)
    as (n & s' & w' & E & Hw & Hp); [lia|by exists 0|lia|]. exists n, s', w'. split; [exact E|]. split; [done|lia].
Qed.

Lemma sink_write_spec gain pcm s w :
  sink_ok s w ->
  exists p0 n s' w', sink_write a gain pcm s w = Ret (Z.of_nat (n / 2), s', w') /\
    sink_ok s' w' /\ (n <= 2 * length pcm)%nat /\ (p0 = w_pipe w \/ p0 = []) /\
    w_pipe w' = p0 ++ take n (pcm_bytes (scaled gain 0 pcm)) /\
    w_polled w <= w_polled w' <= w_polled w + 200 /\
    w_spawns w' + starts_left s' <= w_spawns w + starts_left s /\ w_stray w' = w_stray w.
Proof.
  intros [Hi Ha]. unfold sink_write.
  assert (forall s' w', sink_ok s' w' -> w_pipe w' = w_pipe w -> w_polled w' = w_polled w ->
    w_spawns w' + starts_left s' <= w_spawns w + starts_left s -> w_stray w' = w_stray w ->
    exists p0 n s'' w'', Ret (0, s', w') = Ret (Z.of_nat (n / 2), s'', w'') /\
    sink_ok s'' w'' /\ (n <= 2 * length pcm)%nat /\ (p0 = w_pipe w \/ p0 = []) /\
    w_pipe w'' = p0 ++ take n (pcm_bytes (scaled gain 0 pcm)) /\
    w_polled w <= w_polled w'' <= w_polled w + 200 /\
    w_spawns w'' + starts_left s'' <= w_spawns w + starts_left s /\ w_stray w'' = w_stray w) as Hnone.
  { intros s' w' Ho Hp Hq Hn Hy. exists (w_pipe w), 0%nat, s', w'. rewrite take_0, app_nil_r.
    split; [done|]. split; [done|]. split; [lia|]. split; [by left|]. split; [done|]. split; [lia|done]. }
  destruct (length pcm =? 0)%nat; [by apply Hnone; try lia|]. unfold starts_left in *.
  pose proof (child_alive_spec s w Hi) as Hc. destruct (child_alive s w) as [[alive s1] w1].
  destruct Hc as (Hi1 & _ & C2 & C3 & C4 & _ & [C5 C6] & _). destruct alive.
  - destruct (write_pcm_spec gain pcm s1 w1 Hi1) as (n & s2 & w2 & -> & [K1 K2 [Kc Ky] K3 K4] & K5).
    exists (w_pipe w), n, s2, w2. split; [done|]. split; [split; [done|lia]|]. split; [done|]. split; [by left|].
    split; [congruence|]. split; [lia|]. split; [lia|congruence].
  - destruct (Z.leb_spec 1000 (g_spawn_attempts s1)); [apply Hnone; [split; [done|lia]|done|done|lia|done]|].
    set (s2 := mk_sink _ _ _ _).
    assert (sink_inv base s2 w1) as Hi2 by exact Hi1.
    pose proof (spawn_child_spec s2 w1 Hi2) as Hs. destruct (spawn_child a s2 w1) as [[rc s3] w3].
    destruct Hs as (Hi3 & _ & S2 & S3 & S4 & S5 & Hrc). unfold s2 in S2. cbn [g_spawn_attempts] in S2.
    destruct Hrc as [(-> & P & _)|(-> & P)]; cbn [Z.eqb].
    + destruct (write_pcm_spec gain pcm (mk_sink (g_wfd s3) (g_pid s3) (g_respawns s3 + 1) (g_spawn_attempts s3)) w3 Hi3)
        as (n & s4 & w4 & -> & [K1 K2 [Kc Ky] K3 K4] & K5). cbn [g_spawn_attempts] in K2.
      exists [], n, s4, w4. split; [done|]. split; [split; [done|lia]|]. split; [done|]. split; [by right|].
      split; [by rewrite K4, P|]. split; [lia|]. split; [lia|congruence].
    + apply Hnone; [split; [done|lia]|congruence|congruence|lia|congruence].
Qed.

(** Calls, in any order. *)
Inductive sink_op := SOpen | SWrite (gain : nat -> Z) (pcm : list Z) | SFlush | SClose.

Definition sink_do (o : sink_op) (s : sink_t) (w : world) : run (sink_t * world) :=
  match o with
  | SOpen => let '(_, s, w) := sink_open a s w in Ret (s, w)
  | SWrite gain pcm => let! (_, s, w) := sink_write a gain pcm s w in Ret (s, w)
  | SFlush => Ret (sink_flush a s w)
  | SClose => Ret (sink_close s w)
  end.

Fixpoint sink_run (ops : list sink_op) (s : sink_t) (w : world) : run (sink_t * world) :=
  match ops with
  | [] => Ret (s, w)
  | o :: ops => let! (s, w) := sink_do o s w in sink_run ops s w
  end.

Lemma reap_inv s w : sink_inv base s w -> let '(s', w') := reap s w in sink_inv base s' w' /\
  g_spawn_attempts s' = g_spawn_attempts s /\ w_polled w' = w_polled w /\ g_pid s' = -1 /\ w_open w' = base /\
  same_counts w w'.
Proof.
  intros Hi. pose proof (reap_spec base s w Hi) as Hr. destruct (reap s w) as [s' w'].
  destruct Hr as (-> & Ho & Ha & _ & Hp & _ & Hc). split; [split; [by left|done]|done].
Qed.

Lemma spawn_ok s w : sink_inv base s w -> 0 <= g_spawn_attempts s <= 1000 ->
  let '(_, s', w') := spawn_child a s w in sink_ok s' w' /\ w_polled w' = w_polled w /\
    g_spawn_attempts s' = g_spawn_attempts s /\ w_spawns w' <= w_spawns w + 1 /\ w_stray w' = w_stray w.
Proof.
  intros Hi Ha. pose proof (spawn_child_spec s w Hi) as Hs. destruct (spawn_child a s w) as [[rc s'] w'].
  destruct Hs as (Hi' & _ & Hx & Hp & Hn & Hy & _). split; [split; [done|lia]|]. split_and!; done || lia.
Qed.

(** The calls that begin to count anew. *)
Definition renews (o : sink_op) : Z := match o with SOpen | SFlush => 1 | SWrite _ _ | SClose => 0 end.
Definition renewals (ops : list sink_op) : Z := foldr (fun o n => renews o + n) 0 ops.

Lemma sink_do_spec o s w : sink_ok s w ->
  wp (sink_do o s w) (fun '(s', w') => sink_ok s' w' /\ w_polled w <= w_polled w' <= w_polled w + 200 /\
    w_spawns w' + starts_left s' <= w_spawns w + starts_left s + 1001 * renews o /\ w_stray w' = w_stray w).
Proof.
  intros [Hi Ha]. destruct o as [|gain pcm| |]; cbn [sink_do renews].
  - unfold sink_open. pose proof (spawn_ok (mk_sink (g_wfd s) (g_pid s) 0 0) w Hi ltac:(cbn; lia)) as Hs.
    destruct (spawn_child _ _ _) as [[rc s'] w']. destruct Hs as (Hs & Hp & Hx & Hn & Hy). cbn in Hx. cbn [wp].
    unfold starts_left. split; [done|]. split; [lia|]. split; [lia|done].
  - destruct (sink_write_spec gain pcm s w (conj Hi Ha)) as (p0 & n & s' & w' & -> & Ho & _ & _ & _ & Hp & Hn & Hy).
    cbn [rbind wp]. split; [done|]. split; [done|]. split; [lia|done].
  - unfold sink_flush. pose proof (reap_inv s w Hi) as Hr. destruct (reap s w) as [s1 w1].
    destruct Hr as (Hi1 & _ & Hp1 & _ & _ & [Hn1 Hy1]).
    pose proof (spawn_ok (mk_sink (g_wfd s1) (g_pid s1) (g_respawns s1) 0) w1 Hi1 ltac:(cbn; lia)) as Hs.
    destruct (spawn_child _ _ _) as [[rc s'] w']. destruct Hs as (Hs & Hp & Hx & Hn & Hy). cbn in Hx. cbn [wp].
    unfold starts_left. split; [done|]. split; [lia|]. split; [lia|congruence].
  - unfold sink_close. pose proof (reap_inv s w Hi) as Hr. destruct (reap s w) as [s1 w1].
    destruct Hr as (Hi1 & Hx & Hp1 & _ & _ & [Hn Hy]). cbn [wp]. unfold starts_left.
    split; [split; [done|lia]|]. split; [lia|]. split; [lia|done].
Qed.

Lemma sink_run_spec ops s w : sink_ok s w ->
  wp (sink_run ops s w) (fun '(s', w') => sink_ok s' w' /\
    w_spawns w' + starts_left s' <= w_spawns w + starts_left s + 1001 * renewals ops /\ w_stray w' = w_stray w).
Proof.
  revert s w. induction ops as [|o ops IH]; intros s w Hs; cbn [sink_run renewals foldr]; [split; [done|lia]|].
  eapply wp_bind, wp_mono; [by apply sink_do_spec|]. intros [s1 w1] (H1 & _ & H2 & H3).
  eapply wp_mono; [by apply IH|]. intros [s2 w2] (H4 & H5 & H6). fold (renewals ops).
  split; [done|]. split; [lia|congruence].
Qed.

(** ** Properties *)

(** C39: a write is bounded and hands over the samples in order.  Whatever the child
    and the kernel answer, [sink_write] returns after at most 200 ms of waiting in
    all, however many samples it is given; what reaches the pipe is the beginning
    of the scaled samples, chunk by chunk with the gain then in force, after what
    the pipe held, or first in the pipe of a child it has just started; and it
    reports the whole samples among those bytes. *)
Theorem sink_write_bounded gain pcm s w :
  sink_ok s w ->
  exists p0 n s' w', sink_write a gain pcm s w = Ret (Z.of_nat (n / 2), s', w') /\
    (n <= 2 * length pcm)%nat /\ (p0 = w_pipe w \/ p0 = []) /\
    w_pipe w' = p0 ++ take n (pcm_bytes (scaled gain 0 pcm)) /\
    w_polled w <= w_polled w' <= w_polled w + 200.
Proof.
  intros Hs. destruct (sink_write_spec gain pcm s w Hs) as (p0 & n & s' & w' & E & _ & H1 & H2 & H3 & H4 & _).
  by exists p0, n, s', w'.
Qed.

(** C28: the sink never leaks a descriptor or a child, and cannot storm.  After any
    sequence of calls, whichever steps of starting a child fail and however
    children die: the sink holds one descriptor and one child or neither, no other
    descriptor is open, and none was closed twice; every process it has started and
    nobody has waited for is that one child, unsignalled, or has been sent [SIGTERM],
    then [SIGKILL], and could not be reaped; and [posix_spawn] has been called at most
    1000 times, less the attempts already counted, and 1001 times more for each open
    or flush among the calls.  Closing the sink then leaves no descriptor and no
    child but those. *)
Theorem sink_owns_one_child ops s w :
  sink_ok s w ->
  wp (sink_run ops s w) (fun '(s', w') =>
    one_or_none base s' w' /\
    (forall p l, w_children w' !! p = Some l -> (0 < p /\ p = g_pid s' /\ l = []) \/ l = [SIGTERM; SIGKILL]) /\
    w_stray w' = w_stray w /\ w_spawns w' <= w_spawns w + (1000 - g_spawn_attempts s) + 1001 * renewals ops /\
    (sink_close s' w').1 = mk_sink (-1) (-1) (g_respawns s') (g_spawn_attempts s') /\
    w_open (sink_close s' w').2 = base /\ w_stray (sink_close s' w').2 = w_stray w /\
    forall p l, w_children (sink_close s' w').2 !! p = Some l -> l = [SIGTERM; SIGKILL]).
Proof.
  intros Hs. eapply wp_mono; [by apply sink_run_spec|]. intros [s' w'] ([[Hi Ha] Hat] & Hn & Hy).
  unfold starts_left in *. split; [done|]. split.
  { intros p l Hl. destruct (Ha _ _ Hl) as [H0 ->]. case_decide; [by left|by right]. }
  split; [done|]. split; [lia|]. unfold sink_close.
  pose proof (reap_spec base s' w' (conj Hi Ha)) as Hr. destruct (reap s' w') as [s2 w2]. cbn [fst snd].
  destruct Hr as (-> & Ho & Ha2 & _ & _ & _ & _ & Hy2). split; [done|]. split; [done|]. split; [congruence|].
  intros p l Hl. destruct (Ha2 _ _ Hl) as [H0 ->]. rewrite decide_False; [done|]. cbn. lia.
Qed.
End SinkProofs.

(** The gain never amplifies, and never leaves the 16 bits of a sample. *)
Lemma gained_quieter g v : 0 <= g <= 256 -> -32768 <= v < 32768 -> Z.abs (gained g v) <= Z.abs v.
Proof.
  intros Hg Hv. unfold gained. rewrite Z.shiftr_div_pow2 by lia. change (2 ^ 8) with 256.
  assert (- Z.abs v <= v * g / 256 <= Z.abs v) as Hq.
  { split; [apply Z.div_le_lower_bound; nia|]. apply Z.div_le_upper_bound; nia. }
  assert (v = -32768 \/ -32768 < v) as [->|Hv'] by lia.
  - assert (-32768 * g / 256 <= 0) by (apply Z.div_le_upper_bound; lia). rewrite s16_small; lia.
  - rewrite s16_small; lia.
Qed.

Example volume_ends powf : sink_set_volume powf 0 = 0 /\ sink_set_volume powf 100 = 256 /\ sink_set_volume powf (-1) = 0.
Proof. by vm_compute. Qed.

(** *** Witnesses: a child that takes five bytes and then blocks *)

Definition sample_answers : answers :=
  mk_answers None (fun o n => if decide (10 ∈ o \/ 11 ∈ o) then None else Some (10, 11))
    (fun c _ => if decide (700 ∈ c) then (if decide (701 ∈ c) then None else Some 701) else Some 700) (fun _ => true).

Lemma sample_answers_ok : AnswersOk sample_answers.
Proof.
  constructor.
  - intros o n r w. cbn. case_decide as Hd; intros [= <- <-]. split_and!; try lia; tauto.
  - intros c n p. cbn. repeat case_decide; intros [= <-]; by split; [lia|].
Qed.

Definition sample_world : world := mk_world {[3]} 0 [] [WWrote 5; WAgain; WAgain] ∅ [] 0 0 0.
Definition sample_pcm : list Z := [100; -100; 7].
Definition closed_sink : sink_t := mk_sink (-1) (-1) 0 0.

Lemma closed_sink_ok : sink_ok {[3]} closed_sink sample_world.
Proof. split; [split; [by left|by intros p l]|cbn; lia]. Qed.

Lemma sink_write_bounded_witness :
  exists p0 n s' w', sink_write sample_answers (fun _ => 128) sample_pcm closed_sink sample_world =
      Ret (Z.of_nat (n / 2), s', w') /\
    (n <= 2 * length sample_pcm)%nat /\ (p0 = w_pipe sample_world \/ p0 = []) /\
    w_pipe w' = p0 ++ take n (pcm_bytes (scaled (fun _ => 128) 0 sample_pcm)) /\
    w_polled sample_world <= w_polled w' <= w_polled sample_world + 200.
Proof.
  apply (sink_write_bounded sample_answers (AnswersOk0 := sample_answers_ok) {[3]}). exact closed_sink_ok.
Defined.

Definition sample_calls : list sink_op :=
  [SOpen; SWrite (fun _ => 256) [1; 2; 3]; SFlush; SWrite (fun _ => 256) [4]].

(** A child that cannot be reaped. *)
Definition stuck_world : world := mk_world {[3]} 0 (replicate 60 WRunning) [WWrote 5; WAgain; WAgain] ∅ [] 0 0 0.

Lemma sink_owns_one_child_witness :
  wp (sink_run sample_answers sample_calls closed_sink stuck_world) (fun '(s', w') =>
    one_or_none {[3]} s' w' /\
    (forall p l, w_children w' !! p = Some l -> (0 < p /\ p = g_pid s' /\ l = []) \/ l = [SIGTERM; SIGKILL]) /\
    w_stray w' = 0%nat /\ w_spawns w' <= w_spawns stuck_world + (1000 - 0) + 1001 * renewals sample_calls /\
    (sink_close s' w').1 = mk_sink (-1) (-1) (g_respawns s') (g_spawn_attempts s') /\
    w_open (sink_close s' w').2 = {[3]} /\ w_stray (sink_close s' w').2 = 0%nat /\
    forall p l, w_children (sink_close s' w').2 !! p = Some l -> l = [SIGTERM; SIGKILL]).
Proof.
  apply (sink_owns_one_child sample_answers (AnswersOk0 := sample_answers_ok) {[3]}).
  split; [split; [by left|by intros p l]|cbn; lia].
Defined.

(** There it is left behind, with both signals. *)
Example stuck_child_left :
  (fun sw => map_to_list (w_children (sw : sink_t * world).2)) <$>
    match sink_run sample_answers sample_calls closed_sink stuck_world with Ret r => Some r | _ => None end =
  Some [(701, []); (700, [SIGTERM; SIGKILL])].
Proof. by vm_compute. Qed.
