(* ===== verification/Volume.v ===== *)
(** * The volume, from the sender's text to the samples
    ([src/rtsp.c], [src/main.c], [src/sink.cpp])

    What a sender asks for becomes a percentage in the session machine, goes through
    the server to the player, and becomes the factor of every sample. *)
From Stdlib Require Import ZArith Lia String SpecFloat.
From stdpp Require Import base numbers list gmap.
From S2P Require Import Prelude Sink Rtp RtspMsg RaopVolume Rtsp Bodycap DacpState AlacShim Session ServerState Server ServerInv ServerProps Daemon.

Local Open Scope Z_scope.

(** The factor of the gain, for any percentage. *)
Lemma gain_range (powf : spec_float -> spec_float -> spec_float) pct :
  (forall y, y <> S754_nan -> proper (powf (flt 10) y)) -> 0 <= sink_set_volume powf pct <= 256.
Proof.
  intros Hp. unfold sink_set_volume. cbv zeta. set (g0 := if pct <=? 0 then _ else _).
  assert (proper g0) as Hg.
  { unfold g0. destruct (Z.leb_spec pct 0); [by split|]. destruct (Z.leb_spec 100 pct); [by split|]. apply Hp.
    assert (forallb (fun n => negb (is_nan (SFdiv 24 128 (SFsub 24 128 (SFmul 24 128 (SFdiv 24 128 (flt (Z.of_nat n)) (flt 100)) (flt 30))
      (flt 30)) (flt 20)))) (List.seq 1 99) = true) as Hall by by vm_compute.
    rewrite forallb_forall in Hall. specialize (Hall (Z.to_nat pct) ltac:(apply in_seq; lia)). rewrite Z2Nat.id in Hall by lia.
    intros E. by rewrite E in Hall. }
  pose proof (clamped_upto g0 Hg) as Hc. cbn zeta in Hc. set (g1 := if SFltb (flt 1) _ then _ else _) in *.
  destruct flt_consts as (_ & _ & H256 & _). assert (0 < EPS /\ 256 * ONE + EPS + ONE / 2 + EPS < 257 * ONE) as [He Hs] by done.
  assert (0 < ONE /\ 0 < ONE / 2 /\ 257 * ONE <= 2 ^ 209) as (Ho & Hh & Hb) by done.
  eapply to_int_upto; [eapply add_upto; [| | |apply (mul_upto 256 ONE); [exact H256|..|exact Hc]|exact half_upto]| |].
  all: unfold INT_MAX; lia.
Qed.

Definition sample_ok (v : Z) : Prop := -32768 <= v < 32768.

(** ** The samples *)

Lemma apply_gain_quiet g pcm : 0 <= g <= 256 -> Forall sample_ok pcm ->
  Forall2 (fun v y => Z.abs y <= Z.abs v /\ sample_ok y) pcm (apply_gain g pcm).
Proof.
  intros Hg. induction 1 as [|v pcm Hv _ IH]; cbn; constructor; [|done]. split; [by apply gained_quieter|].
  unfold sample_ok, gained. apply s16_range.
Qed.

Lemma apply_gain_mute pcm : apply_gain 0 pcm = replicate (length pcm) 0.
Proof. induction pcm as [|v pcm IH]; [done|]. cbn. unfold gained at 1. rewrite Z.mul_0_r. by rewrite <- IH. Qed.

Lemma apply_gain_unity pcm : Forall sample_ok pcm -> apply_gain 256 pcm = pcm.
Proof.
  induction 1 as [|v pcm Hv _ IH]; [done|]. cbn. f_equal; [|done]. unfold gained.
  rewrite Z.shiftr_div_pow2 by lia. change (2 ^ 8) with 256. rewrite Z.div_mul by lia. by apply s16_small.
Qed.

Section Volume.
Context `{DM : DataModel} {S : Type} (api : session_api S) `{L : !SessionLaws api}.
Context (base : res_t) (rsa_private : bytes -> option bytes).
Context (rsa_in_place : forall blk s, rsa_private blk = Some s -> length s = length blk /\ bytes_ok s).
Context (d : disk) `{!DiskOk d} (ka : answers) `{!KernelOk ka} (Hbase : r_sink base = false).

(** C19: no volume a sender can ask for amplifies a sample or takes it out of its 16
    bits.  In every state of the daemon, whatever texts senders have sent as a volume,
    the volume a session would start with and the one last passed to a player are
    percentages; the player's factor for any percentage is between 0 and 1; and every
    sample comes out as a 16-bit value no greater in magnitude.  At 0 the output is
    silence, at 100 it is the input, bit for bit.  This holds with every rounding of
    the two single-precision formulas; of the C library's [powf] it needs that powers
    of ten are numbers of the format. *)
Theorem volume_never_amplifies x (powf : spec_float -> spec_float -> spec_float) pcm :
  served api base rsa_private d ka x -> (forall y, y <> S754_nan -> proper (powf (flt 10) y)) ->
  Forall sample_ok pcm ->
  (let v := pending_volume_pct (rtsp (srv x)) in 0 <= (if 0 <=? v then v else DEFAULT_VOL) <= 100) /\
  (forall v, p_volume (prc x) = Some v -> 0 <= v <= 100) /\
  (forall pct, let g := sink_set_volume powf pct in
    0 <= g <= 256 /\ Forall2 (fun v y => Z.abs y <= Z.abs v /\ sample_ok y) pcm (apply_gain g pcm)) /\
  apply_gain (sink_set_volume powf 0) pcm = replicate (length pcm) 0 /\
  apply_gain (sink_set_volume powf 100) pcm = pcm.
Proof.
  intros Hx Hp Hs. destruct (served_sinv api base rsa_private rsa_in_place d ka Hbase x Hx) as (Hg & _).
  destruct (g_vol _ _ _ Hg) as [Hv _]. split; [|split; [exact (c_vol _ _ _ (g_core _ _ _ Hg))|]].
  { cbn zeta. unfold DEFAULT_VOL. destruct (Z.leb_spec 0 (pending_volume_pct (rtsp (srv x)))); lia. }
  destruct (volume_ends powf) as (-> & -> & _). split; [|split; [apply apply_gain_mute|by apply apply_gain_unity]].
  intros pct. cbn zeta. split; [by apply gain_range|]. apply apply_gain_quiet; [by apply gain_range|done].
Qed.
End Volume.

(** *** Witness: "volume: -14.5" while a session plays *)

Definition talk_volume_request : bytes :=
  wire ["SET_PARAMETER rtsp://x/1 RTSP/1.0"; "CSeq: 4"; "Content-Length: 18"; ""]%string ++ str "volume: -14.500000".

Definition talk_quieter : st (threaded unit) := talk_turn (talk_piece talk_volume_request) talk_playing.

(** Powers of ten of the whole part, as far as a thousandth. *)
Definition whole_powers (x y : spec_float) : spec_float :=
  SFdiv 24 128 (flt 1) (flt (10 ^ Z.max 0 (Z.min 3 (- to_int y)))).

Lemma whole_powers_proper y : y <> S754_nan -> proper (whole_powers (flt 10) y).
Proof.
  intros _. unfold whole_powers. set (n := Z.max 0 _). assert (0 <= n <= 3) as Hn by (unfold n; lia). clearbody n.
  assert (n = 0 \/ n = 1 \/ n = 2 \/ n = 3) as [->|[->|[->| ->]]] by lia; by split; vm_compute.
Qed.

Lemma talk_quieter_served : @served ilp32 (threaded unit) talk_ops talk_laws sample_res no_rsa slow_disk talk_kernel talk_quieter.
Proof.
  apply talk_step; [exact talk_playing_served|by apply talk_piece_ok; vm_compute|]. eexists. by vm_compute.
Qed.

Lemma volume_never_amplifies_witness :
  p_volume (prc talk_quieter) = Some 52 /\ sink_set_volume whole_powers 20 = 26 /\
  0 <= sink_set_volume whole_powers 52 <= 256 /\
  Forall2 (fun v y => Z.abs y <= Z.abs v /\ sample_ok y) [100; -32768; 7] (apply_gain (sink_set_volume whole_powers 52) [100; -32768; 7]) /\
  apply_gain (sink_set_volume whole_powers 100) [100; -32768; 7] = [100; -32768; 7].
Proof.
  split; [by vm_compute|]. split; [by vm_compute|].
  destruct (volume_never_amplifies talk_ops (L := talk_laws) sample_res no_rsa no_rsa_in_place slow_disk (DiskOk0 := slow_disk_ok) talk_kernel
    (KernelOk0 := talk_kernel_ok) eq_refl talk_quieter whole_powers [100; -32768; 7] talk_quieter_served whole_powers_proper)
    as (_ & _ & H & _ & E).
  - repeat constructor; lia.
  - destruct (H 52) as [H1 H2]. split; [exact H1|]. split; [exact H2|exact E].
Defined.
