(* ===== verification/Playback.v ===== *)
(** * From the player to the child's pipe

    [session_sink_write_all] of [src/session.c] pushing samples through
    [sink_write] of [src/sink.cpp]: the loop of [Session] with the sink of [Sink] in
    place of its answers.  A [write] takes any number of bytes, also half a sample. *)
From Stdlib Require Import ZArith Lia String.
From stdpp Require Import base numbers list gmap.
From S2P Require Import Prelude Session Sink.

Local Open Scope Z_scope.

(** What one iteration meets: the session's flags, and the gain in force for each
    chunk. *)
Record push_obs := mk_push { pu_gen : Z; pu_threads_up : bool; pu_running : bool; pu_gain : nat -> Z }.

(** The session's view of an iteration in which the sink accepts [accepted]. *)
Definition seen_as (o : push_obs) (accepted : Z) : sink_obs :=
  mk_obs (pu_gen o) (pu_threads_up o) (pu_running o) accepted.

Section Push.
Context (a : answers).

(** The loop from offset [off]; [None] while it still runs when the observations
    end. *)
Fixpoint push_loop (obs : list push_obs) (pcm : list Z) (off retries abort_gen : Z) (s : sink_t) (w : world) :
    run (option (Z * sink_t * world)) :=
  if Z.of_nat (length pcm) <=? off then Ret (Some (off, s, w))
  else
    match obs with
    | [] => Ret None
    | o :: obs =>
        if write_check (seen_as o 0) abort_gen then
          let! (accepted, s, w) := sink_write a (pu_gain o) (drop (Z.to_nat off) pcm) s w in
          match write_put accepted (Z.of_nat (length pcm)) off retries with
          | None => Ret (Some (off, s, w))
          | Some (off, retries) => push_loop obs pcm off retries abort_gen s w
          end
        else Ret (Some (off, s, w))
    end.

Definition push_all (obs : list push_obs) (pcm : list Z) (abort_gen : Z) (s : sink_t) (w : world) :
    run (option (Z * sink_t * world)) :=
  if Z.of_nat (length pcm) <=? 0 then Ret (Some (0, s, w)) else push_loop obs pcm 0 0 abort_gen s w.

(** ** What the child has been given *)

Context `{!AnswersOk a} (base : gset Z) (G : Z -> Prop).

(** A sample scaled by a gain in force. *)
Definition scaled_by (v y : Z) : Prop := exists g, G g /\ y = gained g v.

Lemma scaled_forall gain i l : (forall k, G (gain k)) -> Forall2 scaled_by l (scaled gain i l).
Proof.
  intros Hg. unfold scaled. apply Forall2_lookup. intros k. rewrite list_lookup_imap.
  destruct (l !! k) as [v|]; cbn; constructor. by eexists.
Qed.

Lemma take_pcm_bytes k l : take (2 * k) (pcm_bytes l) = pcm_bytes (take k l).
Proof.
  revert l. induction k as [|k IH]; intros [|v l]; try done.
  replace (2 * S k)%nat with (S (S (2 * k))) by lia.
  change (pcm_bytes (v :: l)) with (u8 v :: u8 (Z.shiftr v 8) :: pcm_bytes l). cbn [take].
  change (pcm_bytes (v :: take k l)) with (u8 v :: u8 (Z.shiftr v 8) :: pcm_bytes (take k l)). by rewrite IH.
Qed.

(** What the calls of the sink put in one child's pipe.  Each call offers the samples
    not committed yet, from [off] on, scaled by gains in force; the kernel takes [n]
    of their bytes, the halves of a sample apart if it likes, and the whole samples
    among them are committed.  [fed pcm start off ns b]: calls that took the byte
    counts [ns] have committed the samples from [start] to [off], and the pipe has got
    the bytes [b]. *)
Inductive fed (pcm : list Z) (start : nat) : nat -> list nat -> bytes -> Prop :=
  | fed_none : fed pcm start start [] []
  | fed_call off ns b ys n :
      fed pcm start off ns b -> Forall2 scaled_by (drop off pcm) ys -> (n <= 2 * length ys)%nat ->
      fed pcm start (off + n / 2) (ns ++ [n]) (b ++ take n (pcm_bytes ys)).

(** The pipe after [off] samples of [pcm] have been committed: what it held, [p0],
    and what the calls fed it; or, in a child started at sample [start], what they fed
    that child. *)
Definition played (p0 : bytes) (pcm : list Z) (off : nat) (w : world) : Prop :=
  exists start p ns b, (start <= off)%nat /\ (p = p0 /\ start = 0%nat \/ p = []) /\
    w_pipe w = p ++ b /\ fed pcm start off ns b.

Lemma played_start pcm w : played (w_pipe w) pcm 0 w.
Proof. exists 0%nat, (w_pipe w), [], []. split; [done|]. split; [by left|]. split; [by rewrite app_nil_r|constructor]. Qed.

Lemma fed_le pcm start off ns b : fed pcm start off ns b -> (start <= off)%nat.
Proof. induction 1; lia. Qed.

(** While the kernel takes whole samples, the child gets the committed ones. *)
Lemma fed_whole pcm start off ns b : fed pcm start off ns b -> Forall Nat.Even ns ->
  exists ys, b = pcm_bytes ys /\ Forall2 scaled_by (sub pcm start (off - start)) ys.
Proof.
  induction 1 as [|off ns b ys n Hf IH Hys Hn]; intros He.
  { exists []. split; [done|]. rewrite Nat.sub_diag. unfold sub. rewrite take_0. constructor. }
  apply Forall_app in He as [He Hlast]. apply Forall_cons_1 in Hlast as [[k ->] _].
  destruct (IH He) as (zs & -> & Hzs). pose proof (fed_le _ _ _ _ _ Hf).
  exists (zs ++ take k ys). rewrite take_pcm_bytes, pcm_bytes_app. split; [done|].
  rewrite (Nat.mul_comm 2 k), Nat.div_mul by lia.
  replace (off + k - start)%nat with ((off - start) + k)%nat by lia. rewrite sub_split.
  apply Forall2_app; [done|]. replace (start + (off - start))%nat with off by lia. by apply Forall2_take.
Qed.

(** One call of the sink. *)
Lemma push_step p0 gain pcm off s w :
  sink_ok base s w -> (forall i, G (gain i)) -> (off <= length pcm)%nat -> played p0 pcm off w ->
  exists k s' w', sink_write a gain (drop off pcm) s w = Ret (Z.of_nat k, s', w') /\ (off + k <= length pcm)%nat /\
    sink_ok base s' w' /\ played p0 pcm (off + k) w'.
Proof.
  intros Hs Hg Hoff (start & p & ns & b & Hst & Hp & Epipe & Hf).
  destruct (sink_write_spec a base gain (drop off pcm) s w Hs) as (q & n & s' & w' & E & Hs' & Hn & Hq & Epipe' & _).
  rewrite length_drop in Hn. rewrite E. exists (n / 2)%nat, s', w'. split; [done|].
  assert (n / 2 <= length pcm - off)%nat as Hhalf by (apply Nat.Div0.div_le_upper_bound; lia).
  split; [lia|]. split; [done|].
  pose proof (scaled_forall gain 0 (drop off pcm) Hg) as Hz.
  assert (n <= 2 * length (scaled gain 0 (drop off pcm)))%nat as Hlen
    by (rewrite <- (Forall2_length _ _ _ Hz), length_drop; lia).
  destruct Hq as [->| ->].
  - exists start, p, (ns ++ [n]), (b ++ take n (pcm_bytes (scaled gain 0 (drop off pcm)))).
    split; [lia|]. split; [done|]. split; [by rewrite Epipe', Epipe, app_assoc|]. by constructor.
  - exists off, [], [n], (take n (pcm_bytes (scaled gain 0 (drop off pcm)))).
    split; [lia|]. split; [by right|]. split; [done|].
    apply (fed_call pcm off off [] [] _ n); [constructor|done..].
Qed.

Lemma push_samples_spec p0 obs pcm off r g s w :
  sink_ok base s w -> Forall (fun o => forall i, G (pu_gain o i)) obs -> (off <= length pcm)%nat ->
  0 <= r <= 200 -> (Z.of_nat (length pcm) - Z.of_nat off) * 201 + (201 - r) <= Z.of_nat (length obs) ->
  played p0 pcm off w ->
  exists off' s' w' acc chunks, push_loop obs pcm (Z.of_nat off) r g s w = Ret (Some (Z.of_nat off', s', w')) /\
    (off' <= length pcm)%nat /\ sink_ok base s' w' /\ played p0 pcm off' w' /\
    length acc = length obs /\
    Session.write_loop (zip_with seen_as obs acc) (Z.of_nat (length pcm)) (Z.of_nat off) r g = Some (Z.of_nat off', chunks).
Proof.
  revert off r s w. induction obs as [|o obs IH]; intros off r s w Hs Hg Hoff Hr Hlen Hp;
    cbn [push_loop length] in *.
  { destruct (Z.leb_spec (Z.of_nat (length pcm)) (Z.of_nat off)); [|lia].
    exists off, s, w, [], []. cbn [zip_with Session.write_loop]. rewrite (proj2 (Z.leb_le _ _)) by lia. do 5 (split; [done|]). done. }
  destruct (Z.leb_spec (Z.of_nat (length pcm)) (Z.of_nat off)) as [Hd|Hd].
  { exists off, s, w, (replicate (S (length obs)) 0), []. cbn [replicate zip_with Session.write_loop length].
    rewrite (proj2 (Z.leb_le _ _)), length_replicate by lia. do 5 (split; [done|]). done. }
  destruct (write_check (seen_as o 0) g) eqn:Ec.
  2:{ exists off, s, w, (replicate (S (length obs)) 0), []. cbn [replicate zip_with Session.write_loop length].
      rewrite (proj2 (Z.leb_gt _ _)), Ec, length_replicate by lia. do 5 (split; [done|]). done. }
  apply Forall_cons in Hg as [Ho Hg]. rewrite Nat2Z.id.
  destruct (push_step p0 (pu_gain o) pcm off s w Hs Ho Hoff Hp) as (k & s1 & w1 & -> & Hk & Hs1 & Hp1).
  cbn [rbind].
  assert (forall acc, Session.write_loop (zip_with seen_as (o :: obs) (Z.of_nat k :: acc)) (Z.of_nat (length pcm)) (Z.of_nat off) r g =
    match write_put (Z.of_nat k) (Z.of_nat (length pcm)) (Z.of_nat off) r with
    | None => Some (Z.of_nat off, [])
    | Some (off', r') => '(x, ch) ← Session.write_loop (zip_with seen_as obs acc) (Z.of_nat (length pcm)) off' r' g;
        Some (x, if off' =? Z.of_nat off then ch else (Z.of_nat off, off' - Z.of_nat off) :: ch)
    end) as Hwl.
  { intros acc. cbn [zip_with Session.write_loop]. rewrite (proj2 (Z.leb_gt _ _)) by lia.
    change (write_check (seen_as o (Z.of_nat k)) g) with (write_check (seen_as o 0) g). by rewrite Ec. }
  unfold write_put in *. rewrite Z.min_l in * by lia. rewrite (proj2 (Z.ltb_ge (Z.of_nat k) 0)) in * by lia.
  destruct (Z.eqb_spec (Z.of_nat k) 0) as [E0|E0].
  - assert (k = 0%nat) as -> by lia. rewrite Nat.add_0_r in Hp1. unfold MAX_BACKOFF_RETRIES in *.
    destruct (Z.ltb_spec 200 (r + 1)).
    + exists off, s1, w1, (0 :: replicate (length obs) 0), []. cbn [length]. rewrite length_replicate.
      do 5 (split; [done|]). apply Hwl.
    + destruct (IH off (r + 1) s1 w1) as (off' & s' & w' & acc & ch & -> & I1 & I2 & I4 & I5 & I6); [done|done|done|lia|lia|done|].
      eexists off', s', w', (0 :: acc), _. cbn [length]. rewrite I5.
      do 5 (split; [done|]).
      etrans; [apply Hwl|]. by rewrite I6.
  - destruct (IH (off + k)%nat 0 s1 w1) as (off' & s' & w' & acc & ch & E & I1 & I2 & I4 & I5 & I6); [done|done|lia|lia|lia|done|].
    rewrite Nat2Z.inj_add in E, I6. rewrite E.
    eexists off', s', w', (Z.of_nat k :: acc), _. cbn [length]. rewrite I5.
    do 5 (split; [done|]).
    etrans; [apply Hwl|]. by rewrite I6.
Qed.
End Push.

(** ** Properties *)

Definition gain_ok (g : Z) : Prop := 0 <= g <= 256.

(** C17: what the session commits is what the child is given.  The loop that pushes
    decoded samples through the sink always ends, and is the session's loop with
    the counts the sink reports.  Whatever the kernel answers, and however often the
    child dies and is started again, the pipe holds after it, after what it held before
    or alone in a child started on the way, what each call of the sink put there: a
    beginning, cut at any byte, of the samples not committed before the call, each
    scaled by a gain in force, whose whole samples the call committed.  So in every run
    in which no call was left with half a sample (each took an even number of bytes),
    the child has exactly the committed samples, in order and without a gap: none is
    repeated, split or shifted. *)
Theorem samples_reach_child a `{!AnswersOk a} base obs pcm g s w :
  sink_ok base s w -> Forall (fun o => forall i, gain_ok (pu_gain o i)) obs ->
  Z.of_nat (length pcm) * 201 + 201 <= Z.of_nat (length obs) ->
  exists off s' w' acc chunks, push_all a obs pcm g s w = Ret (Some (Z.of_nat off, s', w')) /\
    (off <= length pcm)%nat /\ sink_ok base s' w' /\ length acc = length obs /\
    session_sink_write_all (zip_with seen_as obs acc) (Z.of_nat (length pcm)) g = Some (Z.of_nat off, chunks) /\
    exists start p ns b, (start <= off)%nat /\ (p = w_pipe w /\ start = 0%nat \/ p = []) /\ w_pipe w' = p ++ b /\
      fed gain_ok pcm start off ns b /\
      (Forall Nat.Even ns ->
       exists ys, b = pcm_bytes ys /\ Forall2 (scaled_by gain_ok) (sub pcm start (off - start)) ys).
Proof.
  intros Hs Hg Hlen.
  assert (exists off s' w' acc chunks, push_all a obs pcm g s w = Ret (Some (Z.of_nat off, s', w')) /\
    (off <= length pcm)%nat /\ sink_ok base s' w' /\ length acc = length obs /\
    session_sink_write_all (zip_with seen_as obs acc) (Z.of_nat (length pcm)) g = Some (Z.of_nat off, chunks) /\
    played gain_ok (w_pipe w) pcm off w') as (off & s' & w' & acc & ch & E & I1 & I2 & I3 & I4 & start & p & ns & b & Hp).
  { unfold push_all, session_sink_write_all. destruct (Z.leb_spec (Z.of_nat (length pcm)) 0).
    { exists 0%nat, s, w, (replicate (length obs) 0), []. rewrite length_replicate.
      do 5 (split; [first [done|lia]|]). apply played_start. }
    destruct (push_samples_spec a base gain_ok (w_pipe w) obs pcm 0 0 g s w Hs Hg)
      as (off & s' & w' & acc & ch & E & I1 & I2 & I4 & I5 & I6); [lia|lia|lia|apply played_start|].
    exists off, s', w', acc, ch. by split_and!. }
  exists off, s', w', acc, ch. do 5 (split; [done|]). exists start, p, ns, b.
  destruct Hp as (P1 & P2 & P3 & P4). do 4 (split; [done|]). by apply fed_whole.
Qed.

(** A child that takes a sample and a half and, when asked again, the rest. *)
Definition split_world : world := mk_world {[3]} 0 [] [WWrote 3; WAgain; WAgain; WWrote 3] ∅ [] 0 0 0.
Definition sample_push : list push_obs := replicate 804 (mk_push 7 true true (fun _ => 128)).

Lemma samples_reach_child_witness :
  exists off s' w', push_all sample_answers sample_push sample_pcm 7 closed_sink split_world = Ret (Some (Z.of_nat off, s', w')) /\
    exists start p ns b, (start <= off)%nat /\ (p = [] /\ start = 0%nat \/ p = []) /\ w_pipe w' = p ++ b /\
      fed gain_ok sample_pcm start off ns b.
Proof.
  destruct (samples_reach_child sample_answers (AnswersOk0 := sample_answers_ok) {[3]} sample_push sample_pcm 7 closed_sink split_world)
    as (off & s' & w' & acc & ch & E & _ & _ & _ & _ & start & p & ns & b & H1 & H2 & H3 & H4 & _).
  - split; [split; [by left|by intros p l]|cbn; lia].
  - apply Forall_replicate. intros i. split; cbn; lia.
  - vm_compute. discriminate.
  - exists off, s', w'. split; [exact E|]. exists start, p, ns, b.
    split; [exact H1|]. split; [exact H2|]. split; [exact H3|exact H4].
Defined.

(** Nothing makes the kernel take whole samples.  When it takes an odd number of
    bytes before the write is given up, the second half of that sample is never
    sent: its first half is sent again, and every later sample is shifted by a
    byte. *)
Lemma odd_write_shifts :
  exists s' w', push_all sample_answers (replicate 804 (mk_push 7 true true (fun _ => 256))) [1; 2; 3] 7
      (mk_sink 5 700 0 0) (mk_world {[5]} 0 (replicate 20 WRunning) ([WWrote 3] ++ replicate 11 WAgain ++ [WWrote 4]) ∅ [] 0 0 0) =
    Ret (Some (3, s', w')) /\ w_pipe w' = [1; 0; 2; 2; 0; 3; 0].
Proof. eexists _, _. split; [by vm_compute|done]. Qed.
