(* ===== verification/Startup.v ===== *)
(** * Start-up and shutdown ([src/main.c], [src/daemon.c], [src/raop_mdns.c])

    The choice of the network interface, the service advertisement, the lock and
    the pidfile, and the order in which [main] takes things up and gives them
    back. *)
From Stdlib Require Import ZArith Lia String.
From stdpp Require Import base numbers list gmap.
From S2P Require Import Prelude Rtp Rtsp Bodycap RaopName ServerState Server.

Local Open Scope Z_scope.

(** ** The primary interface *)

(** One entry of [getifaddrs]: a name, the flags, and either an IPv4 address or a
    link address. *)
Inductive if_addr := IfInet (ip : bytes) | IfPacket (mac : bytes) | IfOther.

Record ifent := mk_if { if_name : bytes; if_up : bool; if_loopback : bool; if_address : if_addr }.

Record choice := mk_choice { have_chosen : option (bytes * bytes); have_fallback : option (bytes * bytes) }.

Definition is_usb (n : bytes) : bool := prefixb (str "usb") n.

(** The scan of the entries; [want] is AIRPLAY_IFACE. *)
Fixpoint scan_ifs (want : option bytes) (l : list ifent) (c : choice) : choice :=
  match l with
  | [] => c
  | p :: l =>
      match if_address p with
      | IfInet a =>
          if negb (if_up p) || if_loopback p then scan_ifs want l c
          else
            match want with
            | Some w =>
                if bytes_eqb (if_name p) w then mk_choice (Some (a, if_name p)) (have_fallback c)
                else scan_ifs want l c
            | None =>
                if negb (is_usb (if_name p)) then
                  scan_ifs want l (mk_choice (match have_chosen c with Some x => Some x | None => Some (a, if_name p) end)
                                     (have_fallback c))
                else
                  scan_ifs want l (mk_choice (have_chosen c)
                                     (match have_fallback c with Some x => Some x | None => Some (a, if_name p) end))
            end
      | _ => scan_ifs want l c
      end
  end.

(** The link address of the interface of that name, or zeros. *)
Fixpoint mac_of (name : bytes) (l : list ifent) : bytes :=
  match l with
  | [] => replicate 6 0
  | p :: l =>
      match if_address p with
      | IfPacket m =>
          if bytes_eqb (if_name p) name then (if (length m =? 6)%nat then m else replicate 6 0) else mac_of name l
      | _ => mac_of name l
      end
  end.

(** The address and the MAC; [None] when there is no interface. *)
Definition resolve_primary (want : option bytes) (ifs : option (list ifent)) : option (bytes * bytes) :=
  match ifs with
  | None => None
  | Some l =>
      let c := scan_ifs want l (mk_choice None None) in
      match have_chosen c with
      | Some (a, n) => Some (a, mac_of n l)
      | None =>
          match have_fallback c with
          | Some (a, n) => Some (a, mac_of n l)
          | None => None
          end
      end
  end.

(** ** The advertisement *)

Definition MAX_TXT_ENTRIES : nat := 32.

(** The loop of [split_txt]: [left] more cuts may be made, [cur] is the piece so far. *)
Fixpoint split_loop (left : nat) (cur s : bytes) : list bytes :=
  match s with
  | [] => [cur]
  | c :: s' =>
      match left with
      | O => [cur ++ s]
      | S left' => if c =? 10 then cur :: split_loop left' [] s' else split_loop left (cur ++ [c]) s'
      end
  end.

Definition split_txt (txt : bytes) (max : nat) : list bytes :=
  match txt with
  | [] => []
  | _ => split_loop (max - 2) [] txt
  end.

(** A registered service, and the state [g_svr], [g_svc]. *)
Record service := mk_service { sv_name : bytes; sv_type : bytes; sv_port : Z; sv_txt : list bytes }.
Record mdns_t := mk_mdns { g_svr : bool; g_svc : option service }.

(** [start], [dup], [reg]: what the responder, [strdup] and the registration answer. *)
Definition raop_mdns_start (start dup reg : bool) (name : bytes) (port : Z) (txt : bytes) (m : mdns_t) : Z * mdns_t :=
  if g_svr m then (-1, m)
  else if negb start then (-1, m)
  else if negb dup then (-1, m)
  else if negb reg then (-1, m)
  else (0, mk_mdns true (Some (mk_service name (str "_raop._tcp.local") (u16 port) (split_txt txt MAX_TXT_ENTRIES)))).

Definition raop_mdns_stop (m : mdns_t) : mdns_t := mk_mdns false None.

(** ** The lock and the pidfile ([src/daemon.c]) *)

(** [open] and [flock]: the descriptor held, if any. *)
Definition raopd_lock_acquire (fd : Z) (locked : bool) : Z :=
  if fd <? 0 then -1 else if negb locked then -1 else fd.

Definition pub_tmp (path : bytes) (self : Z) : bytes := take 511 (path ++ str ".tmp." ++ print_d self).

Definition raopd_pid_publish (d : disk) (path : bytes) (pid self : Z) (close_ok : bool) (f : fs) : run (Z * fs) :=
  let tmp := pub_tmp path self in
  let '(ok, f) := sys_open d tmp f in
  if negb ok then Ret (-1, f)
  else
    let text := print_d pid ++ [10] in
    let! w := write_loop d (S (length text)) tmp text f in
    if w.1 || negb close_ok then Ret (-1, sys_unlink tmp w.2)
    else
      let '(r, f) := sys_rename d tmp path w.2 in
      if r then Ret (0, f) else Ret (-1, sys_unlink tmp f).

(** [fscanf("%ld")]: the number at the start of the text, if there is one. *)
Definition scan_ld `{DataModel} (s : bytes) : option Z :=
  let '(_, r) := sign_of (skip_space s) in
  match digits r with [] => None | _ => Some (strtol s) end.

(** The bytes after the last slash. *)
Fixpoint basename_from (cur s : bytes) : bytes :=
  match s with
  | [] => cur
  | c :: s => if c =? 47 then basename_from s s else basename_from cur s
  end.

(** [content]: the file, if it opens; [alive]: [kill(pid, 0)] succeeds; [exe]: the
    target of [/proc/<pid>/exe], if it can be read. *)
Definition raopd_pid_is_ours `{DataModel} (content : option bytes) (alive : Z -> bool) (exe : Z -> option bytes)
    (exe_basename : bytes) : bool :=
  match content with
  | None => false
  | Some text =>
      match scan_ld text with
      | None => false
      | Some pid =>
          if pid <=? 0 then false
          else if negb (alive (s32 pid)) then false
          else
            match exe pid with
            | None => false
            | Some target =>
                let target := cstr (take 511 target) in
                bytes_eqb (basename_from target target) (cstr exe_basename)
            end
      end
  end.

(** ** The process and its socket *)

(** What a process of [daemonize] does: leaves, fails, or goes on as the daemon. *)
Inductive daemon_t := DExit | DFailed | DDaemon.

Definition daemonize (fork1 setsid fork2 : Z) : daemon_t :=
  if fork1 <? 0 then DFailed
  else if 0 <? fork1 then DExit
  else if setsid <? 0 then DFailed
  else if fork2 <? 0 then DFailed
  else if 0 <? fork2 then DExit
  else DDaemon.

(** [bound], [listening]: [bind] and [listen] succeed. *)
Definition rtsp_listen (a : Rtp.answers) (bound listening : bool) (k : kernel) : Z * kernel :=
  let '(fd, k) := sys_socket a k in
  if fd <? 0 then (-1, k)
  else if negb bound || negb listening then (-1, sys_close fd k)
  else (fd, k).

(** ** [main] *)

Inductive event :=
  | EvLock | EvPid | EvMdns (instance : bytes) | EvListen | EvDisplay (paint : bool) | EvControl | EvLoop
  | EvControlJoin | EvDisplayStop | EvTeardown | EvMdnsStop | EvListenClose | EvPidGone.

(** The answers of the system to [main]. *)
Record main_env := mk_menv {
  m_smoke : option Z;                         (* --smoke and its port *)
  m_foreground : bool;
  m_daemonize : Z;                            (* result of [daemonize] in the surviving process *)
  m_lock : Z;                                 (* result of [raopd_lock_acquire] *)
  m_stop : nat -> bool;                       (* a signal before try [i] *)
  m_iface : nat -> option (bytes * bytes);    (* [resolve_primary] at try [i] *)
  m_name : option bytes;                      (* AIRPLAY_NAME *)
  m_txt : bool;                               (* [raop_build_txt] > 0 *)
  m_mdns : Z;                                 (* result of [raop_mdns_start] *)
  m_listen : Z;                               (* result of [rtsp_listen] *)
  m_control : bool;                           (* [pthread_create] of the control thread *)
}.

Definition IFACE_WAIT_TRIES : nat := 30.

(** The bounded wait for an interface: [n] tries are left, [i] are done. *)
Fixpoint wait_iface (n i : nat) (e : main_env) : option (bytes * bytes) :=
  match n with
  | O => None
  | S n =>
      if m_stop e i then None
      else
        match m_iface e i with
        | Some r => Some r
        | None => wait_iface n (S i) e
        end
  end.

Definition hex_digit (n : Z) : Z := if n <? 10 then 48 + n else 55 + n.
Definition hex2 (b : Z) : bytes := [hex_digit (Z.shiftr (u8 b) 4); hex_digit (Z.land b 15)].

(** [snprintf(instance, 96, "%02X...@%s")]. *)
Definition instance_name (mac : bytes) (name : option bytes) : bytes :=
  take 95 (List.concat (map hex2 mac) ++ [64] ++ raop_name_sanitize name 51).

(** From the listening socket to the end of the process. *)
Definition serve (e : main_env) (smoke mdns_up : bool) : list event :=
  [EvDisplay (negb smoke)] ++
  (if negb smoke && m_control e then [EvControl] else []) ++ [EvLoop] ++
  (if negb smoke && m_control e then [EvControlJoin] else []) ++
  [EvDisplayStop; EvTeardown] ++ (if mdns_up then [EvMdnsStop] else []) ++ [EvListenClose] ++
  (if smoke then [] else [EvPidGone]).

Definition main (e : main_env) : Z * list event :=
  match m_smoke e with
  | Some port =>
      if port <=? 0 then (1, [])
      else if m_listen e <? 0 then (1, [])
      else (0, EvListen :: serve e true false)
  | None =>
      if negb (m_foreground e) && negb (m_daemonize e =? 0) then (1, [])
      else if m_lock e <? 0 then (1, [])
      else
        match wait_iface IFACE_WAIT_TRIES 0 e with
        | None => (1, [EvLock; EvPid; EvPidGone])
        | Some (ip, mac) =>
            let mdns_up := m_txt e && (m_mdns e =? 0) in
            let adv := if mdns_up then [EvMdns (instance_name mac (m_name e))] else [] in
            if m_listen e <? 0 then (1, [EvLock; EvPid] ++ adv ++ [EvPidGone])
            else (0, [EvLock; EvPid] ++ adv ++ [EvListen] ++ serve e false mdns_up)
        end
  end.

(** ** Lemmas *)

Definition address (p : ifent) : option bytes := match if_address p with IfInet a => Some a | _ => None end.

(** An IPv4 interface that is up and not the loopback. *)
Definition eligible (p : ifent) : bool :=
  (if address p is Some _ then true else false) && if_up p && negb (if_loopback p).

Definition pick (P : ifent -> bool) (l : list ifent) : option (bytes * bytes) :=
  match List.find (fun p => eligible p && P p) l with
  | Some p => a ← address p; Some (a, if_name p)
  | None => None
  end.

Lemma pick_cons P p l :
  pick P (p :: l) =
  if eligible p && P p then match address p with Some a => Some (a, if_name p) | None => None end else pick P l.
Proof. unfold pick. cbn [List.find]. by destruct (eligible p && P p). Qed.

Definition first_of (o o' : option (bytes * bytes)) := match o with Some x => Some x | None => o' end.

Lemma scan_ifs_spec want l c :
  scan_ifs want l c =
  match want with
  | Some w => mk_choice (first_of (pick (fun p => bytes_eqb (if_name p) w) l) (have_chosen c)) (have_fallback c)
  | None => mk_choice (first_of (have_chosen c) (pick (fun p => negb (is_usb (if_name p))) l))
              (first_of (have_fallback c) (pick (fun p => is_usb (if_name p)) l))
  end.
Proof.
  revert c. induction l as [|p l IH]; intros [x y].
  { destruct want; [done|]. by destruct x, y. }
  cbn [scan_ifs]. destruct want as [w|]; rewrite ?pick_cons; unfold eligible, address;
    destruct (if_address p); cbn [andb]; try apply IH; destruct (if_up p), (if_loopback p); cbn [andb orb negb]; try apply IH.
  - destruct (bytes_eqb (if_name p) w); [done|]. apply IH.
  - destruct (is_usb (if_name p)); cbn [negb have_chosen have_fallback]; rewrite IH; by destruct x, y.
Qed.

Lemma split_loop_piece left e s :
  Forall (fun c => c <> 10) e -> forall cur, split_loop (S left) cur (e ++ 10 :: s) = (cur ++ e) :: split_loop left [] s.
Proof.
  induction 1 as [|c e Hc He IH]; intros cur; cbn [app split_loop].
  - by rewrite app_nil_r.
  - rewrite (proj2 (Z.eqb_neq _ _)) by done. by rewrite IH, <- app_assoc.
Qed.

Lemma split_loop_last left e : Forall (fun c => c <> 10) e -> forall cur, split_loop left cur e = [cur ++ e].
Proof.
  induction 1 as [|c e Hc He IH]; intros cur; cbn [split_loop]; [by rewrite app_nil_r|].
  destruct left; [done|]. rewrite (proj2 (Z.eqb_neq _ _)) by done. by rewrite IH, <- app_assoc.
Qed.

Lemma split_loop_join left es : Forall entry_ok es -> es <> [] -> (length es <= S left)%nat ->
  split_loop left [] (join es) = es.
Proof.
  intros He. revert left. induction He as [|e es (_ & _ & Hc) He IH]; intros left Hne Hl; [done|].
  destruct es as [|e' es]; [by rewrite split_loop_last|]. cbn [length] in Hl.
  destruct left as [|left]; [lia|]. rewrite join_cons by done. rewrite split_loop_piece by done.
  cbn [app]. f_equal. apply IH; [done|cbn [length]; lia].
Qed.

(** A socket that listens, or nothing. *)
Lemma rtsp_listen_all_or_nothing a `{!KernelOk a} bound listening k :
  let '(fd, k') := rtsp_listen a bound listening k in
  k_stray k' = k_stray k /\
  ((0 <= fd /\ fd ∉ k_open k /\ k_open k' = {[fd]} ∪ k_open k) \/ (fd = -1 /\ k_open k' = k_open k)).
Proof.
  unfold rtsp_listen, sys_socket. destruct (socket_fresh k) as [Hs|[Hs Hn]].
  - rewrite Hs. split; [done|by right].
  - rewrite (proj2 (Z.ltb_ge _ _)) by done.
    destruct bound, listening; cbn [negb orb]; [split; [done|by left]|..].
    all: split; [by rewrite close_open by set_solver|right; split; [done|]]; cbn [sys_close k_open]; set_solver.
Qed.

(** ** What start-up must respect *)

(** What is held, and how far the shutdown has come. *)
Record held := mk_held {
  h_lock : bool; h_pid : bool; h_mdns : bool; h_listen : bool; h_display : bool; h_control : bool; h_served : bool;
}.

(** The rules: the pidfile only under the lock; the advertisement only after the
    pidfile; nothing is painted unless the daemon holds the lock and listens; the
    loop needs the socket and the display; after it, the control thread is joined
    and the display stopped before the client is torn down. *)
Definition permit (h : held) (e : event) : option held :=
  let '(mk_held lk pd md ls ds ct sv) := h in
  match e with
  | EvLock => if negb lk then Some (mk_held true pd md ls ds ct sv) else None
  | EvPid => if lk && negb pd then Some (mk_held lk true md ls ds ct sv) else None
  | EvMdns _ => if pd && negb md then Some (mk_held lk pd true ls ds ct sv) else None
  | EvListen => if negb ls then Some (mk_held lk pd md true ds ct sv) else None
  | EvDisplay paint => if ls && (negb paint || lk) && negb ds then Some (mk_held lk pd md ls true ct sv) else None
  | EvControl => if ls && pd && negb ct then Some (mk_held lk pd md ls ds true sv) else None
  | EvLoop => if ls && ds && negb sv then Some (mk_held lk pd md ls ds ct true) else None
  | EvControlJoin => if sv && ct then Some (mk_held lk pd md ls ds false sv) else None
  | EvDisplayStop => if sv && ds && negb ct then Some (mk_held lk pd md ls false ct sv) else None
  | EvTeardown => if sv && negb ds then Some h else None
  | EvMdnsStop => if md && sv then Some (mk_held lk pd false ls ds ct sv) else None
  | EvListenClose => if ls && sv && negb ds then Some (mk_held lk pd md false ds ct sv) else None
  | EvPidGone => if pd && negb ls then Some (mk_held lk false md ls ds ct sv) else None
  end.

Fixpoint permitted (h : held) (l : list event) : option held :=
  match l with
  | [] => Some h
  | e :: l => match permit h e with Some h => permitted h l | None => None end
  end.

Definition nothing : held := mk_held false false false false false false false.

(** The advertised instance is "<12 hex digits>@<name>". *)
Lemma instance_name_spec mac name :
  length mac = 6%nat -> (length (raop_name_sanitize name 51) <= 50)%nat ->
  instance_name mac name = List.concat (map hex2 mac) ++ 64 :: raop_name_sanitize name 51.
Proof.
  intros Hm Hn. unfold instance_name. rewrite take_ge; [done|].
  assert (length (List.concat (map hex2 mac)) = 12)%nat as Hc
    by (do 7 (destruct mac as [|? mac]; try done)).
  rewrite !length_app, Hc. cbn [length]. lia.
Qed.

(** ** Properties *)

(** The daemon announces itself on the interface a sender can reach.  When
    AIRPLAY_IFACE is set, the first eligible interface of exactly that name is
    chosen, or none; otherwise the first eligible one that is not the usb gadget,
    and a usb one only when there is no other.  The MAC is that interface's. *)
Theorem resolve_primary_prefers want l :
  resolve_primary want (Some l) =
  (fun c => (c.1, mac_of c.2 l)) <$>
    match want with
    | Some w => pick (fun p => bytes_eqb (if_name p) w) l
    | None => first_of (pick (fun p => negb (is_usb (if_name p))) l) (pick (fun p => is_usb (if_name p)) l)
    end.
Proof.
  unfold resolve_primary. rewrite scan_ifs_spec. destruct want as [w|]; cbn [have_chosen have_fallback first_of].
  - by destruct (pick _ l) as [[a n]|].
  - destruct (pick (fun p => negb _) l) as [[a n]|]; [done|]. by destruct (pick _ l) as [[a n]|].
Qed.

(** Start-up and shutdown keep their order on every path.  Whatever fails, no
    rule of [permit] is broken, and when the process ends the pidfile, the
    listening socket, the display and the control thread are given up; only a
    failed [listen] can leave the service advertised. *)
Theorem main_keeps_order e :
  exists h, permitted nothing (main e).2 = Some h /\
    h_pid h = false /\ h_listen h = false /\ h_display h = false /\ h_control h = false /\
    (h_mdns h = true -> (main e).1 = 1 /\ m_listen e < 0) /\
    (h_served h = true <-> (main e).1 = 0).
Proof.
  unfold main. destruct (m_smoke e) as [port|].
  - destruct (port <=? 0); [by eexists|]. destruct (m_listen e <? 0); [by eexists|].
    unfold serve. cbn [negb andb app]. by eexists.
  - destruct (_ && _); [by eexists|]. destruct (m_lock e <? 0); [by eexists|].
    destruct (wait_iface _ _ _) as [[ip mac]|]; [|by eexists].
    destruct (Z.ltb_spec (m_listen e) 0) as [Hl|Hl]; cbv zeta; destruct (m_txt e && (m_mdns e =? 0));
      unfold serve; cbn [negb andb]; destruct (m_control e); cbn [app fst snd]; eexists; by split_and!.
Qed.

(** C40: the service is registered with exactly the record's attributes.  When the
    built record fits its buffer and has at most 31 attributes, starting the
    responder registers those attributes, one string each and in order. *)
Theorem raop_mdns_registers cap extra name port :
  Forall entry_ok extra -> (length (join (txt_base ++ extra)) + 2 < cap)%nat ->
  (length (txt_base ++ extra) <= 31)%nat ->
  exists t, raop_build_txt cap extra = Ret (Some t) /\
    raop_mdns_start true true true name port t (mk_mdns false None) =
      (0, mk_mdns true (Some (mk_service name (str "_raop._tcp.local") (u16 port) (txt_base ++ extra)))).
Proof.
  intros Hx Hc Hl. exists (join (txt_base ++ extra)). split; [by apply build_txt_join|].
  unfold raop_mdns_start. cbn [g_svr negb]. do 4 f_equal. unfold split_txt.
  assert (Forall entry_ok (txt_base ++ extra)) as Hok by (apply Forall_app; by split; [apply txt_base_ok|]).
  pose proof (join_nonempty _ Hok ltac:(done)) as Hn.
  destruct (join (txt_base ++ extra)) eqn:E; [cbn in Hn; lia|]. rewrite <- E.
  apply split_loop_join; [done|done|]. change (S (MAX_TXT_ENTRIES - 2)) with 31%nat. exact Hl.
Qed.

Lemma raop_mdns_registers_witness :
  exists t, raop_build_txt 512 [str "pk=00ff"] = Ret (Some t) /\
    raop_mdns_start true true true (str "K3") 5000 t (mk_mdns false None) =
      (0, mk_mdns true (Some (mk_service (str "K3") (str "_raop._tcp.local") (u16 5000) (txt_base ++ [str "pk=00ff"])))).
Proof.
  apply (raop_mdns_registers 512 [str "pk=00ff"] (str "K3") 5000);
    [|apply Nat.ltb_lt; reflexivity|apply Nat.leb_le; reflexivity].
  apply List.Forall_cons; [|apply List.Forall_nil]. unfold entry_ok.
  split_and!; [done|apply Nat.leb_le; reflexivity|]. apply List.Forall_forall. cbn. intuition lia.
Defined.

(** The pidfile is published whole or not at all. *)
Lemma raopd_pid_publish_atomic d `{!DiskOk d} path pid self close_ok f :
  files f !! pub_tmp path self = None ->
  exists rc f', raopd_pid_publish d path pid self close_ok f = Ret (rc, f') /\ (rc = 0 \/ rc = -1) /\
    files f' = if rc =? 0 then <[path := print_d pid ++ [10]]> (files f) else files f.
Proof.
  intros Hnone. unfold raopd_pid_publish. set (tmp := pub_tmp path self) in *. set (text := print_d pid ++ [10]).
  assert (forall f', files f' = files f -> exists rc f'', Ret (A := Z * fs) (-1, f') = Ret (rc, f'') /\
    (rc = 0 \/ rc = -1) /\ files f'' = if rc =? 0 then <[path := text]> (files f) else files f) as Hfail
    by (intros f' H; exists (-1), f'; split_and!; auto).
  unfold sys_open. destruct (d_open d f tmp); cbn [negb]; [|by apply Hfail]. cbv zeta. fold text.
  destruct (write_loop_spec d (S (length text)) tmp text (mk_fs (<[tmp := []]> (files f)) (S (calls f))) [])
    as (bad & f1 & -> & Hd & _ & Hok); [lia|cbn; apply lookup_insert_eq|]. cbn [rbind fst snd].
  cbn [files] in Hd. rewrite delete_insert_eq, (delete_id (files f)) in Hd by done.
  destruct (bad || negb close_ok) eqn:E; [apply Hfail; cbn; done|].
  apply orb_false_iff in E as [-> _]. specialize (Hok eq_refl). cbn [app] in Hok.
  unfold sys_rename. destruct (d_rename d f1); [|apply Hfail; cbn; done]. rewrite Hok.
  exists 0, (mk_fs (<[path := text]> (delete tmp (files f1))) (S (calls f1))).
  split_and!; [done|auto|]. cbn [files]. by rewrite Hd.
Qed.

(** When the port is taken, the service stays advertised at the end of [main]. *)
Lemma main_leaves_advertised :
  let e := mk_menv None true 0 4 (fun _ => false) (fun _ => Some ([10; 0; 0; 2], [1; 2; 3; 4; 5; 6])) None true 0 (-1) true in
  h_mdns <$> permitted nothing (main e).2 = Some true.
Proof. by vm_compute. Qed.
